(** * Block-group accounting of fs/btrfs/block-group.c

    A shallow embedding of the block-group space manager: the per-group and
    per-class byte counters, the read-only and swap-extents counters, the
    profile reducer, the registry (an intrusive red-black tree keyed by the
    start offset), the extent-tree caching scan, the lists of groups to
    delete and to reclaim, the unused pass and the reclaim pass.

    Conventions.  A [u64] is a [Z] and every C operation on it is followed by
    its reduction modulo [2^64]; [unsigned int] likewise modulo [2^32].  A
    function of the C file that takes a [struct btrfs_block_group *cache] and
    works on [cache] and [cache->space_info] under their two spin locks is a
    function from the two records to the two records; the locks themselves
    are not modelled.  An [int] result that is [0] or a negated errno is a
    [retval]. *)

From Stdlib Require Import ZArith List Lia Bool Permutation Sorted.
Import ListNotations.
Local Open Scope Z_scope.

#[local] Set Default Proof Using "Type".
#[local] Set Proof Using Clear Unused.

(** ** Machine integers *)

Definition U64_MAX : Z := 2 ^ 64 - 1.

Definition u64 (x : Z) : Z := x mod 2 ^ 64.
Definition u32 (x : Z) : Z := x mod 2 ^ 32.

Definition add64 (a b : Z) : Z := u64 (a + b).
Definition sub64 (a b : Z) : Z := u64 (a - b).
Definition mul64 (a b : Z) : Z := u64 (a * b).

Definition is_u64 (x : Z) : Prop := 0 <= x < 2 ^ 64.

Declare Scope u64_scope.
Delimit Scope u64_scope with u64.
Arguments add64 (a b)%_u64.
Arguments sub64 (a b)%_u64.
Arguments mul64 (a b)%_u64.
Infix "+" := add64 : u64_scope.
Infix "-" := sub64 : u64_scope.
Infix "*" := mul64 : u64_scope.

(** [<linux/sizes.h>]: the names spell the values. *)
Definition SZ_128K : Z := 128 * 1024.
Definition SZ_8M : Z := 8 * 1024 * 1024.

(** ** Results *)

Inductive errno : Type := EAGAIN | ENOSPC | ETXTBSY | EEXIST | ENOENT.

Inductive retval : Type :=
| OK
| ERR (e : errno).

Definition errno_eq_dec (a b : errno) : {a = b} + {a <> b}.
Proof. decide equality. Defined.

Definition retval_eq_dec (a b : retval) : {a = b} + {a <> b}.
Proof. decide equality. apply errno_eq_dec. Defined.

Definition is_ok (r : retval) : bool :=
  match r with OK => true | ERR _ => false end.

(** ** Data model *)

Inductive btrfs_block_group_size_class : Type :=
| BTRFS_BG_SZ_NONE
| BTRFS_BG_SZ_SMALL
| BTRFS_BG_SZ_MEDIUM
| BTRFS_BG_SZ_LARGE.

Definition size_class_eqb (a b : btrfs_block_group_size_class) : bool :=
  match a, b with
  | BTRFS_BG_SZ_NONE, BTRFS_BG_SZ_NONE
  | BTRFS_BG_SZ_SMALL, BTRFS_BG_SZ_SMALL
  | BTRFS_BG_SZ_MEDIUM, BTRFS_BG_SZ_MEDIUM
  | BTRFS_BG_SZ_LARGE, BTRFS_BG_SZ_LARGE => true
  | _, _ => false
  end.

(** [struct btrfs_space_info]: the counters of one content class. *)
Record btrfs_space_info : Type := mk_space_info {
  si_flags : Z;
  si_total_bytes : Z;
  si_bytes_used : Z;
  si_bytes_reserved : Z;
  si_bytes_pinned : Z;
  si_bytes_readonly : Z;
  si_bytes_zone_unusable : Z;
  si_bytes_may_use : Z;
  si_disk_used : Z;
  si_max_extent_size : Z;
  si_bg_reclaim_threshold : Z
}.

(** [struct btrfs_block_group]: the fields this file reads or writes in the
    functions below.  [bg_ro] is the [unsigned int ro] counter,
    [bg_swap_extents] the [int swap_extents] counter, [bg_refs] the
    reference count and [bg_space_info] the pointer [cache->space_info], an
    address in the store of classes.  [bg_bg_list] and [bg_dirty_list] are
    the list nodes [bg_list] and [dirty_list]: such a node is linked on one
    list or on none ([list_empty(&cache->bg_list)], which [list_del_init]
    brings back), and the field tells whether it is linked; the lists
    themselves are kept with the filesystem.  [bg_runtime_flags] is the bit
    set [runtime_flags] and [bg_frozen] the counter [frozen]. *)
Record btrfs_block_group : Type := mk_block_group {
  bg_start : Z;
  bg_length : Z;
  bg_flags : Z;
  bg_used : Z;
  bg_reserved : Z;
  bg_pinned : Z;
  bg_bytes_super : Z;
  bg_zone_unusable : Z;
  bg_delalloc_bytes : Z;
  bg_ro : Z;
  bg_swap_extents : Z;
  bg_size_class : btrfs_block_group_size_class;
  bg_alloc_offset : Z;
  bg_zone_capacity : Z;
  bg_refs : Z;
  bg_space_info : nat;
  bg_bg_list : bool;
  bg_dirty_list : bool;
  bg_runtime_flags : Z;
  bg_frozen : Z
}.

(** Field assignments, [cache->f = v]. *)

Definition set_bg_used (v : Z) (g : btrfs_block_group) : btrfs_block_group :=
  mk_block_group (bg_start g) (bg_length g) (bg_flags g) v (bg_reserved g)
    (bg_pinned g) (bg_bytes_super g) (bg_zone_unusable g)
    (bg_delalloc_bytes g) (bg_ro g) (bg_swap_extents g) (bg_size_class g)
    (bg_alloc_offset g) (bg_zone_capacity g) (bg_refs g) (bg_space_info g)
    (bg_bg_list g) (bg_dirty_list g) (bg_runtime_flags g) (bg_frozen g).

Definition set_bg_reserved (v : Z) (g : btrfs_block_group) : btrfs_block_group :=
  mk_block_group (bg_start g) (bg_length g) (bg_flags g) (bg_used g) v
    (bg_pinned g) (bg_bytes_super g) (bg_zone_unusable g)
    (bg_delalloc_bytes g) (bg_ro g) (bg_swap_extents g) (bg_size_class g)
    (bg_alloc_offset g) (bg_zone_capacity g) (bg_refs g) (bg_space_info g)
    (bg_bg_list g) (bg_dirty_list g) (bg_runtime_flags g) (bg_frozen g).

Definition set_bg_pinned (v : Z) (g : btrfs_block_group) : btrfs_block_group :=
  mk_block_group (bg_start g) (bg_length g) (bg_flags g) (bg_used g)
    (bg_reserved g) v (bg_bytes_super g) (bg_zone_unusable g)
    (bg_delalloc_bytes g) (bg_ro g) (bg_swap_extents g) (bg_size_class g)
    (bg_alloc_offset g) (bg_zone_capacity g) (bg_refs g) (bg_space_info g)
    (bg_bg_list g) (bg_dirty_list g) (bg_runtime_flags g) (bg_frozen g).

Definition set_bg_zone_unusable (v : Z) (g : btrfs_block_group) : btrfs_block_group :=
  mk_block_group (bg_start g) (bg_length g) (bg_flags g) (bg_used g)
    (bg_reserved g) (bg_pinned g) (bg_bytes_super g) v
    (bg_delalloc_bytes g) (bg_ro g) (bg_swap_extents g) (bg_size_class g)
    (bg_alloc_offset g) (bg_zone_capacity g) (bg_refs g) (bg_space_info g)
    (bg_bg_list g) (bg_dirty_list g) (bg_runtime_flags g) (bg_frozen g).

Definition set_bg_delalloc_bytes (v : Z) (g : btrfs_block_group) : btrfs_block_group :=
  mk_block_group (bg_start g) (bg_length g) (bg_flags g) (bg_used g)
    (bg_reserved g) (bg_pinned g) (bg_bytes_super g) (bg_zone_unusable g)
    v (bg_ro g) (bg_swap_extents g) (bg_size_class g)
    (bg_alloc_offset g) (bg_zone_capacity g) (bg_refs g) (bg_space_info g)
    (bg_bg_list g) (bg_dirty_list g) (bg_runtime_flags g) (bg_frozen g).

Definition set_bg_ro (v : Z) (g : btrfs_block_group) : btrfs_block_group :=
  mk_block_group (bg_start g) (bg_length g) (bg_flags g) (bg_used g)
    (bg_reserved g) (bg_pinned g) (bg_bytes_super g) (bg_zone_unusable g)
    (bg_delalloc_bytes g) v (bg_swap_extents g) (bg_size_class g)
    (bg_alloc_offset g) (bg_zone_capacity g) (bg_refs g) (bg_space_info g)
    (bg_bg_list g) (bg_dirty_list g) (bg_runtime_flags g) (bg_frozen g).

Definition set_bg_swap_extents (v : Z) (g : btrfs_block_group) : btrfs_block_group :=
  mk_block_group (bg_start g) (bg_length g) (bg_flags g) (bg_used g)
    (bg_reserved g) (bg_pinned g) (bg_bytes_super g) (bg_zone_unusable g)
    (bg_delalloc_bytes g) (bg_ro g) v (bg_size_class g)
    (bg_alloc_offset g) (bg_zone_capacity g) (bg_refs g) (bg_space_info g)
    (bg_bg_list g) (bg_dirty_list g) (bg_runtime_flags g) (bg_frozen g).

Definition set_bg_size_class (v : btrfs_block_group_size_class)
  (g : btrfs_block_group) : btrfs_block_group :=
  mk_block_group (bg_start g) (bg_length g) (bg_flags g) (bg_used g)
    (bg_reserved g) (bg_pinned g) (bg_bytes_super g) (bg_zone_unusable g)
    (bg_delalloc_bytes g) (bg_ro g) (bg_swap_extents g) v
    (bg_alloc_offset g) (bg_zone_capacity g) (bg_refs g) (bg_space_info g)
    (bg_bg_list g) (bg_dirty_list g) (bg_runtime_flags g) (bg_frozen g).

Definition set_bg_refs (v : Z) (g : btrfs_block_group) : btrfs_block_group :=
  mk_block_group (bg_start g) (bg_length g) (bg_flags g) (bg_used g)
    (bg_reserved g) (bg_pinned g) (bg_bytes_super g) (bg_zone_unusable g)
    (bg_delalloc_bytes g) (bg_ro g) (bg_swap_extents g) (bg_size_class g)
    (bg_alloc_offset g) (bg_zone_capacity g) v (bg_space_info g)
    (bg_bg_list g) (bg_dirty_list g) (bg_runtime_flags g) (bg_frozen g).

Definition set_bg_bg_list (v : bool) (g : btrfs_block_group)
  : btrfs_block_group :=
  mk_block_group (bg_start g) (bg_length g) (bg_flags g) (bg_used g)
    (bg_reserved g) (bg_pinned g) (bg_bytes_super g) (bg_zone_unusable g)
    (bg_delalloc_bytes g) (bg_ro g) (bg_swap_extents g) (bg_size_class g)
    (bg_alloc_offset g) (bg_zone_capacity g) (bg_refs g) (bg_space_info g)
    v (bg_dirty_list g) (bg_runtime_flags g) (bg_frozen g).

Definition set_bg_dirty_list (v : bool) (g : btrfs_block_group)
  : btrfs_block_group :=
  mk_block_group (bg_start g) (bg_length g) (bg_flags g) (bg_used g)
    (bg_reserved g) (bg_pinned g) (bg_bytes_super g) (bg_zone_unusable g)
    (bg_delalloc_bytes g) (bg_ro g) (bg_swap_extents g) (bg_size_class g)
    (bg_alloc_offset g) (bg_zone_capacity g) (bg_refs g) (bg_space_info g)
    (bg_bg_list g) v (bg_runtime_flags g) (bg_frozen g).

Definition set_bg_frozen (v : Z) (g : btrfs_block_group) : btrfs_block_group :=
  mk_block_group (bg_start g) (bg_length g) (bg_flags g) (bg_used g)
    (bg_reserved g) (bg_pinned g) (bg_bytes_super g) (bg_zone_unusable g)
    (bg_delalloc_bytes g) (bg_ro g) (bg_swap_extents g) (bg_size_class g)
    (bg_alloc_offset g) (bg_zone_capacity g) (bg_refs g) (bg_space_info g)
    (bg_bg_list g) (bg_dirty_list g) (bg_runtime_flags g) v.

Definition set_si_bytes_used (v : Z) (s : btrfs_space_info) : btrfs_space_info :=
  mk_space_info (si_flags s) (si_total_bytes s) v (si_bytes_reserved s)
    (si_bytes_pinned s) (si_bytes_readonly s) (si_bytes_zone_unusable s)
    (si_bytes_may_use s) (si_disk_used s) (si_max_extent_size s)
    (si_bg_reclaim_threshold s).

Definition set_si_bytes_reserved (v : Z) (s : btrfs_space_info) : btrfs_space_info :=
  mk_space_info (si_flags s) (si_total_bytes s) (si_bytes_used s) v
    (si_bytes_pinned s) (si_bytes_readonly s) (si_bytes_zone_unusable s)
    (si_bytes_may_use s) (si_disk_used s) (si_max_extent_size s)
    (si_bg_reclaim_threshold s).

Definition set_si_bytes_pinned (v : Z) (s : btrfs_space_info) : btrfs_space_info :=
  mk_space_info (si_flags s) (si_total_bytes s) (si_bytes_used s)
    (si_bytes_reserved s) v (si_bytes_readonly s) (si_bytes_zone_unusable s)
    (si_bytes_may_use s) (si_disk_used s) (si_max_extent_size s)
    (si_bg_reclaim_threshold s).

Definition set_si_bytes_readonly (v : Z) (s : btrfs_space_info) : btrfs_space_info :=
  mk_space_info (si_flags s) (si_total_bytes s) (si_bytes_used s)
    (si_bytes_reserved s) (si_bytes_pinned s) v (si_bytes_zone_unusable s)
    (si_bytes_may_use s) (si_disk_used s) (si_max_extent_size s)
    (si_bg_reclaim_threshold s).

Definition set_si_bytes_zone_unusable (v : Z) (s : btrfs_space_info) : btrfs_space_info :=
  mk_space_info (si_flags s) (si_total_bytes s) (si_bytes_used s)
    (si_bytes_reserved s) (si_bytes_pinned s) (si_bytes_readonly s) v
    (si_bytes_may_use s) (si_disk_used s) (si_max_extent_size s)
    (si_bg_reclaim_threshold s).

Definition set_si_bytes_may_use (v : Z) (s : btrfs_space_info) : btrfs_space_info :=
  mk_space_info (si_flags s) (si_total_bytes s) (si_bytes_used s)
    (si_bytes_reserved s) (si_bytes_pinned s) (si_bytes_readonly s)
    (si_bytes_zone_unusable s) v (si_disk_used s) (si_max_extent_size s)
    (si_bg_reclaim_threshold s).

Definition set_si_disk_used (v : Z) (s : btrfs_space_info) : btrfs_space_info :=
  mk_space_info (si_flags s) (si_total_bytes s) (si_bytes_used s)
    (si_bytes_reserved s) (si_bytes_pinned s) (si_bytes_readonly s)
    (si_bytes_zone_unusable s) (si_bytes_may_use s) v (si_max_extent_size s)
    (si_bg_reclaim_threshold s).

Definition set_si_max_extent_size (v : Z) (s : btrfs_space_info) : btrfs_space_info :=
  mk_space_info (si_flags s) (si_total_bytes s) (si_bytes_used s)
    (si_bytes_reserved s) (si_bytes_pinned s) (si_bytes_readonly s)
    (si_bytes_zone_unusable s) (si_bytes_may_use s) (si_disk_used s) v
    (si_bg_reclaim_threshold s).

(** The bytes of a group that no counter claims:
    [length - reserved - pinned - bytes_super - zone_unusable - used],
    computed in [u64] as [inc_block_group_ro] and [btrfs_dec_block_group_ro]
    write it. *)
Definition bg_free_bytes (cache : btrfs_block_group) : Z :=
  (bg_length cache - bg_reserved cache - bg_pinned cache
   - bg_bytes_super cache - bg_zone_unusable cache - bg_used cache)%u64.

(** The sum the accounting invariant bounds by the length. *)
Definition bg_accounted (cache : btrfs_block_group) : Z :=
  bg_used cache + bg_reserved cache + bg_pinned cache
  + bg_bytes_super cache + bg_zone_unusable cache.

(** The counters hold values of their C types: the byte counters are
    [u64], the read-only counter is an [unsigned int]. *)
Definition bg_well_typed (cache : btrfs_block_group) : Prop :=
  is_u64 (bg_length cache) /\ is_u64 (bg_used cache) /\
  is_u64 (bg_reserved cache) /\ is_u64 (bg_pinned cache) /\
  is_u64 (bg_bytes_super cache) /\ is_u64 (bg_zone_unusable cache) /\
  0 <= bg_ro cache < 2 ^ 32.

(** The invariant of the data model:
    [used + reserved + pinned + bytes_super + zone_unusable <= length]. *)
Definition bg_invariant (cache : btrfs_block_group) : Prop :=
  bg_accounted cache <= bg_length cache.

(** ** Size classes *)

Definition btrfs_calc_block_group_size_class (size : Z)
  : btrfs_block_group_size_class :=
  if size <=? SZ_128K then BTRFS_BG_SZ_SMALL
  else if size <=? SZ_8M then BTRFS_BG_SZ_MEDIUM
  else BTRFS_BG_SZ_LARGE.

(** [btrfs_use_block_group_size_class]: the class of the first allocation
    is recorded; a later mismatch is refused unless forced. *)
Definition btrfs_use_block_group_size_class (bg : btrfs_block_group)
  (size_class : btrfs_block_group_size_class) (force_wrong_size_class : bool)
  : retval * btrfs_block_group :=
  if size_class_eqb (bg_size_class bg) size_class then (OK, bg)
  else if negb (size_class_eqb (bg_size_class bg) BTRFS_BG_SZ_NONE) then
    if force_wrong_size_class then (OK, bg) else (ERR EAGAIN, bg)
  else (OK, set_bg_size_class size_class bg).

(** Modelled from the spec: the per-class counter helper
    [btrfs_space_info_update_bytes_may_use] is declared in space-info.h,
    which is not among the sources.  The spec has the attach step
    decrement [bytes_may_use] by the attached amount; the helper takes a
    signed byte count and adds it to the [u64] counter. *)
Definition btrfs_space_info_update_bytes_may_use (sinfo : btrfs_space_info)
  (bytes : Z) : btrfs_space_info :=
  set_si_bytes_may_use (u64 (si_bytes_may_use sinfo + bytes)) sinfo.

(** Modelled from the spec: [btrfs_space_info_update_bytes_pinned], the
    sibling helper of space-info.h for [bytes_pinned] (freed bytes move to
    pinned, per group and per class). *)
Definition btrfs_space_info_update_bytes_pinned (sinfo : btrfs_space_info)
  (bytes : Z) : btrfs_space_info :=
  set_si_bytes_pinned (u64 (si_bytes_pinned sinfo + bytes)) sinfo.

Section Accounting.

(** What the functions below take from outside the file: whether the
    filesystem is zoned ([btrfs_is_zoned(fs_info)]), the data-only test of
    block-group.h, the ticket wake-up, the class-wide usage and the
    overcommit policy of space-info.c, the data bit of the class flags, the
    replication factor of a profile and misc.h's percentage. *)
Variable btrfs_is_zoned : bool.
Variable btrfs_is_block_group_data_only : btrfs_block_group -> bool.
Variable btrfs_try_granting_tickets : btrfs_space_info -> btrfs_space_info.
Variable btrfs_space_info_used : btrfs_space_info -> bool -> Z.
Variable btrfs_can_overcommit : btrfs_space_info -> Z -> bool.
Variable BTRFS_BLOCK_GROUP_DATA : Z.
Variable btrfs_bg_type_to_factor : Z -> Z.
Variable mult_perc : Z -> Z -> Z.

Definition btrfs_block_group_should_use_size_class (bg : btrfs_block_group)
  : bool :=
  if btrfs_is_zoned then false
  else if negb (btrfs_is_block_group_data_only bg) then false
  else true.

(** [btrfs_add_reserved_bytes]: attach a reservation of [num_bytes] to
    [cache], of which [ram_bytes] had been soft-reserved. *)
Definition btrfs_add_reserved_bytes (cache : btrfs_block_group)
  (space_info : btrfs_space_info) (ram_bytes num_bytes : Z) (delalloc : bool)
  (force_wrong_size_class : bool)
  : retval * btrfs_block_group * btrfs_space_info :=
  if negb (bg_ro cache =? 0) then (ERR EAGAIN, cache, space_info)
  else
    let '(ret, cache) :=
      if btrfs_block_group_should_use_size_class cache then
        btrfs_use_block_group_size_class cache
          (btrfs_calc_block_group_size_class num_bytes) force_wrong_size_class
      else (OK, cache) in
    match ret with
    | ERR e => (ERR e, cache, space_info)
    | OK =>
      let cache := set_bg_reserved (bg_reserved cache + num_bytes)%u64 cache in
      let space_info :=
        set_si_bytes_reserved (si_bytes_reserved space_info + num_bytes)%u64
          space_info in
      let space_info :=
        btrfs_space_info_update_bytes_may_use space_info (- ram_bytes) in
      let cache :=
        if delalloc then
          set_bg_delalloc_bytes (bg_delalloc_bytes cache + num_bytes)%u64 cache
        else cache in
      let space_info :=
        if num_bytes <? ram_bytes then btrfs_try_granting_tickets space_info
        else space_info in
      (OK, cache, space_info)
    end.

(** [btrfs_free_reserved_bytes]: drop a reservation that was never used on
    disk. *)
Definition btrfs_free_reserved_bytes (cache : btrfs_block_group)
  (space_info : btrfs_space_info) (num_bytes : Z) (delalloc : bool)
  : btrfs_block_group * btrfs_space_info :=
  let space_info :=
    if negb (bg_ro cache =? 0) then
      set_si_bytes_readonly (si_bytes_readonly space_info + num_bytes)%u64
        space_info
    else space_info in
  let cache := set_bg_reserved (bg_reserved cache - num_bytes)%u64 cache in
  let space_info :=
    set_si_bytes_reserved (si_bytes_reserved space_info - num_bytes)%u64
      space_info in
  let space_info := set_si_max_extent_size 0 space_info in
  let cache :=
    if delalloc then
      set_bg_delalloc_bytes (bg_delalloc_bytes cache - num_bytes)%u64 cache
    else cache in
  (cache, btrfs_try_granting_tickets space_info).

(** [should_reclaim_block_group]: the group went from at or above the
    threshold (before [bytes_freed] were freed) to below it. *)
Definition should_reclaim_block_group (bg : btrfs_block_group)
  (space_info : btrfs_space_info) (bytes_freed : Z) : bool :=
  let reclaim_thresh := si_bg_reclaim_threshold space_info in
  let new_val := bg_used bg in
  let old_val := (new_val + bytes_freed)%u64 in
  if reclaim_thresh =? 0 then false
  else
    let thresh := mult_perc (bg_length bg) reclaim_thresh in
    if old_val <? thresh then false
    else if thresh <=? new_val then false
    else true.

(** The section of [btrfs_update_block_group] that runs under the class
    lock and the group lock: [alloc] turns reserved bytes into used ones,
    [!alloc] turns used bytes into pinned ones.  The third component is the
    function's [reclaim] flag. *)
Definition update_block_group_counters (cache : btrfs_block_group)
  (space_info : btrfs_space_info) (num_bytes : Z) (alloc : bool)
  : btrfs_block_group * btrfs_space_info * bool :=
  let factor := btrfs_bg_type_to_factor (bg_flags cache) in
  let old_val := bg_used cache in
  if alloc then
    let old_val := (old_val + num_bytes)%u64 in
    let cache := set_bg_used old_val cache in
    let cache := set_bg_reserved (bg_reserved cache - num_bytes)%u64 cache in
    let space_info :=
      set_si_bytes_reserved (si_bytes_reserved space_info - num_bytes)%u64
        space_info in
    let space_info :=
      set_si_bytes_used (si_bytes_used space_info + num_bytes)%u64 space_info in
    let space_info :=
      set_si_disk_used (si_disk_used space_info + num_bytes * factor)%u64
        space_info in
    (cache, space_info, false)
  else
    let old_val := (old_val - num_bytes)%u64 in
    let cache := set_bg_used old_val cache in
    let cache := set_bg_pinned (bg_pinned cache + num_bytes)%u64 cache in
    let space_info := btrfs_space_info_update_bytes_pinned space_info num_bytes in
    let space_info :=
      set_si_bytes_used (si_bytes_used space_info - num_bytes)%u64 space_info in
    let space_info :=
      set_si_disk_used (si_disk_used space_info - num_bytes * factor)%u64
        space_info in
    let reclaim := should_reclaim_block_group cache space_info num_bytes in
    (cache, space_info, reclaim).

(** [inc_block_group_ro]: mark the group read-only.  The first successful
    call moves the group's free bytes to the class's [bytes_readonly]; a
    call on a group that is read-only already only counts. *)
Definition inc_block_group_ro (cache : btrfs_block_group)
  (sinfo : btrfs_space_info) (force : bool)
  : retval * btrfs_block_group * btrfs_space_info :=
  if negb (bg_swap_extents cache =? 0) then (ERR ETXTBSY, cache, sinfo)
  else if negb (bg_ro cache =? 0) then
    (OK, set_bg_ro (u32 (bg_ro cache + 1)) cache, sinfo)
  else
    let num_bytes := bg_free_bytes cache in
    let ret :=
      if force then OK
      else if negb (Z.land (si_flags sinfo) BTRFS_BLOCK_GROUP_DATA =? 0) then
        let sinfo_used := btrfs_space_info_used sinfo true in
        if (sinfo_used + num_bytes)%u64 <=? si_total_bytes sinfo then OK
        else ERR ENOSPC
      else
        if btrfs_can_overcommit sinfo num_bytes then OK else ERR ENOSPC in
    match ret with
    | OK =>
      let sinfo :=
        set_si_bytes_readonly (si_bytes_readonly sinfo + num_bytes)%u64 sinfo in
      let '(cache, sinfo) :=
        if btrfs_is_zoned then
          let sinfo :=
            set_si_bytes_readonly
              (si_bytes_readonly sinfo + bg_zone_unusable cache)%u64 sinfo in
          let sinfo :=
            set_si_bytes_zone_unusable
              (si_bytes_zone_unusable sinfo - bg_zone_unusable cache)%u64 sinfo in
          (set_bg_zone_unusable 0 cache, sinfo)
        else (cache, sinfo) in
      (OK, set_bg_ro (u32 (bg_ro cache + 1)) cache, sinfo)
    | ERR e => (ERR e, cache, sinfo)
    end.

(** [btrfs_dec_block_group_ro]: [None] is the [BUG_ON(!cache->ro)].  The
    accounting is reversed only when the counter returns to zero. *)
Definition btrfs_dec_block_group_ro (cache : btrfs_block_group)
  (sinfo : btrfs_space_info) : option (btrfs_block_group * btrfs_space_info) :=
  if bg_ro cache =? 0 then None
  else
    let cache := set_bg_ro (u32 (bg_ro cache - 1)) cache in
    if bg_ro cache =? 0 then
      let '(cache, sinfo) :=
        if btrfs_is_zoned then
          let cache :=
            set_bg_zone_unusable
              ((bg_alloc_offset cache - bg_used cache)
               + (bg_length cache - bg_zone_capacity cache))%u64 cache in
          let sinfo :=
            set_si_bytes_zone_unusable
              (si_bytes_zone_unusable sinfo + bg_zone_unusable cache)%u64 sinfo in
          let sinfo :=
            set_si_bytes_readonly
              (si_bytes_readonly sinfo - bg_zone_unusable cache)%u64 sinfo in
          (cache, sinfo)
        else (cache, sinfo) in
      let num_bytes := bg_free_bytes cache in
      Some (cache,
            set_si_bytes_readonly (si_bytes_readonly sinfo - num_bytes)%u64 sinfo)
    else Some (cache, sinfo).

(** [btrfs_inc_block_group_swap_extents]: refused on a read-only group. *)
Definition btrfs_inc_block_group_swap_extents (bg : btrfs_block_group)
  : bool * btrfs_block_group :=
  if negb (bg_ro bg =? 0) then (false, bg)
  else (true, set_bg_swap_extents (bg_swap_extents bg + 1) bg).

(** [btrfs_dec_block_group_swap_extents]: [None] is a failed [ASSERT]
    ([!bg->ro], then [bg->swap_extents >= amount]). *)
Definition btrfs_dec_block_group_swap_extents (bg : btrfs_block_group)
  (amount : Z) : option btrfs_block_group :=
  if negb (bg_ro bg =? 0) then None
  else if bg_swap_extents bg <? amount then None
  else Some (set_bg_swap_extents (bg_swap_extents bg - amount) bg).

End Accounting.

(** ** The filesystem: stores of objects and the registry

    Block groups and classes are heap objects reached through pointers; a
    pointer is an address in a store.  The registry
    [fs_info->block_group_cache_tree] is a red-black tree whose nodes are
    embedded in the groups, so a node carries the address of its group and
    the keys are read through the store. *)

Definition bg_ptr : Type := nat.

Definition store_set {A : Type} (h : nat -> A) (p : nat) (v : A) : nat -> A :=
  fun q => if Nat.eqb q p then v else h q.

Inductive rb_tree : Type :=
| rb_nil
| rb_node (rb_left : rb_tree) (cache : bg_ptr) (rb_right : rb_tree).

(** [struct btrfs_transaction], the two lists of block groups that the
    functions below write: the groups changed in the transaction
    ([dirty_bgs], through the nodes [dirty_list]) and the groups deleted in
    it whose trimming is to come ([deleted_bgs], through the nodes
    [bg_list]). *)
Record btrfs_transaction : Type := mk_transaction {
  dirty_bgs : list bg_ptr;
  deleted_bgs : list bg_ptr
}.

Definition set_dirty_bgs (v : list bg_ptr) (t : btrfs_transaction)
  : btrfs_transaction :=
  mk_transaction v (deleted_bgs t).

Definition set_deleted_bgs (v : list bg_ptr) (t : btrfs_transaction)
  : btrfs_transaction :=
  mk_transaction (dirty_bgs t) v.

(** [struct btrfs_fs_info].  [fs_running_transaction] is the running
    transaction, which a transaction handle [trans] of the functions below
    has joined: [trans->transaction]. *)
Record btrfs_fs_info : Type := mk_fs_info {
  fs_block_groups : bg_ptr -> btrfs_block_group;
  fs_space_infos : nat -> btrfs_space_info;
  fs_block_group_cache_tree : rb_tree;
  fs_super_bytes_used : Z;
  fs_reclaim_bgs : list bg_ptr;
  fs_unused_bgs : list bg_ptr;
  fs_running_transaction : btrfs_transaction
}.

Definition set_fs_block_groups (v : bg_ptr -> btrfs_block_group)
  (i : btrfs_fs_info) : btrfs_fs_info :=
  mk_fs_info v (fs_space_infos i) (fs_block_group_cache_tree i)
    (fs_super_bytes_used i) (fs_reclaim_bgs i) (fs_unused_bgs i)
    (fs_running_transaction i).

Definition set_fs_space_infos (v : nat -> btrfs_space_info)
  (i : btrfs_fs_info) : btrfs_fs_info :=
  mk_fs_info (fs_block_groups i) v (fs_block_group_cache_tree i)
    (fs_super_bytes_used i) (fs_reclaim_bgs i) (fs_unused_bgs i)
    (fs_running_transaction i).

Definition set_fs_block_group_cache_tree (v : rb_tree)
  (i : btrfs_fs_info) : btrfs_fs_info :=
  mk_fs_info (fs_block_groups i) (fs_space_infos i) v
    (fs_super_bytes_used i) (fs_reclaim_bgs i) (fs_unused_bgs i)
    (fs_running_transaction i).

Definition set_fs_super_bytes_used (v : Z) (i : btrfs_fs_info) : btrfs_fs_info :=
  mk_fs_info (fs_block_groups i) (fs_space_infos i)
    (fs_block_group_cache_tree i) v (fs_reclaim_bgs i) (fs_unused_bgs i)
    (fs_running_transaction i).

Definition set_fs_reclaim_bgs (v : list bg_ptr) (i : btrfs_fs_info)
  : btrfs_fs_info :=
  mk_fs_info (fs_block_groups i) (fs_space_infos i)
    (fs_block_group_cache_tree i) (fs_super_bytes_used i) v (fs_unused_bgs i)
    (fs_running_transaction i).

Definition set_fs_unused_bgs (v : list bg_ptr) (i : btrfs_fs_info)
  : btrfs_fs_info :=
  mk_fs_info (fs_block_groups i) (fs_space_infos i)
    (fs_block_group_cache_tree i) (fs_super_bytes_used i) (fs_reclaim_bgs i) v
    (fs_running_transaction i).

Definition set_fs_running_transaction (v : btrfs_transaction)
  (i : btrfs_fs_info) : btrfs_fs_info :=
  mk_fs_info (fs_block_groups i) (fs_space_infos i)
    (fs_block_group_cache_tree i) (fs_super_bytes_used i) (fs_reclaim_bgs i)
    (fs_unused_bgs i) v.

(** [*cache], and [*cache->space_info]. *)
Definition fs_bg (info : btrfs_fs_info) (cache : bg_ptr) : btrfs_block_group :=
  fs_block_groups info cache.

Definition fs_si (info : btrfs_fs_info) (cache : bg_ptr) : btrfs_space_info :=
  fs_space_infos info (bg_space_info (fs_bg info cache)).

(** Write a group and its class back after a locked section. *)
Definition fs_store (info : btrfs_fs_info) (cache : bg_ptr)
  (g : btrfs_block_group) (s : btrfs_space_info) : btrfs_fs_info :=
  let si := bg_space_info (fs_bg info cache) in
  set_fs_space_infos (store_set (fs_space_infos info) si s)
    (set_fs_block_groups (store_set (fs_block_groups info) cache g) info).

Definition fs_store_bg (info : btrfs_fs_info) (cache : bg_ptr)
  (g : btrfs_block_group) : btrfs_fs_info :=
  set_fs_block_groups (store_set (fs_block_groups info) cache g) info.

(** [btrfs_get_block_group] and [btrfs_put_block_group] on the object.  The
    release of the object when the count reaches zero is not modelled. *)
Definition btrfs_get_block_group (cache : btrfs_block_group)
  : btrfs_block_group :=
  set_bg_refs (bg_refs cache + 1) cache.

Definition btrfs_put_block_group (cache : btrfs_block_group)
  : btrfs_block_group :=
  set_bg_refs (bg_refs cache - 1) cache.

(** The addresses of a tree, left to right. *)
Fixpoint rb_elements (t : rb_tree) : list bg_ptr :=
  match t with
  | rb_nil => []
  | rb_node l cache r => rb_elements l ++ cache :: rb_elements r
  end.

Section Registry.

(** [rb_insert_color_cached] of lib/rbtree.c recolours and rotates the tree
    after a node was linked. *)
Variable rb_insert_color : rb_tree -> rb_tree.

(** The descent of [btrfs_add_block_group_cache]: follow [rb_left] or
    [rb_right] by the start offset down to an empty link and put the new
    node there ([rb_link_node]); an equal start is [-EEXIST]. *)
Fixpoint rb_link_walk (bgs : bg_ptr -> btrfs_block_group) (p : rb_tree)
  (block_group : bg_ptr) : retval * rb_tree :=
  match p with
  | rb_nil => (OK, rb_node rb_nil block_group rb_nil)
  | rb_node l cache r =>
    if bg_start (bgs block_group) <? bg_start (bgs cache) then
      match rb_link_walk bgs l block_group with
      | (OK, l') => (OK, rb_node l' cache r)
      | (ERR e, _) => (ERR e, p)
      end
    else if bg_start (bgs block_group) >? bg_start (bgs cache) then
      match rb_link_walk bgs r block_group with
      | (OK, r') => (OK, rb_node l cache r')
      | (ERR e, _) => (ERR e, p)
      end
    else (ERR EEXIST, p)
  end.

(** [btrfs_add_block_group_cache]; [None] is the failed
    [ASSERT(block_group->length != 0)]. *)
Definition btrfs_add_block_group_cache (info : btrfs_fs_info)
  (block_group : bg_ptr) : option (retval * btrfs_fs_info) :=
  if bg_length (fs_bg info block_group) =? 0 then None
  else
    match rb_link_walk (fs_block_groups info)
            (fs_block_group_cache_tree info) block_group with
    | (OK, t) =>
      Some (OK, set_fs_block_group_cache_tree (rb_insert_color t) info)
    | (ERR e, _) => Some (ERR e, info)
    end.

End Registry.

(** The loop of [block_group_cache_tree_search], from node [n] with the
    candidate [ret] found so far. *)
Fixpoint tree_search_walk (bgs : bg_ptr -> btrfs_block_group) (n : rb_tree)
  (bytenr : Z) (contains : bool) (ret : option bg_ptr) : option bg_ptr :=
  match n with
  | rb_nil => ret
  | rb_node l cache r =>
    let end_ := (bg_start (bgs cache) + bg_length (bgs cache) - 1)%u64 in
    let start := bg_start (bgs cache) in
    if bytenr <? start then
      let ret :=
        if negb contains
           && match ret with
              | None => true
              | Some q => start <? bg_start (bgs q)
              end
        then Some cache else ret in
      tree_search_walk bgs l bytenr contains ret
    else if bytenr >? start then
      if contains && (bytenr <=? end_) then Some cache
      else tree_search_walk bgs r bytenr contains ret
    else Some cache
  end.

(** [block_group_cache_tree_search]: the group at or after [bytenr], or with
    [contains] the group that contains it; the caller gets a reference. *)
Definition block_group_cache_tree_search (info : btrfs_fs_info) (bytenr : Z)
  (contains : bool) : option bg_ptr * btrfs_fs_info :=
  match tree_search_walk (fs_block_groups info)
          (fs_block_group_cache_tree info) bytenr contains None with
  | Some ret =>
    (Some ret, fs_store_bg info ret (btrfs_get_block_group (fs_bg info ret)))
  | None => (None, info)
  end.

Definition btrfs_lookup_first_block_group (info : btrfs_fs_info) (bytenr : Z)
  : option bg_ptr * btrfs_fs_info :=
  block_group_cache_tree_search info bytenr false.

Definition btrfs_lookup_block_group (info : btrfs_fs_info) (bytenr : Z)
  : option bg_ptr * btrfs_fs_info :=
  block_group_cache_tree_search info bytenr true.

(** ** The lists of block groups

    [fs_info->unused_bgs] and [fs_info->reclaim_bgs] hold the groups to
    delete and to reclaim, and [deleted_bgs] of the running transaction the
    groups deleted in it; they are linked through the nodes [bg_list] of
    the groups.  The dirty list of the running transaction holds the groups
    changed in it, linked through the nodes [dirty_list].  A list holds one
    reference on each group on it. *)

(** [list_add_tail(&bg->bg_list, &fs_info->unused_bgs)], and the same for
    [fs_info->reclaim_bgs]. *)
Definition list_add_tail_unused_bgs (info : btrfs_fs_info) (bg : bg_ptr)
  : btrfs_fs_info :=
  let info := fs_store_bg info bg (set_bg_bg_list true (fs_bg info bg)) in
  set_fs_unused_bgs (fs_unused_bgs info ++ [bg]) info.

Definition list_add_tail_reclaim_bgs (info : btrfs_fs_info) (bg : bg_ptr)
  : btrfs_fs_info :=
  let info := fs_store_bg info bg (set_bg_bg_list true (fs_bg info bg)) in
  set_fs_reclaim_bgs (fs_reclaim_bgs info ++ [bg]) info.

(** [list_del(&bg->bg_list)], the first half of [list_move] and
    [list_move_tail]: a linked node leaves its list, whichever it is.  The
    model has three of the lists that run through [bg_list]; a node that is
    linked on another one ([trans->new_bgs], or the local list of a pass
    under way) leaves none of these three. *)
Definition list_del_bg_list (info : btrfs_fs_info) (bg : bg_ptr)
  : btrfs_fs_info :=
  if bg_bg_list (fs_bg info bg) then
    let trans := fs_running_transaction info in
    set_fs_running_transaction
      (set_deleted_bgs (remove Nat.eq_dec bg (deleted_bgs trans)) trans)
      (set_fs_unused_bgs (remove Nat.eq_dec bg (fs_unused_bgs info))
         (set_fs_reclaim_bgs (remove Nat.eq_dec bg (fs_reclaim_bgs info))
            info))
  else info.

(** [btrfs_mark_bg_to_reclaim]: a group that is on no list goes to the tail
    of the reclaim list, which takes a reference. *)
Definition btrfs_mark_bg_to_reclaim (info : btrfs_fs_info) (bg : bg_ptr)
  : btrfs_fs_info :=
  if negb (bg_bg_list (fs_bg info bg)) then
    let info := fs_store_bg info bg (btrfs_get_block_group (fs_bg info bg)) in
    list_add_tail_reclaim_bgs info bg
  else info.

Section UpdateBlockGroup.

(** From outside the file: the replication factor of a profile, the
    percentage of misc.h, the mount option [DISCARD_ASYNC]
    ([btrfs_test_opt(info, DISCARD_ASYNC)]) and the number of the bit
    [BLOCK_GROUP_FLAG_NEW] of block-group.h. *)
Variable btrfs_bg_type_to_factor : Z -> Z.
Variable mult_perc : Z -> Z -> Z.
Variable discard_async : bool.
Variable BLOCK_GROUP_FLAG_NEW : Z.

(** [btrfs_mark_bg_unused]: a group that is on no list goes to the tail of
    the unused list, which takes a reference; a group that is on a list and
    is not new is moved there from the list it is on, with the reference
    that list held. *)
Definition btrfs_mark_bg_unused (info : btrfs_fs_info) (bg : bg_ptr)
  : btrfs_fs_info :=
  if negb (bg_bg_list (fs_bg info bg)) then
    let info := fs_store_bg info bg (btrfs_get_block_group (fs_bg info bg)) in
    list_add_tail_unused_bgs info bg
  else if negb (Z.testbit (bg_runtime_flags (fs_bg info bg))
                  BLOCK_GROUP_FLAG_NEW) then
    let info := list_del_bg_list info bg in
    list_add_tail_unused_bgs info bg
  else info.

(** [btrfs_update_block_group]: account [num_bytes] at [bytenr] as
    allocated ([alloc]) or freed.  [None] is the failed [ASSERT] that the
    extent lies inside the group found.  The group goes on the dirty list
    of the running transaction, [trans->transaction->dirty_bgs], unless it
    is there already, and a group whose last bytes were freed, or that fell
    below the reclaim threshold, is queued for the unused or the reclaim
    pass.  Not modelled: the caching thread that [btrfs_cache_block_group]
    starts and waits for when bytes are freed in a group that is not cached
    yet, with the reference the thread holds while it runs; the disk cache
    state; the pinned-extent tree of the transaction; and the count of
    block group updates of the delayed refs reserve. *)
Definition btrfs_update_block_group (info : btrfs_fs_info)
  (bytenr num_bytes : Z) (alloc : bool) : option (retval * btrfs_fs_info) :=
  let old_val := fs_super_bytes_used info in
  let old_val :=
    if alloc then (old_val + num_bytes)%u64 else (old_val - num_bytes)%u64 in
  let info := set_fs_super_bytes_used old_val info in
  match btrfs_lookup_block_group info bytenr with
  | (None, info) => Some (ERR ENOENT, info)
  | (Some cache, info) =>
    let g := fs_bg info cache in
    if negb ((bytenr + num_bytes)%u64 <=? (bg_start g + bg_length g)%u64)
    then None
    else
      let '(g, s, reclaim) :=
        update_block_group_counters btrfs_bg_type_to_factor mult_perc
          g (fs_si info cache) num_bytes alloc in
      let old_val := bg_used g in
      let info := fs_store info cache g s in
      let info :=
        if negb (bg_dirty_list (fs_bg info cache)) then
          let trans := fs_running_transaction info in
          let info :=
            fs_store_bg info cache (set_bg_dirty_list true (fs_bg info cache)) in
          let info :=
            set_fs_running_transaction
              (set_dirty_bgs (dirty_bgs trans ++ [cache]) trans) info in
          fs_store_bg info cache (btrfs_get_block_group (fs_bg info cache))
        else info in
      let info :=
        if negb alloc && (old_val =? 0) then
          if negb discard_async then btrfs_mark_bg_unused info cache
          else info
        else if negb alloc && reclaim then btrfs_mark_bg_to_reclaim info cache
        else info in
      Some (OK, fs_store_bg info cache (btrfs_put_block_group (fs_bg info cache)))
  end.

End UpdateBlockGroup.

(** ** The profile reducer *)

(** [struct btrfs_balance_args], the fields read here. *)
Record btrfs_balance_args : Type := mk_balance_args {
  bargs_flags : Z;
  bargs_target : Z
}.

(** [struct btrfs_balance_control]. *)
Record btrfs_balance_control : Type := mk_balance_control {
  bctl_data : btrfs_balance_args;
  bctl_meta : btrfs_balance_args;
  bctl_sys : btrfs_balance_args
}.

(** An entry of [btrfs_raid_array], the fields read here. *)
Record btrfs_raid_attr : Type := mk_raid_attr {
  devs_min : Z;
  bg_flag : Z
}.

Definition tst (flags bit : Z) : bool := negb (Z.land flags bit =? 0).

Section ProfileReducer.

(** The flag bits of include/uapi/linux/btrfs_tree.h and btrfs.h, the table
    of volumes.c and the conversion of volumes.h are not among the sources;
    the reducer is modelled over any values of them. *)
Variable BTRFS_BLOCK_GROUP_DATA : Z.
Variable BTRFS_BLOCK_GROUP_SYSTEM : Z.
Variable BTRFS_BLOCK_GROUP_METADATA : Z.
Variable BTRFS_BLOCK_GROUP_RAID0 : Z.
Variable BTRFS_BLOCK_GROUP_RAID1 : Z.
Variable BTRFS_BLOCK_GROUP_DUP : Z.
Variable BTRFS_BLOCK_GROUP_RAID10 : Z.
Variable BTRFS_BLOCK_GROUP_RAID5 : Z.
Variable BTRFS_BLOCK_GROUP_RAID6 : Z.
Variable BTRFS_BLOCK_GROUP_RAID1C3 : Z.
Variable BTRFS_BLOCK_GROUP_RAID1C4 : Z.
Variable BTRFS_BLOCK_GROUP_PROFILE_MASK : Z.
Variable BTRFS_BALANCE_ARGS_CONVERT : Z.
Variable btrfs_raid_array : list btrfs_raid_attr.
Variable extended_to_chunk : Z -> Z.

(** [get_restripe_target]: the target in extended format, or [0] when no
    conversion of this chunk type is in progress. *)
Definition get_restripe_target (balance_ctl : option btrfs_balance_control)
  (flags : Z) : Z :=
  match balance_ctl with
  | None => 0
  | Some bctl =>
    if tst flags BTRFS_BLOCK_GROUP_DATA
       && tst (bargs_flags (bctl_data bctl)) BTRFS_BALANCE_ARGS_CONVERT then
      Z.lor BTRFS_BLOCK_GROUP_DATA (bargs_target (bctl_data bctl))
    else if tst flags BTRFS_BLOCK_GROUP_SYSTEM
            && tst (bargs_flags (bctl_sys bctl)) BTRFS_BALANCE_ARGS_CONVERT then
      Z.lor BTRFS_BLOCK_GROUP_SYSTEM (bargs_target (bctl_sys bctl))
    else if tst flags BTRFS_BLOCK_GROUP_METADATA
            && tst (bargs_flags (bctl_meta bctl)) BTRFS_BALANCE_ARGS_CONVERT then
      Z.lor BTRFS_BLOCK_GROUP_METADATA (bargs_target (bctl_meta bctl))
    else 0
  end.

(** The first loop of [btrfs_reduce_alloc_profile]: the bits of the RAID
    levels that [num_devices] writable devices can hold. *)
Definition possible_raid_levels (num_devices : Z) : Z :=
  fold_left
    (fun allowed attr =>
       if devs_min attr <=? num_devices then Z.lor allowed (bg_flag attr)
       else allowed)
    btrfs_raid_array 0.

(** The cascade of [btrfs_reduce_alloc_profile]. *)
Definition select_highest_redundancy (allowed : Z) : Z :=
  if tst allowed BTRFS_BLOCK_GROUP_RAID1C4 then BTRFS_BLOCK_GROUP_RAID1C4
  else if tst allowed BTRFS_BLOCK_GROUP_RAID6 then BTRFS_BLOCK_GROUP_RAID6
  else if tst allowed BTRFS_BLOCK_GROUP_RAID1C3 then BTRFS_BLOCK_GROUP_RAID1C3
  else if tst allowed BTRFS_BLOCK_GROUP_RAID5 then BTRFS_BLOCK_GROUP_RAID5
  else if tst allowed BTRFS_BLOCK_GROUP_RAID10 then BTRFS_BLOCK_GROUP_RAID10
  else if tst allowed BTRFS_BLOCK_GROUP_RAID1 then BTRFS_BLOCK_GROUP_RAID1
  else if tst allowed BTRFS_BLOCK_GROUP_DUP then BTRFS_BLOCK_GROUP_DUP
  else if tst allowed BTRFS_BLOCK_GROUP_RAID0 then BTRFS_BLOCK_GROUP_RAID0
  else allowed.

(** [btrfs_reduce_alloc_profile], with [fs_info->fs_devices->rw_devices]
    and [fs_info->balance_ctl] as arguments. *)
Definition btrfs_reduce_alloc_profile (rw_devices : Z)
  (balance_ctl : option btrfs_balance_control) (flags : Z) : Z :=
  let num_devices := rw_devices in
  let target := get_restripe_target balance_ctl flags in
  if negb (target =? 0) then extended_to_chunk target
  else
    let allowed := possible_raid_levels num_devices in
    let allowed := Z.land allowed flags in
    let allowed := select_highest_redundancy allowed in
    let flags := Z.land flags (Z.lnot BTRFS_BLOCK_GROUP_PROFILE_MASK) in
    extended_to_chunk (Z.lor flags allowed).

(** The reading of the reducer in the specification: the schemes in their
    fixed order of priority, a scheme being feasible when the table has it
    with a minimum device count that the writable devices meet. *)
Definition profile_priority : list Z :=
  [ BTRFS_BLOCK_GROUP_RAID1C4; BTRFS_BLOCK_GROUP_RAID6;
    BTRFS_BLOCK_GROUP_RAID1C3; BTRFS_BLOCK_GROUP_RAID5;
    BTRFS_BLOCK_GROUP_RAID10; BTRFS_BLOCK_GROUP_RAID1;
    BTRFS_BLOCK_GROUP_DUP; BTRFS_BLOCK_GROUP_RAID0 ].

Definition scheme_feasible (num_devices scheme : Z) : bool :=
  existsb (fun attr => (devs_min attr <=? num_devices) && (bg_flag attr =? scheme))
    btrfs_raid_array.

Definition highest_priority_survivor (num_devices flags : Z) : option Z :=
  find (fun scheme => scheme_feasible num_devices scheme && tst flags scheme)
    profile_priority.

(** The profile bits are pairwise disjoint, and every entry of the table
    carries one of them or none. *)
Definition profile_bits_disjoint : Prop :=
  forall a b, In a profile_priority -> In b profile_priority -> a <> b ->
    Z.land a b = 0.

Definition raid_array_wf : Prop :=
  forall attr, In attr btrfs_raid_array ->
    bg_flag attr = 0 \/ In (bg_flag attr) profile_priority.

(** The conversion that is active for the content class of [flags], if
    any: the class bit with the target of the balance arguments of the
    first class among data, system and metadata that [flags] names and
    that is being converted. *)
Definition conversion_target (balance_ctl : option btrfs_balance_control)
  (flags : Z) : option Z :=
  match balance_ctl with
  | None => None
  | Some bctl =>
    let converting (class : Z) (args : btrfs_balance_args) :=
      tst flags class && tst (bargs_flags args) BTRFS_BALANCE_ARGS_CONVERT in
    if converting BTRFS_BLOCK_GROUP_DATA (bctl_data bctl) then
      Some (Z.lor BTRFS_BLOCK_GROUP_DATA (bargs_target (bctl_data bctl)))
    else if converting BTRFS_BLOCK_GROUP_SYSTEM (bctl_sys bctl) then
      Some (Z.lor BTRFS_BLOCK_GROUP_SYSTEM (bargs_target (bctl_sys bctl)))
    else if converting BTRFS_BLOCK_GROUP_METADATA (bctl_meta bctl) then
      Some (Z.lor BTRFS_BLOCK_GROUP_METADATA (bargs_target (bctl_meta bctl)))
    else None
  end.

End ProfileReducer.

(** ** The caching scan *)

(** [struct btrfs_key]. *)
Record btrfs_key : Type := mk_key {
  objectid : Z;
  type : Z;
  offset : Z
}.

(** The order of the keys of a tree: by object, then type, then offset. *)
Definition key_ltb (a b : btrfs_key) : bool :=
  (objectid a <? objectid b)
  || ((objectid a =? objectid b)
      && ((type a <? type b)
          || ((type a =? type b) && (offset a <? offset b)))).

(** Modelled from the spec: the free-space index of a group ("address to
    length"), kept by free-space-cache.c, which is not among the sources.
    The index is the sequence of the records inserted, each a start and a
    size. *)
Definition free_space_ctl : Type := list (Z * Z).

(** Modelled from the spec: [btrfs_add_free_space_async_trimmed], the
    insertion of one free range into the index. *)
Definition btrfs_add_free_space_async_trimmed (ctl : free_space_ctl)
  (start size : Z) : retval * free_space_ctl :=
  (OK, ctl ++ [(start, size)]).

(** The tree [fs_info->excluded_extents] holds the ranges of the superblock
    copies, each with its first and last byte, in ascending order.
    [find_first_extent_bit] of extent-io-tree.c yields the first range that
    ends at or after [start]. *)
Definition find_first_extent_bit (excluded_extents : list (Z * Z)) (start : Z)
  : option (Z * Z) :=
  find (fun range => start <=? snd range) excluded_extents.

(** The first loop of [btrfs_add_new_free_space].  Every turn that goes on
    moves [start] past the range it found, so the ranges bound the number
    of turns; [None] is a loop that did not end within [fuel] turns.  The
    result carries the return value on an error, else the [start] reached,
    with the index and the total added. *)
Fixpoint add_new_free_space_loop (fuel : nat) (excluded_extents : list (Z * Z))
  (ctl : free_space_ctl) (start end_ total_added : Z)
  : option (retval * free_space_ctl * Z * Z) :=
  match fuel with
  | O => None
  | S fuel =>
    if start <? end_ then
      match find_first_extent_bit excluded_extents start with
      | None => Some (OK, ctl, start, total_added)
      | Some (extent_start, extent_end) =>
        if extent_start <=? start then
          add_new_free_space_loop fuel excluded_extents ctl
            (extent_end + 1)%u64 end_ total_added
        else if (start <? extent_start) && (extent_start <? end_) then
          let size := (extent_start - start)%u64 in
          match btrfs_add_free_space_async_trimmed ctl start size with
          | (ERR e, ctl) => Some (ERR e, ctl, start, total_added)
          | (OK, ctl) =>
            add_new_free_space_loop fuel excluded_extents ctl
              (extent_end + 1)%u64 end_ (total_added + size)%u64
          end
        else Some (OK, ctl, start, total_added)
      end
    else Some (OK, ctl, start, total_added)
  end.

(** [btrfs_add_new_free_space]: add the range from [start] to [end]
    (exclusive) to the index, leaving out the superblock locations.  The
    result is the return value, the index and [*total_added_ret]. *)
Definition btrfs_add_new_free_space (excluded_extents : list (Z * Z))
  (ctl : free_space_ctl) (start end_ : Z)
  : option (retval * free_space_ctl * Z) :=
  match add_new_free_space_loop (S (length excluded_extents)) excluded_extents
          ctl start end_ 0 with
  | None => None
  | Some (ERR e, ctl, _, total_added) => Some (ERR e, ctl, total_added)
  | Some (OK, ctl, start, total_added) =>
    if start <? end_ then
      let size := (end_ - start)%u64 in
      match btrfs_add_free_space_async_trimmed ctl start size with
      | (ERR e, ctl) => Some (ERR e, ctl, total_added)
      | (OK, ctl) => Some (OK, ctl, (total_added + size)%u64)
      end
    else Some (OK, ctl, total_added)
  end.

Section Caching.

(** From headers that are not among the sources: the offset of the primary
    superblock, the two key types of extent records and the wake-up
    threshold of block-group.h.  [btrfs_fs_closing] stands for
    [btrfs_fs_closing(fs_info) > 1] during the scan. *)
Variable BTRFS_SUPER_INFO_OFFSET : Z.
Variable BTRFS_EXTENT_ITEM_KEY : Z.
Variable BTRFS_METADATA_ITEM_KEY : Z.
Variable CACHING_CTL_WAKE_UP : Z.
Variable btrfs_fs_closing : bool.

(** The state of the scan: [last], [total_found], the progress counter of
    the caching control and the index. *)
Record caching_state : Type := mk_caching_state {
  cs_last : Z;
  cs_total_found : Z;
  cs_progress : Z;
  cs_ctl : free_space_ctl
}.

(** The loop of [load_extent_tree_free] over the items of the commit root
    of the extent tree, taken in key order as the list [items].  The leaves
    of the tree are not modelled: moving to the next leaf, and searching
    again for the next key after the lock was dropped, both continue with
    the next item.  [search] is the key of a [btrfs_search_slot] under way
    (the label [next]), which passes every item below that key; the search
    started when an item lies below [last] begins at that item, which is
    below the key searched.  [None] is a loop of [btrfs_add_new_free_space]
    that did not end. *)
Fixpoint load_extent_tree_free_loop (excluded_extents : list (Z * Z))
  (nodesize : Z) (block_group : btrfs_block_group) (items : list btrfs_key)
  (search : option btrfs_key) (st : caching_state)
  : option (retval * caching_state) :=
  if btrfs_fs_closing then
    Some (OK, mk_caching_state U64_MAX (cs_total_found st) (cs_progress st)
                (cs_ctl st))
  else
    match items with
    | [] => Some (OK, st)
    | key :: rest =>
      let below_search :=
        match search with
        | Some k => key_ltb key k
        | None => false
        end in
      if below_search then
        load_extent_tree_free_loop excluded_extents nodesize block_group rest
          search st
      else if objectid key <? cs_last st then
        load_extent_tree_free_loop excluded_extents nodesize block_group rest
          (Some (mk_key (cs_last st) BTRFS_EXTENT_ITEM_KEY 0)) st
      else if objectid key <? bg_start block_group then
        load_extent_tree_free_loop excluded_extents nodesize block_group rest
          None st
      else if (bg_start block_group + bg_length block_group)%u64
              <=? objectid key then
        Some (OK, st)
      else if (type key =? BTRFS_EXTENT_ITEM_KEY)
              || (type key =? BTRFS_METADATA_ITEM_KEY) then
        match btrfs_add_new_free_space excluded_extents (cs_ctl st)
                (cs_last st) (objectid key) with
        | None => None
        | Some (ERR e, ctl, _) =>
          Some (ERR e, mk_caching_state (cs_last st) (cs_total_found st)
                         (cs_progress st) ctl)
        | Some (OK, ctl, space_added) =>
          let total_found := (cs_total_found st + space_added)%u64 in
          let last :=
            if type key =? BTRFS_METADATA_ITEM_KEY then
              (objectid key + nodesize)%u64
            else (objectid key + offset key)%u64 in
          let '(total_found, progress) :=
            if CACHING_CTL_WAKE_UP <? total_found then (0, cs_progress st + 1)
            else (total_found, cs_progress st) in
          load_extent_tree_free_loop excluded_extents nodesize block_group
            rest None (mk_caching_state last total_found progress ctl)
        end
      else
        load_extent_tree_free_loop excluded_extents nodesize block_group rest
          None st
    end.

(** [load_extent_tree_free]: scan the extent records from the start of the
    group, or from the superblock offset when the group starts below it,
    add the gap before each record, and at the end the gap up to the end of
    the group.  The result is the return value, the index and the progress
    counter. *)
Definition load_extent_tree_free (excluded_extents : list (Z * Z))
  (nodesize : Z) (extent_root : list btrfs_key)
  (block_group : btrfs_block_group) (ctl : free_space_ctl) (progress : Z)
  : option (retval * free_space_ctl * Z) :=
  let last := Z.max (bg_start block_group) BTRFS_SUPER_INFO_OFFSET in
  let key := mk_key last BTRFS_EXTENT_ITEM_KEY 0 in
  match load_extent_tree_free_loop excluded_extents nodesize block_group
          extent_root (Some key) (mk_caching_state last 0 progress ctl) with
  | None => None
  | Some (ERR e, st) => Some (ERR e, cs_ctl st, cs_progress st)
  | Some (OK, st) =>
    match btrfs_add_new_free_space excluded_extents (cs_ctl st) (cs_last st)
            (bg_start block_group + bg_length block_group)%u64 with
    | None => None
    | Some (ret, ctl, _) => Some (ret, ctl, cs_progress st)
    end
  end.

(** The reading of the scan in the specification: the gaps between
    consecutive used extents, each a start and a length, from [last] on,
    and the gap after the last of them up to [end_]. *)
Fixpoint free_gaps (last end_ : Z) (used : list (Z * Z)) : list (Z * Z) :=
  match used with
  | [] => if last <? end_ then [(last, end_ - last)] else []
  | (start, len) :: rest =>
    (if last <? start then [(last, start - last)] else [])
    ++ free_gaps (start + len) end_ rest
  end.

(** The used extents of a group that an item list records, each a start
    and a length: the extent items and metadata items whose object lies in
    the range of the group; a metadata item stands for one tree block of
    [nodesize] bytes. *)
Definition item_in_group (block_group : btrfs_block_group) (key : btrfs_key)
  : bool :=
  (bg_start block_group <=? objectid key)
  && (objectid key <? bg_start block_group + bg_length block_group)
  && ((type key =? BTRFS_EXTENT_ITEM_KEY)
      || (type key =? BTRFS_METADATA_ITEM_KEY)).

Definition item_extent (nodesize : Z) (key : btrfs_key) : Z * Z :=
  (objectid key,
   if type key =? BTRFS_METADATA_ITEM_KEY then nodesize else offset key).

Definition used_extents (nodesize : Z) (block_group : btrfs_block_group)
  (items : list btrfs_key) : list (Z * Z) :=
  map (item_extent nodesize) (filter (item_in_group block_group) items).

End Caching.

(** Used extents that follow one another from [last] on without overlap
    and end at or before [end_]. *)
Fixpoint extents_chain (last end_ : Z) (used : list (Z * Z)) : Prop :=
  match used with
  | [] => True
  | (start, len) :: rest =>
    last <= start /\ 0 <= len /\ start + len <= end_
    /\ extents_chain (start + len) end_ rest
  end.

(** No excluded range reaches into the group. *)
Definition excluded_outside (excluded_extents : list (Z * Z))
  (block_group : btrfs_block_group) : Prop :=
  forall range, In range excluded_extents ->
    snd range < bg_start block_group
    \/ bg_start block_group + bg_length block_group <= fst range.

(** The items are in the order of their keys. *)
Definition items_sorted (items : list btrfs_key) : Prop :=
  StronglySorted (fun a b => key_ltb a b = true) items.

(** The bytes of the records of an index. *)
Definition free_space_total (ctl : free_space_ctl) : Z :=
  fold_right (fun record total => snd record + total) 0 ctl.

(** ** The operations on one group, as a transition system *)

(** A reservation of [num_bytes] is admissible in [cache] when size classes
    are not in use for the group, or the group has no class yet, or its
    class is the one of [num_bytes], or the caller forces the mismatch. *)
Definition size_class_admits (should_use_size_class : bool)
  (cache : btrfs_block_group) (num_bytes : Z) (force_wrong_size_class : bool)
  : bool :=
  negb should_use_size_class
  || size_class_eqb (bg_size_class cache)
       (btrfs_calc_block_group_size_class num_bytes)
  || size_class_eqb (bg_size_class cache) BTRFS_BG_SZ_NONE
  || force_wrong_size_class.

(** The read-only counter and the swap-extents counter are never both
    nonzero. *)
Definition ro_swap_exclusive (bg : btrfs_block_group) : Prop :=
  bg_ro bg = 0 \/ bg_swap_extents bg = 0.

(** The operations on a group. *)
Inductive bg_op : Type :=
| OpReserve (ram_bytes num_bytes : Z) (delalloc force_wrong_size_class : bool)
| OpFreeReserved (num_bytes : Z) (delalloc : bool)
| OpCommit (num_bytes : Z)
| OpFree (num_bytes : Z)
| OpSetReadOnly (force : bool)
| OpClearReadOnly
| OpReclaim (relocated : bool)
| OpIncSwapExtents
| OpDecSwapExtents (amount : Z).

Section AccountingModel.

Variable btrfs_is_zoned : bool.
Variable btrfs_is_block_group_data_only : btrfs_block_group -> bool.
Variable btrfs_try_granting_tickets : btrfs_space_info -> btrfs_space_info.
Variable btrfs_space_info_used : btrfs_space_info -> bool -> Z.
Variable btrfs_can_overcommit : btrfs_space_info -> Z -> bool.
Variable BTRFS_BLOCK_GROUP_DATA : Z.
Variable btrfs_bg_type_to_factor : Z -> Z.
Variable mult_perc : Z -> Z -> Z.

(** The group a successful [btrfs_add_reserved_bytes] leaves, and the class
    it leaves before the ticket wake-up. *)
Definition attach_group (cache : btrfs_block_group) (num_bytes : Z)
  (delalloc : bool) : btrfs_block_group :=
  let cache :=
    if btrfs_block_group_should_use_size_class btrfs_is_zoned
         btrfs_is_block_group_data_only cache
       && size_class_eqb (bg_size_class cache) BTRFS_BG_SZ_NONE
    then set_bg_size_class (btrfs_calc_block_group_size_class num_bytes) cache
    else cache in
  let cache := set_bg_reserved (bg_reserved cache + num_bytes)%u64 cache in
  if delalloc then
    set_bg_delalloc_bytes (bg_delalloc_bytes cache + num_bytes)%u64 cache
  else cache.

Definition attach_class (space_info : btrfs_space_info)
  (ram_bytes num_bytes : Z) : btrfs_space_info :=
  set_si_bytes_may_use (u64 (si_bytes_may_use space_info - ram_bytes))
    (set_si_bytes_reserved (si_bytes_reserved space_info + num_bytes)%u64
       space_info).

(** One operation on a group and its class; [None] when the operation is
    refused, fails or trips an assertion.  [OpReclaim] is what the reclaim
    pass does to an accepted candidate: read-only without force, then
    read-write again unless the relocation went through. *)
Definition bg_step (op : bg_op) (st : btrfs_block_group * btrfs_space_info)
  : option (btrfs_block_group * btrfs_space_info) :=
  let '(cache, sinfo) := st in
  match op with
  | OpReserve ram_bytes num_bytes delalloc force =>
    match btrfs_add_reserved_bytes btrfs_is_zoned
            btrfs_is_block_group_data_only btrfs_try_granting_tickets
            cache sinfo ram_bytes num_bytes delalloc force with
    | (OK, cache, sinfo) => Some (cache, sinfo)
    | (ERR _, _, _) => None
    end
  | OpFreeReserved num_bytes delalloc =>
    Some (btrfs_free_reserved_bytes btrfs_try_granting_tickets cache sinfo
            num_bytes delalloc)
  | OpCommit num_bytes =>
    let '(cache, sinfo, _) :=
      update_block_group_counters btrfs_bg_type_to_factor mult_perc
        cache sinfo num_bytes true in
    Some (cache, sinfo)
  | OpFree num_bytes =>
    let '(cache, sinfo, _) :=
      update_block_group_counters btrfs_bg_type_to_factor mult_perc
        cache sinfo num_bytes false in
    Some (cache, sinfo)
  | OpSetReadOnly force =>
    match inc_block_group_ro btrfs_is_zoned btrfs_space_info_used
            btrfs_can_overcommit BTRFS_BLOCK_GROUP_DATA cache sinfo force with
    | (OK, cache, sinfo) => Some (cache, sinfo)
    | (ERR _, _, _) => None
    end
  | OpClearReadOnly => btrfs_dec_block_group_ro btrfs_is_zoned cache sinfo
  | OpReclaim relocated =>
    match inc_block_group_ro btrfs_is_zoned btrfs_space_info_used
            btrfs_can_overcommit BTRFS_BLOCK_GROUP_DATA cache sinfo false with
    | (OK, cache, sinfo) =>
      if relocated then Some (cache, sinfo)
      else btrfs_dec_block_group_ro btrfs_is_zoned cache sinfo
    | (ERR _, _, _) => None
    end
  | OpIncSwapExtents =>
    match btrfs_inc_block_group_swap_extents cache with
    | (true, cache) => Some (cache, sinfo)
    | (false, _) => None
    end
  | OpDecSwapExtents amount =>
    match btrfs_dec_block_group_swap_extents cache amount with
    | Some cache => Some (cache, sinfo)
    | None => None
    end
  end.

(** The byte count of an operation is covered when the counter it draws
    from holds it: a reservation fits in the bytes of the group that no
    counter claims, a commit or a dropped reservation in [reserved], a free
    in [used].  Clearing read-only is covered on a filesystem that is not
    zoned, and on a zoned one while the counter stays above zero. *)
Definition op_covered (op : bg_op) (cache : btrfs_block_group) : Prop :=
  match op with
  | OpReserve _ num_bytes _ _ =>
    0 <= num_bytes <= bg_length cache - bg_accounted cache
  | OpFreeReserved num_bytes _ => 0 <= num_bytes <= bg_reserved cache
  | OpCommit num_bytes => 0 <= num_bytes <= bg_reserved cache
  | OpFree num_bytes => 0 <= num_bytes <= bg_used cache
  | OpSetReadOnly _ => True
  | OpClearReadOnly => btrfs_is_zoned = false \/ bg_ro cache <> 1
  | OpReclaim relocated => btrfs_is_zoned = false \/ relocated = true
  | OpIncSwapExtents => True
  | OpDecSwapExtents _ => True
  end.

(** The states a group and its class reach from [st0] by operations,
    covered ([covered = true]) or any, while other groups of the class
    change the class's counters at will. *)
Inductive bg_run (covered : bool) (st0 : btrfs_block_group * btrfs_space_info)
  : btrfs_block_group * btrfs_space_info -> Prop :=
| bg_run_start : bg_run covered st0 st0
| bg_run_step st op st' :
    bg_run covered st0 st ->
    (covered = true -> op_covered op (fst st)) ->
    bg_step op st = Some st' ->
    bg_run covered st0 st'
| bg_run_class cache sinfo sinfo' :
    bg_run covered st0 (cache, sinfo) ->
    bg_run covered st0 (cache, sinfo').

End AccountingModel.

(** The operations on a group of the filesystem, through its address. *)
Definition fs_add_reserved_bytes (btrfs_is_zoned : bool)
  (btrfs_is_block_group_data_only : btrfs_block_group -> bool)
  (btrfs_try_granting_tickets : btrfs_space_info -> btrfs_space_info)
  (info : btrfs_fs_info) (cache : bg_ptr) (ram_bytes num_bytes : Z)
  (delalloc force_wrong_size_class : bool) : retval * btrfs_fs_info :=
  let '(ret, g, s) :=
    btrfs_add_reserved_bytes btrfs_is_zoned btrfs_is_block_group_data_only
      btrfs_try_granting_tickets (fs_bg info cache) (fs_si info cache)
      ram_bytes num_bytes delalloc force_wrong_size_class in
  (ret, fs_store info cache g s).

(** Two stores of groups that agree on the keys of the registry: the
    start and the length of every group. *)
Definition same_keys (bgs bgs' : bg_ptr -> btrfs_block_group) : Prop :=
  forall q, bg_start (bgs' q) = bg_start (bgs q)
            /\ bg_length (bgs' q) = bg_length (bgs q).

(** Two states of the filesystem with the same registry: the same tree
    over the same keys. *)
Definition same_registry (info info' : btrfs_fs_info) : Prop :=
  fs_block_group_cache_tree info' = fs_block_group_cache_tree info
  /\ same_keys (fs_block_groups info) (fs_block_groups info').

(** The group that contains [bytenr], as the registry finds it. *)
Definition registry_find (info : btrfs_fs_info) (bytenr : Z) : option bg_ptr :=
  tree_search_walk (fs_block_groups info) (fs_block_group_cache_tree info)
    bytenr true None.

(** ** Well-formed registries *)

(** [P] holds of every address in the tree. *)
Fixpoint rb_all (P : bg_ptr -> Prop) (t : rb_tree) : Prop :=
  match t with
  | rb_nil => True
  | rb_node l cache r => rb_all P l /\ P cache /\ rb_all P r
  end.

(** The tree is a search tree on the start offsets. *)
Fixpoint rb_bst (bgs : bg_ptr -> btrfs_block_group) (t : rb_tree) : Prop :=
  match t with
  | rb_nil => True
  | rb_node l cache r =>
    rb_bst bgs l /\ rb_bst bgs r
    /\ rb_all (fun q => bg_start (bgs q) < bg_start (bgs cache)) l
    /\ rb_all (fun q => bg_start (bgs cache) < bg_start (bgs q)) r
  end.

(** [start <= bytenr < start + length]. *)
Definition bg_contains (g : btrfs_block_group) (bytenr : Z) : Prop :=
  bg_start g <= bytenr < bg_start g + bg_length g.

(** The range of a group is not empty and lies in the [u64] addresses. *)
Definition bg_range_ok (g : btrfs_block_group) : Prop :=
  0 <= bg_start g /\ 0 < bg_length g /\ bg_start g + bg_length g <= 2 ^ 64.

(** Two groups share no address. *)
Definition bg_disjoint (g h : btrfs_block_group) : Prop :=
  bg_start g + bg_length g <= bg_start h
  \/ bg_start h + bg_length h <= bg_start g.

(** A registry of block groups: a search tree on the start offsets whose
    groups have proper ranges that do not overlap. *)
Definition registry_wf (info : btrfs_fs_info) : Prop :=
  rb_bst (fs_block_groups info) (fs_block_group_cache_tree info)
  /\ (forall p, In p (rb_elements (fs_block_group_cache_tree info)) ->
       bg_range_ok (fs_bg info p))
  /\ (forall p q,
       In p (rb_elements (fs_block_group_cache_tree info)) ->
       In q (rb_elements (fs_block_group_cache_tree info)) ->
       bg_start (fs_bg info p) <> bg_start (fs_bg info q) ->
       bg_disjoint (fs_bg info p) (fs_bg info q)).

(** ** Walking the registry *)

(** [RB_EMPTY_NODE(&cache->cache_node)] of rbtree.h: the node of the group
    is on no tree.  The removal of a group takes its node off the registry
    and clears it, so the node of a group is empty exactly when the group
    is not in the registry. *)
Definition RB_EMPTY_NODE (info : btrfs_fs_info) (cache : bg_ptr) : bool :=
  negb (existsb (Nat.eqb cache) (rb_elements (fs_block_group_cache_tree info))).

Section NextBlockGroup.

(** [rb_next] of lib/rbtree.c, which is not among the sources: the node
    that follows a node in the order of the tree, if any. *)
Variable rb_next : rb_tree -> bg_ptr -> option bg_ptr.

(** [btrfs_next_block_group]: the reference on [cache] is dropped and the
    group after it is returned with a reference of its own.  A group that
    was removed meanwhile is followed by the first group at or after its
    end. *)
Definition btrfs_next_block_group (info : btrfs_fs_info) (cache : bg_ptr)
  : option bg_ptr * btrfs_fs_info :=
  if RB_EMPTY_NODE info cache then
    let next_bytenr :=
      (bg_start (fs_bg info cache) + bg_length (fs_bg info cache))%u64 in
    let info :=
      fs_store_bg info cache (btrfs_put_block_group (fs_bg info cache)) in
    btrfs_lookup_first_block_group info next_bytenr
  else
    let node := rb_next (fs_block_group_cache_tree info) cache in
    let info :=
      fs_store_bg info cache (btrfs_put_block_group (fs_bg info cache)) in
    match node with
    | Some next =>
      (Some next,
       fs_store_bg info next (btrfs_get_block_group (fs_bg info next)))
    | None => (None, info)
    end.

End NextBlockGroup.

(** The address that follows [p] in a list, and in the order of a tree. *)
Fixpoint list_next (l : list bg_ptr) (p : bg_ptr) : option bg_ptr :=
  match l with
  | [] => None
  | a :: l' => if Nat.eqb a p then hd_error l' else list_next l' p
  end.

Definition in_order_next (t : rb_tree) (p : bg_ptr) : option bg_ptr :=
  list_next (rb_elements t) p.

(** [p] is the registered group with the least start offset that
    satisfies [bound]. *)
Definition least_start (info : btrfs_fs_info) (bound : Z -> Prop) (p : bg_ptr)
  : Prop :=
  In p (rb_elements (fs_block_group_cache_tree info))
  /\ bound (bg_start (fs_bg info p))
  /\ forall q, In q (rb_elements (fs_block_group_cache_tree info)) ->
       bound (bg_start (fs_bg info q)) ->
       bg_start (fs_bg info p) <= bg_start (fs_bg info q).

(** ** The class counters against the group counters *)

(** What the other groups of the class hold of the class's used, reserved
    and pinned bytes: the class counter less the counter of this group, in
    [u64]. *)
Definition class_rest (cache : btrfs_block_group) (sinfo : btrfs_space_info)
  : Z * Z * Z :=
  (u64 (si_bytes_used sinfo - bg_used cache),
   u64 (si_bytes_reserved sinfo - bg_reserved cache),
   u64 (si_bytes_pinned sinfo - bg_pinned cache)).

(** The bytes of a group that the class counts as read-only: none while
    the group is writable, the bytes that no counter claims once it is
    read-only. *)
Definition bg_readonly_bytes (cache : btrfs_block_group) : Z :=
  if bg_ro cache =? 0 then 0 else bg_free_bytes cache.

(** What the other groups of the class hold of [bytes_readonly]. *)
Definition class_rest_readonly (cache : btrfs_block_group)
  (sinfo : btrfs_space_info) : Z :=
  u64 (si_bytes_readonly sinfo - bg_readonly_bytes cache).

(** The ticket wake-up of space-info.c grants soft reservations; it leaves
    the used, reserved, pinned and read-only bytes of the class alone. *)
Definition tickets_keep_counters
  (btrfs_try_granting_tickets : btrfs_space_info -> btrfs_space_info) : Prop :=
  forall s,
    si_bytes_used (btrfs_try_granting_tickets s) = si_bytes_used s
    /\ si_bytes_reserved (btrfs_try_granting_tickets s) = si_bytes_reserved s
    /\ si_bytes_pinned (btrfs_try_granting_tickets s) = si_bytes_pinned s
    /\ si_bytes_readonly (btrfs_try_granting_tickets s) = si_bytes_readonly s.

(** ** Free space outside the excluded ranges *)

(** The excluded ranges, each with its first and last byte, from [lo] on in
    ascending order without overlap, the last of them ending below the
    largest [u64]. *)
Fixpoint excluded_sorted (lo : Z) (excluded_extents : list (Z * Z)) : Prop :=
  match excluded_extents with
  | [] => True
  | (extent_start, extent_end) :: rest =>
    lo <= extent_start /\ extent_start <= extent_end
    /\ extent_end + 1 < 2 ^ 64
    /\ excluded_sorted (extent_end + 1) rest
  end.

(** The parts of the range from [start] to [end_] (exclusive) that lie
    outside the excluded ranges, each a start and a size, in ascending
    order. *)
Fixpoint free_outside (excluded_extents : list (Z * Z)) (start end_ : Z)
  : list (Z * Z) :=
  match excluded_extents with
  | [] => if start <? end_ then [(start, end_ - start)] else []
  | (extent_start, extent_end) :: rest =>
    if negb (start <? end_) then []
    else if extent_end <? start then free_outside rest start end_
    else if extent_start <=? start then free_outside rest (extent_end + 1) end_
    else if extent_start <? end_ then
      (start, extent_start - start) :: free_outside rest (extent_end + 1) end_
    else [(start, end_ - start)]
  end.

(** The byte [x] lies in one of the records of an index. *)
Definition record_covers (ctl : free_space_ctl) (x : Z) : Prop :=
  exists record, In record ctl /\ fst record <= x < fst record + snd record.

(** The byte [x] lies in one of the excluded ranges. *)
Definition excluded_covers (excluded_extents : list (Z * Z)) (x : Z) : Prop :=
  exists range, In range excluded_extents /\ fst range <= x <= snd range.

(** ** Chunk allocation *)

Definition SZ_2M : Z := 2 * 1024 * 1024.
Definition SZ_64M : Z := 64 * 1024 * 1024.
Definition SZ_128M : Z := 128 * 1024 * 1024.
Definition SZ_1G : Z := 1024 * 1024 * 1024.

Section ChunkAlloc.

(** From headers that are not among the sources: the class-wide usage of
    space-info.c, the percentage of misc.h, two values of
    [enum btrfs_chunk_alloc_enum] of block-group.h, and the object id of
    the first chunk tree. *)
Variable btrfs_space_info_used : btrfs_space_info -> bool -> Z.
Variable mult_perc : Z -> Z -> Z.
Variable CHUNK_ALLOC_LIMITED : Z.
Variable CHUNK_ALLOC_FORCE : Z.
Variable BTRFS_FIRST_CHUNK_TREE_OBJECTID : Z.

(** [should_alloc_chunk], with [btrfs_super_total_bytes(fs_info->super_copy)]
    as an argument. *)
Definition should_alloc_chunk (super_total_bytes : Z)
  (sinfo : btrfs_space_info) (force : Z) : bool :=
  let bytes_used := btrfs_space_info_used sinfo false in
  if force =? CHUNK_ALLOC_FORCE then true
  else if (force =? CHUNK_ALLOC_LIMITED)
          && (let thresh := super_total_bytes in
              let thresh := Z.max SZ_64M (mult_perc thresh 1) in
              (si_total_bytes sinfo - bytes_used)%u64 <? thresh)
  then true
  else if (bytes_used + SZ_2M)%u64 <? mult_perc (si_total_bytes sinfo) 80
  then false
  else true.

(** [calculate_global_root_id], with the [EXTENT_TREE_V2] feature bit, the
    total bytes of the superblock and [fs_info->nr_global_roots] as
    arguments.  [None] is the division by zero of [div64_u64_rem]. *)
Definition calculate_global_root_id (extent_tree_v2 : bool)
  (super_total_bytes nr_global_roots offset : Z) : option Z :=
  let div := SZ_1G in
  if negb extent_tree_v2 then Some BTRFS_FIRST_CHUNK_TREE_OBJECTID
  else
    let div := if super_total_bytes <=? (SZ_1G * 10)%u64 then SZ_128M else div in
    let offset := offset / div in
    if nr_global_roots =? 0 then None
    else Some (offset mod nr_global_roots).

End ChunkAlloc.

(** ** Physical to logical addresses *)

(** [struct btrfs_chunk_map], the fields read here; [map_stripes] holds
    [stripes[i].physical] for the [num_stripes] stripes of the chunk. *)
Record btrfs_chunk_map : Type := mk_chunk_map {
  map_start : Z;
  map_type : Z;
  map_stripe_size : Z;
  map_sub_stripes : Z;
  map_stripes : list Z
}.

(** The outcome of [btrfs_rmap_block]: the addresses found, in the order
    found, with the stripe length; [-EIO]; or a division by zero.  A failed
    allocation of the buffer ([-ENOMEM]) is not modelled. *)
Inductive rmap_result : Type :=
| RMAP_OK (logical : list Z) (stripe_len : Z)
| RMAP_EIO
| RMAP_DIV_BY_ZERO.

(** [in_range(b, first, len)] of misc.h:
    [(b) >= (first) && (b) < (first) + (len)]. *)
Definition in_range (b first len : Z) : bool :=
  (first <=? b) && (b <? (first + len)%u64).

Section Rmap.

(** From volumes.h and btrfs_tree.h, which are not among the sources: the
    stripe length with its shift and mask, the profile bits read here, the
    number of data stripes of a map, the offset of a stripe number, and the
    lookup of the chunk map of a logical address. *)
Variable BTRFS_STRIPE_LEN : Z.
Variable BTRFS_STRIPE_LEN_SHIFT : Z.
Variable BTRFS_STRIPE_LEN_MASK : Z.
Variable BTRFS_BLOCK_GROUP_RAID56_MASK : Z.
Variable BTRFS_BLOCK_GROUP_RAID0 : Z.
Variable BTRFS_BLOCK_GROUP_RAID10 : Z.
Variable nr_data_stripes : btrfs_chunk_map -> Z.
Variable btrfs_stripe_nr_to_offset : Z -> Z.
Variable btrfs_get_chunk_map : Z -> option btrfs_chunk_map.

(** The loop of [btrfs_rmap_block] over the stripes from index [i] on,
    with the addresses in [buf] so far; [None] is a division by zero. *)
Fixpoint rmap_stripes (map : btrfs_chunk_map)
  (chunk_start io_stripe_size physical : Z) (i : Z) (stripes : list Z)
  (buf : list Z) : option (list Z) :=
  match stripes with
  | [] => Some buf
  | stripe_physical :: rest =>
    if negb (in_range physical stripe_physical (map_stripe_size map)) then
      rmap_stripes map chunk_start io_stripe_size physical (i + 1) rest buf
    else
      let stripe_nr :=
        u32 (Z.shiftr (physical - stripe_physical)%u64 BTRFS_STRIPE_LEN_SHIFT) in
      let offset :=
        u32 (Z.land (physical - stripe_physical)%u64 BTRFS_STRIPE_LEN_MASK) in
      let stripe_nr :=
        if tst (map_type map)
             (Z.lor BTRFS_BLOCK_GROUP_RAID0 BTRFS_BLOCK_GROUP_RAID10)
        then
          if map_sub_stripes map =? 0 then None
          else
            Some (u32 (u32 (stripe_nr * Z.of_nat (length (map_stripes map)) + i)
                       / map_sub_stripes map))
        else Some stripe_nr in
      match stripe_nr with
      | None => None
      | Some stripe_nr =>
        let bytenr := (chunk_start + stripe_nr * io_stripe_size + offset)%u64 in
        let already_inserted := existsb (Z.eqb bytenr) buf in
        rmap_stripes map chunk_start io_stripe_size physical (i + 1) rest
          (if already_inserted then buf else buf ++ [bytenr])
      end
  end.

(** [btrfs_rmap_block]: the logical addresses of the chunk at
    [chunk_start] that map to the disk address [physical]. *)
Definition btrfs_rmap_block (chunk_start physical : Z) : rmap_result :=
  match btrfs_get_chunk_map chunk_start with
  | None => RMAP_EIO
  | Some map =>
    let data_stripe_length := map_stripe_size map in
    let io_stripe_size := BTRFS_STRIPE_LEN in
    let chunk_start := map_start map in
    let io_stripe_size :=
      if tst (map_type map) BTRFS_BLOCK_GROUP_RAID56_MASK then
        btrfs_stripe_nr_to_offset (nr_data_stripes map)
      else io_stripe_size in
    match rmap_stripes map chunk_start io_stripe_size physical 0
            (map_stripes map) [] with
    | None => RMAP_DIV_BY_ZERO
    | Some buf => RMAP_OK buf io_stripe_size
    end
  end.

End Rmap.

(** A chunk whose stripes are plain copies: no striping across devices
    and no parity. *)
Definition map_unstriped (RAID56_MASK RAID0 RAID10 : Z) (map : btrfs_chunk_map)
  : Prop :=
  Z.land (map_type map) RAID56_MASK = 0
  /\ Z.land (map_type map) (Z.lor RAID0 RAID10) = 0.

(** ** NOCOW writers *)

(** [btrfs_inc_nocow_writers]: the group that contains [bytenr], with its
    count of NOCOW writers raised, unless there is no such group or it is
    read-only.  The counters [bg->nocow_writers] of the groups are kept in
    a store of their own, [nocow_writers], by the address of the group. *)
Definition btrfs_inc_nocow_writers (info : btrfs_fs_info)
  (nocow_writers : bg_ptr -> Z) (bytenr : Z)
  : option bg_ptr * btrfs_fs_info * (bg_ptr -> Z) :=
  match btrfs_lookup_block_group info bytenr with
  | (None, info) => (None, info, nocow_writers)
  | (Some bg, info) =>
    if negb (bg_ro (fs_bg info bg) =? 0) then
      (None, fs_store_bg info bg (btrfs_put_block_group (fs_bg info bg)),
       nocow_writers)
    else (Some bg, info, store_set nocow_writers bg (nocow_writers bg + 1))
  end.

(** [btrfs_dec_nocow_writers]: one writer less, and the reference of the
    lookup dropped.  The wake-up of the waiters at zero is not modelled. *)
Definition btrfs_dec_nocow_writers (info : btrfs_fs_info)
  (nocow_writers : bg_ptr -> Z) (bg : bg_ptr)
  : btrfs_fs_info * (bg_ptr -> Z) :=
  (fs_store_bg info bg (btrfs_put_block_group (fs_bg info bg)),
   store_set nocow_writers bg (nocow_writers bg - 1)).

(** ** The scan with excluded ranges *)

(** The reading of the scan in the specification, with the superblock
    copies left out: of each gap, a start and a length, the parts outside
    the excluded ranges. *)
Definition gaps_outside (excluded_extents : list (Z * Z))
  (gaps : list (Z * Z)) : list (Z * Z) :=
  flat_map (fun gap => free_outside excluded_extents (fst gap)
                         (fst gap + snd gap)) gaps.

(** The used extents of a group that an item list records from the
    address [last] on. *)
Definition used_extents_from (BTRFS_EXTENT_ITEM_KEY BTRFS_METADATA_ITEM_KEY : Z)
  (last nodesize : Z) (block_group : btrfs_block_group)
  (items : list btrfs_key) : list (Z * Z) :=
  used_extents BTRFS_EXTENT_ITEM_KEY BTRFS_METADATA_ITEM_KEY nodesize
    block_group (filter (fun key => last <=? objectid key) items).

(** ** The unused pass and the reclaim pass *)

(** Modelled from the spec: [list_sort] of lib/list_sort.c, which is not
    among the sources; the candidates are sorted in place.  [cmp a b]
    tells that [a] goes after [b]; elements that compare equal keep their
    order. *)
Fixpoint list_sort_insert {A : Type} (cmp : A -> A -> bool) (a : A)
  (l : list A) : list A :=
  match l with
  | [] => [a]
  | b :: l' => if cmp a b then b :: list_sort_insert cmp a l' else a :: l
  end.

Fixpoint list_sort {A : Type} (cmp : A -> A -> bool) (l : list A) : list A :=
  match l with
  | [] => []
  | a :: l' => list_sort_insert cmp a (list_sort cmp l')
  end.

(** [reclaim_bgs_cmp]: groups with fewer used bytes go first. *)
Definition reclaim_bgs_cmp (bgs : bg_ptr -> btrfs_block_group)
  (a b : bg_ptr) : bool :=
  bg_used (bgs b) <? bg_used (bgs a).

(** [btrfs_freeze_block_group] and [btrfs_unfreeze_block_group], on the
    counter [frozen] (an [atomic_t], kept here without its wrap-around).
    When the counter returns to zero on a group that was removed meanwhile,
    the second takes the chunk map and the free space entries of the group
    away; neither is modelled. *)
Definition btrfs_freeze_block_group (cache : btrfs_block_group)
  : btrfs_block_group :=
  set_bg_frozen (bg_frozen cache + 1) cache.

Definition btrfs_unfreeze_block_group (block_group : btrfs_block_group)
  : btrfs_block_group :=
  set_bg_frozen (bg_frozen block_group - 1) block_group.

(** The two trees of pinned extents that [clean_pinned_extents] clears:
    the one of the transaction before the running one, and the one of the
    running transaction. *)
Inductive pinned_extents_tree : Type :=
| PREV_TRANS_PINNED_EXTENTS
| TRANS_PINNED_EXTENTS.

Section Passes.

(** What the passes take from outside the file.  Constants and policies:
    whether the filesystem is zoned, the class-wide usage and the
    overcommit policy of space-info.c, the data bit of the class flags, the
    percentage of misc.h, the number of the bit [BLOCK_GROUP_FLAG_NEW], and
    the mount options [DISCARD_ASYNC] and [DISCARD_SYNC]. *)
Variable btrfs_is_zoned : bool.
Variable btrfs_space_info_used : btrfs_space_info -> bool -> Z.
Variable btrfs_can_overcommit : btrfs_space_info -> Z -> bool.
Variable BTRFS_BLOCK_GROUP_DATA : Z.
Variable mult_perc : Z -> Z -> Z.
Variable BLOCK_GROUP_FLAG_NEW : Z.
Variable discard_async : bool.
Variable discard_sync : bool.

(** State that the model does not hold, read through these: the bit
    [BTRFS_FS_OPEN] of [fs_info->flags], [btrfs_fs_closing],
    [mutex_trylock(&fs_info->reclaim_bgs_lock)],
    [btrfs_zoned_should_reclaim] of zoned.c,
    [btrfs_exclop_start(fs_info, BTRFS_EXCLOP_BALANCE)], the cleaner's wish
    to sleep, [btrfs_mixed_space_info] of space-info.h,
    [btrfs_is_free_space_trimmed] of free-space-cache.c,
    [btrfs_is_block_group_used] of block-group.h,
    [list_is_singular(&block_group->list)] on the list of the groups of the
    class, [list_empty(&block_group->discard_list)] on the lists of
    discard.c, whether a transaction precedes the running one on
    [fs_info->trans_list], [clear_extent_bits] of extent-io-tree.c on a
    tree of pinned extents with the bit [EXTENT_DIRTY], and
    [btrfs_find_chunk_map] of volumes.c. *)
Variable fs_open : btrfs_fs_info -> bool.
Variable btrfs_fs_closing : btrfs_fs_info -> bool.
Variable reclaim_bgs_trylock : btrfs_fs_info -> bool.
Variable btrfs_zoned_should_reclaim : btrfs_fs_info -> bool.
Variable btrfs_exclop_start : btrfs_fs_info -> bool.
Variable btrfs_need_cleaner_sleep : btrfs_fs_info -> bool.
Variable btrfs_mixed_space_info : btrfs_space_info -> bool.
Variable btrfs_is_free_space_trimmed : btrfs_fs_info -> bg_ptr -> bool.
Variable btrfs_is_block_group_used : btrfs_block_group -> bool.
Variable list_is_singular : btrfs_fs_info -> bg_ptr -> bool.
Variable discard_list_empty : btrfs_fs_info -> bg_ptr -> bool.
Variable prev_transaction : btrfs_fs_info -> bool.
Variable clear_extent_bits :
  btrfs_fs_info -> pinned_extents_tree -> Z -> Z -> retval.
Variable btrfs_find_chunk_map :
  btrfs_fs_info -> Z -> Z -> option btrfs_chunk_map.

(** Passes of other files that change the filesystem: [btrfs_zone_finish]
    of zoned.c, [btrfs_start_transaction_fallback_global_rsv] and
    [btrfs_end_transaction] of transaction.c, [btrfs_remove_chunk] of
    volumes.c, [btrfs_discard_punt_unused_bgs_list] of discard.c and
    [btrfs_relocate_chunk] of volumes.c.  A transaction handle is not
    modelled beyond the running transaction that it has joined. *)
Variable btrfs_zone_finish : btrfs_fs_info -> bg_ptr -> retval * btrfs_fs_info.
Variable btrfs_start_transaction_fallback_global_rsv :
  btrfs_fs_info -> Z -> retval * btrfs_fs_info.
Variable btrfs_end_transaction : btrfs_fs_info -> btrfs_fs_info.
Variable btrfs_remove_chunk : btrfs_fs_info -> Z -> retval * btrfs_fs_info.
Variable btrfs_discard_punt_unused_bgs_list : btrfs_fs_info -> btrfs_fs_info.
Variable btrfs_relocate_chunk : btrfs_fs_info -> Z -> retval * btrfs_fs_info.

(** [btrfs_start_trans_remove_block_group]: a transaction with room for
    [3 + num_stripes] items.  [None] is a failed [ASSERT] on the chunk
    map. *)
Definition btrfs_start_trans_remove_block_group (info : btrfs_fs_info)
  (chunk_offset : Z) : option (retval * btrfs_fs_info) :=
  match btrfs_find_chunk_map info chunk_offset 1 with
  | None => None
  | Some map =>
    if negb (map_start map =? chunk_offset) then None
    else
      let num_items := u32 (3 + Z.of_nat (length (map_stripes map))) in
      Some (btrfs_start_transaction_fallback_global_rsv info num_items)
  end.

(** [clean_pinned_extents]: clear the range of the group in the pinned
    extents of the previous transaction, if there is one, and of the
    running one; the result tells that this went through. *)
Definition clean_pinned_extents (info : btrfs_fs_info) (bg : bg_ptr) : bool :=
  let start := bg_start (fs_bg info bg) in
  let end_ := (start + bg_length (fs_bg info bg) - 1)%u64 in
  let ret :=
    if prev_transaction info then
      clear_extent_bits info PREV_TRANS_PINNED_EXTENTS start end_
    else OK in
  match ret with
  | ERR _ => false
  | OK => is_ok (clear_extent_bits info TRANS_PINNED_EXTENTS start end_)
  end.

(** The [while] loop of [btrfs_delete_unused_bgs] with what follows it.
    Each turn takes the first group off [fs_info->unused_bgs]; [ret] is the
    variable of that name, which an error of the transaction start or of
    the chunk removal leaves set for the turns that follow.  The labels
    [next] and [end_trans] are the local functions of these names, and the
    result at the label [flip_async] is written out where the code jumps
    to it.  The discard work of discard.c
    ([btrfs_discard_cancel_work], [btrfs_discard_queue_work]) is not
    modelled.  [None] is the [BUG_ON] of [btrfs_dec_block_group_ro], a
    failed [ASSERT], or a loop that did not end within [fuel] turns. *)
Fixpoint delete_unused_bgs_loop (fuel : nat) (async_trim_enabled : bool)
  (info : btrfs_fs_info) (ret : retval) (retry_list : list bg_ptr)
  : option btrfs_fs_info :=
  match fuel with
  | O => None
  | S fuel =>
    match fs_unused_bgs info with
    | [] => Some (set_fs_unused_bgs (fs_unused_bgs info ++ retry_list) info)
    | block_group :: rest =>
      let info :=
        set_fs_unused_bgs rest
          (fs_store_bg info block_group
             (set_bg_bg_list false (fs_bg info block_group))) in
      let next (info : btrfs_fs_info) (ret : retval)
            (retry_list : list bg_ptr) :=
        delete_unused_bgs_loop fuel async_trim_enabled
          (fs_store_bg info block_group
             (btrfs_put_block_group (fs_bg info block_group)))
          ret retry_list in
      let end_trans (info : btrfs_fs_info) (ret : retval) :=
        next (btrfs_end_transaction info) ret retry_list in
      let dec_ro (info : btrfs_fs_info)
            (k : btrfs_fs_info -> option btrfs_fs_info) :=
        match btrfs_dec_block_group_ro btrfs_is_zoned
                (fs_bg info block_group) (fs_si info block_group) with
        | None => None
        | Some (g, s) => k (fs_store info block_group g s)
        end in
      let g := fs_bg info block_group in
      let space_info := fs_si info block_group in
      if negb (is_ok ret) || btrfs_mixed_space_info space_info then
        next info ret retry_list
      else if discard_async
              && negb (btrfs_is_free_space_trimmed info block_group) then
        next info ret retry_list
      else if btrfs_is_block_group_used g || negb (bg_ro g =? 0)
              || list_is_singular info block_group then
        next info ret retry_list
      else
        let used := btrfs_space_info_used space_info true in
        if ((si_total_bytes space_info - bg_length g)%u64 <? used)
           && (bg_zone_unusable g <? bg_length g) then
          let info :=
            fs_store_bg info block_group
              (btrfs_get_block_group (fs_bg info block_group)) in
          let info :=
            fs_store_bg info block_group
              (set_bg_bg_list true (fs_bg info block_group)) in
          next info ret (retry_list ++ [block_group])
        else
          let '(r, g, s) :=
            inc_block_group_ro btrfs_is_zoned btrfs_space_info_used
              btrfs_can_overcommit BTRFS_BLOCK_GROUP_DATA g space_info false in
          let info := fs_store info block_group g s in
          match r with
          | ERR _ => next info OK retry_list
          | OK =>
            match btrfs_zone_finish info block_group with
            | (ERR e, info) =>
              dec_ro info (fun info =>
                next info
                  (match e with EAGAIN => OK | _ => ERR e end) retry_list)
            | (OK, info) =>
              match btrfs_start_trans_remove_block_group info
                      (bg_start (fs_bg info block_group)) with
              | None => None
              | Some (ERR e, info) =>
                dec_ro info (fun info => next info (ERR e) retry_list)
              | Some (OK, info) =>
                if negb (clean_pinned_extents info block_group) then
                  dec_ro info (fun info => end_trans info OK)
                else if negb (discard_list_empty info block_group) then
                  dec_ro info (fun info => end_trans info OK)
                else
                  let g := fs_bg info block_group in
                  let s := fs_si info block_group in
                  let s :=
                    btrfs_space_info_update_bytes_pinned s (- bg_pinned g) in
                  let s :=
                    set_si_bytes_readonly
                      (si_bytes_readonly s + bg_pinned g)%u64 s in
                  let g := set_bg_pinned 0 g in
                  let info := fs_store info block_group g s in
                  if negb async_trim_enabled && discard_async then
                    let info := btrfs_end_transaction info in
                    let info :=
                      set_fs_unused_bgs (fs_unused_bgs info ++ retry_list)
                        info in
                    let info :=
                      fs_store_bg info block_group
                        (btrfs_put_block_group (fs_bg info block_group)) in
                    Some (btrfs_discard_punt_unused_bgs_list info)
                  else
                    let trimming := discard_sync || btrfs_is_zoned in
                    let info :=
                      if trimming then
                        fs_store_bg info block_group
                          (btrfs_freeze_block_group (fs_bg info block_group))
                      else info in
                    match btrfs_remove_chunk info
                            (bg_start (fs_bg info block_group)) with
                    | (ERR e, info) =>
                      let info :=
                        if trimming then
                          fs_store_bg info block_group
                            (btrfs_unfreeze_block_group
                               (fs_bg info block_group))
                        else info in
                      end_trans info (ERR e)
                    | (OK, info) =>
                      let info :=
                        if trimming then
                          let info := list_del_bg_list info block_group in
                          let trans := fs_running_transaction info in
                          let info :=
                            set_fs_running_transaction
                              (set_deleted_bgs
                                 (block_group :: deleted_bgs trans) trans)
                              (fs_store_bg info block_group
                                 (set_bg_bg_list true
                                    (fs_bg info block_group))) in
                          fs_store_bg info block_group
                            (btrfs_get_block_group (fs_bg info block_group))
                        else info in
                      end_trans info OK
                    end
              end
            end
          end
    end
  end.

(** [btrfs_delete_unused_bgs]: remove the groups of the unused list that
    hold nothing any more. *)
Definition btrfs_delete_unused_bgs (fuel : nat) (info : btrfs_fs_info)
  : option btrfs_fs_info :=
  let async_trim_enabled := discard_async in
  if negb (fs_open info) then Some info
  else if btrfs_fs_closing info then Some info
  else if negb (reclaim_bgs_trylock info) then Some info
  else delete_unused_bgs_loop fuel async_trim_enabled info OK [].

(** [btrfs_should_reclaim]. *)
Definition btrfs_should_reclaim (info : btrfs_fs_info) : bool :=
  if btrfs_is_zoned then btrfs_zoned_should_reclaim info else true.

(** One candidate of [btrfs_reclaim_bgs_work], from the group lock to the
    label [next]: the value of [ret] there, and the filesystem.  [None] is
    the [BUG_ON] of [btrfs_dec_block_group_ro]. *)
Definition reclaim_one_bg (info : btrfs_fs_info) (bg : bg_ptr)
  : option (retval * btrfs_fs_info) :=
  let g := fs_bg info bg in
  if negb (bg_reserved g =? 0) || negb (bg_pinned g =? 0)
     || negb (bg_ro g =? 0)
  then Some (OK, info)
  else if bg_used g =? 0 then
    Some (OK,
          if negb discard_async then
            btrfs_mark_bg_unused BLOCK_GROUP_FLAG_NEW info bg
          else info)
  else if negb (should_reclaim_block_group mult_perc g (fs_si info bg)
                  (bg_length g))
  then Some (OK, info)
  else if btrfs_need_cleaner_sleep info then Some (OK, info)
  else
    let '(ret, g, s) :=
      inc_block_group_ro btrfs_is_zoned btrfs_space_info_used
        btrfs_can_overcommit BTRFS_BLOCK_GROUP_DATA g (fs_si info bg) false in
    let info := fs_store info bg g s in
    match ret with
    | ERR e => Some (ERR e, info)
    | OK =>
      match btrfs_relocate_chunk info (bg_start (fs_bg info bg)) with
      | (OK, info) => Some (OK, info)
      | (ERR e, info) =>
        match btrfs_dec_block_group_ro btrfs_is_zoned (fs_bg info bg)
                (fs_si info bg) with
        | None => None
        | Some (g, s) => Some (ERR e, fs_store info bg g s)
        end
      end
    end.

(** The [while] loop of [btrfs_reclaim_bgs_work] over the sorted list, up
    to the label [end]: the filesystem and the retry list.  Each turn takes
    the first group off [fs_info->reclaim_bgs] and handles it; the group
    goes to the retry list with a reference of its own when [ret] is set,
    and loses the reference that the reclaim list held; then the unused
    pass runs.  The loop ends when the list is empty, or when the reclaim
    mutex cannot be taken again after the unused pass.  [None] is a
    [BUG_ON], an unused pass that did not end within [unused_fuel] turns,
    or a loop that did not end within [fuel] turns. *)
Fixpoint reclaim_bgs_loop (fuel unused_fuel : nat) (info : btrfs_fs_info)
  (retry_list : list bg_ptr) : option (btrfs_fs_info * list bg_ptr) :=
  match fuel with
  | O => None
  | S fuel =>
    match fs_reclaim_bgs info with
    | [] => Some (info, retry_list)
    | bg :: rest =>
      let info :=
        set_fs_reclaim_bgs rest
          (fs_store_bg info bg (set_bg_bg_list false (fs_bg info bg))) in
      match reclaim_one_bg info bg with
      | None => None
      | Some (ret, info) =>
        let '(info, retry_list) :=
          match ret with
          | OK => (info, retry_list)
          | ERR _ =>
            let info :=
              fs_store_bg info bg (btrfs_get_block_group (fs_bg info bg)) in
            (fs_store_bg info bg (set_bg_bg_list true (fs_bg info bg)),
             retry_list ++ [bg])
          end in
        let info :=
          fs_store_bg info bg (btrfs_put_block_group (fs_bg info bg)) in
        match btrfs_delete_unused_bgs unused_fuel info with
        | None => None
        | Some info =>
          if negb (reclaim_bgs_trylock info) then Some (info, retry_list)
          else reclaim_bgs_loop fuel unused_fuel info retry_list
        end
      end
    end
  end.

(** [btrfs_reclaim_bgs_work]: sort the candidates, handle them one by one,
    and put the groups to retry back on the list. *)
Definition btrfs_reclaim_bgs_work (fuel unused_fuel : nat)
  (info : btrfs_fs_info) : option btrfs_fs_info :=
  if negb (fs_open info) then Some info
  else if btrfs_fs_closing info then Some info
  else if negb (btrfs_should_reclaim info) then Some info
  else if negb (btrfs_exclop_start info) then Some info
  else if negb (reclaim_bgs_trylock info) then Some info
  else
    let info :=
      set_fs_reclaim_bgs
        (list_sort (reclaim_bgs_cmp (fs_block_groups info))
           (fs_reclaim_bgs info)) info in
    match reclaim_bgs_loop fuel unused_fuel info [] with
    | None => None
    | Some (info, retry_list) =>
      Some (set_fs_reclaim_bgs (fs_reclaim_bgs info ++ retry_list) info)
    end.

(** The reading of the pass in the specification.  [reclaim_candidate] is
    what happens to one candidate: it is handled by [reclaim_one_bg], which
    skips it or elevates it, relocates it and demotes it; a candidate whose
    handling failed is kept for a retry; the reference that the reclaim
    list held is dropped; and the unused pass runs.  [reclaim_in_order]
    takes the candidates of the list [candidates] one after the other, in
    the order of that list, each leaving the reclaim list when its turn
    comes, until none is left or the reclaim mutex is lost; the groups to
    retry then go back to the end of the reclaim list. *)
Definition reclaim_candidate (unused_fuel : nat) (info : btrfs_fs_info)
  (bg : bg_ptr) (retry_list : list bg_ptr)
  : option (btrfs_fs_info * list bg_ptr) :=
  match reclaim_one_bg info bg with
  | None => None
  | Some (ret, info) =>
    let '(info, retry_list) :=
      if is_ok ret then (info, retry_list)
      else
        let info :=
          fs_store_bg info bg
            (set_bg_refs (bg_refs (fs_bg info bg) + 1) (fs_bg info bg)) in
        (fs_store_bg info bg (set_bg_bg_list true (fs_bg info bg)),
         retry_list ++ [bg]) in
    let info :=
      fs_store_bg info bg
        (set_bg_refs (bg_refs (fs_bg info bg) - 1) (fs_bg info bg)) in
    match btrfs_delete_unused_bgs unused_fuel info with
    | None => None
    | Some info => Some (info, retry_list)
    end
  end.

Fixpoint reclaim_in_order (unused_fuel : nat) (candidates : list bg_ptr)
  (info : btrfs_fs_info) (retry_list : list bg_ptr) : option btrfs_fs_info :=
  match candidates with
  | [] => Some (set_fs_reclaim_bgs (fs_reclaim_bgs info ++ retry_list) info)
  | bg :: rest =>
    let info :=
      set_fs_reclaim_bgs rest
        (fs_store_bg info bg (set_bg_bg_list false (fs_bg info bg))) in
    match reclaim_candidate unused_fuel info bg retry_list with
    | None => None
    | Some (info, retry_list) =>
      if negb (reclaim_bgs_trylock info) then
        Some (set_fs_reclaim_bgs (fs_reclaim_bgs info ++ retry_list) info)
      else reclaim_in_order unused_fuel rest info retry_list
    end
  end.

End Passes.

(** A run of a pass of another file during which no group is queued or
    taken off a list: the pass leaves the reclaim list and the unused list
    as they are, and returns with the read-only counter and the node
    [bg_list] of every group as it found them.  Nothing is said of the
    registry, of the reference counts or of any other counter, which a
    relocation or the removal of a chunk changes. *)
Definition keeps_lists_and_ro (info info' : btrfs_fs_info) : Prop :=
  fs_reclaim_bgs info' = fs_reclaim_bgs info
  /\ fs_unused_bgs info' = fs_unused_bgs info
  /\ forall bg,
       bg_ro (fs_bg info' bg) = bg_ro (fs_bg info bg)
       /\ bg_bg_list (fs_bg info' bg) = bg_bg_list (fs_bg info bg).

Definition passes_keep_lists_and_ro
  (btrfs_zone_finish : btrfs_fs_info -> bg_ptr -> retval * btrfs_fs_info)
  (btrfs_start_transaction_fallback_global_rsv :
     btrfs_fs_info -> Z -> retval * btrfs_fs_info)
  (btrfs_end_transaction : btrfs_fs_info -> btrfs_fs_info)
  (btrfs_remove_chunk : btrfs_fs_info -> Z -> retval * btrfs_fs_info)
  (btrfs_relocate_chunk : btrfs_fs_info -> Z -> retval * btrfs_fs_info)
  : Prop :=
  (forall info bg, keeps_lists_and_ro info (snd (btrfs_zone_finish info bg)))
  /\ (forall info num_items,
        keeps_lists_and_ro info
          (snd (btrfs_start_transaction_fallback_global_rsv info num_items)))
  /\ (forall info, keeps_lists_and_ro info (btrfs_end_transaction info))
  /\ (forall info chunk_offset,
        keeps_lists_and_ro info (snd (btrfs_remove_chunk info chunk_offset)))
  /\ (forall info chunk_offset,
        keeps_lists_and_ro info
          (snd (btrfs_relocate_chunk info chunk_offset))).

(** Every group has its chunk map, at its start offset. *)
Definition chunk_maps_found
  (btrfs_find_chunk_map : btrfs_fs_info -> Z -> Z -> option btrfs_chunk_map)
  : Prop :=
  forall info chunk_offset,
    exists map,
      btrfs_find_chunk_map info chunk_offset 1 = Some map
      /\ map_start map = chunk_offset.

(** A candidate that the pass leaves alone. *)
Definition reclaim_skips (mult_perc : Z -> Z -> Z) (g : btrfs_block_group)
  (s : btrfs_space_info) : Prop :=
  bg_reserved g <> 0 \/ bg_pinned g <> 0 \/ bg_ro g <> 0
  \/ (bg_used g <> 0
      /\ should_reclaim_block_group mult_perc g s (bg_length g) = false).

(** A candidate that the pass takes. *)
Definition reclaim_accepts (mult_perc : Z -> Z -> Z) (g : btrfs_block_group)
  (s : btrfs_space_info) : Prop :=
  bg_reserved g = 0 /\ bg_pinned g = 0 /\ bg_ro g = 0 /\ bg_used g <> 0
  /\ should_reclaim_block_group mult_perc g s (bg_length g) = true.

(** ** Steps on the lists *)

(** A group less its reference count and the state of its list nodes. *)
Definition bg_unlinked (g : btrfs_block_group) : btrfs_block_group :=
  set_bg_refs 0 (set_bg_bg_list false (set_bg_dirty_list false g)).

(** A step from [info] to [info'] that changes nothing but the lists and,
    of the group at [p], the reference count and the list nodes. *)
Definition links_step (p : bg_ptr) (info info' : btrfs_fs_info) : Prop :=
  fs_block_group_cache_tree info' = fs_block_group_cache_tree info
  /\ fs_space_infos info' = fs_space_infos info
  /\ fs_super_bytes_used info' = fs_super_bytes_used info
  /\ (forall q, q <> p -> fs_bg info' q = fs_bg info q)
  /\ bg_unlinked (fs_bg info' p) = bg_unlinked (fs_bg info p).

(** The state of one turn of a pass on the group [bg] that it has taken off
    its list: the two lists, the node [bg_list] of the group, which is not
    linked, and the read-only counter of the group. *)
Definition bg_turn (bg : bg_ptr) (unused reclaim : list bg_ptr) (ro : Z)
  (info : btrfs_fs_info) : Prop :=
  fs_unused_bgs info = unused
  /\ fs_reclaim_bgs info = reclaim
  /\ bg_bg_list (fs_bg info bg) = false
  /\ bg_ro (fs_bg info bg) = ro.

(** ** Sample objects *)

Definition MiB : Z := 1024 * 1024.

(** A class and a group with every counter at zero; the group holds one
    reference and is on no list. *)
Definition empty_space_info (flags total_bytes : Z) : btrfs_space_info :=
  mk_space_info flags total_bytes 0 0 0 0 0 0 0 0 0.

(** A running transaction that has changed and deleted no group yet. *)
Definition no_transaction : btrfs_transaction := mk_transaction [] [].

Definition empty_block_group (start length flags : Z) : btrfs_block_group :=
  mk_block_group start length flags 0 0 0 0 0 0 0 0 BTRFS_BG_SZ_NONE 0 0 1 0
    false false 0 0.

(** The class-wide usage as the sum of the class's counters. *)
Definition space_info_used_sum (s_info : btrfs_space_info)
  (may_use_included : bool) : Z :=
  (si_bytes_used s_info + si_bytes_reserved s_info + si_bytes_pinned s_info
   + si_bytes_readonly s_info + si_bytes_zone_unusable s_info
   + (if may_use_included then si_bytes_may_use s_info else 0))%u64.

(** Stand-ins for what the file takes from outside, for running the model
    on the samples: a filesystem that is not zoned, groups that are data
    only, an empty ticket queue, no overcommit, the data bit as bit 0, a
    replication factor of one, and the percentage of misc.h. *)
Definition sample_data_only (bg : btrfs_block_group) : bool := true.
Definition sample_no_tickets (s : btrfs_space_info) : btrfs_space_info := s.
Definition sample_no_overcommit (s : btrfs_space_info) (bytes : Z) : bool :=
  false.
Definition sample_factor (flags : Z) : Z := 1.
Definition sample_mult_perc (num percent : Z) : Z := u64 (num * percent) / 100.
Definition SAMPLE_DATA : Z := 1.

(** A data class of 1000 MiB with one empty group of that length. *)
Definition sample_class : btrfs_space_info :=
  empty_space_info SAMPLE_DATA (1000 * MiB).
Definition sample_group : btrfs_block_group :=
  empty_block_group (1024 * MiB) (1000 * MiB) SAMPLE_DATA.

Definition sample_step : bg_op -> btrfs_block_group * btrfs_space_info ->
  option (btrfs_block_group * btrfs_space_info) :=
  bg_step false sample_data_only sample_no_tickets space_info_used_sum
    sample_no_overcommit SAMPLE_DATA sample_factor sample_mult_perc.

Definition sample_run (covered : bool) :
  btrfs_block_group * btrfs_space_info ->
  btrfs_block_group * btrfs_space_info -> Prop :=
  bg_run false sample_data_only sample_no_tickets space_info_used_sum
    sample_no_overcommit SAMPLE_DATA sample_factor sample_mult_perc covered.

(** The group of the second scenario of the specification: 900 MiB of the
    1000 MiB are reserved, nothing is used. *)
Definition scenario2_group : btrfs_block_group :=
  set_bg_reserved (900 * MiB) sample_group.
Definition scenario2_class : btrfs_space_info :=
  set_si_bytes_reserved (900 * MiB) sample_class.

(** A filesystem whose registry holds the sample group alone, at address
    0, with the sample class at address 0 of the classes. *)
Definition sample_info : btrfs_fs_info :=
  mk_fs_info (fun _ => sample_group) (fun _ => sample_class)
    (rb_node rb_nil 0%nat rb_nil) 0 [] [] no_transaction.

(** Two overlapping groups, the second inside the first, and a store that
    holds them at the addresses 0 and 1; an empty registry over it. *)
Definition wide_group : btrfs_block_group := empty_block_group 0 100 SAMPLE_DATA.
Definition inner_group : btrfs_block_group := empty_block_group 50 10 SAMPLE_DATA.
Definition overlapping_groups (p : bg_ptr) : btrfs_block_group :=
  match p with
  | O => wide_group
  | _ => inner_group
  end.
Definition empty_registry (bgs : bg_ptr -> btrfs_block_group) : btrfs_fs_info :=
  mk_fs_info bgs (fun _ => sample_class) rb_nil 0 [] [] no_transaction.

(** A rebalancing that leaves the tree as it is. *)
Definition no_rebalance (t : rb_tree) : rb_tree := t.

(** Sample values for the profile reducer: the class bits 0 to 2, the
    profile bits 3 to 10, the single bit 48 of the extended format, the
    conversion bit 8 of the balance arguments, and a table of minimum device
    counts. *)
Definition SAMPLE_SYSTEM : Z := 2.
Definition SAMPLE_METADATA : Z := 4.
Definition SAMPLE_RAID0 : Z := 8.
Definition SAMPLE_RAID1 : Z := 16.
Definition SAMPLE_DUP : Z := 32.
Definition SAMPLE_RAID10 : Z := 64.
Definition SAMPLE_RAID5 : Z := 128.
Definition SAMPLE_RAID6 : Z := 256.
Definition SAMPLE_RAID1C3 : Z := 512.
Definition SAMPLE_RAID1C4 : Z := 1024.
Definition SAMPLE_PROFILE_MASK : Z := 2040.
Definition SAMPLE_CONVERT : Z := 256.
Definition sample_raid_array : list btrfs_raid_attr :=
  [ mk_raid_attr 2 SAMPLE_RAID10; mk_raid_attr 2 SAMPLE_RAID1;
    mk_raid_attr 1 SAMPLE_DUP; mk_raid_attr 1 SAMPLE_RAID0;
    mk_raid_attr 1 0; mk_raid_attr 2 SAMPLE_RAID5;
    mk_raid_attr 3 SAMPLE_RAID6; mk_raid_attr 3 SAMPLE_RAID1C3;
    mk_raid_attr 4 SAMPLE_RAID1C4 ].
Definition sample_extended_to_chunk (flags : Z) : Z :=
  Z.land flags (Z.lnot (2 ^ 48)).

Definition sample_reduce_alloc_profile : Z ->
  option btrfs_balance_control -> Z -> Z :=
  btrfs_reduce_alloc_profile SAMPLE_DATA SAMPLE_SYSTEM SAMPLE_METADATA
    SAMPLE_RAID0 SAMPLE_RAID1 SAMPLE_DUP SAMPLE_RAID10 SAMPLE_RAID5
    SAMPLE_RAID6 SAMPLE_RAID1C3 SAMPLE_RAID1C4 SAMPLE_PROFILE_MASK
    SAMPLE_CONVERT sample_raid_array sample_extended_to_chunk.

(** Sample values for the caching scan: the primary superblock at 64 KiB,
    the key types 168 and 169, a wake-up threshold of 2 MiB, a
    filesystem that is not closing. *)
Definition SAMPLE_SUPER_INFO_OFFSET : Z := 65536.
Definition SAMPLE_EXTENT_ITEM_KEY : Z := 168.
Definition SAMPLE_METADATA_ITEM_KEY : Z := 169.
Definition SAMPLE_WAKE_UP : Z := 2 * MiB.

Definition sample_load_extent_tree_free : list (Z * Z) -> Z ->
  list btrfs_key -> btrfs_block_group -> free_space_ctl -> Z ->
  option (retval * free_space_ctl * Z) :=
  load_extent_tree_free SAMPLE_SUPER_INFO_OFFSET SAMPLE_EXTENT_ITEM_KEY
    SAMPLE_METADATA_ITEM_KEY SAMPLE_WAKE_UP false.

(** Four groups of 1000 MiB in one class that reclaims below 50 percent,
    with 300, 100, 200 and 0 MiB used, all four on the reclaim list, which
    holds a reference on each besides the one of the registry; an empty
    unused list. *)
Definition sample_reclaim_class : btrfs_space_info :=
  mk_space_info SAMPLE_DATA (10000 * MiB) (600 * MiB) 0 0 0 0 0 0 0 50.
Definition sample_reclaim_group (start used : Z) : btrfs_block_group :=
  set_bg_bg_list true
    (set_bg_refs 2
       (set_bg_used used (empty_block_group start (1000 * MiB) SAMPLE_DATA))).
Definition sample_reclaim_groups (p : bg_ptr) : btrfs_block_group :=
  match p with
  | O => sample_reclaim_group 0 (300 * MiB)
  | S O => sample_reclaim_group (1000 * MiB) (100 * MiB)
  | S (S O) => sample_reclaim_group (2000 * MiB) (200 * MiB)
  | _ => sample_reclaim_group (3000 * MiB) 0
  end.
Definition sample_reclaim_info : btrfs_fs_info :=
  mk_fs_info sample_reclaim_groups (fun _ => sample_reclaim_class) rb_nil 0
    [0%nat; 1%nat; 2%nat; 3%nat] [] no_transaction.

(** Stand-ins for what the passes take from outside: an open filesystem
    that is not closing, a reclaim mutex that is free, no mixed classes, a
    cleaner that stays awake, free space that is trimmed, groups that are
    in use when a counter of theirs is above zero, classes with more than
    one group, empty discard lists, no previous transaction, pinned extents
    that clear, a chunk map of one stripe at any offset, zones that finish,
    transactions that start and end and chunks that go, all without a
    change to the filesystem, and a relocation that fails on the chunk at
    the offset 0 and moves the used bytes away from any other chunk. *)
Definition SAMPLE_FLAG_NEW : Z := 8.
Definition sample_is_block_group_used (bg : btrfs_block_group) : bool :=
  (0 <? bg_used bg) || (0 <? bg_reserved bg) || (0 <? bg_pinned bg).
Definition sample_find_chunk_map (info : btrfs_fs_info) (logical length : Z)
  : option btrfs_chunk_map :=
  Some (mk_chunk_map logical SAMPLE_DATA (1000 * MiB) 1 [0]).
Definition sample_pass_ok (info : btrfs_fs_info) (x : Z)
  : retval * btrfs_fs_info :=
  (OK, info).
Definition sample_zone_finish (info : btrfs_fs_info) (bg : bg_ptr)
  : retval * btrfs_fs_info :=
  (OK, info).
Definition sample_end_transaction (info : btrfs_fs_info) : btrfs_fs_info :=
  info.
Definition sample_relocate_chunk (info : btrfs_fs_info) (chunk_offset : Z)
  : retval * btrfs_fs_info :=
  if chunk_offset =? 0 then (ERR ENOSPC, info)
  else
    let bg := Z.to_nat (chunk_offset / (1000 * MiB)) in
    (OK, fs_store_bg info bg (set_bg_used 0 (fs_bg info bg))).

Definition sample_delete_unused_bgs : nat -> btrfs_fs_info ->
  option btrfs_fs_info :=
  btrfs_delete_unused_bgs false space_info_used_sum sample_no_overcommit
    SAMPLE_DATA false false (fun _ => true) (fun _ => false) (fun _ => true)
    (fun _ => false) (fun _ _ => true) sample_is_block_group_used
    (fun _ _ => false) (fun _ _ => true) (fun _ => false)
    (fun _ _ _ _ => OK) sample_find_chunk_map sample_zone_finish
    sample_pass_ok sample_end_transaction sample_pass_ok
    sample_end_transaction.
Definition sample_reclaim_one_bg : btrfs_fs_info -> bg_ptr ->
  option (retval * btrfs_fs_info) :=
  reclaim_one_bg false space_info_used_sum sample_no_overcommit SAMPLE_DATA
    sample_mult_perc SAMPLE_FLAG_NEW false (fun _ => false)
    sample_relocate_chunk.
Definition sample_reclaim_bgs_work : nat -> nat -> btrfs_fs_info ->
  option btrfs_fs_info :=
  btrfs_reclaim_bgs_work false space_info_used_sum sample_no_overcommit
    SAMPLE_DATA sample_mult_perc SAMPLE_FLAG_NEW false false (fun _ => true)
    (fun _ => false) (fun _ => true) (fun _ => true) (fun _ => true)
    (fun _ => false) (fun _ => false) (fun _ _ => true)
    sample_is_block_group_used (fun _ _ => false) (fun _ _ => true)
    (fun _ => false) (fun _ _ _ _ => OK) sample_find_chunk_map
    sample_zone_finish sample_pass_ok sample_end_transaction sample_pass_ok
    sample_end_transaction sample_relocate_chunk.
Definition sample_reclaim_in_order : nat -> list bg_ptr -> btrfs_fs_info ->
  list bg_ptr -> option btrfs_fs_info :=
  reclaim_in_order false space_info_used_sum sample_no_overcommit
    SAMPLE_DATA sample_mult_perc SAMPLE_FLAG_NEW false false (fun _ => true)
    (fun _ => false) (fun _ => true) (fun _ => false) (fun _ => false)
    (fun _ _ => true) sample_is_block_group_used (fun _ _ => false)
    (fun _ _ => true) (fun _ => false) (fun _ _ _ _ => OK)
    sample_find_chunk_map sample_zone_finish sample_pass_ok
    sample_end_transaction sample_pass_ok sample_end_transaction
    sample_relocate_chunk.

(** Two groups side by side, [0, 100) at the address 0 and [100, 150) at
    the address 1; a registry that holds both, and one that holds the
    first. *)
Definition adjacent_groups (p : bg_ptr) : btrfs_block_group :=
  match p with
  | O => wide_group
  | _ => empty_block_group 100 50 SAMPLE_DATA
  end.
Definition adjacent_registry : btrfs_fs_info :=
  mk_fs_info adjacent_groups (fun _ => sample_class)
    (rb_node rb_nil 0%nat (rb_node rb_nil 1%nat rb_nil)) 0 [] []
    no_transaction.
Definition first_group_registry : btrfs_fs_info :=
  mk_fs_info adjacent_groups (fun _ => sample_class)
    (rb_node rb_nil 0%nat rb_nil) 0 [] [] no_transaction.

(** The sample group after a reservation of 100 MiB, with its class. *)
Definition sample_reserved_state : btrfs_block_group * btrfs_space_info :=
  (attach_group false sample_data_only sample_group (100 * MiB) false,
   attach_class sample_class (100 * MiB) (100 * MiB)).

(** Two excluded ranges, [100, 199] and [300, 399]. *)
Definition sample_excluded : list (Z * Z) := [(100, 199); (300, 399)].

(** A chunk at 1 GiB with two copies of 256 MiB, at the disk addresses
    16 MiB and 1 GiB, and the lookup that finds it; the stripe length of
    64 KiB, and the profile bits of the samples above. *)
Definition sample_dup_map : btrfs_chunk_map :=
  mk_chunk_map (1024 * MiB) 32 (256 * MiB) 1 [16 * MiB; 1024 * MiB].
Definition sample_get_chunk_map (chunk_start : Z) : option btrfs_chunk_map :=
  if chunk_start =? 1024 * MiB then Some sample_dup_map else None.
Definition sample_rmap_block : Z -> Z -> rmap_result :=
  btrfs_rmap_block 65536 16 65535 384 8 64 (fun _ => 1)
    (fun stripe_nr => Z.shiftl stripe_nr 16) sample_get_chunk_map.

(** A group of 200000 bytes at the address 0, below the primary
    superblock, that holds its first copy of 4096 bytes; an extent tree
    with a record below the superblock and one of 1000 bytes at 100000. *)
Definition low_group : btrfs_block_group :=
  empty_block_group 0 200000 SAMPLE_DATA.
Definition low_excluded : list (Z * Z) := [(65536, 69631)].
Definition low_extent_root : list btrfs_key :=
  [mk_key 0 168 10; mk_key 100000 168 1000].

(** * Facts *)

Lemma size_class_eqb_eq a b : size_class_eqb a b = true <-> a = b.
Proof. destruct a, b; simpl; split; congruence. Qed.

Lemma size_class_eqb_refl a : size_class_eqb a a = true.
Proof. destruct a; reflexivity. Qed.

Lemma u64_range x : is_u64 (u64 x).
Proof. unfold is_u64, u64. apply Z.mod_pos_bound. reflexivity. Qed.

Lemma u64_small x : is_u64 x -> u64 x = x.
Proof. unfold is_u64, u64. intros H. apply Z.mod_small. exact H. Qed.

Lemma u32_small x : 0 <= x < 2 ^ 32 -> u32 x = x.
Proof. unfold u32. intros H. apply Z.mod_small. exact H. Qed.

Lemma eqb_neq_negb x y : negb (x =? y) = true <-> x <> y.
Proof. rewrite negb_true_iff. apply Z.eqb_neq. Qed.

(** Case analysis on a boolean of the context that stays in the context. *)
Ltac case_bool b :=
  let z := fresh "z" in
  generalize b; intros z; destruct z.

(** Arithmetic on the counters: unfold the [u64] operations and decide the
    linear problem over quotients and remainders. *)
Ltac fields :=
  cbn [bg_start bg_length bg_flags bg_used bg_reserved bg_pinned
       bg_bytes_super bg_zone_unusable bg_delalloc_bytes bg_ro
       bg_swap_extents bg_size_class bg_alloc_offset bg_zone_capacity
       bg_refs bg_space_info bg_bg_list bg_dirty_list bg_runtime_flags
       bg_frozen
       set_bg_used set_bg_reserved set_bg_pinned set_bg_zone_unusable
       set_bg_delalloc_bytes set_bg_ro set_bg_swap_extents set_bg_size_class
       set_bg_refs set_bg_bg_list set_bg_dirty_list set_bg_frozen
       si_flags si_total_bytes si_bytes_used si_bytes_reserved
       si_bytes_pinned si_bytes_readonly si_bytes_zone_unusable
       si_bytes_may_use si_disk_used si_max_extent_size
       si_bg_reclaim_threshold
       set_si_bytes_used set_si_bytes_reserved set_si_bytes_pinned
       set_si_bytes_readonly set_si_bytes_zone_unusable set_si_bytes_may_use
       set_si_disk_used set_si_max_extent_size] in *.

Ltac counters :=
  unfold bg_invariant, bg_well_typed, bg_accounted, bg_free_bytes, is_u64 in *;
  fields;
  unfold add64, sub64, mul64, u64, u32 in *;
  Z.div_mod_to_equations; lia.

Section AccountingFacts.

Variable btrfs_is_zoned : bool.
Variable btrfs_is_block_group_data_only : btrfs_block_group -> bool.
Variable btrfs_try_granting_tickets : btrfs_space_info -> btrfs_space_info.
Variable btrfs_space_info_used : btrfs_space_info -> bool -> Z.
Variable btrfs_can_overcommit : btrfs_space_info -> Z -> bool.
Variable BTRFS_BLOCK_GROUP_DATA : Z.
Variable btrfs_bg_type_to_factor : Z -> Z.
Variable mult_perc : Z -> Z -> Z.

Local Abbreviation should_use_size_class :=
  (btrfs_block_group_should_use_size_class btrfs_is_zoned
     btrfs_is_block_group_data_only).
Local Abbreviation add_reserved_bytes :=
  (btrfs_add_reserved_bytes btrfs_is_zoned btrfs_is_block_group_data_only
     btrfs_try_granting_tickets).
Local Abbreviation free_reserved_bytes :=
  (btrfs_free_reserved_bytes btrfs_try_granting_tickets).
Local Abbreviation update_counters :=
  (update_block_group_counters btrfs_bg_type_to_factor mult_perc).
Local Abbreviation inc_ro :=
  (inc_block_group_ro btrfs_is_zoned btrfs_space_info_used
     btrfs_can_overcommit BTRFS_BLOCK_GROUP_DATA).
Local Abbreviation dec_ro := (btrfs_dec_block_group_ro btrfs_is_zoned).
Local Abbreviation attached_group :=
  (attach_group btrfs_is_zoned btrfs_is_block_group_data_only).

Lemma use_size_class_admitted cache num_bytes force :
  size_class_admits true cache num_bytes force = true ->
  btrfs_use_block_group_size_class cache
    (btrfs_calc_block_group_size_class num_bytes) force
  = (OK,
     if size_class_eqb (bg_size_class cache) BTRFS_BG_SZ_NONE
     then set_bg_size_class (btrfs_calc_block_group_size_class num_bytes) cache
     else cache).
Proof.
  unfold size_class_admits, btrfs_use_block_group_size_class. simpl.
  destruct (size_class_eqb (bg_size_class cache)
              (btrfs_calc_block_group_size_class num_bytes)) eqn:E.
  - intros _. apply size_class_eqb_eq in E.
    destruct (size_class_eqb (bg_size_class cache) BTRFS_BG_SZ_NONE) eqn:N;
      [| reflexivity].
    apply size_class_eqb_eq in N. f_equal.
    destruct cache; unfold set_bg_size_class; simpl in *. congruence.
  - destruct (size_class_eqb (bg_size_class cache) BTRFS_BG_SZ_NONE); simpl.
    + reflexivity.
    + intros ->. reflexivity.
Qed.

Lemma add_reserved_bytes_attach cache space_info ram_bytes num_bytes delalloc
  force :
  bg_ro cache = 0 ->
  size_class_admits (should_use_size_class cache) cache num_bytes force
  = true ->
  add_reserved_bytes cache space_info ram_bytes num_bytes delalloc force
  = (OK, attached_group cache num_bytes delalloc,
     if num_bytes <? ram_bytes
     then btrfs_try_granting_tickets
            (attach_class space_info ram_bytes num_bytes)
     else attach_class space_info ram_bytes num_bytes).
Proof.
  intros Hro Hadm.
  unfold btrfs_add_reserved_bytes, attach_group, attach_class.
  rewrite Hro. simpl negb. cbv iota.
  destruct (should_use_size_class cache) eqn:Huse.
  - rewrite (use_size_class_admitted _ _ _ Hadm). simpl andb.
    unfold btrfs_space_info_update_bytes_may_use.
    destruct (size_class_eqb (bg_size_class cache) BTRFS_BG_SZ_NONE),
      delalloc; reflexivity.
  - simpl andb. unfold btrfs_space_info_update_bytes_may_use.
    destruct delalloc; reflexivity.
Qed.

Lemma attach_group_shape cache num_bytes delalloc :
  bg_start (attached_group cache num_bytes delalloc) = bg_start cache
  /\ bg_length (attached_group cache num_bytes delalloc) = bg_length cache
  /\ bg_flags (attached_group cache num_bytes delalloc) = bg_flags cache
  /\ bg_used (attached_group cache num_bytes delalloc) = bg_used cache
  /\ bg_reserved (attached_group cache num_bytes delalloc)
     = (bg_reserved cache + num_bytes)%u64
  /\ bg_pinned (attached_group cache num_bytes delalloc) = bg_pinned cache
  /\ bg_bytes_super (attached_group cache num_bytes delalloc)
     = bg_bytes_super cache
  /\ bg_zone_unusable (attached_group cache num_bytes delalloc)
     = bg_zone_unusable cache
  /\ bg_ro (attached_group cache num_bytes delalloc) = bg_ro cache
  /\ bg_size_class (attached_group cache num_bytes delalloc)
     = (if should_use_size_class cache
           && size_class_eqb (bg_size_class cache) BTRFS_BG_SZ_NONE
        then btrfs_calc_block_group_size_class num_bytes
        else bg_size_class cache).
Proof.
  unfold attach_group.
  destruct (should_use_size_class cache
            && size_class_eqb (bg_size_class cache) BTRFS_BG_SZ_NONE),
    delalloc; repeat split; reflexivity.
Qed.

(** C2.  A group whose read-only counter is not zero refuses a new
    reservation with [-EAGAIN] and the group and its class stay as they
    were.  On a group whose counter is zero, with an admissible size class,
    the call succeeds: the group's [reserved] and the class's
    [bytes_reserved] grow by [num_bytes] and [bytes_may_use] shrinks by
    [ram_bytes] (all in [u64]), [used] and the other class counters stay,
    and the ticket wake-up runs on that class only when fewer bytes were
    attached than had been soft-reserved. *)
Theorem add_reserved_bytes_gate cache space_info ram_bytes num_bytes delalloc
  force :
  (bg_ro cache <> 0 ->
   add_reserved_bytes cache space_info ram_bytes num_bytes delalloc force
   = (ERR EAGAIN, cache, space_info))
  /\
  (bg_ro cache = 0 ->
   size_class_admits (should_use_size_class cache) cache num_bytes force
   = true ->
   let cache' := attached_group cache num_bytes delalloc in
   let space_info' := attach_class space_info ram_bytes num_bytes in
   add_reserved_bytes cache space_info ram_bytes num_bytes delalloc force
   = (OK, cache',
      if num_bytes <? ram_bytes then btrfs_try_granting_tickets space_info'
      else space_info')
   /\ bg_reserved cache' = (bg_reserved cache + num_bytes)%u64
   /\ bg_used cache' = bg_used cache
   /\ bg_pinned cache' = bg_pinned cache
   /\ bg_ro cache' = 0
   /\ bg_delalloc_bytes cache'
      = (if delalloc then (bg_delalloc_bytes cache + num_bytes)%u64
         else bg_delalloc_bytes cache)
   /\ si_bytes_reserved space_info'
      = (si_bytes_reserved space_info + num_bytes)%u64
   /\ si_bytes_may_use space_info'
      = (si_bytes_may_use space_info - ram_bytes)%u64
   /\ si_bytes_used space_info' = si_bytes_used space_info
   /\ si_bytes_pinned space_info' = si_bytes_pinned space_info
   /\ si_bytes_readonly space_info' = si_bytes_readonly space_info
   /\ si_total_bytes space_info' = si_total_bytes space_info).
Proof.
  split.
  - intros Hro. unfold btrfs_add_reserved_bytes.
    apply eqb_neq_negb in Hro. rewrite Hro. reflexivity.
  - intros Hro Hadm. cbv zeta. split.
    + apply add_reserved_bytes_attach; assumption.
    + unfold attach_group, attach_class.
      destruct (should_use_size_class cache
                && size_class_eqb (bg_size_class cache) BTRFS_BG_SZ_NONE),
        delalloc; simpl; rewrite ?Hro; repeat split; reflexivity.
Qed.

(** *** What each operation does to the counters of the group *)

Lemma add_reserved_bytes_shape cache sinfo ram_bytes num_bytes delalloc force
  cache' sinfo' :
  add_reserved_bytes cache sinfo ram_bytes num_bytes delalloc force
  = (OK, cache', sinfo') ->
  bg_ro cache = 0
  /\ bg_length cache' = bg_length cache
  /\ bg_used cache' = bg_used cache
  /\ bg_reserved cache' = (bg_reserved cache + num_bytes)%u64
  /\ bg_pinned cache' = bg_pinned cache
  /\ bg_bytes_super cache' = bg_bytes_super cache
  /\ bg_zone_unusable cache' = bg_zone_unusable cache
  /\ bg_ro cache' = bg_ro cache
  /\ bg_swap_extents cache' = bg_swap_extents cache.
Proof.
  unfold btrfs_add_reserved_bytes.
  destruct (bg_ro cache =? 0) eqn:Hro; simpl negb; cbv iota; [| discriminate].
  apply Z.eqb_eq in Hro.
  destruct (should_use_size_class cache).
  - unfold btrfs_use_block_group_size_class.
    destruct (size_class_eqb (bg_size_class cache) _);
      [| destruct (negb (size_class_eqb (bg_size_class cache) _));
         [destruct force; [| discriminate] |]];
      destruct delalloc; intros H; inversion H; subst; simpl;
      repeat split; auto.
  - destruct delalloc; intros H; inversion H; subst; simpl;
      repeat split; auto.
Qed.

Lemma free_reserved_bytes_shape cache sinfo num_bytes delalloc cache' sinfo' :
  free_reserved_bytes cache sinfo num_bytes delalloc = (cache', sinfo') ->
  bg_length cache' = bg_length cache
  /\ bg_used cache' = bg_used cache
  /\ bg_reserved cache' = (bg_reserved cache - num_bytes)%u64
  /\ bg_pinned cache' = bg_pinned cache
  /\ bg_bytes_super cache' = bg_bytes_super cache
  /\ bg_zone_unusable cache' = bg_zone_unusable cache
  /\ bg_ro cache' = bg_ro cache
  /\ bg_swap_extents cache' = bg_swap_extents cache.
Proof.
  unfold btrfs_free_reserved_bytes.
  destruct delalloc; intros H; inversion H; subst; simpl; repeat split; auto.
Qed.

Lemma update_counters_shape cache sinfo num_bytes alloc cache' sinfo' reclaim :
  update_counters cache sinfo num_bytes alloc = (cache', sinfo', reclaim) ->
  bg_length cache' = bg_length cache
  /\ bg_used cache'
     = (if alloc then (bg_used cache + num_bytes)%u64
        else (bg_used cache - num_bytes)%u64)
  /\ bg_reserved cache'
     = (if alloc then (bg_reserved cache - num_bytes)%u64
        else bg_reserved cache)
  /\ bg_pinned cache'
     = (if alloc then bg_pinned cache
        else (bg_pinned cache + num_bytes)%u64)
  /\ bg_bytes_super cache' = bg_bytes_super cache
  /\ bg_zone_unusable cache' = bg_zone_unusable cache
  /\ bg_ro cache' = bg_ro cache
  /\ bg_swap_extents cache' = bg_swap_extents cache.
Proof.
  unfold update_block_group_counters.
  destruct alloc; intros H; inversion H; subst; simpl; repeat split; auto.
Qed.

Lemma inc_ro_shape cache sinfo force cache' sinfo' :
  inc_ro cache sinfo force = (OK, cache', sinfo') ->
  bg_swap_extents cache = 0
  /\ bg_length cache' = bg_length cache
  /\ bg_used cache' = bg_used cache
  /\ bg_reserved cache' = bg_reserved cache
  /\ bg_pinned cache' = bg_pinned cache
  /\ bg_bytes_super cache' = bg_bytes_super cache
  /\ bg_zone_unusable cache'
     = (if btrfs_is_zoned && (bg_ro cache =? 0) then 0
        else bg_zone_unusable cache)
  /\ bg_ro cache' = u32 (bg_ro cache + 1)
  /\ bg_swap_extents cache' = bg_swap_extents cache.
Proof.
  unfold inc_block_group_ro.
  destruct (bg_swap_extents cache =? 0) eqn:Hsw; simpl negb; cbv iota;
    [| discriminate].
  apply Z.eqb_eq in Hsw.
  destruct (bg_ro cache =? 0) eqn:Hro; simpl negb; cbv iota.
  - rewrite andb_true_r.
    match goal with
    | |- context [match ?r with OK => _ | ERR _ => _ end] => destruct r
    end; [| discriminate].
    case_bool btrfs_is_zoned; intros H; inversion H; subst; simpl;
      repeat split; auto.
  - rewrite andb_false_r.
    intros H; inversion H; subst; simpl; repeat split; auto.
Qed.

Lemma dec_ro_shape cache sinfo cache' sinfo' :
  dec_ro cache sinfo = Some (cache', sinfo') ->
  bg_ro cache <> 0
  /\ bg_length cache' = bg_length cache
  /\ bg_used cache' = bg_used cache
  /\ bg_reserved cache' = bg_reserved cache
  /\ bg_pinned cache' = bg_pinned cache
  /\ bg_bytes_super cache' = bg_bytes_super cache
  /\ bg_zone_unusable cache'
     = (if btrfs_is_zoned && (u32 (bg_ro cache - 1) =? 0) then
          ((bg_alloc_offset cache - bg_used cache)
           + (bg_length cache - bg_zone_capacity cache))%u64
        else bg_zone_unusable cache)
  /\ bg_ro cache' = u32 (bg_ro cache - 1)
  /\ bg_swap_extents cache' = bg_swap_extents cache.
Proof.
  unfold btrfs_dec_block_group_ro.
  destruct (bg_ro cache =? 0) eqn:Hro; [discriminate |].
  apply Z.eqb_neq in Hro. simpl bg_ro.
  destruct (u32 (bg_ro cache - 1) =? 0) eqn:Hz.
  - rewrite andb_true_r.
    case_bool btrfs_is_zoned; intros H; inversion H; subst; simpl;
      repeat split; auto.
  - rewrite andb_false_r.
    intros H; inversion H; subst; simpl; repeat split; auto.
Qed.

Lemma inc_swap_extents_shape bg bg' :
  btrfs_inc_block_group_swap_extents bg = (true, bg') ->
  bg_ro bg = 0
  /\ bg_length bg' = bg_length bg
  /\ bg_used bg' = bg_used bg
  /\ bg_reserved bg' = bg_reserved bg
  /\ bg_pinned bg' = bg_pinned bg
  /\ bg_bytes_super bg' = bg_bytes_super bg
  /\ bg_zone_unusable bg' = bg_zone_unusable bg
  /\ bg_ro bg' = bg_ro bg
  /\ bg_swap_extents bg' = bg_swap_extents bg + 1.
Proof.
  unfold btrfs_inc_block_group_swap_extents.
  destruct (bg_ro bg =? 0) eqn:Hro; simpl negb; cbv iota; [| discriminate].
  apply Z.eqb_eq in Hro.
  intros H; inversion H; subst; simpl; repeat split; auto.
Qed.

Lemma dec_swap_extents_shape bg amount bg' :
  btrfs_dec_block_group_swap_extents bg amount = Some bg' ->
  bg_ro bg = 0
  /\ amount <= bg_swap_extents bg
  /\ bg_length bg' = bg_length bg
  /\ bg_used bg' = bg_used bg
  /\ bg_reserved bg' = bg_reserved bg
  /\ bg_pinned bg' = bg_pinned bg
  /\ bg_bytes_super bg' = bg_bytes_super bg
  /\ bg_zone_unusable bg' = bg_zone_unusable bg
  /\ bg_ro bg' = bg_ro bg
  /\ bg_swap_extents bg' = bg_swap_extents bg - amount.
Proof.
  unfold btrfs_dec_block_group_swap_extents.
  destruct (bg_ro bg =? 0) eqn:Hro; simpl negb; cbv iota; [| discriminate].
  apply Z.eqb_eq in Hro.
  destruct (bg_swap_extents bg <? amount) eqn:Hlt; [discriminate |].
  apply Z.ltb_ge in Hlt.
  intros H; inversion H; subst; simpl; repeat split; auto.
Qed.

(** *** The accounting invariant along covered operations *)

Local Abbreviation step :=
  (bg_step btrfs_is_zoned btrfs_is_block_group_data_only
     btrfs_try_granting_tickets btrfs_space_info_used btrfs_can_overcommit
     BTRFS_BLOCK_GROUP_DATA btrfs_bg_type_to_factor mult_perc).
Local Abbreviation run :=
  (bg_run btrfs_is_zoned btrfs_is_block_group_data_only
     btrfs_try_granting_tickets btrfs_space_info_used btrfs_can_overcommit
     BTRFS_BLOCK_GROUP_DATA btrfs_bg_type_to_factor mult_perc).

Lemma bg_step_invariant op cache sinfo cache' sinfo' :
  bg_well_typed cache -> bg_invariant cache ->
  op_covered btrfs_is_zoned op cache ->
  step op (cache, sinfo) = Some (cache', sinfo') ->
  bg_well_typed cache' /\ bg_invariant cache'.
Proof.
  intros Hwt Hinv Hcov Hstep.
  destruct op; unfold bg_step in Hstep; simpl in Hcov.
  - destruct (add_reserved_bytes _ _ _ _ _ _) as [[[|e] c] s] eqn:E;
      [| discriminate].
    inversion Hstep; subst. apply add_reserved_bytes_shape in E.
    destruct E as (_ & EL & EU & ER & EP & ES & EZ & ERO & _).
    unfold bg_well_typed, bg_invariant, bg_accounted in *.
    rewrite EL, EU, ER, EP, ES, EZ, ERO. counters.
  - destruct (free_reserved_bytes _ _ _ _) as [c s] eqn:E.
    inversion Hstep; subst. apply free_reserved_bytes_shape in E.
    destruct E as (EL & EU & ER & EP & ES & EZ & ERO & _).
    unfold bg_well_typed, bg_invariant, bg_accounted in *.
    rewrite EL, EU, ER, EP, ES, EZ, ERO. counters.
  - destruct (update_counters _ _ _ _) as [[c s] r] eqn:E.
    inversion Hstep; subst. apply update_counters_shape in E.
    destruct E as (EL & EU & ER & EP & ES & EZ & ERO & _).
    unfold bg_well_typed, bg_invariant, bg_accounted in *.
    rewrite EL, EU, ER, EP, ES, EZ, ERO. counters.
  - destruct (update_counters _ _ _ _) as [[c s] r] eqn:E.
    inversion Hstep; subst. apply update_counters_shape in E.
    destruct E as (EL & EU & ER & EP & ES & EZ & ERO & _).
    unfold bg_well_typed, bg_invariant, bg_accounted in *.
    rewrite EL, EU, ER, EP, ES, EZ, ERO. counters.
  - destruct (inc_ro _ _ _) as [[[|e] c] s] eqn:E; [| discriminate].
    inversion Hstep; subst. apply inc_ro_shape in E.
    destruct E as (_ & EL & EU & ER & EP & ES & EZ & ERO & _).
    unfold bg_well_typed, bg_invariant, bg_accounted in *.
    rewrite EL, EU, ER, EP, ES, EZ, ERO.
    destruct (btrfs_is_zoned && (bg_ro cache =? 0)); counters.
  - apply dec_ro_shape in Hstep.
    destruct Hstep as (Hro & EL & EU & ER & EP & ES & EZ & ERO & _).
    unfold bg_well_typed, bg_invariant, bg_accounted in *.
    rewrite EL, EU, ER, EP, ES, EZ, ERO.
    destruct (u32 (bg_ro cache - 1) =? 0) eqn:Hz.
    + apply Z.eqb_eq in Hz.
      assert (bg_ro cache = 1) by counters.
      destruct Hcov as [-> | ?]; [simpl; counters | contradiction].
    + rewrite andb_false_r. counters.
  - destruct (inc_ro _ _ _) as [[[|e] c] s] eqn:E; [| discriminate].
    apply inc_ro_shape in E.
    destruct E as (_ & EL & EU & ER & EP & ES & EZ & ERO & _).
    assert (Hc : bg_well_typed c /\ bg_invariant c).
    { unfold bg_well_typed, bg_invariant, bg_accounted in *.
      rewrite EL, EU, ER, EP, ES, EZ, ERO.
      destruct (btrfs_is_zoned && (bg_ro cache =? 0)); counters. }
    destruct relocated.
    + inversion Hstep; subst. exact Hc.
    + destruct Hcov as [Hz | ?]; [| discriminate].
      apply dec_ro_shape in Hstep. rewrite Hz in Hstep. simpl in Hstep.
      destruct Hstep as (Hro & EL' & EU' & ER' & EP' & ES' & EZ' & ERO' & _).
      destruct Hc as [Hc1 Hc2].
      unfold bg_well_typed, bg_invariant, bg_accounted in *.
      rewrite EL', EU', ER', EP', ES', EZ', ERO'. counters.
  - destruct (btrfs_inc_block_group_swap_extents cache) as [[|] c] eqn:E;
      [| discriminate].
    inversion Hstep; subst. apply inc_swap_extents_shape in E.
    destruct E as (_ & EL & EU & ER & EP & ES & EZ & ERO & _).
    unfold bg_well_typed, bg_invariant, bg_accounted in *.
    rewrite EL, EU, ER, EP, ES, EZ, ERO. counters.
  - destruct (btrfs_dec_block_group_swap_extents cache amount) as [c |] eqn:E;
      [| discriminate].
    inversion Hstep; subst. apply dec_swap_extents_shape in E.
    destruct E as (_ & _ & EL & EU & ER & EP & ES & EZ & ERO & _).
    unfold bg_well_typed, bg_invariant, bg_accounted in *.
    rewrite EL, EU, ER, EP, ES, EZ, ERO. counters.
Qed.

(** C1, as amended.  Along operations whose byte counts are covered (a
    reservation fits in the bytes of the group that no counter claims, a
    commit or a dropped reservation in [reserved], a free in [used];
    read-only cleared on a filesystem that is not zoned), from a group
    whose counters satisfy
    [used + reserved + pinned + bytes_super + zone_unusable <= length],
    every state reached satisfies it, whatever other groups do to the
    class. *)
Theorem accounting_invariant_covered st0 st :
  bg_well_typed (fst st0) -> bg_invariant (fst st0) ->
  run true st0 st ->
  bg_invariant (fst st).
Proof.
  intros Hwt Hinv Hrun.
  enough (bg_well_typed (fst st) /\ bg_invariant (fst st)) by tauto.
  induction Hrun as [| st op st' Hrun IH Hcov Hstep | cache sinfo sinfo' Hrun IH].
  - split; assumption.
  - destruct st as [cache sinfo], st' as [cache' sinfo']. simpl in *.
    destruct IH as [IH1 IH2].
    exact (bg_step_invariant op cache sinfo cache' sinfo' IH1 IH2
             (Hcov eq_refl) Hstep).
  - exact IH.
Qed.

(** *** The read-only counter and the swap-extents counter *)

Lemma bg_step_ro_swap op cache sinfo cache' sinfo' :
  ro_swap_exclusive cache ->
  step op (cache, sinfo) = Some (cache', sinfo') ->
  ro_swap_exclusive cache'.
Proof.
  unfold ro_swap_exclusive. intros Hex Hstep.
  destruct op; unfold bg_step in Hstep.
  - destruct (add_reserved_bytes _ _ _ _ _ _) as [[[|e] c] s] eqn:E;
      [| discriminate].
    inversion Hstep; subst. apply add_reserved_bytes_shape in E.
    destruct E as (_ & _ & _ & _ & _ & _ & _ & ERO & ESW). lia.
  - destruct (free_reserved_bytes _ _ _ _) as [c s] eqn:E.
    inversion Hstep; subst. apply free_reserved_bytes_shape in E.
    destruct E as (_ & _ & _ & _ & _ & _ & ERO & ESW). lia.
  - destruct (update_counters _ _ _ _) as [[c s] r] eqn:E.
    inversion Hstep; subst. apply update_counters_shape in E.
    destruct E as (_ & _ & _ & _ & _ & _ & ERO & ESW). lia.
  - destruct (update_counters _ _ _ _) as [[c s] r] eqn:E.
    inversion Hstep; subst. apply update_counters_shape in E.
    destruct E as (_ & _ & _ & _ & _ & _ & ERO & ESW). lia.
  - destruct (inc_ro _ _ _) as [[[|e] c] s] eqn:E; [| discriminate].
    inversion Hstep; subst. apply inc_ro_shape in E.
    destruct E as (Hsw & _ & _ & _ & _ & _ & _ & _ & ESW). lia.
  - apply dec_ro_shape in Hstep.
    destruct Hstep as (Hro & _ & _ & _ & _ & _ & _ & _ & ESW). lia.
  - destruct (inc_ro _ _ _) as [[[|e] c] s] eqn:E; [| discriminate].
    apply inc_ro_shape in E.
    destruct E as (Hsw & _ & _ & _ & _ & _ & _ & _ & ESW).
    destruct relocated.
    + inversion Hstep; subst. lia.
    + apply dec_ro_shape in Hstep.
      destruct Hstep as (Hro & _ & _ & _ & _ & _ & _ & _ & ESW'). lia.
  - destruct (btrfs_inc_block_group_swap_extents cache) as [[|] c] eqn:E;
      [| discriminate].
    inversion Hstep; subst. apply inc_swap_extents_shape in E.
    destruct E as (Hro & _ & _ & _ & _ & _ & _ & ERO & _). lia.
  - destruct (btrfs_dec_block_group_swap_extents cache amount) as [c |] eqn:E;
      [| discriminate].
    inversion Hstep; subst. apply dec_swap_extents_shape in E.
    destruct E as (Hro & _ & _ & _ & _ & _ & _ & _ & ERO & _). lia.
Qed.

(** C10.  Enabling swap-extents on a read-only group returns failure and
    leaves the group as it was; setting read-only fails with [-ETXTBSY],
    changing nothing, while swap-extents is nonzero; decrementing
    swap-extents trips its assertion on a read-only group; and from a
    group whose two counters are not both nonzero, no sequence of
    operations reaches a state where they are. *)
Theorem ro_swap_never_both :
  (forall bg, bg_ro bg <> 0 ->
     btrfs_inc_block_group_swap_extents bg = (false, bg))
  /\ (forall cache sinfo force, bg_swap_extents cache <> 0 ->
       inc_ro cache sinfo force = (ERR ETXTBSY, cache, sinfo))
  /\ (forall bg amount, bg_ro bg <> 0 ->
       btrfs_dec_block_group_swap_extents bg amount = None)
  /\ (forall st0 st, ro_swap_exclusive (fst st0) -> run false st0 st ->
       ro_swap_exclusive (fst st)).
Proof.
  repeat split.
  - intros bg Hro. unfold btrfs_inc_block_group_swap_extents.
    apply eqb_neq_negb in Hro. rewrite Hro. reflexivity.
  - intros cache sinfo force Hsw. unfold inc_block_group_ro.
    apply eqb_neq_negb in Hsw. rewrite Hsw. reflexivity.
  - intros bg amount Hro. unfold btrfs_dec_block_group_swap_extents.
    apply eqb_neq_negb in Hro. rewrite Hro. reflexivity.
  - intros st0 st H0 Hrun.
    induction Hrun as [| st op st' Hrun IH Hcov Hstep | cache sinfo sinfo' Hrun IH].
    + assumption.
    + destruct st as [cache sinfo], st' as [cache' sinfo']. simpl in *.
      exact (bg_step_ro_swap op cache sinfo cache' sinfo' IH Hstep).
    + exact IH.
Qed.

(** *** Read-only *)

(** The bytes the first [inc_block_group_ro] moves to [bytes_readonly]:
    the free bytes of the group, and on a zoned filesystem its unusable
    bytes too. *)
Lemma inc_ro_first cache sinfo force cache1 sinfo1 :
  bg_ro cache = 0 ->
  inc_ro cache sinfo force = (OK, cache1, sinfo1) ->
  bg_swap_extents cache = 0
  /\ cache1
     = set_bg_ro 1
         (if btrfs_is_zoned then set_bg_zone_unusable 0 cache else cache)
  /\ sinfo1
     = (if btrfs_is_zoned then
          set_si_bytes_zone_unusable
            (si_bytes_zone_unusable sinfo - bg_zone_unusable cache)%u64
            (set_si_bytes_readonly
               ((si_bytes_readonly sinfo + bg_free_bytes cache)
                + bg_zone_unusable cache)%u64 sinfo)
        else
          set_si_bytes_readonly
            (si_bytes_readonly sinfo + bg_free_bytes cache)%u64 sinfo).
Proof.
  intros Hro. unfold inc_block_group_ro.
  destruct (bg_swap_extents cache =? 0) eqn:Hsw; simpl negb; cbv iota;
    [| discriminate].
  apply Z.eqb_eq in Hsw. rewrite Hro. simpl negb. cbv iota.
  match goal with
  | |- context [match ?r with OK => _ | ERR _ => _ end] => destruct r
  end; [| discriminate].
  case_bool btrfs_is_zoned; intros H; inversion H; subst; simpl;
    rewrite ?Hro; repeat split; auto.
Qed.

(** C5, as amended.  With [force], [inc_block_group_ro] succeeds exactly
    when the swap-extents counter is zero, and then takes the read-only
    counter from 0 to 1; when swap-extents is nonzero every call, forced or
    not, fails with [-ETXTBSY] and changes nothing.  Without [force], on a
    group of a data class that is not read-only yet, the call succeeds when
    the class-wide usage plus the free bytes of the group stays within
    [total_bytes], and otherwise fails with [-ENOSPC] and changes
    nothing. *)
Theorem inc_block_group_ro_admission cache sinfo :
  (bg_swap_extents cache = 0 ->
   exists cache' sinfo',
     inc_ro cache sinfo true = (OK, cache', sinfo')
     /\ bg_ro cache' = u32 (bg_ro cache + 1)
     /\ (bg_ro cache = 0 -> bg_ro cache' = 1))
  /\ (bg_swap_extents cache <> 0 ->
      forall force, inc_ro cache sinfo force = (ERR ETXTBSY, cache, sinfo))
  /\ (bg_swap_extents cache = 0 -> bg_ro cache = 0 ->
      Z.land (si_flags sinfo) BTRFS_BLOCK_GROUP_DATA <> 0 ->
      (si_total_bytes sinfo
       < (btrfs_space_info_used sinfo true + bg_free_bytes cache)%u64 ->
       inc_ro cache sinfo false = (ERR ENOSPC, cache, sinfo))
      /\ ((btrfs_space_info_used sinfo true + bg_free_bytes cache)%u64
          <= si_total_bytes sinfo ->
          exists cache' sinfo',
            inc_ro cache sinfo false = (OK, cache', sinfo')
            /\ bg_ro cache' = 1)).
Proof.
  split; [| split].
  - intros Hsw. unfold inc_block_group_ro. rewrite Hsw. simpl negb. cbv iota.
    destruct (bg_ro cache =? 0) eqn:Hro; simpl negb; cbv iota.
    + apply Z.eqb_eq in Hro.
      case_bool btrfs_is_zoned; eexists; eexists;
        (split; [reflexivity |]); simpl; rewrite Hro; split; auto.
    + apply Z.eqb_neq in Hro.
      eexists; eexists. split; [reflexivity |]. simpl.
      split; [reflexivity | intros H0; contradiction].
  - intros Hsw force. unfold inc_block_group_ro.
    apply eqb_neq_negb in Hsw. rewrite Hsw. reflexivity.
  - intros Hsw Hro Hdata. apply eqb_neq_negb in Hdata.
    unfold inc_block_group_ro. rewrite Hsw, Hro, Hdata. simpl negb. cbv iota.
    split.
    + intros Hlt. apply Z.leb_gt in Hlt. rewrite Hlt. reflexivity.
    + intros Hle. apply Z.leb_le in Hle. rewrite Hle.
      case_bool btrfs_is_zoned; eexists; eexists;
        (split; [reflexivity |]); simpl; rewrite Hro; reflexivity.
Qed.

(** C6.  On a group that is not read-only, a first successful
    [inc_block_group_ro] takes the counter to 1 and adds the free bytes of
    the group (on a zoned filesystem its unusable bytes as well) to the
    class's [bytes_readonly]; a second call only takes the counter to 2; the
    first [btrfs_dec_block_group_ro] only takes it back to 1; the second
    takes it to 0 and subtracts from [bytes_readonly] what the first call
    had added, so [bytes_readonly] ends at its original value.  On a
    filesystem that is not zoned the group and the class end as they
    began. *)
Theorem read_only_twice_round_trip cache sinfo force force' cache1 sinfo1 :
  bg_ro cache = 0 ->
  is_u64 (si_bytes_readonly sinfo) ->
  inc_ro cache sinfo force = (OK, cache1, sinfo1) ->
  let moved :=
    (bg_free_bytes cache
     + (if btrfs_is_zoned then bg_zone_unusable cache else 0))%u64 in
  bg_ro cache1 = 1
  /\ si_bytes_readonly sinfo1 = (si_bytes_readonly sinfo + moved)%u64
  /\ inc_ro cache1 sinfo1 force' = (OK, set_bg_ro 2 cache1, sinfo1)
  /\ dec_ro (set_bg_ro 2 cache1) sinfo1 = Some (cache1, sinfo1)
  /\ exists cache4 sinfo4,
       dec_ro cache1 sinfo1 = Some (cache4, sinfo4)
       /\ bg_ro cache4 = 0
       /\ si_bytes_readonly sinfo4 = (si_bytes_readonly sinfo1 - moved)%u64
       /\ si_bytes_readonly sinfo4 = si_bytes_readonly sinfo
       /\ (btrfs_is_zoned = false -> cache4 = cache /\ sinfo4 = sinfo).
Proof.
  intros Hro HR Hinc moved.
  destruct (inc_ro_first _ _ _ _ _ Hro Hinc) as (Hsw & -> & ->).
  subst moved. unfold inc_block_group_ro, btrfs_dec_block_group_ro.
  case_bool btrfs_is_zoned; simpl; rewrite ?Hsw; simpl.
  - repeat split; [counters |].
    eexists; eexists. split; [reflexivity |]. simpl.
    repeat split; try discriminate; counters.
  - repeat split; try counters.
    eexists; eexists. split; [reflexivity |]. simpl.
    repeat split; try counters.
    + destruct cache; simpl in *; subst; reflexivity.
    + destruct sinfo; simpl in *.
      unfold set_si_bytes_readonly; simpl. f_equal. counters.
Qed.

End AccountingFacts.

(** ** Reserve, commit and free through the registry *)

Lemma store_set_same {A : Type} (h : nat -> A) p v : store_set h p v p = v.
Proof. unfold store_set. rewrite Nat.eqb_refl. reflexivity. Qed.

Lemma store_set_other {A : Type} (h : nat -> A) p v q :
  q <> p -> store_set h p v q = h q.
Proof.
  unfold store_set. intros H. apply Nat.eqb_neq in H. rewrite H. reflexivity.
Qed.

Lemma tree_search_walk_same_keys bgs bgs' n bytenr contains ret :
  same_keys bgs bgs' ->
  tree_search_walk bgs' n bytenr contains ret
  = tree_search_walk bgs n bytenr contains ret.
Proof.
  intros Hk. revert ret.
  induction n as [| l IHl cache r IHr]; intros ret; simpl; [reflexivity |].
  destruct (Hk cache) as [-> ->].
  rewrite IHl, IHr.
  destruct ret as [q |]; [destruct (Hk q) as [-> _] |]; reflexivity.
Qed.

Lemma same_registry_refl info : same_registry info info.
Proof. split; [reflexivity | intros q; split; reflexivity]. Qed.

Lemma same_registry_trans a b c :
  same_registry a b -> same_registry b c -> same_registry a c.
Proof.
  intros [T1 K1] [T2 K2]. split; [congruence |].
  intros q. destruct (K1 q), (K2 q). split; congruence.
Qed.

Lemma registry_find_same info info' bytenr :
  same_registry info info' ->
  registry_find info' bytenr = registry_find info bytenr.
Proof.
  intros [HT HK]. unfold registry_find. rewrite HT.
  apply tree_search_walk_same_keys. exact HK.
Qed.

Lemma fs_store_same_registry info p g s :
  bg_start g = bg_start (fs_bg info p) ->
  bg_length g = bg_length (fs_bg info p) ->
  same_registry info (fs_store info p g s).
Proof.
  intros Hs Hl. split; [reflexivity |]. intros q. simpl.
  unfold store_set. destruct (Nat.eqb q p) eqn:E.
  - apply Nat.eqb_eq in E. subst q. split; assumption.
  - split; reflexivity.
Qed.

Lemma fs_store_bg_same_registry info p g :
  bg_start g = bg_start (fs_bg info p) ->
  bg_length g = bg_length (fs_bg info p) ->
  same_registry info (fs_store_bg info p g).
Proof.
  intros Hs Hl. split; [reflexivity |]. intros q. simpl.
  unfold store_set. destruct (Nat.eqb q p) eqn:E.
  - apply Nat.eqb_eq in E. subst q. split; assumption.
  - split; reflexivity.
Qed.

Lemma fs_store_bg_get info p g : fs_bg (fs_store info p g (fs_si info p)) p = g.
Proof. unfold fs_bg, fs_store. simpl. apply store_set_same. Qed.

(** Reading the heap after writes. *)
Ltac heap :=
  cbn [fs_block_groups fs_space_infos fs_block_group_cache_tree
       fs_super_bytes_used fs_reclaim_bgs fs_unused_bgs fs_running_transaction
       set_fs_block_groups set_fs_space_infos set_fs_block_group_cache_tree
       set_fs_super_bytes_used set_fs_reclaim_bgs set_fs_unused_bgs
       set_fs_running_transaction dirty_bgs deleted_bgs set_dirty_bgs
       set_deleted_bgs fs_bg fs_store_bg fs_store btrfs_get_block_group
       btrfs_put_block_group
       bg_start bg_length bg_flags bg_used bg_reserved bg_pinned
       bg_bytes_super bg_zone_unusable bg_delalloc_bytes bg_ro
       bg_swap_extents bg_size_class bg_alloc_offset bg_zone_capacity
       bg_refs bg_space_info bg_bg_list bg_dirty_list bg_runtime_flags
       bg_frozen
       set_bg_used set_bg_reserved set_bg_pinned set_bg_zone_unusable
       set_bg_delalloc_bytes set_bg_ro set_bg_swap_extents set_bg_size_class
       set_bg_refs set_bg_bg_list set_bg_dirty_list set_bg_frozen
       negb andb orb] in *;
  rewrite ?store_set_same in *.

(** ** Steps on the lists *)

Lemma links_step_refl p info : links_step p info info.
Proof. repeat split. Qed.

Lemma links_step_trans p a b c :
  links_step p a b -> links_step p b c -> links_step p a c.
Proof.
  intros (T1 & S1 & U1 & O1 & G1) (T2 & S2 & U2 & O2 & G2).
  repeat split; try congruence.
  intros q Hq. rewrite (O2 q Hq). apply O1. exact Hq.
Qed.

(** A write to the reference count or to a list node of the group. *)
Lemma links_step_touch p info h :
  (forall g, bg_unlinked (h g) = bg_unlinked g) ->
  links_step p info (fs_store_bg info p (h (fs_bg info p))).
Proof.
  intros Hh. unfold links_step, fs_store_bg, fs_bg. simpl.
  repeat split.
  - intros q Hq. apply store_set_other. exact Hq.
  - rewrite store_set_same. apply Hh.
Qed.

Lemma links_step_get p info :
  links_step p info (fs_store_bg info p (btrfs_get_block_group (fs_bg info p))).
Proof. apply (links_step_touch p info btrfs_get_block_group). reflexivity. Qed.

Lemma links_step_put p info :
  links_step p info (fs_store_bg info p (btrfs_put_block_group (fs_bg info p))).
Proof. apply (links_step_touch p info btrfs_put_block_group). reflexivity. Qed.

Lemma links_step_bg_list p info b :
  links_step p info (fs_store_bg info p (set_bg_bg_list b (fs_bg info p))).
Proof. apply (links_step_touch p info (set_bg_bg_list b)). reflexivity. Qed.

Lemma links_step_dirty_list p info b :
  links_step p info (fs_store_bg info p (set_bg_dirty_list b (fs_bg info p))).
Proof. apply (links_step_touch p info (set_bg_dirty_list b)). reflexivity. Qed.

Lemma links_step_unused_bgs p info l :
  links_step p info (set_fs_unused_bgs l info).
Proof. repeat split. Qed.

Lemma links_step_reclaim_bgs p info l :
  links_step p info (set_fs_reclaim_bgs l info).
Proof. repeat split. Qed.

Lemma links_step_running_transaction p info t :
  links_step p info (set_fs_running_transaction t info).
Proof. repeat split. Qed.

Lemma links_step_list_add_tail_unused_bgs p info :
  links_step p info (list_add_tail_unused_bgs info p).
Proof.
  unfold list_add_tail_unused_bgs.
  eapply links_step_trans;
    [apply links_step_bg_list | apply links_step_unused_bgs].
Qed.

Lemma links_step_list_add_tail_reclaim_bgs p info :
  links_step p info (list_add_tail_reclaim_bgs info p).
Proof.
  unfold list_add_tail_reclaim_bgs.
  eapply links_step_trans;
    [apply links_step_bg_list | apply links_step_reclaim_bgs].
Qed.

Lemma links_step_list_del_bg_list p info :
  links_step p info (list_del_bg_list info p).
Proof.
  unfold list_del_bg_list.
  destruct (bg_bg_list (fs_bg info p)); repeat split.
Qed.

Lemma links_step_mark_bg_to_reclaim p info :
  links_step p info (btrfs_mark_bg_to_reclaim info p).
Proof.
  unfold btrfs_mark_bg_to_reclaim.
  destruct (negb (bg_bg_list (fs_bg info p))); [| apply links_step_refl].
  eapply links_step_trans;
    [apply links_step_get | apply links_step_list_add_tail_reclaim_bgs].
Qed.

Lemma links_step_mark_bg_unused BLOCK_GROUP_FLAG_NEW p info :
  links_step p info (btrfs_mark_bg_unused BLOCK_GROUP_FLAG_NEW info p).
Proof.
  unfold btrfs_mark_bg_unused.
  destruct (negb (bg_bg_list (fs_bg info p))).
  - eapply links_step_trans;
      [apply links_step_get | apply links_step_list_add_tail_unused_bgs].
  - destruct (negb (Z.testbit _ _)); [| apply links_step_refl].
    eapply links_step_trans;
      [apply links_step_list_del_bg_list
      | apply links_step_list_add_tail_unused_bgs].
Qed.

(** A step on the lists keeps the registry. *)
Lemma links_step_same_registry p info info' :
  links_step p info info' -> same_registry info info'.
Proof.
  intros (T & _ & _ & O & G). split; [exact T |]. intros q.
  destruct (Nat.eq_dec q p) as [-> | Hq].
  - split.
    + exact (f_equal bg_start G).
    + exact (f_equal bg_length G).
  - unfold fs_bg in O. rewrite (O q Hq). split; reflexivity.
Qed.

Section UpdateFacts.

Variable btrfs_is_zoned : bool.
Variable btrfs_is_block_group_data_only : btrfs_block_group -> bool.
Variable btrfs_try_granting_tickets : btrfs_space_info -> btrfs_space_info.
Variable btrfs_bg_type_to_factor : Z -> Z.
Variable mult_perc : Z -> Z -> Z.
Variable discard_async : bool.
Variable BLOCK_GROUP_FLAG_NEW : Z.

Local Abbreviation update_counters :=
  (update_block_group_counters btrfs_bg_type_to_factor mult_perc).
Local Abbreviation update_block_group :=
  (btrfs_update_block_group btrfs_bg_type_to_factor mult_perc discard_async
     BLOCK_GROUP_FLAG_NEW).
Local Abbreviation reserve :=
  (fs_add_reserved_bytes btrfs_is_zoned btrfs_is_block_group_data_only
     btrfs_try_granting_tickets).
Local Abbreviation update_counters_shape :=
  (update_counters_shape btrfs_bg_type_to_factor mult_perc).

(** The counters do not read the reference count. *)
Lemma update_counters_refs g s n alloc r :
  fst (fst (update_counters (set_bg_refs r g) s n alloc))
  = set_bg_refs r (fst (fst (update_counters g s n alloc)))
  /\ snd (fst (update_counters (set_bg_refs r g) s n alloc))
     = snd (fst (update_counters g s n alloc))
  /\ snd (update_counters (set_bg_refs r g) s n alloc)
     = snd (update_counters g s n alloc).
Proof. destruct alloc; repeat split; reflexivity. Qed.

(** What follows the locked section of [btrfs_update_block_group] is a
    step on the lists. *)
Lemma update_block_group_tail info p old_val alloc reclaim :
  links_step p info
    (let info :=
       if negb (bg_dirty_list (fs_bg info p)) then
         let trans := fs_running_transaction info in
         let info :=
           fs_store_bg info p (set_bg_dirty_list true (fs_bg info p)) in
         let info :=
           set_fs_running_transaction
             (set_dirty_bgs (dirty_bgs trans ++ [p]) trans) info in
         fs_store_bg info p (btrfs_get_block_group (fs_bg info p))
       else info in
     let info :=
       if negb alloc && (old_val =? 0) then
         if negb discard_async then
           btrfs_mark_bg_unused BLOCK_GROUP_FLAG_NEW info p
         else info
       else if negb alloc && reclaim then btrfs_mark_bg_to_reclaim info p
       else info in
     fs_store_bg info p (btrfs_put_block_group (fs_bg info p))).
Proof.
  cbv zeta.
  eapply links_step_trans; [| apply links_step_put].
  eapply links_step_trans.
  2:{ destruct (negb alloc && (old_val =? 0)).
      - destruct (negb discard_async);
          [apply links_step_mark_bg_unused | apply links_step_refl].
      - destruct (negb alloc && reclaim);
          [apply links_step_mark_bg_to_reclaim | apply links_step_refl]. }
  destruct (negb (bg_dirty_list (fs_bg info p))); [| apply links_step_refl].
  eapply links_step_trans; [apply links_step_dirty_list |].
  eapply links_step_trans; [apply links_step_running_transaction |].
  apply links_step_get.
Qed.

(** The lists and the reference count along these steps. *)
Lemma update_block_group_tail_links info p old_val alloc reclaim info' :
  info'
  = (let info :=
       if negb (bg_dirty_list (fs_bg info p)) then
         let trans := fs_running_transaction info in
         let info :=
           fs_store_bg info p (set_bg_dirty_list true (fs_bg info p)) in
         let info :=
           set_fs_running_transaction
             (set_dirty_bgs (dirty_bgs trans ++ [p]) trans) info in
         fs_store_bg info p (btrfs_get_block_group (fs_bg info p))
       else info in
     let info :=
       if negb alloc && (old_val =? 0) then
         if negb discard_async then
           btrfs_mark_bg_unused BLOCK_GROUP_FLAG_NEW info p
         else info
       else if negb alloc && reclaim then btrfs_mark_bg_to_reclaim info p
       else info in
     fs_store_bg info p (btrfs_put_block_group (fs_bg info p))) ->
  bg_dirty_list (fs_bg info' p) = true
  /\ dirty_bgs (fs_running_transaction info')
     = (if bg_dirty_list (fs_bg info p)
        then dirty_bgs (fs_running_transaction info)
        else dirty_bgs (fs_running_transaction info) ++ [p])
  /\ bg_refs (fs_bg info' p)
     = bg_refs (fs_bg info p) - 1
       + (if bg_dirty_list (fs_bg info p) then 0 else 1)
       + (if negb (bg_bg_list (fs_bg info p)) && bg_bg_list (fs_bg info' p)
          then 1 else 0)
  /\ (alloc = true ->
      fs_unused_bgs info' = fs_unused_bgs info
      /\ fs_reclaim_bgs info' = fs_reclaim_bgs info
      /\ deleted_bgs (fs_running_transaction info')
         = deleted_bgs (fs_running_transaction info)
      /\ bg_bg_list (fs_bg info' p) = bg_bg_list (fs_bg info p)).
Proof.
  intros ->. cbv zeta.
  unfold btrfs_mark_bg_unused, btrfs_mark_bg_to_reclaim,
    list_add_tail_unused_bgs, list_add_tail_reclaim_bgs, list_del_bg_list.
  destruct alloc; cbn [negb andb].
  - destruct (bg_dirty_list (fs_bg info p)) eqn:D,
      (bg_bg_list (fs_bg info p)) eqn:L;
      repeat (heap; rewrite ?L, ?D);
      unfold fs_bg in *; repeat split; try reflexivity; try assumption; lia.
  - destruct (bg_dirty_list (fs_bg info p)) eqn:D,
      (bg_bg_list (fs_bg info p)) eqn:L,
      (Z.testbit (bg_runtime_flags (fs_bg info p)) BLOCK_GROUP_FLAG_NEW) eqn:N,
      (old_val =? 0), discard_async, reclaim;
      repeat (heap; rewrite ?L, ?D, ?N);
      unfold fs_bg in *; repeat split; try reflexivity; try assumption;
      try discriminate; lia.
Qed.

(** [btrfs_update_block_group] on an extent that the registry finds in the
    group at [p], inside that group: the counters of the locked section are
    applied to that group and its class; besides, only the lists, the
    reference count and the list nodes of the group change. *)
Lemma update_block_group_found info bytenr num_bytes alloc p :
  registry_find info bytenr = Some p ->
  (bytenr + num_bytes)%u64
  <= (bg_start (fs_bg info p) + bg_length (fs_bg info p))%u64 ->
  exists info',
    update_block_group info bytenr num_bytes alloc = Some (OK, info')
    /\ same_registry info info'
    /\ bg_unlinked (fs_bg info' p)
       = bg_unlinked
           (fst (fst (update_counters (fs_bg info p) (fs_si info p)
                        num_bytes alloc)))
    /\ fs_si info' p
       = snd (fst (update_counters (fs_bg info p) (fs_si info p) num_bytes
                     alloc))
    /\ (forall q, q <> p -> fs_bg info' q = fs_bg info q)
    /\ (forall class, class <> bg_space_info (fs_bg info p) ->
          fs_space_infos info' class = fs_space_infos info class)
    /\ fs_super_bytes_used info'
       = (if alloc then (fs_super_bytes_used info + num_bytes)%u64
          else (fs_super_bytes_used info - num_bytes)%u64)
    /\ bg_dirty_list (fs_bg info' p) = true
    /\ dirty_bgs (fs_running_transaction info')
       = (if bg_dirty_list (fs_bg info p)
          then dirty_bgs (fs_running_transaction info)
          else dirty_bgs (fs_running_transaction info) ++ [p])
    /\ bg_refs (fs_bg info' p)
       = bg_refs (fs_bg info p)
         + (if bg_dirty_list (fs_bg info p) then 0 else 1)
         + (if negb (bg_bg_list (fs_bg info p)) && bg_bg_list (fs_bg info' p)
            then 1 else 0)
    /\ (alloc = true ->
        fs_unused_bgs info' = fs_unused_bgs info
        /\ fs_reclaim_bgs info' = fs_reclaim_bgs info
        /\ deleted_bgs (fs_running_transaction info')
           = deleted_bgs (fs_running_transaction info)
        /\ bg_bg_list (fs_bg info' p) = bg_bg_list (fs_bg info p)).
Proof.
  intros Hfind Hin. unfold btrfs_update_block_group.
  unfold btrfs_lookup_block_group, block_group_cache_tree_search.
  unfold registry_find in Hfind. simpl fs_block_groups.
  simpl fs_block_group_cache_tree. rewrite Hfind.
  set (info0 := set_fs_super_bytes_used _ info).
  set (info1 := fs_store_bg info0 p (btrfs_get_block_group (fs_bg info0 p))).
  assert (Hg1 : fs_bg info1 p = btrfs_get_block_group (fs_bg info p)).
  { unfold info1, fs_bg, fs_store_bg. simpl. apply store_set_same. }
  assert (Hs1 : fs_si info1 p = fs_si info p).
  { unfold fs_si. rewrite Hg1. reflexivity. }
  rewrite Hg1, Hs1.
  replace (bg_start (btrfs_get_block_group (fs_bg info p)))
    with (bg_start (fs_bg info p)) by reflexivity.
  replace (bg_length (btrfs_get_block_group (fs_bg info p)))
    with (bg_length (fs_bg info p)) by reflexivity.
  apply Z.leb_le in Hin. rewrite Hin. simpl negb. cbv iota.
  unfold btrfs_get_block_group.
  destruct (update_counters_refs (fs_bg info p) (fs_si info p) num_bytes alloc
              (bg_refs (fs_bg info p) + 1)) as (E1 & E2 & E3).
  destruct (update_counters (set_bg_refs _ (fs_bg info p)) _ _ _)
    as [[g' s'] rc] eqn:EU.
  destruct (update_counters (fs_bg info p) (fs_si info p) num_bytes alloc)
    as [[g s] rc0] eqn:EU0.
  simpl in E1, E2, E3. subst g' s' rc.
  assert (Hkeys : bg_start g = bg_start (fs_bg info p)
                  /\ bg_length g = bg_length (fs_bg info p)
                  /\ bg_space_info g = bg_space_info (fs_bg info p)
                  /\ bg_dirty_list g = bg_dirty_list (fs_bg info p)
                  /\ bg_bg_list g = bg_bg_list (fs_bg info p)
                  /\ bg_refs g = bg_refs (fs_bg info p)).
  { unfold update_block_group_counters in EU0.
    destruct alloc; inversion EU0; subst; repeat split; reflexivity. }
  destruct Hkeys as (Hst & Hlen & Hsp & Hdl & Hbl & Hrf).
  set (info2 := fs_store info1 p (set_bg_refs (bg_refs (fs_bg info p) + 1) g)
                  s).
  pose proof (update_block_group_tail info2 p
                (bg_used (set_bg_refs (bg_refs (fs_bg info p) + 1) g))
                alloc rc0) as Hstep.
  cbv zeta in Hstep.
  match type of Hstep with
  | links_step _ _ ?x => set (info' := x) in *
  end.
  destruct (update_block_group_tail_links info2 p
              (bg_used (set_bg_refs (bg_refs (fs_bg info p) + 1) g))
              alloc rc0 info' eq_refl) as (L1 & L2 & L3 & L4).
  exists info'. split; [reflexivity |].
  destruct Hstep as (HT & HS & HU & HO & HG).
  assert (Hg2 : fs_bg info2 p = set_bg_refs (bg_refs (fs_bg info p) + 1) g).
  { unfold info2, fs_bg, fs_store. simpl. apply store_set_same. }
  assert (Ho2 : forall q, q <> p -> fs_bg info2 q = fs_bg info q).
  { intros q Hq. unfold info2, info1, info0, fs_bg, fs_store, fs_store_bg.
    simpl. rewrite !store_set_other by exact Hq. reflexivity. }
  assert (Hgp : bg_unlinked (fs_bg info' p) = bg_unlinked g).
  { rewrite HG, Hg2. reflexivity. }
  assert (Hd2 : bg_dirty_list (fs_bg info2 p) = bg_dirty_list (fs_bg info p))
    by (rewrite Hg2; exact Hdl).
  assert (Hb2 : bg_bg_list (fs_bg info2 p) = bg_bg_list (fs_bg info p))
    by (rewrite Hg2; exact Hbl).
  assert (Hr2 : bg_refs (fs_bg info2 p) = bg_refs (fs_bg info p) + 1)
    by (rewrite Hg2; reflexivity).
  rewrite Hd2 in L2, L3. rewrite Hb2 in L3, L4. rewrite Hr2 in L3.
  split; [| split; [| split; [| split; [| split; [| split; [| split;
    [| split; [| split]]]]]]]].
  - split; [exact HT |]. intros q.
    destruct (Nat.eq_dec q p) as [-> | Hq].
    + change (bg_start (fs_bg info' p) = bg_start (fs_bg info p)
              /\ bg_length (fs_bg info' p) = bg_length (fs_bg info p)).
      rewrite <- Hst, <- Hlen. split.
      * exact (f_equal bg_start Hgp).
      * exact (f_equal bg_length Hgp).
    + change (bg_start (fs_bg info' q) = bg_start (fs_bg info q)
              /\ bg_length (fs_bg info' q) = bg_length (fs_bg info q)).
      rewrite (HO q Hq), (Ho2 q Hq). split; reflexivity.
  - exact Hgp.
  - unfold fs_si. rewrite HS.
    rewrite (f_equal bg_space_info Hgp : bg_space_info (fs_bg info' p)
                                         = bg_space_info g).
    rewrite Hsp. unfold info2, info1, fs_store, fs_bg. simpl.
    rewrite ?store_set_same. simpl. rewrite ?store_set_same. reflexivity.
  - intros q Hq. rewrite (HO q Hq). apply Ho2. exact Hq.
  - intros class Hclass. rewrite HS.
    unfold info2, info1, fs_store, fs_bg. simpl.
    rewrite !store_set_same. simpl. apply store_set_other. exact Hclass.
  - rewrite HU. reflexivity.
  - exact L1.
  - exact L2.
  - rewrite L3. lia.
  - exact L4.
Qed.

(** The counters of the group after such a call. *)
Lemma update_block_group_counters_found info bytenr num_bytes alloc p :
  registry_find info bytenr = Some p ->
  (bytenr + num_bytes)%u64
  <= (bg_start (fs_bg info p) + bg_length (fs_bg info p))%u64 ->
  exists info',
    update_block_group info bytenr num_bytes alloc = Some (OK, info')
    /\ same_registry info info'
    /\ bg_length (fs_bg info' p) = bg_length (fs_bg info p)
    /\ bg_used (fs_bg info' p)
       = (if alloc then (bg_used (fs_bg info p) + num_bytes)%u64
          else (bg_used (fs_bg info p) - num_bytes)%u64)
    /\ bg_reserved (fs_bg info' p)
       = (if alloc then (bg_reserved (fs_bg info p) - num_bytes)%u64
          else bg_reserved (fs_bg info p))
    /\ bg_pinned (fs_bg info' p)
       = (if alloc then bg_pinned (fs_bg info p)
          else (bg_pinned (fs_bg info p) + num_bytes)%u64)
    /\ bg_bytes_super (fs_bg info' p) = bg_bytes_super (fs_bg info p)
    /\ bg_zone_unusable (fs_bg info' p) = bg_zone_unusable (fs_bg info p).
Proof.
  intros Hfind Hin.
  destruct (update_block_group_found info bytenr num_bytes alloc p Hfind Hin)
    as (info' & U & S & G & _).
  exists info'. split; [exact U |]. split; [exact S |].
  destruct (update_counters (fs_bg info p) (fs_si info p) num_bytes alloc)
    as [[g s] r] eqn:E.
  simpl in G. apply update_counters_shape in E.
  destruct E as (Kl & Ku & Kr & Kp & Ksup & Kz & _).
  rewrite <- Kl, <- Ku, <- Kr, <- Kp, <- Ksup, <- Kz.
  repeat split.
  - exact (f_equal bg_length G).
  - exact (f_equal bg_used G).
  - exact (f_equal bg_reserved G).
  - exact (f_equal bg_pinned G).
  - exact (f_equal bg_bytes_super G).
  - exact (f_equal bg_zone_unusable G).
Qed.

Lemma reserve_found info p ram_bytes num_bytes delalloc force :
  bg_ro (fs_bg info p) = 0 ->
  size_class_admits
    (btrfs_block_group_should_use_size_class btrfs_is_zoned
       btrfs_is_block_group_data_only (fs_bg info p))
    (fs_bg info p) num_bytes force = true ->
  exists info',
    reserve info p ram_bytes num_bytes delalloc force = (OK, info')
    /\ same_registry info info'
    /\ fs_bg info' p
       = attach_group btrfs_is_zoned btrfs_is_block_group_data_only
           (fs_bg info p) num_bytes delalloc.
Proof.
  intros Hro Hadm. unfold fs_add_reserved_bytes.
  rewrite (add_reserved_bytes_attach _ _ _ _ _ _ _ _ _ Hro Hadm).
  eexists. split; [reflexivity |]. split.
  - apply fs_store_same_registry;
      unfold attach_group;
      destruct (_ && _), delalloc; reflexivity.
  - unfold fs_bg, fs_store. simpl. apply store_set_same.
Qed.

(** C3.  In a fresh group (nothing used, reserved or pinned, not
    read-only, no size class yet) two reservations of [N] bytes succeed and
    leave [reserved = 2N], [used = 0].  Committing each of them through
    [btrfs_update_block_group] with [alloc] moves [N] bytes from [reserved]
    to [used]: [used = N], [reserved = N] after the first, [used = 2N],
    [reserved = 0] after the second.  Freeing [M] committed bytes (no
    [alloc]) moves them from [used] to [pinned], and the bytes of the group
    that no counter claims stay what they were.  The extents at [b1], [b2]
    and [b3] are extents of the group at [p]: the registry finds them
    there, inside the group. *)
Theorem reserve_commit_free info p N M ram_bytes delalloc force b1 b2 b3 :
  (forall g g', bg_flags g = bg_flags g' ->
     btrfs_is_block_group_data_only g = btrfs_is_block_group_data_only g') ->
  bg_used (fs_bg info p) = 0 ->
  bg_reserved (fs_bg info p) = 0 ->
  bg_pinned (fs_bg info p) = 0 ->
  bg_ro (fs_bg info p) = 0 ->
  bg_size_class (fs_bg info p) = BTRFS_BG_SZ_NONE ->
  0 <= N -> 2 * N < 2 ^ 64 -> 0 <= M <= 2 * N ->
  registry_find info b1 = Some p ->
  registry_find info b2 = Some p ->
  registry_find info b3 = Some p ->
  (b1 + N)%u64 <= (bg_start (fs_bg info p) + bg_length (fs_bg info p))%u64 ->
  (b2 + N)%u64 <= (bg_start (fs_bg info p) + bg_length (fs_bg info p))%u64 ->
  (b3 + M)%u64 <= (bg_start (fs_bg info p) + bg_length (fs_bg info p))%u64 ->
  exists info1 info2 info3 info4 info5,
    reserve info p ram_bytes N delalloc force = (OK, info1)
    /\ reserve info1 p ram_bytes N delalloc force = (OK, info2)
    /\ bg_reserved (fs_bg info2 p) = 2 * N
    /\ bg_used (fs_bg info2 p) = 0
    /\ update_block_group info2 b1 N true = Some (OK, info3)
    /\ bg_used (fs_bg info3 p) = N
    /\ bg_reserved (fs_bg info3 p) = N
    /\ update_block_group info3 b2 N true = Some (OK, info4)
    /\ bg_used (fs_bg info4 p) = 2 * N
    /\ bg_reserved (fs_bg info4 p) = 0
    /\ update_block_group info4 b3 M false = Some (OK, info5)
    /\ bg_used (fs_bg info5 p) = 2 * N - M
    /\ bg_pinned (fs_bg info5 p) = M
    /\ bg_reserved (fs_bg info5 p) = 0
    /\ bg_free_bytes (fs_bg info5 p) = bg_free_bytes (fs_bg info4 p).
Proof.
  intros Hflags Hu Hr Hp Hro Hsz HN HN2 HM F1 F2 F3 A1 A2 A3.
  set (g0 := fs_bg info p) in *.
  assert (Huse : forall g g', bg_flags g = bg_flags g' ->
            btrfs_block_group_should_use_size_class btrfs_is_zoned
              btrfs_is_block_group_data_only g
            = btrfs_block_group_should_use_size_class btrfs_is_zoned
                btrfs_is_block_group_data_only g').
  { intros g g' Hf. unfold btrfs_block_group_should_use_size_class.
    rewrite (Hflags g g' Hf). reflexivity. }
  (* the first reservation *)
  destruct (reserve_found info p ram_bytes N delalloc force Hro)
    as (info1 & R1 & S1 & G1).
  { unfold size_class_admits. fold g0. rewrite Hsz. simpl.
    rewrite orb_true_r. reflexivity. }
  fold g0 in G1.
  destruct (attach_group_shape btrfs_is_zoned btrfs_is_block_group_data_only
              g0 N delalloc)
    as (K1s & K1l & K1f & K1u & K1r & K1p & K1sup & K1z & K1ro & K1c).
  rewrite <- G1 in K1s, K1l, K1f, K1u, K1r, K1p, K1sup, K1z, K1ro, K1c.
  (* the second reservation *)
  destruct (reserve_found info1 p ram_bytes N delalloc force)
    as (info2 & R2 & S2 & G2).
  { rewrite K1ro. exact Hro. }
  { unfold size_class_admits. rewrite (Huse _ g0 K1f), K1c, Hsz.
    simpl size_class_eqb. rewrite andb_true_r.
    destruct (btrfs_block_group_should_use_size_class _ _ g0).
    - rewrite size_class_eqb_refl. simpl. reflexivity.
    - reflexivity. }
  destruct (attach_group_shape btrfs_is_zoned btrfs_is_block_group_data_only
              (fs_bg info1 p) N delalloc)
    as (K2s & K2l & _ & K2u & K2r & K2p & K2sup & K2z & _ & _).
  rewrite <- G2 in K2s, K2l, K2u, K2r, K2p, K2sup, K2z.
  assert (S02 : same_registry info info2)
    by (eapply same_registry_trans; eassumption).
  (* the first commit *)
  destruct (update_block_group_counters_found info2 b1 N true p)
    as (info3 & U3 & S3 & K3l & K3u & K3r & K3p & K3sup & K3z).
  { rewrite (registry_find_same _ _ _ S02). exact F1. }
  { rewrite K2s, K2l, K1s, K1l. exact A1. }
  assert (K3s : bg_start (fs_bg info3 p) = bg_start (fs_bg info2 p)).
  { destruct S3 as [_ S3]. apply S3. }
  assert (S03 : same_registry info info3)
    by (eapply same_registry_trans; eassumption).
  (* the second commit *)
  destruct (update_block_group_counters_found info3 b2 N true p)
    as (info4 & U4 & S4 & K4l & K4u & K4r & K4p & K4sup & K4z).
  { rewrite (registry_find_same _ _ _ S03). exact F2. }
  { rewrite K3s, K3l, K2s, K2l, K1s, K1l. exact A2. }
  assert (K4s : bg_start (fs_bg info4 p) = bg_start (fs_bg info3 p)).
  { destruct S4 as [_ S4]. apply S4. }
  assert (S04 : same_registry info info4)
    by (eapply same_registry_trans; eassumption).
  (* the free *)
  destruct (update_block_group_counters_found info4 b3 M false p)
    as (info5 & U5 & S5 & K5l & K5u & K5r & K5p & K5sup & K5z).
  { rewrite (registry_find_same _ _ _ S04). exact F3. }
  { rewrite K4s, K4l, K3s, K3l, K2s, K2l, K1s, K1l. exact A3. }
  exists info1, info2, info3, info4, info5.
  assert (V2 : bg_reserved (fs_bg info2 p) = 2 * N /\ bg_used (fs_bg info2 p) = 0).
  { rewrite K2r, K2u, K1r, K1u. fold g0. rewrite Hr, Hu. split; [counters | reflexivity]. }
  destruct V2 as [V2r V2u].
  assert (V3 : bg_used (fs_bg info3 p) = N /\ bg_reserved (fs_bg info3 p) = N).
  { rewrite K3u, K3r, V2r, V2u. split; counters. }
  destruct V3 as [V3u V3r].
  assert (V4 : bg_used (fs_bg info4 p) = 2 * N /\ bg_reserved (fs_bg info4 p) = 0).
  { rewrite K4u, K4r, V3r, V3u. split; counters. }
  destruct V4 as [V4u V4r].
  assert (V4p : bg_pinned (fs_bg info4 p) = 0).
  { rewrite K4p, K3p, K2p, K1p. exact Hp. }
  repeat (split; [assumption |]).
  unfold bg_free_bytes.
  rewrite K5u, K5r, K5p, K5l, K5sup, K5z, V4u, V4r, V4p.
  repeat split; counters.
Qed.

End UpdateFacts.

(** ** The claims on the samples *)

Lemma add_reserved_bytes_gate_witness :
  btrfs_add_reserved_bytes false sample_data_only sample_no_tickets
    (set_bg_ro 1 sample_group) sample_class (100 * MiB) (100 * MiB) false false
  = (ERR EAGAIN, set_bg_ro 1 sample_group, sample_class)
  /\ btrfs_add_reserved_bytes false sample_data_only sample_no_tickets
       sample_group (set_si_bytes_may_use (100 * MiB) sample_class)
       (100 * MiB) (100 * MiB) false false
     = (OK,
        attach_group false sample_data_only sample_group (100 * MiB) false,
        attach_class (set_si_bytes_may_use (100 * MiB) sample_class)
          (100 * MiB) (100 * MiB)).
Proof.
  split.
  - apply (proj1 (add_reserved_bytes_gate false sample_data_only
                    sample_no_tickets (set_bg_ro 1 sample_group) sample_class
                    (100 * MiB) (100 * MiB) false false)).
    simpl. discriminate.
  - apply (proj2 (add_reserved_bytes_gate false sample_data_only
                    sample_no_tickets sample_group
                    (set_si_bytes_may_use (100 * MiB) sample_class)
                    (100 * MiB) (100 * MiB) false false));
      reflexivity.
Defined.

Lemma accounting_invariant_covered_witness :
  bg_invariant
    (attach_group false sample_data_only sample_group (100 * MiB) false).
Proof.
  apply (accounting_invariant_covered false sample_data_only sample_no_tickets
           space_info_used_sum sample_no_overcommit SAMPLE_DATA sample_factor
           sample_mult_perc (sample_group, sample_class)
           (attach_group false sample_data_only sample_group (100 * MiB) false,
            attach_class sample_class (100 * MiB) (100 * MiB))).
  - unfold bg_well_typed, is_u64. simpl. lia.
  - unfold bg_invariant, bg_accounted. simpl. lia.
  - apply (bg_run_step _ _ _ _ _ _ _ _ _ _ (sample_group, sample_class)
             (OpReserve (100 * MiB) (100 * MiB) false false)).
    + apply bg_run_start.
    + intros _. unfold op_covered, bg_accounted. simpl. lia.
    + reflexivity.
Defined.

(** C1 as stated fails: a reservation is not checked against the bytes of
    the group that no counter claims.  From the empty sample group of
    1000 MiB, which satisfies the invariant, one successful
    [btrfs_add_reserved_bytes] of 2000 MiB reaches a group that breaks
    it. *)
Lemma accounting_invariant_unguarded :
  bg_well_typed sample_group
  /\ bg_invariant sample_group
  /\ sample_run false (sample_group, sample_class)
       (attach_group false sample_data_only sample_group (2000 * MiB) false,
        attach_class sample_class (2000 * MiB) (2000 * MiB))
  /\ ~ bg_invariant
        (attach_group false sample_data_only sample_group (2000 * MiB) false).
Proof.
  split; [| split; [| split]].
  - unfold bg_well_typed, is_u64. simpl. lia.
  - unfold bg_invariant, bg_accounted. simpl. lia.
  - apply (bg_run_step _ _ _ _ _ _ _ _ _ _ (sample_group, sample_class)
             (OpReserve (2000 * MiB) (2000 * MiB) false false)).
    + apply bg_run_start.
    + discriminate.
    + reflexivity.
  - unfold bg_invariant, bg_accounted. vm_compute. intros H. apply H.
    reflexivity.
Qed.

(** C5 as stated fails: with the swap-extents counter at 1, the forced call
    does not succeed; it returns [-ETXTBSY] and the read-only counter stays
    at 0. *)
Lemma forced_read_only_refused :
  inc_block_group_ro false space_info_used_sum sample_no_overcommit SAMPLE_DATA
    (set_bg_swap_extents 1 sample_group) sample_class true
  = (ERR ETXTBSY, set_bg_swap_extents 1 sample_group, sample_class)
  /\ bg_ro (set_bg_swap_extents 1 sample_group) = 0.
Proof. split; reflexivity. Qed.

(** The second scenario of the specification, with the class-wide usage as
    the sum of the class's counters: 900 MiB of the 1000 MiB are reserved,
    the free 100 MiB fit exactly, and the call without force succeeds.  It
    fails once a further byte is soft-reserved in the class. *)
Lemma scenario2_admitted :
  fst (fst (inc_block_group_ro false space_info_used_sum sample_no_overcommit
              SAMPLE_DATA scenario2_group scenario2_class false)) = OK
  /\ inc_block_group_ro false space_info_used_sum sample_no_overcommit
       SAMPLE_DATA scenario2_group (set_si_bytes_may_use 1 scenario2_class)
       false
     = (ERR ENOSPC, scenario2_group, set_si_bytes_may_use 1 scenario2_class).
Proof. split; reflexivity. Qed.

Lemma inc_block_group_ro_admission_witness :
  (exists cache' sinfo',
     inc_block_group_ro false space_info_used_sum sample_no_overcommit
       SAMPLE_DATA scenario2_group scenario2_class true = (OK, cache', sinfo')
     /\ bg_ro cache' = 1)
  /\ inc_block_group_ro false space_info_used_sum sample_no_overcommit
       SAMPLE_DATA (set_bg_swap_extents 1 sample_group) sample_class true
     = (ERR ETXTBSY, set_bg_swap_extents 1 sample_group, sample_class)
  /\ inc_block_group_ro false space_info_used_sum sample_no_overcommit
       SAMPLE_DATA scenario2_group (set_si_bytes_may_use 1 scenario2_class)
       false
     = (ERR ENOSPC, scenario2_group, set_si_bytes_may_use 1 scenario2_class).
Proof.
  split; [| split].
  - destruct (proj1 (inc_block_group_ro_admission false space_info_used_sum
                       sample_no_overcommit SAMPLE_DATA scenario2_group
                       scenario2_class) eq_refl)
      as (c & s & H & _ & H1).
    exists c, s. split; [exact H | apply H1; reflexivity].
  - apply (proj1 (proj2 (inc_block_group_ro_admission false
                           space_info_used_sum sample_no_overcommit
                           SAMPLE_DATA (set_bg_swap_extents 1 sample_group)
                           sample_class))).
    simpl. discriminate.
  - apply (proj2 (proj2 (inc_block_group_ro_admission false
                           space_info_used_sum sample_no_overcommit
                           SAMPLE_DATA scenario2_group
                           (set_si_bytes_may_use 1 scenario2_class))));
      try reflexivity.
    vm_compute. discriminate.
Defined.

Lemma read_only_twice_round_trip_witness :
  exists cache4 sinfo4,
    btrfs_dec_block_group_ro false (set_bg_ro 1 scenario2_group)
      (set_si_bytes_readonly (100 * MiB) scenario2_class)
    = Some (cache4, sinfo4)
    /\ bg_ro cache4 = 0
    /\ si_bytes_readonly sinfo4 = 0.
Proof.
  destruct (read_only_twice_round_trip false space_info_used_sum
              sample_no_overcommit SAMPLE_DATA scenario2_group scenario2_class
              true false (set_bg_ro 1 scenario2_group)
              (set_si_bytes_readonly (100 * MiB) scenario2_class))
    as (_ & _ & _ & _ & c4 & s4 & H & Hro & _ & Hr & _).
  - reflexivity.
  - unfold is_u64. simpl. lia.
  - reflexivity.
  - exists c4, s4. split; [exact H | split; [exact Hro | exact Hr]].
Defined.

Lemma ro_swap_never_both_witness :
  btrfs_inc_block_group_swap_extents (set_bg_ro 1 sample_group)
  = (false, set_bg_ro 1 sample_group)
  /\ ro_swap_exclusive
       (attach_group false sample_data_only sample_group (100 * MiB) false).
Proof.
  destruct (ro_swap_never_both false sample_data_only sample_no_tickets
              space_info_used_sum sample_no_overcommit SAMPLE_DATA
              sample_factor sample_mult_perc) as (H1 & _ & _ & H4).
  split.
  - apply H1. simpl. discriminate.
  - apply (H4 (sample_group, sample_class)
             (attach_group false sample_data_only sample_group (100 * MiB)
                false,
              attach_class sample_class (100 * MiB) (100 * MiB))).
    + left. reflexivity.
    + apply (bg_run_step _ _ _ _ _ _ _ _ _ _ (sample_group, sample_class)
               (OpReserve (100 * MiB) (100 * MiB) false false)).
      * apply bg_run_start.
      * discriminate.
      * reflexivity.
Defined.

Lemma reserve_commit_free_witness :
  exists info5,
    bg_used (fs_bg info5 0%nat) = 150 * MiB
    /\ bg_pinned (fs_bg info5 0%nat) = 50 * MiB
    /\ bg_reserved (fs_bg info5 0%nat) = 0.
Proof.
  destruct (reserve_commit_free false sample_data_only sample_no_tickets
              sample_factor sample_mult_perc false SAMPLE_FLAG_NEW sample_info
              0%nat (100 * MiB) (50 * MiB) (100 * MiB) false false
              (1024 * MiB) (1124 * MiB) (1024 * MiB))
    as (i1 & i2 & i3 & i4 & i5 & H);
    try reflexivity; try (vm_compute; intuition discriminate).
  exists i5.
  destruct H as (_ & _ & _ & _ & _ & _ & _ & _ & _ & _ & _ & Hu & Hp & Hr & _).
  split; [exact Hu | split; [exact Hp | exact Hr]].
Defined.

(** ** The registry *)

Lemma rb_all_elements P t :
  rb_all P t <-> (forall q, In q (rb_elements t) -> P q).
Proof.
  induction t as [| l IHl cache r IHr]; simpl.
  - split; [intros _ q [] | trivial].
  - rewrite IHl, IHr. split.
    + intros (Hl & Hc & Hr) q Hq. apply in_app_or in Hq.
      destruct Hq as [Hq | [<- | Hq]]; auto.
    + intros H. repeat split.
      * intros q Hq. apply H. apply in_or_app. left. exact Hq.
      * apply H. apply in_or_app. right. left. reflexivity.
      * intros q Hq. apply H. apply in_or_app. right. right. exact Hq.
Qed.

Lemma strongly_sorted_app {A : Type} (R : A -> A -> Prop) l1 l2 :
  StronglySorted R (l1 ++ l2)
  <-> StronglySorted R l1 /\ StronglySorted R l2
      /\ (forall a b, In a l1 -> In b l2 -> R a b).
Proof.
  induction l1 as [| x l1 IH]; simpl.
  - split.
    + intros H. repeat split; [constructor | exact H | intros a b []].
    + intros (_ & H & _). exact H.
  - split.
    + intros H. inversion H as [| ? ? Hs Hf]; subst.
      apply IH in Hs. destruct Hs as (H1 & H2 & H12).
      rewrite Forall_app in Hf. destruct Hf as [Hf1 Hf2].
      repeat split.
      * constructor; assumption.
      * exact H2.
      * intros a b [<- | Ha] Hb.
        -- rewrite Forall_forall in Hf2. apply Hf2. exact Hb.
        -- apply H12; assumption.
    + intros (H1 & H2 & H12). inversion H1 as [| ? ? Hs Hf]; subst.
      constructor.
      * apply IH. repeat split; auto.
      * rewrite Forall_app. split; [exact Hf |].
        rewrite Forall_forall. intros b Hb. apply H12; [left; reflexivity | exact Hb].
Qed.

(** A search tree is a tree whose addresses, left to right, have strictly
    ascending start offsets. *)
Lemma rb_bst_sorted bgs t :
  rb_bst bgs t
  <-> StronglySorted (fun a b => bg_start (bgs a) < bg_start (bgs b))
        (rb_elements t).
Proof.
  induction t as [| l IHl cache r IHr]; simpl.
  - split; [constructor | trivial].
  - rewrite strongly_sorted_app, IHl, IHr, !rb_all_elements. split.
    + intros (Hl & Hr & Hlc & Hcr). repeat split.
      * exact Hl.
      * constructor; [exact Hr |]. rewrite Forall_forall. exact Hcr.
      * intros a b Ha [<- | Hb]; [apply Hlc; exact Ha |].
        specialize (Hlc a Ha). specialize (Hcr b Hb). lia.
    + intros (Hl & Hcr & Hlr). inversion Hcr as [| ? ? Hr Hf]; subst.
      rewrite Forall_forall in Hf. repeat split.
      * exact Hl.
      * exact Hr.
      * intros q Hq. apply Hlr; [exact Hq | left; reflexivity].
      * exact Hf.
Qed.

Lemma rb_link_walk_spec bgs t block_group :
  rb_bst bgs t ->
  ((exists q, In q (rb_elements t)
              /\ bg_start (bgs q) = bg_start (bgs block_group))
   /\ rb_link_walk bgs t block_group = (ERR EEXIST, t))
  \/ ((forall q, In q (rb_elements t) ->
                 bg_start (bgs q) <> bg_start (bgs block_group))
      /\ exists t',
           rb_link_walk bgs t block_group = (OK, t')
           /\ rb_bst bgs t'
           /\ (forall q, In q (rb_elements t')
                         <-> q = block_group \/ In q (rb_elements t))).
Proof.
  induction t as [| l IHl cache r IHr]; simpl.
  - intros _. right. split; [intros q [] |].
    exists (rb_node rb_nil block_group rb_nil). simpl.
    repeat split; auto.
    + intros [<- | []]. left. reflexivity.
    + intros [<- | []]. left. reflexivity.
  - intros (Hl & Hr & Hlc & Hcr).
    rewrite rb_all_elements in Hlc, Hcr.
    destruct (bg_start (bgs block_group) <? bg_start (bgs cache)) eqn:Hlt.
    + apply Z.ltb_lt in Hlt.
      destruct (IHl Hl) as [[(q & Hq & Heq) ->] | (Hno & t' & -> & Hb & Hin)].
      * left. split; [| reflexivity].
        exists q. split; [apply in_or_app; left; exact Hq | exact Heq].
      * right. split.
        -- intros q Hq. apply in_app_or in Hq.
           destruct Hq as [Hq | [<- | Hq]];
             [apply Hno; exact Hq | lia | specialize (Hcr q Hq); lia].
        -- exists (rb_node t' cache r). split; [reflexivity |]. split.
           ++ simpl. repeat split; auto.
              ** rewrite rb_all_elements. intros q Hq. apply Hin in Hq.
                 destruct Hq as [-> | Hq]; [exact Hlt | apply Hlc; exact Hq].
              ** rewrite rb_all_elements. exact Hcr.
           ++ intros q. simpl. rewrite !in_app_iff, Hin. simpl. tauto.
    + apply Z.ltb_ge in Hlt.
      destruct (bg_start (bgs block_group) >? bg_start (bgs cache)) eqn:Hgt.
      * apply Z.gtb_lt in Hgt.
        destruct (IHr Hr) as [[(q & Hq & Heq) ->] | (Hno & t' & -> & Hb & Hin)].
        -- left. split; [| reflexivity].
           exists q. split; [| exact Heq].
           apply in_or_app. right. right. exact Hq.
        -- right. split.
           ++ intros q Hq. apply in_app_or in Hq.
              destruct Hq as [Hq | [<- | Hq]];
                [specialize (Hlc q Hq); lia | lia | apply Hno; exact Hq].
           ++ exists (rb_node l cache t'). split; [reflexivity |]. split.
              ** simpl. repeat split; auto.
                 --- rewrite rb_all_elements. exact Hlc.
                 --- rewrite rb_all_elements. intros q Hq. apply Hin in Hq.
                     destruct Hq as [-> | Hq]; [exact Hgt | apply Hcr; exact Hq].
              ** intros q. simpl. rewrite !in_app_iff. simpl. rewrite Hin.
                 tauto.
      * left. split; [| reflexivity].
        exists cache. split; [apply in_or_app; right; left; reflexivity |].
        rewrite Z.gtb_ltb in Hgt. apply Z.ltb_ge in Hgt. lia.
Qed.

(** The search with [contains] in a well-formed tree. *)
Lemma tree_search_walk_contains bgs t bytenr ret :
  rb_bst bgs t ->
  (forall p, In p (rb_elements t) -> bg_range_ok (bgs p)) ->
  (forall p q, In p (rb_elements t) -> In q (rb_elements t) ->
     bg_start (bgs p) <> bg_start (bgs q) -> bg_disjoint (bgs p) (bgs q)) ->
  (forall p, In p (rb_elements t) -> bg_contains (bgs p) bytenr ->
     tree_search_walk bgs t bytenr true ret = Some p)
  /\ ((forall p, In p (rb_elements t) -> ~ bg_contains (bgs p) bytenr) ->
      tree_search_walk bgs t bytenr true ret = ret).
Proof.
  induction t as [| l IHl cache r IHr]; simpl.
  - intros _ _ _. split; [intros p [] | reflexivity].
  - intros (Hl & Hr & Hlc & Hcr) Hok Hdis.
    rewrite rb_all_elements in Hlc, Hcr.
    assert (Hcin : In cache (rb_elements l ++ cache :: rb_elements r))
      by (apply in_or_app; right; left; reflexivity).
    assert (Hlin : forall q, In q (rb_elements l) ->
                     In q (rb_elements l ++ cache :: rb_elements r))
      by (intros q Hq; apply in_or_app; left; exact Hq).
    assert (Hrin : forall q, In q (rb_elements r) ->
                     In q (rb_elements l ++ cache :: rb_elements r))
      by (intros q Hq; apply in_or_app; right; right; exact Hq).
    destruct (IHl Hl) as [IHl1 IHl2]; [auto | auto |].
    destruct (IHr Hr) as [IHr1 IHr2]; [auto | auto |].
    pose proof (Hok cache Hcin) as (Hc0 & Hc1 & Hc2).
    assert (Hend : (bg_start (bgs cache) + bg_length (bgs cache) - 1)%u64
                   = bg_start (bgs cache) + bg_length (bgs cache) - 1).
    { unfold add64, sub64, u64. Z.div_mod_to_equations. lia. }
    rewrite Hend. split.
    + intros p Hp Hcont. unfold bg_contains in Hcont.
      pose proof (Hok p Hp) as (Hp0 & Hp1 & Hp2).
      assert (Hpc : bg_start (bgs p) = bg_start (bgs cache) -> p = cache).
      { intros E. apply in_app_or in Hp. destruct Hp as [Hp | [Hp | Hp]].
        - specialize (Hlc p Hp). lia.
        - symmetry. exact Hp.
        - specialize (Hcr p Hp). lia. }
      assert (Hd : bg_start (bgs p) <> bg_start (bgs cache) ->
                   bg_disjoint (bgs p) (bgs cache)) by (apply Hdis; auto).
      unfold bg_disjoint in Hd.
      destruct (bytenr <? bg_start (bgs cache)) eqn:E1.
      * apply Z.ltb_lt in E1. simpl. apply IHl1; [| exact Hcont].
        apply in_app_or in Hp. destruct Hp as [Hp | [<- | Hp]];
          [exact Hp | lia | specialize (Hcr p Hp); lia].
      * apply Z.ltb_ge in E1.
        destruct (bytenr >? bg_start (bgs cache)) eqn:E2.
        -- apply Z.gtb_lt in E2. simpl.
           destruct (bytenr <=? bg_start (bgs cache) + bg_length (bgs cache) - 1)
             eqn:E3.
           ++ apply Z.leb_le in E3. f_equal. symmetry. apply Hpc.
              destruct (Z.eq_dec (bg_start (bgs p)) (bg_start (bgs cache)));
                [assumption | specialize (Hd n); lia].
           ++ apply Z.leb_gt in E3. apply IHr1; [| exact Hcont].
              apply in_app_or in Hp. destruct Hp as [Hp | [<- | Hp]];
                [| lia | exact Hp].
              specialize (Hlc p Hp).
              assert (bg_start (bgs p) <> bg_start (bgs cache)) by lia.
              specialize (Hd H). lia.
        -- rewrite Z.gtb_ltb in E2. apply Z.ltb_ge in E2.
           f_equal. symmetry. apply Hpc.
           destruct (Z.eq_dec (bg_start (bgs p)) (bg_start (bgs cache)));
             [assumption | specialize (Hd n); lia].
    + intros Hnone.
      assert (Hnc : ~ bg_contains (bgs cache) bytenr) by (apply Hnone; exact Hcin).
      unfold bg_contains in Hnc.
      destruct (bytenr <? bg_start (bgs cache)) eqn:E1.
      * simpl. apply IHl2. auto.
      * apply Z.ltb_ge in E1.
        destruct (bytenr >? bg_start (bgs cache)) eqn:E2.
        -- apply Z.gtb_lt in E2. simpl.
           destruct (bytenr <=? bg_start (bgs cache) + bg_length (bgs cache) - 1)
             eqn:E3; [apply Z.leb_le in E3; lia |].
           apply IHr2. auto.
        -- rewrite Z.gtb_ltb in E2. apply Z.ltb_ge in E2. lia.
Qed.

Section RegistryFacts.

Variable rb_insert_color : rb_tree -> rb_tree.

Local Abbreviation add_block_group_cache :=
  (btrfs_add_block_group_cache rb_insert_color).

(** Two registered groups of a search tree with the same start offset are
    the same group. *)
Lemma rb_bst_start_inj bgs t p q :
  rb_bst bgs t -> In p (rb_elements t) -> In q (rb_elements t) ->
  bg_start (bgs p) = bg_start (bgs q) -> p = q.
Proof.
  intros Hbst. apply rb_bst_sorted in Hbst.
  induction (rb_elements t) as [| a l IH]; [intros [] |].
  inversion Hbst as [| ? ? Hs Hf]; subst. rewrite Forall_forall in Hf.
  intros [<- | Hp] [<- | Hq] E.
  - reflexivity.
  - specialize (Hf q Hq). lia.
  - specialize (Hf p Hp). lia.
  - apply IH; assumption.
Qed.

(** C9.  With a rebalancing that keeps the left-to-right order of the
    nodes, in a registry that is a search tree on the start offsets: the
    insertion of a group of nonzero length fails with [-EEXIST] exactly
    when a group with the same start offset is registered, and then leaves
    the registry as it was; otherwise it succeeds, whether or not the new
    range overlaps a registered one, the registry stays a search tree and
    holds the new group besides the old ones.  In a registry whose groups
    have proper ranges that do not overlap, at most one registered group
    contains an address; the lookup of an address returns the registered
    group that contains it, with the reference count of that group raised
    by one and nothing else changed, and returns nothing, changing nothing,
    when no registered group contains the address. *)
Theorem registry_insert_lookup info :
  (forall t, rb_elements (rb_insert_color t) = rb_elements t) ->
  rb_bst (fs_block_groups info) (fs_block_group_cache_tree info) ->
  (forall block_group,
     bg_length (fs_bg info block_group) <> 0 ->
     ((exists q, In q (rb_elements (fs_block_group_cache_tree info))
                 /\ bg_start (fs_bg info q) = bg_start (fs_bg info block_group))
      <-> (exists info',
             add_block_group_cache info block_group = Some (ERR EEXIST, info')))
     /\ (forall info',
           add_block_group_cache info block_group = Some (ERR EEXIST, info') ->
           info' = info)
     /\ ((forall q, In q (rb_elements (fs_block_group_cache_tree info)) ->
            bg_start (fs_bg info q) <> bg_start (fs_bg info block_group)) ->
         exists info',
           add_block_group_cache info block_group = Some (OK, info')
           /\ fs_block_groups info' = fs_block_groups info
           /\ rb_bst (fs_block_groups info') (fs_block_group_cache_tree info')
           /\ (forall q,
                 In q (rb_elements (fs_block_group_cache_tree info'))
                 <-> q = block_group
                     \/ In q (rb_elements (fs_block_group_cache_tree info)))))
  /\ (registry_wf info ->
      forall bytenr,
        (forall p q,
           In p (rb_elements (fs_block_group_cache_tree info)) ->
           In q (rb_elements (fs_block_group_cache_tree info)) ->
           bg_contains (fs_bg info p) bytenr ->
           bg_contains (fs_bg info q) bytenr -> p = q)
        /\ (forall p,
              In p (rb_elements (fs_block_group_cache_tree info)) ->
              bg_contains (fs_bg info p) bytenr ->
              btrfs_lookup_block_group info bytenr
              = (Some p,
                 fs_store_bg info p
                   (set_bg_refs (bg_refs (fs_bg info p) + 1) (fs_bg info p))))
        /\ ((forall p,
               In p (rb_elements (fs_block_group_cache_tree info)) ->
               ~ bg_contains (fs_bg info p) bytenr) ->
            btrfs_lookup_block_group info bytenr = (None, info))).
Proof.
  intros Hcolor Hbst. split.
  - intros block_group Hlen. apply Z.eqb_neq in Hlen.
    unfold btrfs_add_block_group_cache. rewrite Hlen.
    unfold fs_bg in *.
    destruct (rb_link_walk_spec (fs_block_groups info)
                (fs_block_group_cache_tree info) block_group Hbst)
      as [[Hex Hw] | (Hno & t' & Hw & Hb & Hin)]; rewrite Hw.
    + split; [| split].
      * split; [intros _; exists info; reflexivity | intros _; exact Hex].
      * intros info' H. inversion H. reflexivity.
      * intros Hno. destruct Hex as (q & Hq & Heq).
        exfalso. exact (Hno q Hq Heq).
    + split; [| split].
      * split.
        -- intros (q & Hq & Heq). exfalso. exact (Hno q Hq Heq).
        -- intros (info' & H). discriminate H.
      * intros info' H. discriminate H.
      * intros _. eexists. split; [reflexivity |]. simpl.
        split; [reflexivity |]. split.
        -- apply rb_bst_sorted. rewrite Hcolor. apply rb_bst_sorted. exact Hb.
        -- intros q. rewrite Hcolor. apply Hin.
  - intros (_ & Hok & Hdis) bytenr.
    unfold btrfs_lookup_block_group, block_group_cache_tree_search.
    destruct (tree_search_walk_contains (fs_block_groups info)
                (fs_block_group_cache_tree info) bytenr None Hbst Hok Hdis)
      as [H1 H2].
    split; [| split].
    + intros p q Hp Hq Hcp Hcq.
      apply (rb_bst_start_inj _ _ _ _ Hbst Hp Hq).
      destruct (Z.eq_dec (bg_start (fs_block_groups info p))
                  (bg_start (fs_block_groups info q))) as [E | E];
        [exact E |].
      specialize (Hdis p q Hp Hq E).
      unfold bg_disjoint, bg_contains, fs_bg in *. lia.
    + intros p Hp Hc. rewrite (H1 p Hp Hc). reflexivity.
    + intros Hnone. rewrite (H2 Hnone). reflexivity.
Qed.

End RegistryFacts.

Lemma registry_insert_lookup_witness :
  btrfs_lookup_block_group sample_info (1024 * MiB + 5)
  = (Some 0%nat,
     fs_store_bg sample_info 0%nat
       (set_bg_refs (bg_refs (fs_bg sample_info 0%nat) + 1)
          (fs_bg sample_info 0%nat)))
  /\ btrfs_lookup_block_group sample_info 7 = (None, sample_info).
Proof.
  assert (Hbst : rb_bst (fs_block_groups sample_info)
                   (fs_block_group_cache_tree sample_info))
    by (simpl; auto).
  assert (Hwf : registry_wf sample_info).
  { split; [exact Hbst |]. split.
    - intros p _. unfold bg_range_ok. simpl. lia.
    - intros p q _ _ H. exfalso. apply H. reflexivity. }
  destruct (registry_insert_lookup no_rebalance sample_info
              (fun t => eq_refl) Hbst) as [_ H].
  split.
  - apply (proj1 (proj2 (H Hwf (1024 * MiB + 5)))).
    + left. reflexivity.
    + unfold bg_contains. simpl. lia.
  - apply (proj2 (proj2 (H Hwf 7))).
    intros p _. unfold bg_contains. simpl. lia.
Defined.

(** Overlapping groups are not refused by the insertion, and the lookup
    then misses: with the group at [50, 60) registered first and the group
    at [0, 100) second, the lookup of 70 finds nothing although the second
    group contains it. *)
Lemma overlapping_groups_lookup_misses :
  exists info1 info2,
    btrfs_add_block_group_cache no_rebalance
      (empty_registry overlapping_groups) 1%nat = Some (OK, info1)
    /\ btrfs_add_block_group_cache no_rebalance info1 0%nat = Some (OK, info2)
    /\ bg_contains (fs_bg info2 0%nat) 70
    /\ btrfs_lookup_block_group info2 70 = (None, info2).
Proof.
  eexists. eexists. split; [reflexivity |]. split; [reflexivity |]. split.
  - unfold bg_contains. simpl. lia.
  - reflexivity.
Qed.

(** ** The profile reducer *)

Lemma tst_lor_l flags a b : tst flags a = true -> Z.lor a b <> 0.
Proof.
  unfold tst. rewrite negb_true_iff, Z.eqb_neq. intros H E.
  apply Z.lor_eq_0_iff in E. destruct E as [-> _].
  rewrite Z.land_0_r in H. apply H. reflexivity.
Qed.

Section ProfileReducerFacts.

Variable BTRFS_BLOCK_GROUP_DATA : Z.
Variable BTRFS_BLOCK_GROUP_SYSTEM : Z.
Variable BTRFS_BLOCK_GROUP_METADATA : Z.
Variable BTRFS_BLOCK_GROUP_RAID0 : Z.
Variable BTRFS_BLOCK_GROUP_RAID1 : Z.
Variable BTRFS_BLOCK_GROUP_DUP : Z.
Variable BTRFS_BLOCK_GROUP_RAID10 : Z.
Variable BTRFS_BLOCK_GROUP_RAID5 : Z.
Variable BTRFS_BLOCK_GROUP_RAID6 : Z.
Variable BTRFS_BLOCK_GROUP_RAID1C3 : Z.
Variable BTRFS_BLOCK_GROUP_RAID1C4 : Z.
Variable BTRFS_BLOCK_GROUP_PROFILE_MASK : Z.
Variable BTRFS_BALANCE_ARGS_CONVERT : Z.
Variable btrfs_raid_array : list btrfs_raid_attr.
Variable extended_to_chunk : Z -> Z.

Local Abbreviation priority :=
  (profile_priority BTRFS_BLOCK_GROUP_RAID0 BTRFS_BLOCK_GROUP_RAID1
     BTRFS_BLOCK_GROUP_DUP BTRFS_BLOCK_GROUP_RAID10 BTRFS_BLOCK_GROUP_RAID5
     BTRFS_BLOCK_GROUP_RAID6 BTRFS_BLOCK_GROUP_RAID1C3
     BTRFS_BLOCK_GROUP_RAID1C4).
Local Abbreviation feasible := (scheme_feasible btrfs_raid_array).
Local Abbreviation possible := (possible_raid_levels btrfs_raid_array).
Local Abbreviation survivor :=
  (highest_priority_survivor BTRFS_BLOCK_GROUP_RAID0 BTRFS_BLOCK_GROUP_RAID1
     BTRFS_BLOCK_GROUP_DUP BTRFS_BLOCK_GROUP_RAID10 BTRFS_BLOCK_GROUP_RAID5
     BTRFS_BLOCK_GROUP_RAID6 BTRFS_BLOCK_GROUP_RAID1C3
     BTRFS_BLOCK_GROUP_RAID1C4 btrfs_raid_array).
Local Abbreviation select :=
  (select_highest_redundancy BTRFS_BLOCK_GROUP_RAID0 BTRFS_BLOCK_GROUP_RAID1
     BTRFS_BLOCK_GROUP_DUP BTRFS_BLOCK_GROUP_RAID10 BTRFS_BLOCK_GROUP_RAID5
     BTRFS_BLOCK_GROUP_RAID6 BTRFS_BLOCK_GROUP_RAID1C3
     BTRFS_BLOCK_GROUP_RAID1C4).
Local Abbreviation restripe_target :=
  (get_restripe_target BTRFS_BLOCK_GROUP_DATA BTRFS_BLOCK_GROUP_SYSTEM
     BTRFS_BLOCK_GROUP_METADATA BTRFS_BALANCE_ARGS_CONVERT).
Local Abbreviation conversion :=
  (conversion_target BTRFS_BLOCK_GROUP_DATA BTRFS_BLOCK_GROUP_SYSTEM
     BTRFS_BLOCK_GROUP_METADATA BTRFS_BALANCE_ARGS_CONVERT).
Local Abbreviation bits_disjoint :=
  (profile_bits_disjoint BTRFS_BLOCK_GROUP_RAID0 BTRFS_BLOCK_GROUP_RAID1
     BTRFS_BLOCK_GROUP_DUP BTRFS_BLOCK_GROUP_RAID10 BTRFS_BLOCK_GROUP_RAID5
     BTRFS_BLOCK_GROUP_RAID6 BTRFS_BLOCK_GROUP_RAID1C3
     BTRFS_BLOCK_GROUP_RAID1C4).
Local Abbreviation array_wf :=
  (raid_array_wf BTRFS_BLOCK_GROUP_RAID0 BTRFS_BLOCK_GROUP_RAID1
     BTRFS_BLOCK_GROUP_DUP BTRFS_BLOCK_GROUP_RAID10 BTRFS_BLOCK_GROUP_RAID5
     BTRFS_BLOCK_GROUP_RAID6 BTRFS_BLOCK_GROUP_RAID1C3
     BTRFS_BLOCK_GROUP_RAID1C4 btrfs_raid_array).

Lemma possible_fold_land l acc n B :
  (forall attr, In attr l -> bg_flag attr = 0 \/ In (bg_flag attr) priority) ->
  bits_disjoint -> In B priority ->
  Z.land
    (fold_left
       (fun allowed attr =>
          if devs_min attr <=? n then Z.lor allowed (bg_flag attr)
          else allowed) l acc) B
  = Z.lor (Z.land acc B)
      (if existsb (fun attr => (devs_min attr <=? n) && (bg_flag attr =? B)) l
       then B else 0).
Proof.
  intros Hwf Hdis HB. revert acc.
  induction l as [| e l IH]; intros acc; simpl.
  - rewrite Z.lor_0_r. reflexivity.
  - rewrite IH by (intros attr Ha; apply Hwf; right; exact Ha).
    destruct (devs_min e <=? n); simpl; [| reflexivity].
    rewrite Z.land_lor_distr_l.
    destruct (bg_flag e =? B) eqn:E; simpl.
    + apply Z.eqb_eq in E. rewrite E, Z.land_diag.
      destruct (existsb _ l).
      * rewrite <- Z.lor_assoc, Z.lor_diag. reflexivity.
      * rewrite Z.lor_0_r. reflexivity.
    + apply Z.eqb_neq in E.
      assert (H0 : Z.land (bg_flag e) B = 0).
      { destruct (Hwf e (or_introl eq_refl)) as [-> | Hin].
        - apply Z.land_0_l.
        - apply Hdis; assumption. }
      rewrite H0, Z.lor_0_r. reflexivity.
Qed.

Lemma tst_possible n flags B :
  array_wf -> bits_disjoint -> In B priority ->
  tst (Z.land (possible n) flags) B = feasible n B && tst flags B.
Proof.
  intros Hwf Hdis HB. unfold tst, possible_raid_levels, scheme_feasible.
  rewrite <- Z.land_assoc, (Z.land_comm flags B), Z.land_assoc.
  rewrite (possible_fold_land _ 0 n B Hwf Hdis HB).
  rewrite Z.land_0_l, Z.lor_0_l.
  destruct (existsb _ btrfs_raid_array); simpl.
  - reflexivity.
  - rewrite ?Z.land_0_l. reflexivity.
Qed.

Lemma possible_fold_none l acc n flags :
  (forall attr, In attr l -> bg_flag attr = 0 \/ In (bg_flag attr) priority) ->
  (forall B, In B priority ->
     existsb (fun attr => (devs_min attr <=? n) && (bg_flag attr =? B)) l
     && tst flags B = false) ->
  Z.land
    (fold_left
       (fun allowed attr =>
          if devs_min attr <=? n then Z.lor allowed (bg_flag attr)
          else allowed) l acc) flags
  = Z.land acc flags.
Proof.
  intros Hwf Hnone. revert acc.
  induction l as [| e l IH]; intros acc; simpl; [reflexivity |].
  rewrite IH.
  - destruct (devs_min e <=? n) eqn:Hd; [| reflexivity].
    rewrite Z.land_lor_distr_l.
    assert (H0 : Z.land (bg_flag e) flags = 0).
    { destruct (Hwf e (or_introl eq_refl)) as [-> | Hin].
      - apply Z.land_0_l.
      - specialize (Hnone _ Hin). simpl in Hnone.
        rewrite Hd, Z.eqb_refl in Hnone. simpl in Hnone.
        unfold tst in Hnone. rewrite negb_false_iff, Z.eqb_eq in Hnone.
        rewrite Z.land_comm. exact Hnone. }
    rewrite H0, Z.lor_0_r. reflexivity.
  - intros attr Ha. apply Hwf. right. exact Ha.
  - intros B HB. specialize (Hnone B HB). simpl in Hnone.
    apply andb_false_iff in Hnone. apply andb_false_iff.
    destruct Hnone as [Hn | Hn]; [left | right; exact Hn].
    apply orb_false_iff in Hn. apply Hn.
Qed.

(** The cascade picks the scheme that the specification's reading picks,
    and nothing when no scheme survives. *)
Lemma select_survivor n flags :
  array_wf -> bits_disjoint ->
  select (Z.land (possible n) flags)
  = match survivor n flags with
    | Some scheme => scheme
    | None => 0
    end.
Proof.
  intros Hwf Hdis.
  unfold select_highest_redundancy, highest_priority_survivor,
    profile_priority.
  rewrite !(tst_possible n flags) by (assumption || (simpl; tauto)).
  simpl find.
  repeat match goal with
         | |- context [if ?c && ?d then _ else _] =>
           destruct (c && d) eqn:?; [reflexivity |]
         end.
  unfold possible_raid_levels.
  rewrite (possible_fold_none btrfs_raid_array 0 n flags Hwf).
  - apply Z.land_0_l.
  - intros B HB. simpl in HB.
    repeat (destruct HB as [<- | HB]; [assumption |]). destruct HB.
Qed.

Lemma restripe_target_conversion balance_ctl flags :
  restripe_target balance_ctl flags
  = match conversion balance_ctl flags with
    | Some target => target
    | None => 0
    end
  /\ (forall target, conversion balance_ctl flags = Some target ->
        target <> 0).
Proof.
  unfold get_restripe_target, conversion_target.
  destruct balance_ctl as [bctl |]; [| split; [reflexivity | discriminate]].
  cbv zeta.
  destruct (tst flags BTRFS_BLOCK_GROUP_DATA) eqn:Td; simpl;
    [destruct (tst (bargs_flags (bctl_data bctl)) BTRFS_BALANCE_ARGS_CONVERT);
     simpl |];
    try (split; [reflexivity |]; intros t H; inversion H; subst;
         eapply tst_lor_l; eassumption).
  all: destruct (tst flags BTRFS_BLOCK_GROUP_SYSTEM) eqn:Ts; simpl;
    [destruct (tst (bargs_flags (bctl_sys bctl)) BTRFS_BALANCE_ARGS_CONVERT);
     simpl |];
    try (split; [reflexivity |]; intros t H; inversion H; subst;
         eapply tst_lor_l; eassumption).
  all: destruct (tst flags BTRFS_BLOCK_GROUP_METADATA) eqn:Tm; simpl;
    [destruct (tst (bargs_flags (bctl_meta bctl)) BTRFS_BALANCE_ARGS_CONVERT);
     simpl |];
    try (split; [reflexivity |]; intros t H; inversion H; subst;
         eapply tst_lor_l; eassumption).
  all: split; [reflexivity | discriminate].
Qed.

(** C4.  With profile bits that are pairwise disjoint and a table whose
    entries carry one of them or none: when a conversion is active for the
    content class of [flags], the reducer returns its target (with the
    class bit, in chunk format); otherwise it keeps the flags outside the
    profile mask and, of the schemes in [flags] whose minimum device count
    the writable devices meet, the first in the order RAID1C4, RAID6,
    RAID1C3, RAID5, RAID10, RAID1, DUP, RAID0, or no profile bit when none
    of them survives. *)
Theorem reduce_alloc_profile_spec rw_devices balance_ctl flags :
  bits_disjoint -> array_wf ->
  btrfs_reduce_alloc_profile BTRFS_BLOCK_GROUP_DATA BTRFS_BLOCK_GROUP_SYSTEM
    BTRFS_BLOCK_GROUP_METADATA BTRFS_BLOCK_GROUP_RAID0
    BTRFS_BLOCK_GROUP_RAID1 BTRFS_BLOCK_GROUP_DUP BTRFS_BLOCK_GROUP_RAID10
    BTRFS_BLOCK_GROUP_RAID5 BTRFS_BLOCK_GROUP_RAID6
    BTRFS_BLOCK_GROUP_RAID1C3 BTRFS_BLOCK_GROUP_RAID1C4
    BTRFS_BLOCK_GROUP_PROFILE_MASK BTRFS_BALANCE_ARGS_CONVERT
    btrfs_raid_array extended_to_chunk rw_devices balance_ctl flags
  = match conversion balance_ctl flags with
    | Some target => extended_to_chunk target
    | None =>
      extended_to_chunk
        (Z.lor (Z.land flags (Z.lnot BTRFS_BLOCK_GROUP_PROFILE_MASK))
           match survivor rw_devices flags with
           | Some scheme => scheme
           | None => 0
           end)
    end.
Proof.
  intros Hdis Hwf. unfold btrfs_reduce_alloc_profile. cbv zeta.
  destruct (restripe_target_conversion balance_ctl flags) as [-> Hnz].
  destruct (conversion balance_ctl flags) as [target |].
  - specialize (Hnz target eq_refl). apply Z.eqb_neq in Hnz.
    rewrite Hnz. reflexivity.
  - simpl. rewrite (select_survivor rw_devices flags Hwf Hdis). reflexivity.
Qed.

End ProfileReducerFacts.

(** ** The caching scan *)

Lemma add_new_free_space_clear excluded_extents block_group ctl a b :
  excluded_outside excluded_extents block_group ->
  bg_start block_group <= a ->
  b <= bg_start block_group + bg_length block_group ->
  0 <= a -> b < 2 ^ 64 ->
  btrfs_add_new_free_space excluded_extents ctl a b
  = Some (OK, ctl ++ (if a <? b then [(a, b - a)] else []),
          if a <? b then b - a else 0).
Proof.
  intros Hout Ha Hb Ha0 Hb64. unfold btrfs_add_new_free_space.
  cbn [add_new_free_space_loop].
  destruct (a <? b) eqn:Hab.
  - apply Z.ltb_lt in Hab.
    assert (Hsize : (b - a)%u64 = b - a)
      by (unfold sub64, u64; Z.div_mod_to_equations; lia).
    assert (Htot : (0 + (b - a))%u64 = b - a)
      by (unfold add64, sub64, u64; Z.div_mod_to_equations; lia).
    destruct (find_first_extent_bit excluded_extents a) as [[s e] |] eqn:Hf.
    + unfold find_first_extent_bit in Hf. apply find_some in Hf.
      destruct Hf as [Hin Hle]. simpl in Hle. apply Z.leb_le in Hle.
      destruct (Hout _ Hin) as [H | H]; simpl in H; [lia |].
      assert (E1 : (s <=? a) = false) by (apply Z.leb_gt; lia).
      assert (E2 : (s <? b) = false) by (apply Z.ltb_ge; lia).
      rewrite E1, E2, andb_false_r.
      apply Z.ltb_lt in Hab. rewrite Hab.
      unfold btrfs_add_free_space_async_trimmed. rewrite Htot, Hsize.
      reflexivity.
    + apply Z.ltb_lt in Hab. rewrite Hab.
      unfold btrfs_add_free_space_async_trimmed. rewrite Htot, Hsize.
      reflexivity.
  - rewrite Hab, app_nil_r. reflexivity.
Qed.

Lemma key_ltb_objectid a b : key_ltb a b = true -> objectid a <= objectid b.
Proof.
  unfold key_ltb. intros H. apply orb_true_iff in H.
  destruct H as [H | H].
  - apply Z.ltb_lt in H. lia.
  - apply andb_true_iff in H. destruct H as [H _]. apply Z.eqb_eq in H. lia.
Qed.

Section CachingFacts.

Variable BTRFS_SUPER_INFO_OFFSET : Z.
Variable BTRFS_EXTENT_ITEM_KEY : Z.
Variable BTRFS_METADATA_ITEM_KEY : Z.
Variable CACHING_CTL_WAKE_UP : Z.

Local Abbreviation scan_loop :=
  (load_extent_tree_free_loop BTRFS_EXTENT_ITEM_KEY BTRFS_METADATA_ITEM_KEY
     CACHING_CTL_WAKE_UP false).
Local Abbreviation scan :=
  (load_extent_tree_free BTRFS_SUPER_INFO_OFFSET BTRFS_EXTENT_ITEM_KEY
     BTRFS_METADATA_ITEM_KEY CACHING_CTL_WAKE_UP false).
Local Abbreviation in_group :=
  (item_in_group BTRFS_EXTENT_ITEM_KEY BTRFS_METADATA_ITEM_KEY).
Local Abbreviation extent_of := (item_extent BTRFS_METADATA_ITEM_KEY).
Local Abbreviation used :=
  (used_extents BTRFS_EXTENT_ITEM_KEY BTRFS_METADATA_ITEM_KEY).

Lemma used_extents_cons nodesize block_group key rest :
  used nodesize block_group (key :: rest)
  = if in_group block_group key
    then extent_of nodesize key :: used nodesize block_group rest
    else used nodesize block_group rest.
Proof.
  unfold used_extents. simpl. destruct (in_group block_group key); reflexivity.
Qed.

(** Past the end of the group a sorted item list records no extent of the
    group. *)
Lemma used_extents_past_end nodesize block_group items bound :
  bg_start block_group + bg_length block_group <= bound ->
  Forall (fun key => bound <= objectid key) items ->
  used nodesize block_group items = [].
Proof.
  intros Hb Hall. induction Hall as [| key rest Hk Hall IH]; [reflexivity |].
  rewrite used_extents_cons, IH.
  unfold item_in_group.
  assert (E : (objectid key <? bg_start block_group + bg_length block_group)
              = false) by (apply Z.ltb_ge; lia).
  rewrite E, andb_false_r. reflexivity.
Qed.

(** The loop of the scan on a sorted item list whose extents of the group
    follow one another from [last] on: it ends without error, and the
    records it added, with the gap that is left up to the end of the
    group, are the gaps between the extents. *)
Lemma scan_loop_gaps excluded_extents nodesize block_group items :
  BTRFS_EXTENT_ITEM_KEY < BTRFS_METADATA_ITEM_KEY ->
  0 <= bg_start block_group -> 0 <= bg_length block_group ->
  bg_start block_group + bg_length block_group < 2 ^ 64 ->
  excluded_outside excluded_extents block_group ->
  items_sorted items ->
  forall search st,
    match search with
    | None => True
    | Some k =>
      objectid k <= cs_last st /\ type k = BTRFS_EXTENT_ITEM_KEY
      /\ offset k = 0
    end ->
    bg_start block_group <= cs_last st
    <= bg_start block_group + bg_length block_group ->
    extents_chain (cs_last st)
      (bg_start block_group + bg_length block_group)
      (used nodesize block_group items) ->
    exists st',
      scan_loop excluded_extents nodesize block_group items search st
      = Some (OK, st')
      /\ bg_start block_group <= cs_last st'
         <= bg_start block_group + bg_length block_group
      /\ cs_ctl st'
         ++ (if cs_last st' <? bg_start block_group + bg_length block_group
             then [(cs_last st',
                    bg_start block_group + bg_length block_group
                    - cs_last st')]
             else [])
         = cs_ctl st
           ++ free_gaps (cs_last st)
                (bg_start block_group + bg_length block_group)
                (used nodesize block_group items).
Proof.
  intros Htypes Hs0 Hl0 Hend Hout Hsorted.
  set (end_ := bg_start block_group + bg_length block_group) in *.
  assert (Hend64 : (bg_start block_group + bg_length block_group)%u64 = end_).
  { unfold add64, u64, end_. Z.div_mod_to_equations. lia. }
  induction items as [| key rest IH]; intros search st Hsearch Hlast Hchain.
  - exists st. simpl. repeat split; try lia.
  - inversion Hsorted as [| ? ? Hsorted' Hall]; subst.
    specialize (IH Hsorted').
    rewrite used_extents_cons in Hchain |- *.
    cbn [load_extent_tree_free_loop].
    (* an item that the chain excludes is no extent of the group *)
    assert (Hskip : objectid key < cs_last st
                    \/ (objectid key = cs_last st
                        /\ (type key < BTRFS_EXTENT_ITEM_KEY
                            \/ (type key = BTRFS_EXTENT_ITEM_KEY
                                /\ offset key < 0))) ->
                    in_group block_group key = false).
    { intros Hk. destruct (in_group block_group key) eqn:Hin; [| reflexivity].
      exfalso. unfold item_extent in Hchain.
      destruct Hchain as (H1 & H2 & _). simpl in H1.
      unfold item_in_group in Hin.
      apply andb_true_iff in Hin. destruct Hin as [_ Hty].
      destruct Hk as [Hk | (Hk & [Hk' | (Hk' & Hk'')])]; [lia | |].
      - apply orb_true_iff in Hty.
        destruct Hty as [Hty | Hty]; apply Z.eqb_eq in Hty; lia.
      - assert (E : (type key =? BTRFS_METADATA_ITEM_KEY) = false)
          by (apply Z.eqb_neq; lia).
        rewrite E in H2. lia. }
    destruct (match search with
              | Some k => key_ltb key k
              | None => false
              end) eqn:Hbelow.
    + (* the search under way passes the item *)
      destruct search as [k |]; [| discriminate].
      destruct Hsearch as (Hk1 & Hk2 & Hk3).
      assert (Hno : in_group block_group key = false).
      { apply Hskip.
        unfold key_ltb in Hbelow. rewrite Hk2, Hk3 in Hbelow.
        apply orb_true_iff in Hbelow. destruct Hbelow as [Hb | Hb].
        - apply Z.ltb_lt in Hb. left. lia.
        - apply andb_true_iff in Hb. destruct Hb as [Hb1 Hb2].
          apply Z.eqb_eq in Hb1. apply orb_true_iff in Hb2.
          destruct (Z.eq_dec (objectid k) (cs_last st)) as [E | E];
            [| left; lia].
          right. split; [lia |].
          destruct Hb2 as [Hb2 | Hb2].
          + apply Z.ltb_lt in Hb2. left. exact Hb2.
          + apply andb_true_iff in Hb2. destruct Hb2 as [Hb2 Hb3].
            apply Z.eqb_eq in Hb2. apply Z.ltb_lt in Hb3. right. lia. }
      rewrite Hno in Hchain |- *.
      apply IH; [repeat split; assumption | assumption | assumption].
    + destruct (objectid key <? cs_last st) eqn:Hlt.
      * (* the item lies below [last]: search again from [last] *)
        apply Z.ltb_lt in Hlt.
        assert (Hno : in_group block_group key = false)
          by (apply Hskip; left; exact Hlt).
        rewrite Hno in Hchain |- *.
        apply IH; [simpl; repeat split; lia | assumption | assumption].
      * apply Z.ltb_ge in Hlt.
        destruct (objectid key <? bg_start block_group) eqn:Hst;
          [apply Z.ltb_lt in Hst; lia |].
        apply Z.ltb_ge in Hst. rewrite Hend64.
        destruct (end_ <=? objectid key) eqn:Hpast.
        -- (* past the end of the group: the scan stops *)
           apply Z.leb_le in Hpast.
           assert (Hnil : used nodesize block_group (key :: rest) = []).
           { apply (used_extents_past_end nodesize block_group (key :: rest)
                      (objectid key)); [exact Hpast |].
             constructor; [lia |].
             rewrite Forall_forall in Hall |- *. intros k Hk.
             apply key_ltb_objectid. apply Hall. exact Hk. }
           rewrite used_extents_cons in Hnil. rewrite Hnil.
           exists st. simpl. repeat split; lia.
        -- apply Z.leb_gt in Hpast.
           destruct ((type key =? BTRFS_EXTENT_ITEM_KEY)
                     || (type key =? BTRFS_METADATA_ITEM_KEY)) eqn:Hty.
           ++ (* an extent of the group: the gap before it is added *)
              assert (Hin : in_group block_group key = true).
              { unfold item_in_group. rewrite Hty, andb_true_r.
                apply andb_true_iff. split;
                  [apply Z.leb_le; lia | apply Z.ltb_lt; fold end_; lia]. }
              rewrite Hin in Hchain |- *.
              unfold item_extent in Hchain |- *.
              destruct Hchain as (H1 & H2 & H3 & Hchain). simpl in H1, H3.
              rewrite (add_new_free_space_clear excluded_extents block_group
                         (cs_ctl st) (cs_last st) (objectid key) Hout)
                by (fold end_; lia).
              set (len := if type key =? BTRFS_METADATA_ITEM_KEY
                          then nodesize else offset key) in *.
              assert (Hnext : (if type key =? BTRFS_METADATA_ITEM_KEY
                               then (objectid key + nodesize)%u64
                               else (objectid key + offset key)%u64)
                              = objectid key + len).
              { unfold len. destruct (type key =? BTRFS_METADATA_ITEM_KEY);
                  unfold add64, u64; Z.div_mod_to_equations; lia. }
              rewrite Hnext.
              destruct (CACHING_CTL_WAKE_UP <? _) eqn:Hwake;
                match goal with
                | |- context [scan_loop _ _ _ rest None ?s] =>
                  destruct (IH None s I) as (st' & Hrun & Hl' & Hctl);
                    [simpl; lia | simpl; exact Hchain |];
                    exists st'; rewrite Hrun;
                    split; [reflexivity |]; split; [exact Hl' |];
                    rewrite Hctl; simpl cs_ctl; simpl cs_last;
                    cbn [free_gaps]; rewrite <- app_assoc; reflexivity
                end.
           ++ (* another item of the range: passed *)
              assert (Hin : in_group block_group key = false).
              { unfold item_in_group. rewrite Hty. apply andb_false_r. }
              rewrite Hin in Hchain |- *.
              apply IH; [exact I | assumption | assumption].
Qed.

End CachingFacts.

(** C7 as stated fails where the code leaves out the superblock copies and
    the bytes below the primary superblock.  A group of 400 bytes without
    used extents, with an excluded range of 100 bytes inside, gets two
    records and not one that spans its range; and for the group at
    [0, 40) with used extents at [0, 10) and [20, 30) the scan starts at
    the superblock offset, beyond the group, and inserts nothing. *)
Lemma caching_scan_leaves_out_superblocks :
  sample_load_extent_tree_free [(MiB + 100, MiB + 199)] 16384 []
    (empty_block_group MiB 400 SAMPLE_DATA) [] 0
  = Some (OK, [(MiB, 100); (MiB + 200, 200)], 0)
  /\ sample_load_extent_tree_free [] 16384
       [mk_key 0 168 10; mk_key 20 168 10]
       (empty_block_group 0 40 SAMPLE_DATA) [] 0
     = Some (OK, [], 0).
Proof. split; reflexivity. Qed.

Lemma sample_profile_bits_disjoint :
  profile_bits_disjoint SAMPLE_RAID0 SAMPLE_RAID1 SAMPLE_DUP SAMPLE_RAID10
    SAMPLE_RAID5 SAMPLE_RAID6 SAMPLE_RAID1C3 SAMPLE_RAID1C4.
Proof.
  intros a b Ha Hb Hab. simpl in Ha, Hb.
  repeat (destruct Ha as [<- | Ha]);
    try (destruct Ha);
    repeat (destruct Hb as [<- | Hb]);
    try (destruct Hb);
    try reflexivity; exfalso; apply Hab; reflexivity.
Defined.

Lemma sample_raid_array_wf :
  raid_array_wf SAMPLE_RAID0 SAMPLE_RAID1 SAMPLE_DUP SAMPLE_RAID10
    SAMPLE_RAID5 SAMPLE_RAID6 SAMPLE_RAID1C3 SAMPLE_RAID1C4 sample_raid_array.
Proof.
  intros attr Ha. simpl in Ha.
  repeat (destruct Ha as [<- | Ha]); try (destruct Ha); simpl; tauto.
Defined.

(** On the samples: with three writable devices and no balance, a data
    group that may be RAID1, RAID6 or RAID1C4 is reduced to RAID6, since
    RAID1C4 needs four devices; and while a balance converts data to
    RAID1, the reducer returns data with RAID1. *)
Lemma reduce_alloc_profile_spec_witness :
  sample_reduce_alloc_profile 3 None
    (Z.lor SAMPLE_DATA
       (Z.lor SAMPLE_RAID1 (Z.lor SAMPLE_RAID6 SAMPLE_RAID1C4)))
  = Z.lor SAMPLE_DATA SAMPLE_RAID6
  /\ sample_reduce_alloc_profile 3
       (Some (mk_balance_control (mk_balance_args SAMPLE_CONVERT SAMPLE_RAID1)
                (mk_balance_args 0 0) (mk_balance_args 0 0)))
       (Z.lor SAMPLE_DATA SAMPLE_RAID6)
     = Z.lor SAMPLE_DATA SAMPLE_RAID1.
Proof.
  unfold sample_reduce_alloc_profile. split.
  - rewrite (reduce_alloc_profile_spec SAMPLE_DATA SAMPLE_SYSTEM
               SAMPLE_METADATA SAMPLE_RAID0 SAMPLE_RAID1 SAMPLE_DUP
               SAMPLE_RAID10 SAMPLE_RAID5 SAMPLE_RAID6 SAMPLE_RAID1C3
               SAMPLE_RAID1C4 SAMPLE_PROFILE_MASK SAMPLE_CONVERT
               sample_raid_array sample_extended_to_chunk 3 None _
               sample_profile_bits_disjoint sample_raid_array_wf).
    reflexivity.
  - rewrite (reduce_alloc_profile_spec SAMPLE_DATA SAMPLE_SYSTEM
               SAMPLE_METADATA SAMPLE_RAID0 SAMPLE_RAID1 SAMPLE_DUP
               SAMPLE_RAID10 SAMPLE_RAID5 SAMPLE_RAID6 SAMPLE_RAID1C3
               SAMPLE_RAID1C4 SAMPLE_PROFILE_MASK SAMPLE_CONVERT
               sample_raid_array sample_extended_to_chunk 3 _ _
               sample_profile_bits_disjoint sample_raid_array_wf).
    reflexivity.
Defined.

(** ** The reclaim pass *)

Lemma list_sort_insert_perm {A : Type} (cmp : A -> A -> bool) a l :
  Permutation (a :: l) (list_sort_insert cmp a l).
Proof.
  induction l as [| b l IH]; simpl; [apply Permutation_refl |].
  destruct (cmp a b); [| apply Permutation_refl].
  eapply Permutation_trans; [apply perm_swap |].
  apply perm_skip. exact IH.
Qed.

Lemma list_sort_perm {A : Type} (cmp : A -> A -> bool) l :
  Permutation l (list_sort cmp l).
Proof.
  induction l as [| a l IH]; simpl; [apply Permutation_refl |].
  eapply Permutation_trans; [apply perm_skip; exact IH |].
  apply list_sort_insert_perm.
Qed.

(** Sorting with [reclaim_bgs_cmp] puts the candidates in ascending order
    of their used bytes. *)
Lemma reclaim_sort_insert_sorted bgs a l :
  StronglySorted (fun x y => bg_used (bgs x) <= bg_used (bgs y)) l ->
  StronglySorted (fun x y => bg_used (bgs x) <= bg_used (bgs y))
    (list_sort_insert (reclaim_bgs_cmp bgs) a l).
Proof.
  induction l as [| b l IH]; simpl; intros Hs.
  - constructor; constructor.
  - inversion Hs as [| ? ? Hs' Hall]; subst.
    unfold reclaim_bgs_cmp at 1.
    destruct (bg_used (bgs b) <? bg_used (bgs a)) eqn:E.
    + apply Z.ltb_lt in E. constructor; [apply IH; exact Hs' |].
      rewrite Forall_forall in Hall |- *. intros x Hx.
      apply (Permutation_in _ (Permutation_sym (list_sort_insert_perm _ a l)))
        in Hx.
      destruct Hx as [<- | Hx]; [lia | apply Hall; exact Hx].
    + apply Z.ltb_ge in E. constructor; [exact Hs |].
      constructor; [exact E |].
      rewrite Forall_forall in Hall |- *. intros x Hx.
      specialize (Hall x Hx). lia.
Qed.

Lemma reclaim_sort_sorted bgs l :
  StronglySorted (fun x y => bg_used (bgs x) <= bg_used (bgs y))
    (list_sort (reclaim_bgs_cmp bgs) l).
Proof.
  induction l as [| a l IH]; simpl; [constructor |].
  apply reclaim_sort_insert_sorted. exact IH.
Qed.

(** ** Walking the registry *)

Lemma find_app_first {A : Type} (f : A -> bool) l1 l2 :
  find f (l1 ++ l2)
  = match find f l1 with
    | Some x => Some x
    | None => find f l2
    end.
Proof.
  induction l1 as [| a l1 IH]; simpl; [reflexivity |].
  destruct (f a); [reflexivity | exact IH].
Qed.

Lemma find_all_false {A : Type} (f : A -> bool) l :
  (forall x, In x l -> f x = false) -> find f l = None.
Proof.
  induction l as [| a l IH]; simpl; intros H; [reflexivity |].
  rewrite (H a (or_introl eq_refl)). apply IH.
  intros x Hx. apply H. right. exact Hx.
Qed.

(** Without [contains], the search yields the first node in the order of
    the tree that starts at or after [bytenr]. *)
Lemma tree_search_walk_first bgs t bytenr ret :
  rb_bst bgs t ->
  (forall r, ret = Some r ->
     rb_all (fun q => bg_start (bgs q) < bg_start (bgs r)) t) ->
  tree_search_walk bgs t bytenr false ret
  = match find (fun q => bytenr <=? bg_start (bgs q)) (rb_elements t) with
    | Some p => Some p
    | None => ret
    end.
Proof.
  revert ret. induction t as [| l IHl cache r IHr]; intros ret; simpl;
    [reflexivity |].
  intros (Hl & Hr & Hlc & Hcr) Hret.
  rewrite find_app_first. simpl.
  destruct (bytenr <? bg_start (bgs cache)) eqn:E1.
  - apply Z.ltb_lt in E1.
    assert (Hc : (bytenr <=? bg_start (bgs cache)) = true)
      by (apply Z.leb_le; lia).
    rewrite Hc.
    assert (Hnew : (match ret with
                    | Some q => bg_start (bgs cache) <? bg_start (bgs q)
                    | None => true
                    end) = true).
    { destruct ret as [r0 |]; [| reflexivity].
      destruct (Hret r0 eq_refl) as (_ & H & _). apply Z.ltb_lt. exact H. }
    rewrite Hnew. rewrite IHl.
    + destruct (find (fun q => bytenr <=? bg_start (bgs q)) (rb_elements l));
        reflexivity.
    + exact Hl.
    + intros r0 H0. inversion H0; subst. exact Hlc.
  - apply Z.ltb_ge in E1.
    assert (Hnone : find (fun q => bytenr <=? bg_start (bgs q)) (rb_elements l)
                    = None).
    { apply find_all_false. intros x Hx. rewrite rb_all_elements in Hlc.
      specialize (Hlc x Hx). apply Z.leb_gt. lia. }
    rewrite Hnone.
    destruct (bytenr >? bg_start (bgs cache)) eqn:E2.
    + rewrite Z.gtb_ltb in E2. apply Z.ltb_lt in E2.
      assert (Hc : (bytenr <=? bg_start (bgs cache)) = false)
        by (apply Z.leb_gt; lia).
      rewrite Hc. apply IHr; [exact Hr |].
      intros r0 H0. destruct (Hret r0 H0) as (_ & _ & H). exact H.
    + rewrite Z.gtb_ltb in E2. apply Z.ltb_ge in E2.
      assert (Hc : (bytenr <=? bg_start (bgs cache)) = true)
        by (apply Z.leb_le; lia).
      rewrite Hc. reflexivity.
Qed.

(** In a list in ascending order of start offsets, the first element that
    starts at or after [bytenr] is the one with the least such start. *)
Lemma find_sorted_least (bgs : bg_ptr -> btrfs_block_group) l bytenr :
  StronglySorted (fun a b => bg_start (bgs a) < bg_start (bgs b)) l ->
  match find (fun q => bytenr <=? bg_start (bgs q)) l with
  | Some p =>
    In p l /\ bytenr <= bg_start (bgs p)
    /\ forall q, In q l -> bytenr <= bg_start (bgs q) ->
         bg_start (bgs p) <= bg_start (bgs q)
  | None => forall q, In q l -> bg_start (bgs q) < bytenr
  end.
Proof.
  induction l as [| a l IH]; simpl; intros Hs; [intros q [] |].
  inversion Hs as [| ? ? Hs' Hall]; subst. rewrite Forall_forall in Hall.
  destruct (bytenr <=? bg_start (bgs a)) eqn:E.
  - apply Z.leb_le in E. split; [left; reflexivity |]. split; [exact E |].
    intros q [<- | Hq] _; [lia |]. specialize (Hall q Hq). lia.
  - apply Z.leb_gt in E. specialize (IH Hs').
    destruct (find (fun q => bytenr <=? bg_start (bgs q)) l) as [p |].
    + destruct IH as (Hin & Hle & Hleast). split; [right; exact Hin |].
      split; [exact Hle |].
      intros q [<- | Hq] Hb; [lia | apply Hleast; assumption].
    + intros q [<- | Hq]; [exact E | apply IH; exact Hq].
Qed.

(** In a list in ascending order of start offsets, the element after [p]
    is the one with the least start above that of [p]. *)
Lemma list_next_sorted bgs l p :
  StronglySorted (fun a b => bg_start (bgs a) < bg_start (bgs b)) l ->
  In p l ->
  match list_next l p with
  | Some n =>
    In n l /\ bg_start (bgs p) < bg_start (bgs n)
    /\ forall q, In q l -> bg_start (bgs p) < bg_start (bgs q) ->
         bg_start (bgs n) <= bg_start (bgs q)
  | None => forall q, In q l -> bg_start (bgs q) <= bg_start (bgs p)
  end.
Proof.
  induction l as [| a l IH]; simpl; intros Hs Hin; [destruct Hin |].
  inversion Hs as [| ? ? Hs' Hall]; subst. rewrite Forall_forall in Hall.
  destruct (Nat.eqb a p) eqn:E.
  - apply Nat.eqb_eq in E. subst a.
    destruct l as [| b l']; simpl.
    + intros q [<- | []]. lia.
    + split; [right; left; reflexivity |].
      split; [apply Hall; left; reflexivity |].
      intros q [<- | [<- | Hq]] Hlt; [lia | lia |].
      inversion Hs' as [| ? ? _ Hall']; subst.
      rewrite Forall_forall in Hall'. specialize (Hall' q Hq). lia.
  - apply Nat.eqb_neq in E. destruct Hin as [-> | Hin]; [contradiction |].
    specialize (IH Hs' Hin). pose proof (Hall p Hin) as Hap.
    destruct (list_next l p) as [n |].
    + destruct IH as (Hn & Hlt & Hleast). split; [right; exact Hn |].
      split; [exact Hlt |].
      intros q [<- | Hq] Hb; [lia | apply Hleast; assumption].
    + intros q [<- | Hq]; [lia | apply IH; exact Hq].
Qed.

Lemma RB_EMPTY_NODE_spec info cache :
  RB_EMPTY_NODE info cache = false
  <-> In cache (rb_elements (fs_block_group_cache_tree info)).
Proof.
  unfold RB_EMPTY_NODE. rewrite negb_false_iff, existsb_exists. split.
  - intros (x & Hx & E). apply Nat.eqb_eq in E. subst x. exact Hx.
  - intros H. exists cache. split; [exact H | apply Nat.eqb_refl].
Qed.

(** The first group at or after [bytenr], in a registry that is a search
    tree. *)
Lemma lookup_first_find info bytenr :
  rb_bst (fs_block_groups info) (fs_block_group_cache_tree info) ->
  match btrfs_lookup_first_block_group info bytenr with
  | (Some p, info') =>
    least_start info (fun start => bytenr <= start) p
    /\ info' = fs_store_bg info p (btrfs_get_block_group (fs_bg info p))
  | (None, info') =>
    (forall q, In q (rb_elements (fs_block_group_cache_tree info)) ->
       bg_start (fs_bg info q) < bytenr)
    /\ info' = info
  end.
Proof.
  intros Hbst.
  unfold btrfs_lookup_first_block_group, block_group_cache_tree_search.
  rewrite (tree_search_walk_first _ _ bytenr None Hbst)
    by (intros r H; discriminate H).
  apply rb_bst_sorted in Hbst.
  pose proof (find_sorted_least _ _ bytenr Hbst) as H.
  unfold least_start, fs_bg.
  destruct (find (fun q => bytenr <=? bg_start (fs_block_groups info q))
              (rb_elements (fs_block_group_cache_tree info))) as [p |].
  - split; [exact H | reflexivity].
  - split; [exact H | reflexivity].
Qed.

(** X1.  In a registry that is a search tree on the start offsets,
    [btrfs_lookup_first_block_group] returns the registered group with the
    least start offset at or after [bytenr], with one more reference on
    it, and returns nothing, changing nothing, exactly when every
    registered group starts below [bytenr].  A group that starts below
    [bytenr] is never returned, even when it contains [bytenr]. *)
Theorem lookup_first_least_start info bytenr :
  rb_bst (fs_block_groups info) (fs_block_group_cache_tree info) ->
  match btrfs_lookup_first_block_group info bytenr with
  | (Some p, info') =>
    least_start info (fun start => bytenr <= start) p
    /\ info' = fs_store_bg info p (btrfs_get_block_group (fs_bg info p))
  | (None, info') =>
    (forall q, In q (rb_elements (fs_block_group_cache_tree info)) ->
       bg_start (fs_bg info q) < bytenr)
    /\ info' = info
  end.
Proof. exact (lookup_first_find info bytenr). Qed.

Lemma adjacent_registry_bst :
  rb_bst (fs_block_groups adjacent_registry)
    (fs_block_group_cache_tree adjacent_registry).
Proof. simpl. repeat split; lia. Defined.

Lemma lookup_first_least_start_witness :
  least_start adjacent_registry (fun start => 50 <= start) 1%nat
  /\ fst (btrfs_lookup_block_group adjacent_registry 50) = Some 0%nat.
Proof.
  split; [| reflexivity].
  exact (proj1 (lookup_first_least_start adjacent_registry 50
                  adjacent_registry_bst)).
Defined.


Lemma rb_all_impl (P Q : bg_ptr -> Prop) t :
  (forall q, P q -> Q q) -> rb_all P t -> rb_all Q t.
Proof.
  intros H. induction t as [| l IHl cache r IHr]; simpl; [trivial |].
  intros (Hl & Hc & Hr). auto.
Qed.

Lemma rb_bst_same_keys bgs bgs' t :
  same_keys bgs bgs' -> rb_bst bgs t -> rb_bst bgs' t.
Proof.
  intros Hk. induction t as [| l IHl cache r IHr]; simpl; [trivial |].
  intros (Hl & Hr & Hlc & Hcr). repeat split; auto.
  - eapply rb_all_impl; [| exact Hlc]. intros q Hq. simpl in Hq.
    destruct (Hk q) as [-> _], (Hk cache) as [-> _]. exact Hq.
  - eapply rb_all_impl; [| exact Hcr]. intros q Hq. simpl in Hq.
    destruct (Hk q) as [-> _], (Hk cache) as [-> _]. exact Hq.
Qed.

Lemma fs_store_bg_same info p g :
  fs_bg (fs_store_bg info p g) p = g.
Proof. unfold fs_bg, fs_store_bg. simpl. apply store_set_same. Qed.

Lemma fs_store_bg_other info p g q :
  q <> p -> fs_bg (fs_store_bg info p g) q = fs_bg info q.
Proof.
  intros H. unfold fs_bg, fs_store_bg. simpl. apply store_set_other. exact H.
Qed.

Section NextFacts.

Variable rb_next : rb_tree -> bg_ptr -> option bg_ptr.

(** X2.  With [rb_next] yielding the node that follows in the order of the
    tree, in a registry that is a search tree: for a registered group,
    [btrfs_next_block_group] returns the registered group with the least
    start offset above that of [cache], or nothing when [cache] is the
    last one; for a group that has been removed from the registry it
    returns the registered group with the least start offset at or after
    the end of [cache].  In both cases [cache] loses one reference, the
    group returned gains one, and no other group changes. *)
Theorem next_block_group_successor info cache :
  (forall t p, rb_next t p = in_order_next t p) ->
  rb_bst (fs_block_groups info) (fs_block_group_cache_tree info) ->
  let dropped :=
    fs_store_bg info cache (btrfs_put_block_group (fs_bg info cache)) in
  let bound (start : Z) :=
    if RB_EMPTY_NODE info cache then
      (bg_start (fs_bg info cache) + bg_length (fs_bg info cache))%u64 <= start
    else bg_start (fs_bg info cache) < start in
  match btrfs_next_block_group rb_next info cache with
  | (Some next, info') =>
    least_start info bound next
    /\ next <> cache
    /\ fs_bg info' cache = btrfs_put_block_group (fs_bg info cache)
    /\ fs_bg info' next = btrfs_get_block_group (fs_bg info next)
    /\ (forall q, q <> cache -> q <> next -> fs_bg info' q = fs_bg info q)
  | (None, info') =>
    (forall q, In q (rb_elements (fs_block_group_cache_tree info)) ->
       ~ bound (bg_start (fs_bg info q)))
    /\ info' = dropped
  end.
Proof.
  intros Hnext Hbst dropped bound. unfold btrfs_next_block_group.
  destruct (RB_EMPTY_NODE info cache) eqn:Hempty.
  - assert (Hout : ~ In cache (rb_elements (fs_block_group_cache_tree info))).
    { intros Hin. apply RB_EMPTY_NODE_spec in Hin. congruence. }
    assert (Hsame : same_registry info dropped).
    { apply fs_store_bg_same_registry; reflexivity. }
    destruct Hsame as [Htree Hkeys].
    assert (Hbst' : rb_bst (fs_block_groups dropped)
                      (fs_block_group_cache_tree dropped)).
    { rewrite Htree. eapply rb_bst_same_keys; eassumption. }
    pose proof (lookup_first_find dropped
                  (bg_start (fs_bg info cache)
                   + bg_length (fs_bg info cache))%u64 Hbst') as H.
    fold dropped.
    destruct (btrfs_lookup_first_block_group dropped
                (bg_start (fs_bg info cache)
                 + bg_length (fs_bg info cache))%u64) as [[next |] info'].
    + destruct H as [(Hin & Hb & Hleast) ->]. rewrite Htree in Hin, Hleast.
      assert (Hne : next <> cache) by (intros ->; contradiction).
      unfold fs_bg in Hb, Hleast. split; [| split; [exact Hne |]].
      * split; [exact Hin |]. unfold fs_bg. split.
        -- destruct (Hkeys next) as [<- _]. exact Hb.
        -- intros q Hq Hbq. destruct (Hkeys next) as [<- _].
           destruct (Hkeys q) as [E _]. rewrite <- E.
           apply Hleast; [exact Hq |]. rewrite E. exact Hbq.
      * split; [| split].
        -- rewrite fs_store_bg_other by (intros E; apply Hne; symmetry; exact E).
           apply fs_store_bg_same.
        -- rewrite fs_store_bg_same. unfold dropped.
           rewrite fs_store_bg_other by exact Hne. reflexivity.
        -- intros q Hq1 Hq2. rewrite fs_store_bg_other by exact Hq2.
           unfold dropped. apply fs_store_bg_other. exact Hq1.
    + destruct H as [Hall ->]. split; [| reflexivity].
      intros q Hq Hbq. rewrite Htree in Hall. specialize (Hall q Hq).
      unfold bound, fs_bg in Hall, Hbq. destruct (Hkeys q) as [E _].
      rewrite E in Hall. lia.
  - apply RB_EMPTY_NODE_spec in Hempty. rewrite Hnext. unfold in_order_next.
    apply rb_bst_sorted in Hbst.
    pose proof (list_next_sorted _ _ cache Hbst Hempty) as H.
    fold dropped.
    destruct (list_next (rb_elements (fs_block_group_cache_tree info)) cache)
      as [next |].
    + destruct H as (Hin & Hlt & Hleast).
      assert (Hne : next <> cache) by (intros ->; lia).
      split; [| split; [exact Hne |]].
      * split; [exact Hin |]. split; [exact Hlt | exact Hleast].
      * split; [| split].
        -- rewrite fs_store_bg_other by (intros E; apply Hne; symmetry; exact E).
           apply fs_store_bg_same.
        -- rewrite fs_store_bg_same. unfold dropped.
           rewrite fs_store_bg_other by exact Hne. reflexivity.
        -- intros q Hq1 Hq2. rewrite fs_store_bg_other by exact Hq2.
           unfold dropped. apply fs_store_bg_other. exact Hq1.
    + split; [| reflexivity]. intros q Hq Hbq. specialize (H q Hq).
      unfold bound, fs_bg in Hbq. lia.
Qed.

End NextFacts.

Lemma next_block_group_successor_witness :
  least_start adjacent_registry (fun start => 0 < start) 1%nat
  /\ bg_refs (fs_bg (snd (btrfs_next_block_group in_order_next
                            adjacent_registry 0%nat)) 0%nat) = 0
  /\ fst (btrfs_next_block_group in_order_next adjacent_registry 1%nat) = None.
Proof.
  pose proof (next_block_group_successor in_order_next adjacent_registry 0%nat
                (fun t p => eq_refl) adjacent_registry_bst) as H.
  destruct H as (H1 & _ & H2 & _).
  split; [exact H1 |]. split; [exact (f_equal bg_refs H2) | reflexivity].
Defined.

Section InsertFacts.

Variable rb_insert_color : rb_tree -> rb_tree.

(** X3.  With a rebalancing that keeps the left-to-right order of the
    nodes: inserting a group with a proper range that overlaps no
    registered group into a well-formed registry succeeds and leaves a
    well-formed registry, in which every address of the new group is
    looked up to the new group and every other address is looked up as
    before the insertion. *)
Theorem insert_then_lookup info block_group :
  (forall t, rb_elements (rb_insert_color t) = rb_elements t) ->
  registry_wf info ->
  bg_range_ok (fs_bg info block_group) ->
  (forall q, In q (rb_elements (fs_block_group_cache_tree info)) ->
     bg_disjoint (fs_bg info q) (fs_bg info block_group)) ->
  exists info',
    btrfs_add_block_group_cache rb_insert_color info block_group
    = Some (OK, info')
    /\ registry_wf info'
    /\ (forall bytenr,
          bg_contains (fs_bg info block_group) bytenr ->
          fst (btrfs_lookup_block_group info' bytenr) = Some block_group)
    /\ (forall bytenr,
          ~ bg_contains (fs_bg info block_group) bytenr ->
          fst (btrfs_lookup_block_group info' bytenr)
          = fst (btrfs_lookup_block_group info bytenr)).
Proof.
  intros Hcolor (Hbst & Hok & Hdis) Hrange Hnew.
  assert (Hfresh : forall q,
             In q (rb_elements (fs_block_group_cache_tree info)) ->
             bg_start (fs_bg info q) <> bg_start (fs_bg info block_group)).
  { intros q Hq E. specialize (Hnew q Hq). specialize (Hok q Hq).
    unfold bg_disjoint, bg_range_ok in *. lia. }
  unfold btrfs_add_block_group_cache.
  assert (Hlen : (bg_length (fs_bg info block_group) =? 0) = false)
    by (apply Z.eqb_neq; unfold bg_range_ok in Hrange; lia).
  rewrite Hlen.
  destruct (rb_link_walk_spec (fs_block_groups info)
              (fs_block_group_cache_tree info) block_group Hbst)
    as [[(q & Hq & E) _] | (_ & t' & Hw & Hb & Hin)].
  { exfalso. exact (Hfresh q Hq E). }
  rewrite Hw. eexists. split; [reflexivity |].
  set (info' := set_fs_block_group_cache_tree (rb_insert_color t') info).
  assert (Hel : forall q,
             In q (rb_elements (fs_block_group_cache_tree info'))
             <-> q = block_group
                 \/ In q (rb_elements (fs_block_group_cache_tree info))).
  { intros q. simpl. rewrite Hcolor. apply Hin. }
  assert (Hwf : registry_wf info').
  { split; [| split].
    - simpl. apply rb_bst_sorted. rewrite Hcolor. apply rb_bst_sorted.
      exact Hb.
    - intros p Hp. apply Hel in Hp. destruct Hp as [-> | Hp];
        [exact Hrange | apply Hok; exact Hp].
    - intros p q Hp Hq Hne. apply Hel in Hp. apply Hel in Hq.
      change (fs_bg info' p) with (fs_bg info p) in *.
      change (fs_bg info' q) with (fs_bg info q) in *.
      destruct Hp as [-> | Hp], Hq as [-> | Hq].
      + contradiction.
      + specialize (Hnew q Hq). unfold bg_disjoint in *. lia.
      + apply Hnew. exact Hp.
      + apply Hdis; assumption. }
  split; [exact Hwf |].
  destruct Hwf as (Hbst' & Hok' & Hdis').
  split.
  - intros bytenr Hc.
    unfold btrfs_lookup_block_group, block_group_cache_tree_search.
    destruct (tree_search_walk_contains (fs_block_groups info')
                (fs_block_group_cache_tree info') bytenr None
                Hbst' Hok' Hdis') as [H1 _].
    rewrite (H1 block_group); [reflexivity | apply Hel; left; reflexivity |].
    exact Hc.
  - intros bytenr Hnc.
    unfold btrfs_lookup_block_group, block_group_cache_tree_search.
    destruct (tree_search_walk_contains (fs_block_groups info')
                (fs_block_group_cache_tree info') bytenr None
                Hbst' Hok' Hdis') as [H1' H2'].
    destruct (tree_search_walk_contains (fs_block_groups info)
                (fs_block_group_cache_tree info) bytenr None
                Hbst Hok Hdis) as [H1 H2].
    destruct (Exists_dec
                (fun p => bg_contains (fs_block_groups info p) bytenr)
                (rb_elements (fs_block_group_cache_tree info)))
      as [Hex | Hnex].
    { intros p. unfold bg_contains.
      destruct (Z_le_dec (bg_start (fs_block_groups info p)) bytenr);
        [| right; lia].
      destruct (Z_lt_dec bytenr
                  (bg_start (fs_block_groups info p)
                   + bg_length (fs_block_groups info p)));
        [left; lia | right; lia]. }
    + apply Exists_exists in Hex. destruct Hex as (p & Hp & Hc).
      rewrite (H1 p Hp Hc).
      rewrite (H1' p); [reflexivity | apply Hel; right; exact Hp | exact Hc].
    + rewrite H2.
      * rewrite H2'; [reflexivity |].
        intros p Hp Hc. apply Hel in Hp. destruct Hp as [-> | Hp].
        -- exact (Hnc Hc).
        -- apply Hnex. apply Exists_exists. exists p. split; assumption.
      * intros p Hp Hc. apply Hnex. apply Exists_exists. exists p.
        split; assumption.
Qed.

End InsertFacts.

Lemma insert_then_lookup_witness :
  exists info',
    btrfs_add_block_group_cache no_rebalance first_group_registry 1%nat
    = Some (OK, info')
    /\ fst (btrfs_lookup_block_group info' 120) = Some 1%nat
    /\ fst (btrfs_lookup_block_group info' 20) = Some 0%nat.
Proof.
  destruct (insert_then_lookup no_rebalance first_group_registry 1%nat)
    as (info' & Hadd & _ & Hnew & Hold).
  - intros t. reflexivity.
  - split; [simpl; auto |]. split.
    + intros p [<- | []]. unfold bg_range_ok. simpl. lia.
    + intros p q [<- | []] [<- | []] H. exfalso. apply H. reflexivity.
  - unfold bg_range_ok. simpl. lia.
  - intros q [<- | []]. unfold bg_disjoint. simpl. lia.
  - exists info'. split; [exact Hadd |]. split.
    + apply Hnew. unfold bg_contains. simpl. lia.
    + rewrite Hold; [reflexivity |]. unfold bg_contains. simpl. lia.
Defined.

(** ** The class counters against the group counters *)

(** Take a hypothesis on the result of an operation apart along the tests
    of the operation. *)
Ltac split_tests H :=
  repeat match type of H with
         | context [if ?b then _ else _] =>
           let E := fresh "E" in destruct b eqn:E; simpl in H
         | context [match ?r with OK => _ | ERR _ => _ end] =>
           let E := fresh "E" in destruct r eqn:E; simpl in H
         end.

(** Arithmetic modulo [2^64] and [2^32] on the fields of the goal. *)
Ltac wrap_arith :=
  unfold bg_free_bytes in *; fields;
  unfold is_u64, add64, sub64, mul64, u64, u32 in *;
  Z.div_mod_to_equations; lia.

(** Turn the boolean tests of the context into (in)equalities, and decide
    the tests on zero that the goal still holds. *)
Ltac bool_hyps :=
  repeat match goal with
         | H : negb _ = true |- _ => apply negb_true_iff in H
         | H : negb _ = false |- _ => apply negb_false_iff in H
         | H : (_ =? _) = true |- _ => apply Z.eqb_eq in H
         | H : (_ =? _) = false |- _ => apply Z.eqb_neq in H
         end.

Ltac zero_tests :=
  repeat match goal with
         | |- context [?x =? 0] => destruct (Z.eqb_spec x 0)
         end.

Section ClassFacts.

Variable btrfs_is_zoned : bool.
Variable btrfs_is_block_group_data_only : btrfs_block_group -> bool.
Variable btrfs_try_granting_tickets : btrfs_space_info -> btrfs_space_info.
Variable btrfs_space_info_used : btrfs_space_info -> bool -> Z.
Variable btrfs_can_overcommit : btrfs_space_info -> Z -> bool.
Variable BTRFS_BLOCK_GROUP_DATA : Z.
Variable btrfs_bg_type_to_factor : Z -> Z.
Variable mult_perc : Z -> Z -> Z.

Local Abbreviation add_reserved_bytes :=
  (btrfs_add_reserved_bytes btrfs_is_zoned btrfs_is_block_group_data_only
     btrfs_try_granting_tickets).
Local Abbreviation free_reserved_bytes :=
  (btrfs_free_reserved_bytes btrfs_try_granting_tickets).
Local Abbreviation update_counters :=
  (update_block_group_counters btrfs_bg_type_to_factor mult_perc).
Local Abbreviation inc_ro :=
  (inc_block_group_ro btrfs_is_zoned btrfs_space_info_used
     btrfs_can_overcommit BTRFS_BLOCK_GROUP_DATA).
Local Abbreviation dec_ro := (btrfs_dec_block_group_ro btrfs_is_zoned).
Local Abbreviation step :=
  (bg_step btrfs_is_zoned btrfs_is_block_group_data_only
     btrfs_try_granting_tickets btrfs_space_info_used btrfs_can_overcommit
     BTRFS_BLOCK_GROUP_DATA btrfs_bg_type_to_factor mult_perc).
Local Abbreviation run :=
  (bg_run btrfs_is_zoned btrfs_is_block_group_data_only
     btrfs_try_granting_tickets btrfs_space_info_used btrfs_can_overcommit
     BTRFS_BLOCK_GROUP_DATA btrfs_bg_type_to_factor mult_perc).

(** The size class of a group after an operation is the one before, unless
    there was none. *)
Lemma bg_step_size_class op cache sinfo cache' sinfo' :
  step op (cache, sinfo) = Some (cache', sinfo') ->
  bg_size_class cache' = bg_size_class cache
  \/ bg_size_class cache = BTRFS_BG_SZ_NONE.
Proof.
  intros Hstep.
  destruct op; unfold bg_step in Hstep.
  - destruct (add_reserved_bytes _ _ _ _ _ _) as [[[| e] c] s] eqn:E;
      [| discriminate].
    inversion Hstep; subst. clear Hstep.
    unfold btrfs_add_reserved_bytes, btrfs_use_block_group_size_class in E.
    split_tests E; try discriminate; inversion E; subst;
      try (left; reflexivity).
    all: right; apply size_class_eqb_eq; apply negb_false_iff; assumption.
  - unfold btrfs_free_reserved_bytes in Hstep.
    inversion Hstep; subst. left. destruct delalloc; reflexivity.
  - inversion Hstep; subst. left. reflexivity.
  - inversion Hstep; subst. left. reflexivity.
  - destruct (inc_ro _ _ _) as [[[| e] c] s] eqn:E; [| discriminate].
    inversion Hstep; subst. clear Hstep. unfold inc_block_group_ro in E.
    split_tests E; try discriminate; inversion E; subst; left; reflexivity.
  - unfold btrfs_dec_block_group_ro in Hstep.
    split_tests Hstep; try discriminate; inversion Hstep; subst; left;
      reflexivity.
  - destruct (inc_ro _ _ _) as [[[| e] c] s] eqn:E; [| discriminate].
    unfold inc_block_group_ro in E. unfold btrfs_dec_block_group_ro in Hstep.
    split_tests E; try discriminate; inversion E; subst; clear E;
      split_tests Hstep; try discriminate; inversion Hstep; subst; left;
      reflexivity.
  - unfold btrfs_inc_block_group_swap_extents in Hstep.
    split_tests Hstep; try discriminate; inversion Hstep; subst; left;
      reflexivity.
  - unfold btrfs_dec_block_group_swap_extents in Hstep.
    split_tests Hstep; try discriminate; inversion Hstep; subst; left;
      reflexivity.
Qed.

Lemma calc_size_class_not_none size :
  btrfs_calc_block_group_size_class size <> BTRFS_BG_SZ_NONE.
Proof.
  unfold btrfs_calc_block_group_size_class.
  destruct (size <=? SZ_128K); [discriminate |].
  destruct (size <=? SZ_8M); discriminate.
Qed.

(** X4.  The size class of a group is set once: along any sequence of
    operations on a group that has a class, the class stays what it was
    (a forced reservation of another class is admitted without changing
    it); and a successful reservation on a group that uses size classes
    leaves the group with a class. *)
Theorem size_class_set_once :
  (forall st0 st,
     run false st0 st ->
     bg_size_class (fst st0) <> BTRFS_BG_SZ_NONE ->
     bg_size_class (fst st) = bg_size_class (fst st0))
  /\ (forall cache sinfo ram_bytes num_bytes delalloc force cache' sinfo',
        add_reserved_bytes cache sinfo ram_bytes num_bytes delalloc force
        = (OK, cache', sinfo') ->
        btrfs_block_group_should_use_size_class btrfs_is_zoned
          btrfs_is_block_group_data_only cache = true ->
        bg_size_class cache' <> BTRFS_BG_SZ_NONE).
Proof.
  split.
  - intros st0 st Hrun Hset.
    induction Hrun as [| st op st' Hrun IH _ Hstep | cache sinfo sinfo' Hrun IH].
    + reflexivity.
    + destruct st as [cache sinfo], st' as [cache' sinfo']. simpl in *.
      destruct (bg_step_size_class _ _ _ _ _ Hstep) as [H | H]; congruence.
    + exact IH.
  - intros cache sinfo ram_bytes num_bytes delalloc force cache' sinfo' E Huse.
    unfold btrfs_add_reserved_bytes in E. rewrite Huse in E.
    unfold btrfs_use_block_group_size_class in E.
    pose proof (calc_size_class_not_none num_bytes) as Hcalc.
    split_tests E; try discriminate; inversion E; subst; simpl.
    all: try (apply size_class_eqb_eq in E1; rewrite E1; exact Hcalc).
    all: try exact Hcalc.
    all: intros Hnone; rewrite Hnone in *; simpl in *; discriminate.
Qed.

(** Two groups with the same fields are the same group. *)
Lemma block_group_ext g h :
  bg_start g = bg_start h -> bg_length g = bg_length h ->
  bg_flags g = bg_flags h -> bg_used g = bg_used h ->
  bg_reserved g = bg_reserved h -> bg_pinned g = bg_pinned h ->
  bg_bytes_super g = bg_bytes_super h ->
  bg_zone_unusable g = bg_zone_unusable h ->
  bg_delalloc_bytes g = bg_delalloc_bytes h -> bg_ro g = bg_ro h ->
  bg_swap_extents g = bg_swap_extents h ->
  bg_size_class g = bg_size_class h ->
  bg_alloc_offset g = bg_alloc_offset h ->
  bg_zone_capacity g = bg_zone_capacity h ->
  bg_refs g = bg_refs h -> bg_space_info g = bg_space_info h ->
  bg_bg_list g = bg_bg_list h -> bg_dirty_list g = bg_dirty_list h ->
  bg_runtime_flags g = bg_runtime_flags h -> bg_frozen g = bg_frozen h ->
  g = h.
Proof. destruct g, h; simpl; intros; subst; reflexivity. Qed.

(** A successful [btrfs_add_reserved_bytes] leaves the group as it was but
    for the reserved bytes, the delalloc bytes and the size class. *)
Lemma add_reserved_bytes_group cache sinfo ram_bytes num_bytes delalloc force
  cache1 sinfo1 :
  tickets_keep_counters btrfs_try_granting_tickets ->
  add_reserved_bytes cache sinfo ram_bytes num_bytes delalloc force
  = (OK, cache1, sinfo1) ->
  bg_ro cache = 0
  /\ cache1
     = set_bg_delalloc_bytes
         (if delalloc then (bg_delalloc_bytes cache + num_bytes)%u64
          else bg_delalloc_bytes cache)
         (set_bg_reserved (bg_reserved cache + num_bytes)%u64
            (set_bg_size_class (bg_size_class cache1) cache))
  /\ si_bytes_reserved sinfo1 = (si_bytes_reserved sinfo + num_bytes)%u64
  /\ si_bytes_readonly sinfo1 = si_bytes_readonly sinfo.
Proof.
  intros Htk E.
  pose proof (fun s => proj1 (proj2 (Htk s))) as Hkr.
  pose proof (fun s => proj2 (proj2 (proj2 (Htk s)))) as Hko.
  unfold btrfs_add_reserved_bytes, btrfs_use_block_group_size_class,
    btrfs_space_info_update_bytes_may_use in E.
  split_tests E; try discriminate; inversion E; subst; clear E;
    bool_hyps; rewrite ?Hkr, ?Hko;
    (split; [assumption |]); (split; [destruct cache; reflexivity |]);
    split; reflexivity.
Qed.

(** X5.  A reservation that is dropped again leaves the group as it was,
    but for the size class that the reservation may have set: the
    reserved and the delalloc bytes of the group and the reserved bytes of
    the class are back at their values, and the read-only bytes of the
    class are untouched. *)
Theorem reserve_then_free_reserved cache sinfo ram_bytes num_bytes delalloc
  force cache1 sinfo1 :
  tickets_keep_counters btrfs_try_granting_tickets ->
  is_u64 (bg_reserved cache) -> is_u64 (bg_delalloc_bytes cache) ->
  is_u64 (si_bytes_reserved sinfo) ->
  add_reserved_bytes cache sinfo ram_bytes num_bytes delalloc force
  = (OK, cache1, sinfo1) ->
  fst (free_reserved_bytes cache1 sinfo1 num_bytes delalloc)
  = set_bg_size_class (bg_size_class cache1) cache
  /\ si_bytes_reserved (snd (free_reserved_bytes cache1 sinfo1 num_bytes
                               delalloc))
     = si_bytes_reserved sinfo
  /\ si_bytes_readonly (snd (free_reserved_bytes cache1 sinfo1 num_bytes
                               delalloc))
     = si_bytes_readonly sinfo.
Proof.
  intros Htk Hr Hd Hsr E.
  pose proof (fun s => proj1 (proj2 (Htk s))) as Hkr.
  pose proof (fun s => proj2 (proj2 (proj2 (Htk s)))) as Hko.
  destruct (add_reserved_bytes_group _ _ _ _ _ _ _ _ Htk E)
    as (Hro & Hc & Hs1 & Hs2).
  generalize dependent (bg_size_class cache1). intros class Hc.
  assert (Hro1 : (bg_ro cache1 =? 0) = true)
    by (rewrite Hc; apply Z.eqb_eq; exact Hro).
  unfold btrfs_free_reserved_bytes. rewrite Hro1. simpl negb. cbv iota.
  cbn [fst snd]. rewrite Hkr, Hko. fields. rewrite Hs1, Hs2.
  split; [| split; [wrap_arith | reflexivity]].
  subst cache1. clear E Hro1 Hs1 Hs2.
  apply block_group_ext; fields; try reflexivity;
    destruct delalloc; fields; try reflexivity; wrap_arith.
Qed.

(** X6.  Every operation on a group changes the used, reserved and pinned
    bytes of its class by exactly what it changes the counters of the
    group by: what the other groups hold of the class counters stays the
    same. *)
Theorem class_counters_follow_group op cache sinfo cache' sinfo' :
  tickets_keep_counters btrfs_try_granting_tickets ->
  step op (cache, sinfo) = Some (cache', sinfo') ->
  class_rest cache' sinfo' = class_rest cache sinfo.
Proof.
  intros Htk Hstep.
  pose proof (fun s => proj1 (Htk s)) as Hku.
  pose proof (fun s => proj1 (proj2 (Htk s))) as Hkr.
  pose proof (fun s => proj1 (proj2 (proj2 (Htk s)))) as Hkp.
  unfold class_rest.
  destruct op; unfold bg_step in Hstep.
  - destruct (add_reserved_bytes _ _ _ _ _ _) as [[[| e] c] s] eqn:E;
      [| discriminate].
    inversion Hstep; subst. clear Hstep.
    unfold btrfs_add_reserved_bytes, btrfs_use_block_group_size_class,
      btrfs_space_info_update_bytes_may_use in E.
    split_tests E; try discriminate; inversion E; subst; clear E;
      rewrite ?Hku, ?Hkr, ?Hkp; fields;
      (apply f_equal2; [apply f_equal2 |]); wrap_arith.
  - unfold btrfs_free_reserved_bytes in Hstep.
    inversion Hstep; subst. clear Hstep.
    rewrite ?Hku, ?Hkr, ?Hkp.
    destruct delalloc, (negb (bg_ro cache =? 0)); fields;
      (apply f_equal2; [apply f_equal2 |]); wrap_arith.
  - unfold update_block_group_counters in Hstep.
    inversion Hstep; subst. clear Hstep. fields.
    (apply f_equal2; [apply f_equal2 |]); wrap_arith.
  - unfold update_block_group_counters,
      btrfs_space_info_update_bytes_pinned in Hstep.
    inversion Hstep; subst. clear Hstep. fields.
    (apply f_equal2; [apply f_equal2 |]); wrap_arith.
  - destruct (inc_ro _ _ _) as [[[| e] c] s] eqn:E; [| discriminate].
    inversion Hstep; subst. clear Hstep. unfold inc_block_group_ro in E.
    split_tests E; try discriminate; inversion E; subst; reflexivity.
  - unfold btrfs_dec_block_group_ro in Hstep.
    split_tests Hstep; try discriminate; inversion Hstep; subst;
      reflexivity.
  - destruct (inc_ro _ _ _) as [[[| e] c] s] eqn:E; [| discriminate].
    unfold inc_block_group_ro in E. unfold btrfs_dec_block_group_ro in Hstep.
    split_tests E; try discriminate; inversion E; subst; clear E;
      split_tests Hstep; try discriminate; inversion Hstep; subst;
      reflexivity.
  - unfold btrfs_inc_block_group_swap_extents in Hstep.
    split_tests Hstep; try discriminate; inversion Hstep; subst;
      reflexivity.
  - unfold btrfs_dec_block_group_swap_extents in Hstep.
    split_tests Hstep; try discriminate; inversion Hstep; subst;
      reflexivity.
Qed.

(** Setting and clearing read-only on a filesystem that is not zoned keep
    the read-only bytes of the class in step with the group. *)
Lemma inc_ro_readonly cache sinfo force c s :
  0 <= bg_ro cache < 2 ^ 32 - 1 ->
  inc_block_group_ro false btrfs_space_info_used btrfs_can_overcommit
    BTRFS_BLOCK_GROUP_DATA cache sinfo force = (OK, c, s) ->
  class_rest_readonly c s = class_rest_readonly cache sinfo
  /\ bg_ro c = bg_ro cache + 1.
Proof.
  intros Hro E.
  unfold class_rest_readonly, bg_readonly_bytes.
  unfold inc_block_group_ro in E.
  split_tests E; try discriminate; inversion E; subst; clear E;
    fields; bool_hyps; (split; [zero_tests; wrap_arith | wrap_arith]).
Qed.

Lemma dec_ro_readonly cache sinfo c s :
  0 <= bg_ro cache < 2 ^ 32 ->
  btrfs_dec_block_group_ro false cache sinfo = Some (c, s) ->
  class_rest_readonly c s = class_rest_readonly cache sinfo.
Proof.
  intros Hro E.
  unfold class_rest_readonly, bg_readonly_bytes.
  unfold btrfs_dec_block_group_ro in E. cbn [bg_ro set_bg_ro] in E.
  split_tests E; try discriminate; inversion E; subst; clear E;
    fields; bool_hyps; zero_tests; wrap_arith.
Qed.

(** X7.  On a filesystem that is not zoned, while the read-only counter
    does not overflow, every operation keeps the read-only bytes of the
    class in step with the group: [bytes_readonly] holds the unclaimed
    bytes of the group exactly while the group is read-only, also when a
    reservation is dropped or an extent is committed or freed meanwhile.
    What the other groups hold of [bytes_readonly] stays the same. *)
Theorem readonly_bytes_follow_group op cache sinfo cache' sinfo' :
  tickets_keep_counters btrfs_try_granting_tickets ->
  btrfs_is_zoned = false ->
  0 <= bg_ro cache < 2 ^ 32 - 1 ->
  step op (cache, sinfo) = Some (cache', sinfo') ->
  class_rest_readonly cache' sinfo' = class_rest_readonly cache sinfo.
Proof.
  intros Htk Hz Hro Hstep.
  pose proof (fun s => proj2 (proj2 (proj2 (Htk s)))) as Hko.
  destruct op; unfold bg_step in Hstep;
    [clear Hz | rewrite ?Hz in Hstep; clear Hz ..].
  - destruct (add_reserved_bytes _ _ _ _ _ _) as [[[| e] c] s] eqn:E;
      [| discriminate].
    inversion Hstep; subst. clear Hstep.
    destruct (add_reserved_bytes_group _ _ _ _ _ _ _ _ Htk E)
      as (Hro0 & Hc & _ & Hs).
    unfold class_rest_readonly, bg_readonly_bytes.
    rewrite Hs, Hc. fields. rewrite Hro0. reflexivity.
  - unfold btrfs_free_reserved_bytes in Hstep.
    inversion Hstep; subst. clear Hstep.
    unfold class_rest_readonly, bg_readonly_bytes. rewrite ?Hko.
    destruct delalloc; fields; zero_tests; simpl negb; cbv iota; fields;
      wrap_arith.
  - unfold update_block_group_counters in Hstep.
    inversion Hstep; subst. clear Hstep.
    unfold class_rest_readonly, bg_readonly_bytes. fields.
    zero_tests; wrap_arith.
  - unfold update_block_group_counters,
      btrfs_space_info_update_bytes_pinned in Hstep.
    inversion Hstep; subst. clear Hstep.
    unfold class_rest_readonly, bg_readonly_bytes. fields.
    zero_tests; wrap_arith.
  - destruct (inc_block_group_ro _ _ _ _ _ _ _) as [[[| e] c] s] eqn:E;
      [| discriminate].
    inversion Hstep; subst. clear Hstep.
    apply (inc_ro_readonly _ _ _ _ _ Hro E).
  - apply dec_ro_readonly in Hstep; [exact Hstep | lia].
  - destruct (inc_block_group_ro _ _ _ _ _ _ _) as [[[| e] c] s] eqn:E;
      [| discriminate].
    destruct (inc_ro_readonly _ _ _ _ _ Hro E) as [H1 H2].
    destruct relocated.
    + inversion Hstep; subst. exact H1.
    + apply dec_ro_readonly in Hstep; [| lia]. congruence.
  - unfold btrfs_inc_block_group_swap_extents in Hstep.
    unfold class_rest_readonly, bg_readonly_bytes, bg_free_bytes.
    split_tests Hstep; try discriminate; inversion Hstep; subst; fields;
      reflexivity.
  - unfold btrfs_dec_block_group_swap_extents in Hstep.
    unfold class_rest_readonly, bg_readonly_bytes, bg_free_bytes.
    split_tests Hstep; try discriminate; inversion Hstep; subst; fields;
      reflexivity.
Qed.

End ClassFacts.

Lemma sample_tickets_keep_counters : tickets_keep_counters sample_no_tickets.
Proof. intros s. repeat split; reflexivity. Defined.

Lemma size_class_set_once_witness :
  bg_size_class (fst sample_reserved_state) = BTRFS_BG_SZ_LARGE
  /\ forall st,
       sample_step (OpReserve 4096 4096 false true) sample_reserved_state
       = Some st ->
       bg_size_class (fst st) = BTRFS_BG_SZ_LARGE.
Proof.
  split; [reflexivity |]. intros st Hstep.
  apply (proj1 (size_class_set_once false sample_data_only sample_no_tickets
                  space_info_used_sum sample_no_overcommit SAMPLE_DATA
                  sample_factor sample_mult_perc)
           sample_reserved_state st).
  - apply (bg_run_step _ _ _ _ _ _ _ _ _ _ sample_reserved_state
             (OpReserve 4096 4096 false true)).
    + apply bg_run_start.
    + discriminate.
    + exact Hstep.
  - discriminate.
Defined.

Lemma reserve_then_free_reserved_witness :
  fst (btrfs_free_reserved_bytes sample_no_tickets
         (fst sample_reserved_state) (snd sample_reserved_state)
         (100 * MiB) false)
  = set_bg_size_class BTRFS_BG_SZ_LARGE sample_group.
Proof.
  apply (reserve_then_free_reserved false sample_data_only sample_no_tickets
           sample_group sample_class (100 * MiB) (100 * MiB) false false
           (fst sample_reserved_state) (snd sample_reserved_state)
           sample_tickets_keep_counters).
  - unfold is_u64. simpl. lia.
  - unfold is_u64. simpl. lia.
  - unfold is_u64. simpl. lia.
  - reflexivity.
Defined.

Lemma class_counters_follow_group_witness :
  class_rest (fst sample_reserved_state) (snd sample_reserved_state)
  = class_rest sample_group sample_class.
Proof.
  apply (class_counters_follow_group false sample_data_only sample_no_tickets
           space_info_used_sum sample_no_overcommit SAMPLE_DATA sample_factor
           sample_mult_perc (OpReserve (100 * MiB) (100 * MiB) false false)
           sample_group sample_class _ _ sample_tickets_keep_counters).
  reflexivity.
Defined.

Lemma readonly_bytes_follow_group_witness :
  class_rest_readonly (set_bg_ro 1 sample_group)
    (set_si_bytes_readonly (1000 * MiB) sample_class)
  = class_rest_readonly sample_group sample_class.
Proof.
  apply (readonly_bytes_follow_group false sample_data_only sample_no_tickets
           space_info_used_sum sample_no_overcommit SAMPLE_DATA sample_factor
           sample_mult_perc (OpSetReadOnly true) sample_group sample_class
           _ _ sample_tickets_keep_counters eq_refl).
  - simpl. lia.
  - reflexivity.
Defined.

(** ** The reclaim check and the update of the counters *)

Section UpdateExtraFacts.

Variable btrfs_bg_type_to_factor : Z -> Z.
Variable mult_perc : Z -> Z -> Z.
Variable discard_async : bool.
Variable BLOCK_GROUP_FLAG_NEW : Z.

(** X8.  [should_reclaim_block_group] never asks for a reclaim when the
    threshold of the class is zero, nor when no bytes were freed.  With
    the length of the group as the bytes freed, as the reclaim pass calls
    it, a threshold that is within the length makes the first test pass,
    and the result is whether the used bytes are below the threshold. *)
Theorem reclaim_check_in_pass bg space_info :
  (si_bg_reclaim_threshold space_info = 0 ->
   forall bytes_freed,
     should_reclaim_block_group mult_perc bg space_info bytes_freed = false)
  /\ (is_u64 (bg_used bg) ->
      should_reclaim_block_group mult_perc bg space_info 0 = false)
  /\ (si_bg_reclaim_threshold space_info <> 0 ->
      0 <= bg_used bg -> 0 <= bg_length bg ->
      bg_used bg + bg_length bg < 2 ^ 64 ->
      mult_perc (bg_length bg) (si_bg_reclaim_threshold space_info)
      <= bg_length bg ->
      should_reclaim_block_group mult_perc bg space_info (bg_length bg)
      = (bg_used bg
         <? mult_perc (bg_length bg) (si_bg_reclaim_threshold space_info))).
Proof.
  unfold should_reclaim_block_group. split; [| split].
  - intros H bytes_freed. rewrite H. reflexivity.
  - intros Hu. destruct (si_bg_reclaim_threshold space_info =? 0);
      [reflexivity |].
    replace (bg_used bg + 0)%u64 with (bg_used bg)
      by (unfold add64; rewrite Z.add_0_r, u64_small; auto).
    destruct (bg_used bg <? mult_perc _ _) eqn:E1; [reflexivity |].
    apply Z.ltb_ge in E1. apply Z.leb_le in E1. rewrite E1. reflexivity.
  - intros Hth H0 Hl Hsum Hle. apply Z.eqb_neq in Hth. rewrite Hth.
    replace (bg_used bg + bg_length bg)%u64 with (bg_used bg + bg_length bg)
      by (unfold add64; rewrite u64_small; unfold is_u64; auto; lia).
    assert (E1 : (bg_used bg + bg_length bg
                  <? mult_perc (bg_length bg)
                       (si_bg_reclaim_threshold space_info)) = false)
      by (apply Z.ltb_ge; lia).
    rewrite E1.
    destruct (bg_used bg <? mult_perc _ _) eqn:E2.
    + apply Z.ltb_lt in E2.
      assert (E3 : (mult_perc (bg_length bg)
                      (si_bg_reclaim_threshold space_info)
                    <=? bg_used bg) = false) by (apply Z.leb_gt; lia).
      rewrite E3. reflexivity.
    + apply Z.ltb_ge in E2. apply Z.leb_le in E2. rewrite E2. reflexivity.
Qed.

(** X9.  When no registered group contains [bytenr],
    [btrfs_update_block_group] returns [-ENOENT] with every group and
    class as it was; the used bytes of the superblock, which are updated
    before the lookup, have changed all the same and are not put back. *)
Theorem update_block_group_missing_group info bytenr num_bytes alloc :
  registry_wf info ->
  (forall p, In p (rb_elements (fs_block_group_cache_tree info)) ->
     ~ bg_contains (fs_bg info p) bytenr) ->
  btrfs_update_block_group btrfs_bg_type_to_factor mult_perc discard_async
    BLOCK_GROUP_FLAG_NEW info bytenr num_bytes alloc
  = Some (ERR ENOENT,
          set_fs_super_bytes_used
            (if alloc then (fs_super_bytes_used info + num_bytes)%u64
             else (fs_super_bytes_used info - num_bytes)%u64) info).
Proof.
  intros (Hbst & Hok & Hdis) Hnone. unfold btrfs_update_block_group.
  unfold btrfs_lookup_block_group, block_group_cache_tree_search.
  simpl fs_block_groups. simpl fs_block_group_cache_tree.
  destruct (tree_search_walk_contains (fs_block_groups info)
              (fs_block_group_cache_tree info) bytenr None Hbst Hok Hdis)
    as [_ H].
  rewrite (H Hnone). reflexivity.
Qed.


End UpdateExtraFacts.

(** ** Free space outside the excluded ranges *)

Lemma free_space_total_app a b :
  free_space_total (a ++ b) = free_space_total a + free_space_total b.
Proof.
  unfold free_space_total. induction a as [| x a IH]; simpl; [reflexivity |].
  rewrite IH. lia.
Qed.

(** The ranges of a sorted list start at or after its lower bound. *)
Lemma excluded_sorted_bound lo excluded_extents range :
  excluded_sorted lo excluded_extents -> In range excluded_extents ->
  lo <= fst range /\ fst range <= snd range.
Proof.
  revert lo. induction excluded_extents as [| [s e] rest IH]; simpl;
    intros lo Hs Hin; [destruct Hin |].
  destruct Hs as (H1 & H2 & H3 & H4). destruct Hin as [<- | Hin].
  - simpl. lia.
  - destruct (IH _ H4 Hin). lia.
Qed.

(** The records of [free_outside] are the bytes of the range that no
    excluded range holds. *)
Lemma free_outside_covers excluded_extents lo start end_ x :
  excluded_sorted lo excluded_extents ->
  record_covers (free_outside excluded_extents start end_) x
  <-> start <= x < end_ /\ ~ excluded_covers excluded_extents x.
Proof.
  unfold record_covers, excluded_covers.
  revert lo start. induction excluded_extents as [| [s e] rest IH];
    intros lo start Hs; simpl.
  - destruct (start <? end_) eqn:E.
    + apply Z.ltb_lt in E. split.
      * intros (r & [<- | []] & Hr). simpl in Hr.
        split; [lia | intros (q & [] & _)].
      * intros [Hx _]. exists (start, end_ - start).
        split; [left; reflexivity | simpl; lia].
    + apply Z.ltb_ge in E. split.
      * intros (r & [] & _).
      * intros [Hx _]. lia.
  - destruct Hs as (H1 & H2 & H3 & H4).
    assert (Hrest : forall q, In q rest -> e + 1 <= fst q).
    { intros q Hq. apply (excluded_sorted_bound _ _ _ H4 Hq). }
    destruct (start <? end_) eqn:E; simpl.
    2:{ apply Z.ltb_ge in E. split.
        - intros (r & [] & _).
        - intros [Hx _]. lia. }
    apply Z.ltb_lt in E.
    destruct (e <? start) eqn:E1.
    { apply Z.ltb_lt in E1. rewrite (IH _ start H4). split.
      - intros [Hx Hn]. split; [exact Hx |].
        intros (q & [<- | Hq] & Hin); [simpl in Hin; lia |].
        apply Hn. exists q. split; assumption.
      - intros [Hx Hn]. split; [exact Hx |].
        intros (q & Hq & Hin). apply Hn. exists q.
        split; [right; exact Hq | exact Hin]. }
    apply Z.ltb_ge in E1.
    destruct (s <=? start) eqn:E2.
    { apply Z.leb_le in E2. rewrite (IH _ (e + 1) H4). split.
      - intros [Hx Hn]. split; [lia |].
        intros (q & [<- | Hq] & Hin); [simpl in Hin; lia |].
        apply Hn. exists q. split; assumption.
      - intros [Hx Hn]. split.
        + split; [| lia].
          destruct (Z_le_gt_dec (e + 1) x) as [H | H]; [exact H |].
          exfalso. apply Hn. exists (s, e).
          split; [left; reflexivity | simpl; lia].
        + intros (q & Hq & Hin). apply Hn. exists q.
          split; [right; exact Hq | exact Hin]. }
    apply Z.leb_gt in E2.
    destruct (s <? end_) eqn:E3.
    { apply Z.ltb_lt in E3. split.
      - intros (r & [<- | Hr] & Hin).
        + simpl in Hin. split; [lia |].
          intros (q & [<- | Hq] & Hq'); [simpl in Hq'; lia |].
          specialize (Hrest q Hq). lia.
        + destruct (proj1 (IH _ (e + 1) H4)) as [Hx Hn].
          { exists r. split; assumption. }
          split; [lia |].
          intros (q & [<- | Hq] & Hq'); [simpl in Hq'; lia |].
          apply Hn. exists q. split; assumption.
      - intros [Hx Hn].
        destruct (Z_lt_le_dec x s) as [H | H].
        + exists (start, s - start). split; [left; reflexivity | simpl; lia].
        + assert (He : e + 1 <= x).
          { destruct (Z_le_gt_dec (e + 1) x) as [H' | H']; [exact H' |].
            exfalso. apply Hn. exists (s, e).
            split; [left; reflexivity | simpl; lia]. }
          destruct (proj2 (IH _ (e + 1) H4)) as (r & Hr & Hin).
          { split; [lia |]. intros (q & Hq & Hin). apply Hn. exists q.
            split; [right; exact Hq | exact Hin]. }
          exists r. split; [right; exact Hr | exact Hin]. }
    apply Z.ltb_ge in E3. split.
    + intros (r & [<- | []] & Hin). simpl in Hin. split; [lia |].
      intros (q & [<- | Hq] & Hq'); [simpl in Hq'; lia |].
      specialize (Hrest q Hq). lia.
    + intros [Hx _]. exists (start, end_ - start).
      split; [left; reflexivity | simpl; lia].
Qed.

(** The sizes of the records of [free_outside] are positive and add up to
    no more than the length of the range. *)
Lemma free_outside_total excluded_extents lo start end_ :
  excluded_sorted lo excluded_extents ->
  0 <= free_space_total (free_outside excluded_extents start end_)
    <= Z.max 0 (end_ - start).
Proof.
  unfold free_space_total.
  revert lo start. induction excluded_extents as [| [s e] rest IH];
    intros lo start Hs; simpl.
  - destruct (start <? end_) eqn:E; simpl.
    + apply Z.ltb_lt in E. lia.
    + lia.
  - destruct Hs as (H1 & H2 & H3 & H4).
    destruct (start <? end_) eqn:E; simpl; [| lia].
    apply Z.ltb_lt in E.
    destruct (e <? start) eqn:E1; [apply (IH _ start H4) |].
    apply Z.ltb_ge in E1.
    destruct (s <=? start) eqn:E2.
    { specialize (IH _ (e + 1) H4). lia. }
    apply Z.leb_gt in E2.
    destruct (s <? end_) eqn:E3; simpl.
    + apply Z.ltb_lt in E3. specialize (IH _ (e + 1) H4). lia.
    + lia.
Qed.

Lemma find_first_extent_bit_app pre suf start :
  (forall range, In range pre -> snd range < start) ->
  find_first_extent_bit (pre ++ suf) start = find_first_extent_bit suf start.
Proof.
  intros H. unfold find_first_extent_bit. rewrite find_app_first.
  rewrite find_all_false; [reflexivity |].
  intros x Hx. apply Z.leb_gt. apply H. exact Hx.
Qed.

(** The loop of [btrfs_add_new_free_space] over sorted excluded ranges:
    it ends within as many turns as there are ranges left ahead, and what
    it has added, with what is left from the start it reached, are the
    parts of the range outside the excluded ranges. *)
Lemma add_new_free_space_loop_outside end_ suf :
  0 <= end_ < 2 ^ 64 ->
  forall lo pre fuel ctl start total_added,
    excluded_sorted lo suf ->
    (forall range, In range pre -> snd range < start) ->
    (length suf < fuel)%nat ->
    0 <= start < 2 ^ 64 ->
    0 <= total_added ->
    total_added + Z.max 0 (end_ - start) < 2 ^ 64 ->
    exists added start',
      add_new_free_space_loop fuel (pre ++ suf) ctl start end_ total_added
      = Some (OK, ctl ++ added, start',
              total_added + free_space_total added)
      /\ start <= start'
      /\ added ++ (if start' <? end_ then [(start', end_ - start')] else [])
         = free_outside suf start end_.
Proof.
  intros Hend.
  induction suf as [| [s e] rest IH];
    intros lo pre fuel ctl start total_added Hs Hpre Hfuel Hstart Ht0 Htot;
    (destruct fuel as [| fuel]; [inversion Hfuel |]).
  - simpl add_new_free_space_loop.
    rewrite find_first_extent_bit_app by exact Hpre. simpl.
    exists [], start. rewrite app_nil_r, Z.add_0_r.
    destruct (start <? end_); (split; [reflexivity |]);
      (split; [lia | reflexivity]).
  - destruct Hs as (H1 & H2 & H3 & H4).
    simpl add_new_free_space_loop. simpl free_outside.
    destruct (start <? end_) eqn:E; simpl negb; cbv iota.
    2:{ exists [], start. rewrite app_nil_r, Z.add_0_r, E.
        split; [reflexivity |]. split; [lia | reflexivity]. }
    apply Z.ltb_lt in E.
    destruct (e <? start) eqn:E1.
    { apply Z.ltb_lt in E1.
      destruct (IH (e + 1) (pre ++ [(s, e)]) (S fuel) ctl start total_added)
        as (added & start' & Hrun & Hle & Hout); try assumption.
      - intros range Hin. apply in_app_or in Hin.
        destruct Hin as [Hin | [<- | []]]; [apply Hpre; exact Hin | simpl; lia].
      - simpl in Hfuel. lia.
      - exists added, start'. rewrite <- app_assoc in Hrun. simpl in Hrun.
        simpl add_new_free_space_loop in Hrun.
        apply Z.ltb_lt in E. rewrite E in Hrun.
        split; [exact Hrun |]. split; [exact Hle | exact Hout]. }
    apply Z.ltb_ge in E1.
    rewrite find_first_extent_bit_app by exact Hpre.
    unfold find_first_extent_bit. simpl find.
    assert (Ese : (start <=? e) = true) by (apply Z.leb_le; lia).
    rewrite Ese.
    assert (He1 : (e + 1)%u64 = e + 1)
      by (unfold add64; apply u64_small; unfold is_u64; lia).
    rewrite He1.
    destruct (s <=? start) eqn:E2.
    { apply Z.leb_le in E2.
      destruct (IH (e + 1) (pre ++ [(s, e)]) fuel ctl (e + 1) total_added)
        as (added & start' & Hrun & Hle & Hout); try assumption.
      - intros range Hin. apply in_app_or in Hin.
        destruct Hin as [Hin | [<- | []]];
          [specialize (Hpre _ Hin); lia | simpl; lia].
      - simpl in Hfuel. lia.
      - lia.
      - lia.
      - exists added, start'. rewrite <- app_assoc in Hrun. simpl in Hrun.
        split; [exact Hrun |]. split; [lia | exact Hout]. }
    apply Z.leb_gt in E2.
    assert (Ess : (start <? s) = true) by (apply Z.ltb_lt; lia).
    rewrite Ess. simpl andb.
    destruct (s <? end_) eqn:E3.
    { apply Z.ltb_lt in E3.
      unfold btrfs_add_free_space_async_trimmed.
      assert (Hsz : (s - start)%u64 = s - start)
        by (unfold sub64; apply u64_small; unfold is_u64; lia).
      rewrite Hsz.
      assert (Htl : add64 total_added (s - start)%Z = total_added + (s - start))
        by (unfold add64; apply u64_small; unfold is_u64; lia).
      rewrite Htl.
      destruct (IH (e + 1) (pre ++ [(s, e)]) fuel (ctl ++ [(start, s - start)])
                  (e + 1) (total_added + (s - start)))
        as (added & start' & Hrun & Hle & Hout); try assumption.
      - intros range Hin. apply in_app_or in Hin.
        destruct Hin as [Hin | [<- | []]];
          [specialize (Hpre _ Hin); lia | simpl; lia].
      - simpl in Hfuel. lia.
      - lia.
      - lia.
      - lia.
      - exists ((start, s - start) :: added), start'.
        rewrite <- app_assoc in Hrun. simpl in Hrun.
        rewrite <- app_assoc in Hrun. simpl in Hrun.
        split.
        + rewrite Hrun. do 2 f_equal. unfold free_space_total. simpl. lia.
        + split; [lia |]. simpl. rewrite Hout. reflexivity. }
    apply Z.ltb_ge in E3.
    exists [], start. rewrite app_nil_r, Z.add_0_r.
    apply Z.ltb_lt in E. rewrite E.
    split; [reflexivity |]. split; [lia | reflexivity].
Qed.

(** X11.  With the excluded ranges in ascending order and not
    overlapping, [btrfs_add_new_free_space] on a range of [u64] addresses
    returns 0 after adding to the index exactly the bytes of the range
    that lie in no excluded range, and reports their number: a byte is
    covered by one of the records added if and only if it lies in the
    range and in no excluded range.  No byte of a superblock copy is ever
    marked free. *)
Theorem add_new_free_space_outside_excluded excluded_extents ctl start end_ :
  excluded_sorted 0 excluded_extents ->
  0 <= start < 2 ^ 64 -> 0 <= end_ < 2 ^ 64 ->
  let added := free_outside excluded_extents start end_ in
  btrfs_add_new_free_space excluded_extents ctl start end_
  = Some (OK, ctl ++ added, free_space_total added)
  /\ forall x,
       record_covers added x
       <-> start <= x < end_ /\ ~ excluded_covers excluded_extents x.
Proof.
  intros Hs Hstart Hend added. subst added. split.
  2:{ intros x. apply (free_outside_covers _ 0). exact Hs. }
  unfold btrfs_add_new_free_space.
  destruct (add_new_free_space_loop_outside end_ excluded_extents Hend 0 []
              (S (length excluded_extents)) ctl start 0 Hs)
    as (added & start' & Hrun & Hle & Hout).
  - intros range [].
  - lia.
  - exact Hstart.
  - lia.
  - lia.
  - simpl app in Hrun. rewrite Hrun. rewrite <- Hout.
    pose proof (free_outside_total excluded_extents 0 start end_ Hs) as Htot.
    rewrite <- Hout, free_space_total_app in Htot.
    destruct (start' <? end_) eqn:E.
    + apply Z.ltb_lt in E. unfold btrfs_add_free_space_async_trimmed.
      assert (Hsz : (end_ - start')%u64 = end_ - start')
        by (unfold sub64; apply u64_small; unfold is_u64; lia).
      rewrite Hsz. unfold free_space_total in Htot. simpl in Htot.
      fold (free_space_total added) in Htot.
      assert (Htl : add64 (0 + free_space_total added)%Z (end_ - start')%Z
                    = free_space_total added + (end_ - start'))
        by (unfold add64; rewrite u64_small; unfold is_u64; lia).
      rewrite Htl, free_space_total_app, <- app_assoc.
      do 2 f_equal. unfold free_space_total. simpl. lia.
    + rewrite app_nil_r. reflexivity.
Qed.

Lemma add_new_free_space_outside_excluded_witness :
  btrfs_add_new_free_space sample_excluded [] 50 350
  = Some (OK, [(50, 50); (200, 100)], 150)
  /\ ~ record_covers [(50, 50); (200, 100)] 150.
Proof.
  destruct (add_new_free_space_outside_excluded sample_excluded [] 50 350)
    as [Hrun Hcov].
  - simpl. lia.
  - lia.
  - lia.
  - split; [exact Hrun |]. intros H. apply Hcov in H. destruct H as [_ H].
    apply H. exists (100, 199). split; [left; reflexivity | simpl; lia].
Defined.

Section CachingExtraFacts.

Variable BTRFS_SUPER_INFO_OFFSET : Z.
Variable BTRFS_EXTENT_ITEM_KEY : Z.
Variable BTRFS_METADATA_ITEM_KEY : Z.
Variable CACHING_CTL_WAKE_UP : Z.

(** X12.  On a filesystem that is closing, the caching scan stops at once:
    it returns 0 with the index and the progress counter as they were,
    whatever the extent tree and the excluded ranges hold. *)
Theorem scan_on_closing_filesystem excluded_extents nodesize extent_root
  block_group ctl progress :
  load_extent_tree_free BTRFS_SUPER_INFO_OFFSET BTRFS_EXTENT_ITEM_KEY
    BTRFS_METADATA_ITEM_KEY CACHING_CTL_WAKE_UP true excluded_extents nodesize
    extent_root block_group ctl progress
  = Some (OK, ctl, progress).
Proof.
  unfold load_extent_tree_free.
  assert (Hloop : forall search st,
             load_extent_tree_free_loop BTRFS_EXTENT_ITEM_KEY
               BTRFS_METADATA_ITEM_KEY CACHING_CTL_WAKE_UP true
               excluded_extents nodesize block_group extent_root search st
             = Some (OK, mk_caching_state U64_MAX (cs_total_found st)
                           (cs_progress st) (cs_ctl st))).
  { intros search st. destruct extent_root; reflexivity. }
  rewrite Hloop. cbn [cs_last cs_ctl cs_progress].
  assert (E : (U64_MAX <? (bg_start block_group + bg_length block_group)%u64)
              = false).
  { apply Z.ltb_ge.
    pose proof (u64_range (bg_start block_group + bg_length block_group)) as H.
    unfold add64, U64_MAX, is_u64 in *. lia. }
  unfold btrfs_add_new_free_space. cbn [add_new_free_space_loop].
  rewrite E. rewrite E. reflexivity.
Qed.

(** The free records between used extents that follow one another, and
    the extents, make up the range. *)
Lemma free_gaps_total used last end_ :
  extents_chain last end_ used -> last <= end_ ->
  free_space_total (free_gaps last end_ used) + free_space_total used
  = end_ - last.
Proof.
  revert last. induction used as [| [start len] rest IH]; intros last; simpl.
  - intros _ Hle. unfold free_space_total.
    destruct (last <? end_) eqn:E; simpl.
    + lia.
    + apply Z.ltb_ge in E. lia.
  - intros (H1 & H2 & H3 & H4) Hle.
    rewrite free_space_total_app. specialize (IH _ H4 H3).
    unfold free_space_total in *. simpl.
    destruct (last <? start) eqn:E; simpl.
    + lia.
    + apply Z.ltb_ge in E. lia.
Qed.

(** The scan of a group that no excluded range reaches into, on a
    filesystem that is not closing, adds the gaps between the used
    extents. *)
Lemma scan_gaps excluded_extents nodesize extent_root block_group ctl
  progress :
  BTRFS_EXTENT_ITEM_KEY < BTRFS_METADATA_ITEM_KEY ->
  BTRFS_SUPER_INFO_OFFSET <= bg_start block_group ->
  0 <= bg_start block_group -> 0 <= bg_length block_group ->
  bg_start block_group + bg_length block_group < 2 ^ 64 ->
  excluded_outside excluded_extents block_group ->
  items_sorted extent_root ->
  extents_chain (bg_start block_group)
    (bg_start block_group + bg_length block_group)
    (used_extents BTRFS_EXTENT_ITEM_KEY BTRFS_METADATA_ITEM_KEY nodesize
       block_group extent_root) ->
  exists progress',
    load_extent_tree_free BTRFS_SUPER_INFO_OFFSET BTRFS_EXTENT_ITEM_KEY
      BTRFS_METADATA_ITEM_KEY CACHING_CTL_WAKE_UP false excluded_extents
      nodesize extent_root block_group ctl progress
    = Some (OK,
            ctl ++ free_gaps (bg_start block_group)
                     (bg_start block_group + bg_length block_group)
                     (used_extents BTRFS_EXTENT_ITEM_KEY
                        BTRFS_METADATA_ITEM_KEY nodesize block_group
                        extent_root),
            progress').
Proof.
  intros Htypes Hsuper Hs0 Hl0 Hend Hout Hsorted Hchain.
  unfold load_extent_tree_free. rewrite Z.max_l by lia.
  destruct (scan_loop_gaps BTRFS_EXTENT_ITEM_KEY BTRFS_METADATA_ITEM_KEY
              CACHING_CTL_WAKE_UP excluded_extents nodesize block_group
              extent_root Htypes Hs0 Hl0 Hend Hout Hsorted
              (Some (mk_key (bg_start block_group) BTRFS_EXTENT_ITEM_KEY 0))
              (mk_caching_state (bg_start block_group) 0 progress ctl))
    as (st' & Hrun & Hlast & Hctl).
  - simpl. repeat split; lia.
  - simpl. lia.
  - simpl. exact Hchain.
  - rewrite Hrun.
    assert (Hend64 : (bg_start block_group + bg_length block_group)%u64
                     = bg_start block_group + bg_length block_group)
      by (unfold add64, u64; Z.div_mod_to_equations; lia).
    rewrite Hend64.
    rewrite (add_new_free_space_clear excluded_extents block_group
               (cs_ctl st') (cs_last st')
               (bg_start block_group + bg_length block_group) Hout)
      by lia.
    exists (cs_progress st'). simpl in Hctl. rewrite Hctl. reflexivity.
Qed.

(** X13.  The scan accounts for every byte of the group: under the
    conditions of the scan (a group at or above the superblock offset that
    no excluded range reaches into, a sorted extent tree whose extents of
    the group follow one another inside the group, a filesystem that is
    not closing), the sizes of the free records it adds to an empty index
    and the sizes of the used extents add up to the length of the
    group. *)
Theorem scan_accounts_for_every_byte excluded_extents nodesize extent_root
  block_group progress :
  BTRFS_EXTENT_ITEM_KEY < BTRFS_METADATA_ITEM_KEY ->
  BTRFS_SUPER_INFO_OFFSET <= bg_start block_group ->
  0 <= bg_start block_group -> 0 <= bg_length block_group ->
  bg_start block_group + bg_length block_group < 2 ^ 64 ->
  excluded_outside excluded_extents block_group ->
  items_sorted extent_root ->
  extents_chain (bg_start block_group)
    (bg_start block_group + bg_length block_group)
    (used_extents BTRFS_EXTENT_ITEM_KEY BTRFS_METADATA_ITEM_KEY nodesize
       block_group extent_root) ->
  exists ctl' progress',
    load_extent_tree_free BTRFS_SUPER_INFO_OFFSET BTRFS_EXTENT_ITEM_KEY
      BTRFS_METADATA_ITEM_KEY CACHING_CTL_WAKE_UP false excluded_extents
      nodesize extent_root block_group [] progress
    = Some (OK, ctl', progress')
    /\ free_space_total ctl'
       + free_space_total
           (used_extents BTRFS_EXTENT_ITEM_KEY BTRFS_METADATA_ITEM_KEY
              nodesize block_group extent_root)
       = bg_length block_group.
Proof.
  intros Htypes Hsuper Hs0 Hl0 Hend Hout Hsorted Hchain.
  destruct (scan_gaps excluded_extents nodesize extent_root block_group []
              progress Htypes Hsuper Hs0 Hl0 Hend Hout Hsorted Hchain)
    as (progress' & Hrun).
  eexists. exists progress'. split; [exact Hrun |].
  simpl app. rewrite (free_gaps_total _ _ _ Hchain) by lia. lia.
Qed.

End CachingExtraFacts.

Lemma scan_accounts_for_every_byte_witness :
  exists ctl' progress',
    sample_load_extent_tree_free [] 16384
      [ mk_key 5 168 10; mk_key MiB 168 10; mk_key MiB 192 40;
        mk_key (MiB + 20) 168 10; mk_key (MiB + 400) 168 10 ]
      (empty_block_group MiB 40 SAMPLE_DATA) [] 0
    = Some (OK, ctl', progress')
    /\ free_space_total ctl' + 20 = 40.
Proof.
  apply (scan_accounts_for_every_byte SAMPLE_SUPER_INFO_OFFSET
           SAMPLE_EXTENT_ITEM_KEY SAMPLE_METADATA_ITEM_KEY SAMPLE_WAKE_UP
           [] 16384
           [ mk_key 5 168 10; mk_key MiB 168 10; mk_key MiB 192 40;
             mk_key (MiB + 20) 168 10; mk_key (MiB + 400) 168 10 ]
           (empty_block_group MiB 40 SAMPLE_DATA) 0).
  - reflexivity.
  - vm_compute. discriminate.
  - vm_compute. discriminate.
  - vm_compute. discriminate.
  - reflexivity.
  - intros range [].
  - unfold items_sorted.
    repeat (constructor; [| repeat (constructor; [reflexivity |]); constructor]).
    constructor.
  - vm_compute. intuition discriminate.
Defined.

(** ** Chunk allocation *)

Section ChunkAllocFacts.

Variable btrfs_space_info_used : btrfs_space_info -> bool -> Z.
Variable mult_perc : Z -> Z -> Z.
Variable CHUNK_ALLOC_LIMITED : Z.
Variable CHUNK_ALLOC_FORCE : Z.
Variable BTRFS_FIRST_CHUNK_TREE_OBJECTID : Z.

(** X14.  The force levels of [should_alloc_chunk] are ordered: with
    [CHUNK_ALLOC_FORCE] a chunk is always wanted; a chunk that is wanted at
    any other level is wanted at [CHUNK_ALLOC_LIMITED] too; and at every
    level a chunk is declined only for a class whose usage plus 2 MiB is
    below 80 percent of its total bytes. *)
Theorem should_alloc_chunk_force_order super_total_bytes sinfo :
  CHUNK_ALLOC_LIMITED <> CHUNK_ALLOC_FORCE ->
  should_alloc_chunk btrfs_space_info_used mult_perc CHUNK_ALLOC_LIMITED
    CHUNK_ALLOC_FORCE super_total_bytes sinfo CHUNK_ALLOC_FORCE = true
  /\ (forall force,
        force <> CHUNK_ALLOC_FORCE ->
        should_alloc_chunk btrfs_space_info_used mult_perc CHUNK_ALLOC_LIMITED
          CHUNK_ALLOC_FORCE super_total_bytes sinfo force = true ->
        should_alloc_chunk btrfs_space_info_used mult_perc CHUNK_ALLOC_LIMITED
          CHUNK_ALLOC_FORCE super_total_bytes sinfo CHUNK_ALLOC_LIMITED = true)
  /\ (forall force,
        should_alloc_chunk btrfs_space_info_used mult_perc CHUNK_ALLOC_LIMITED
          CHUNK_ALLOC_FORCE super_total_bytes sinfo force = false ->
        (btrfs_space_info_used sinfo false + SZ_2M)%u64
        < mult_perc (si_total_bytes sinfo) 80).
Proof.
  intros Hne. unfold should_alloc_chunk. split; [| split].
  - rewrite Z.eqb_refl. reflexivity.
  - intros force Hf. apply Z.eqb_neq in Hf, Hne. rewrite Hf, Hne.
    rewrite Z.eqb_refl. cbv zeta. simpl andb.
    destruct (force =? CHUNK_ALLOC_LIMITED); simpl andb.
    + trivial.
    + destruct (_ <? Z.max _ _); [reflexivity |].
      cbv iota. trivial.
  - intros force.
    destruct (force =? CHUNK_ALLOC_FORCE); [discriminate |].
    destruct (_ && _); [discriminate |].
    destruct (_ <? mult_perc _ _) eqn:E; [| discriminate].
    intros _. apply Z.ltb_lt. exact E.
Qed.

(** X15.  Without the extent-tree-v2 feature every group gets the first
    chunk tree as its global root.  With it, and at least one global root,
    the id is the index of the 1 GiB slot of the group (128 MiB on a
    filesystem of at most 10 GiB) modulo the number of roots: it lies below
    the number of roots, and groups whose slots are a multiple of the number
    of roots apart share a root.  With no global root the division fails. *)
Theorem global_root_id_in_range super_total_bytes nr_global_roots offset :
  calculate_global_root_id BTRFS_FIRST_CHUNK_TREE_OBJECTID false
    super_total_bytes nr_global_roots offset
  = Some BTRFS_FIRST_CHUNK_TREE_OBJECTID
  /\ calculate_global_root_id BTRFS_FIRST_CHUNK_TREE_OBJECTID true
       super_total_bytes 0 offset = None
  /\ (0 < nr_global_roots ->
      let div := if super_total_bytes <=? 10 * SZ_1G then SZ_128M else SZ_1G in
      exists id,
        calculate_global_root_id BTRFS_FIRST_CHUNK_TREE_OBJECTID true
          super_total_bytes nr_global_roots offset = Some id
        /\ 0 <= id < nr_global_roots
        /\ id = (offset / div) mod nr_global_roots
        /\ calculate_global_root_id BTRFS_FIRST_CHUNK_TREE_OBJECTID true
             super_total_bytes nr_global_roots (offset + div * nr_global_roots)
           = Some id).
Proof.
  split; [reflexivity |]. split; [reflexivity |]. intros Hnr div.
  unfold calculate_global_root_id. simpl negb. cbv iota.
  assert (E : (nr_global_roots =? 0) = false) by (apply Z.eqb_neq; lia).
  rewrite E.
  replace ((SZ_1G * 10)%u64) with (10 * SZ_1G) by reflexivity.
  fold div. eexists. split; [reflexivity |]. split; [| split; [reflexivity |]].
  - apply Z.mod_pos_bound. exact Hnr.
  - f_equal.
    assert (Hdiv : 0 < div)
      by (unfold div; destruct (_ <=? _); reflexivity).
    rewrite (Z.mul_comm div), Z.div_add by lia.
    rewrite <- (Z.mul_1_l nr_global_roots) at 1.
    apply Z.mod_add. lia.
Qed.

End ChunkAllocFacts.

Lemma should_alloc_chunk_force_order_witness :
  should_alloc_chunk space_info_used_sum sample_mult_perc 1 2 (100 * MiB)
    sample_class 2 = true
  /\ should_alloc_chunk space_info_used_sum sample_mult_perc 1 2 (100 * MiB)
       sample_class 0 = false.
Proof.
  destruct (should_alloc_chunk_force_order space_info_used_sum
              sample_mult_perc 1 2 (100 * MiB) sample_class)
    as (H & _ & _).
  - discriminate.
  - split; [exact H | reflexivity].
Defined.

Lemma global_root_id_in_range_witness :
  calculate_global_root_id 256 true (100 * SZ_1G) 4 (9 * SZ_1G + 5) = Some 1.
Proof.
  destruct (global_root_id_in_range 256 (100 * SZ_1G) 4 (9 * SZ_1G + 5))
    as (_ & _ & H).
  destruct (H ltac:(lia)) as (id & Hid & _ & Heq & _).
  rewrite Hid, Heq. reflexivity.
Defined.
(** ** Physical to logical addresses *)

Lemma nodup_snoc {A : Type} (l : list A) x :
  NoDup l -> ~ In x l -> NoDup (l ++ [x]).
Proof.
  intros Hl Hx. apply (Permutation_NoDup (l := x :: l)).
  - apply Permutation_cons_append.
  - constructor; assumption.
Qed.

Lemma existsb_eqb_in x l : existsb (Z.eqb x) l = true <-> In x l.
Proof.
  rewrite existsb_exists. split.
  - intros (y & Hy & E). apply Z.eqb_eq in E. subst y. exact Hy.
  - intros H. exists x. split; [exact H | apply Z.eqb_refl].
Qed.

Section RmapFacts.

Variable BTRFS_STRIPE_LEN : Z.
Variable BTRFS_STRIPE_LEN_SHIFT : Z.
Variable BTRFS_STRIPE_LEN_MASK : Z.
Variable BTRFS_BLOCK_GROUP_RAID56_MASK : Z.
Variable BTRFS_BLOCK_GROUP_RAID0 : Z.
Variable BTRFS_BLOCK_GROUP_RAID10 : Z.
Variable nr_data_stripes : btrfs_chunk_map -> Z.
Variable btrfs_stripe_nr_to_offset : Z -> Z.
Variable btrfs_get_chunk_map : Z -> option btrfs_chunk_map.

Local Abbreviation stripes_loop :=
  (rmap_stripes BTRFS_STRIPE_LEN_SHIFT BTRFS_STRIPE_LEN_MASK
     BTRFS_BLOCK_GROUP_RAID0 BTRFS_BLOCK_GROUP_RAID10).
Local Abbreviation rmap_block :=
  (btrfs_rmap_block BTRFS_STRIPE_LEN BTRFS_STRIPE_LEN_SHIFT
     BTRFS_STRIPE_LEN_MASK BTRFS_BLOCK_GROUP_RAID56_MASK
     BTRFS_BLOCK_GROUP_RAID0 BTRFS_BLOCK_GROUP_RAID10 nr_data_stripes
     btrfs_stripe_nr_to_offset btrfs_get_chunk_map).

(** The loop adds no address twice and at most one address for a
    stripe. *)
Lemma rmap_stripes_nodup map chunk_start io_stripe_size physical stripes :
  forall i buf out,
    NoDup buf ->
    stripes_loop map chunk_start io_stripe_size physical i stripes buf
    = Some out ->
    NoDup out /\ (length out <= length buf + length stripes)%nat.
Proof.
  induction stripes as [| p rest IH]; intros i buf out Hbuf; simpl.
  - intros H. inversion H; subst. split; [exact Hbuf | lia].
  - destruct (in_range physical p (map_stripe_size map)); simpl negb;
      cbv iota.
    2:{ intros H. destruct (IH _ _ _ Hbuf H). split; [assumption | lia]. }
    match goal with
    | |- context [match ?s with Some _ => _ | None => None end] =>
      destruct s as [stripe_nr |]; [| discriminate]
    end.
    match goal with
    | |- context [existsb ?f buf] => destruct (existsb f buf) eqn:E
    end.
    + intros H. destruct (IH _ _ _ Hbuf H). split; [assumption | lia].
    + intros H.
      assert (Hnew : NoDup (buf ++ [(chunk_start
                                     + stripe_nr * io_stripe_size
                                     + u32 (Z.land (physical - p)%u64
                                              BTRFS_STRIPE_LEN_MASK))%u64])).
      { apply nodup_snoc; [exact Hbuf |]. intros Hin.
        apply existsb_eqb_in in Hin. congruence. }
      destruct (IH _ _ _ Hnew H) as [H1 H2]. split; [exact H1 |].
      rewrite length_app in H2. simpl in H2. lia.
Qed.

(** On a chunk whose stripes are plain copies, the address found for a
    stripe that holds [physical] is the start of the chunk plus the offset
    of [physical] into the stripe. *)
Lemma rmap_stripes_unstriped map physical stripes :
  BTRFS_STRIPE_LEN = 2 ^ BTRFS_STRIPE_LEN_SHIFT ->
  BTRFS_STRIPE_LEN_MASK = BTRFS_STRIPE_LEN - 1 ->
  0 <= BTRFS_STRIPE_LEN_SHIFT <= 32 ->
  Z.land (map_type map)
    (Z.lor BTRFS_BLOCK_GROUP_RAID0 BTRFS_BLOCK_GROUP_RAID10) = 0 ->
  0 <= map_stripe_size map <= 2 ^ 32 * BTRFS_STRIPE_LEN ->
  0 <= map_start map -> map_start map + map_stripe_size map <= 2 ^ 64 ->
  0 <= physical < 2 ^ 64 ->
  (forall p, In p stripes -> 0 <= p /\ p + map_stripe_size map < 2 ^ 64) ->
  forall i buf,
  exists out,
    stripes_loop map (map_start map) BTRFS_STRIPE_LEN physical i stripes buf
    = Some out
    /\ forall a,
         In a out
         <-> In a buf
             \/ exists p,
                  In p stripes
                  /\ p <= physical < p + map_stripe_size map
                  /\ a = map_start map + (physical - p).
Proof.
  intros Hlen Hmask Hshift Htype Hsize Hstart Hend Hphys.
  induction stripes as [| p rest IH]; intros Hstripes i buf; simpl.
  - exists buf. split; [reflexivity |]. intros a. split; [auto |].
    intros [H | (p & [] & _)]. exact H.
  - assert (Hrest : forall q, In q rest ->
                      0 <= q /\ q + map_stripe_size map < 2 ^ 64)
      by (intros q Hq; apply Hstripes; right; exact Hq).
    destruct (Hstripes p (or_introl eq_refl)) as [Hp0 Hp1].
    assert (Hps : (p + map_stripe_size map)%u64 = p + map_stripe_size map)
      by (unfold add64; apply u64_small; unfold is_u64; lia).
    unfold in_range. rewrite Hps.
    destruct ((p <=? physical) && (physical <? p + map_stripe_size map))
      eqn:Hin; simpl negb; cbv iota.
    2:{ destruct (IH Hrest (i + 1) buf) as (out & Hrun & Hout).
        exists out. split; [exact Hrun |]. intros a. rewrite Hout.
        split; intros [H | (q & Hq & Hr & Ha)]; auto.
        - right. exists q. split; [right; exact Hq | split; assumption].
        - destruct Hq as [<- | Hq].
          + exfalso. apply andb_false_iff in Hin.
            destruct Hin as [H | H];
              [apply Z.leb_gt in H | apply Z.ltb_ge in H]; lia.
          + right. exists q. split; [exact Hq | split; assumption]. }
    apply andb_true_iff in Hin. destruct Hin as [H1 H2].
    apply Z.leb_le in H1. apply Z.ltb_lt in H2.
    unfold tst. rewrite Htype. simpl negb. cbv iota.
    set (d := physical - p).
    assert (Hd : (physical - p)%u64 = d)
      by (unfold sub64; apply u64_small; unfold is_u64, d; lia).
    rewrite Hd.
    assert (Hpow : 0 < 2 ^ BTRFS_STRIPE_LEN_SHIFT)
      by (apply Z.pow_pos_nonneg; lia).
    assert (Hnr : u32 (Z.shiftr d BTRFS_STRIPE_LEN_SHIFT)
                  = d / 2 ^ BTRFS_STRIPE_LEN_SHIFT).
    { rewrite Z.shiftr_div_pow2 by lia. apply u32_small. split.
      - apply Z.div_pos; unfold d; lia.
      - apply Z.div_lt_upper_bound; [lia |]. unfold d. nia. }
    assert (Hoff : u32 (Z.land d BTRFS_STRIPE_LEN_MASK)
                   = d mod 2 ^ BTRFS_STRIPE_LEN_SHIFT).
    { rewrite Hmask, Hlen.
      replace (2 ^ BTRFS_STRIPE_LEN_SHIFT - 1)
        with (Z.ones BTRFS_STRIPE_LEN_SHIFT)
        by (rewrite Z.ones_equiv; lia).
      rewrite Z.land_ones by lia. apply u32_small.
      pose proof (Z.mod_pos_bound d (2 ^ BTRFS_STRIPE_LEN_SHIFT) Hpow).
      assert (2 ^ BTRFS_STRIPE_LEN_SHIFT <= 2 ^ 32)
        by (apply Z.pow_le_mono_r; lia).
      lia. }
    rewrite Hnr, Hoff.
    assert (Hb : (map_start map
                  + d / 2 ^ BTRFS_STRIPE_LEN_SHIFT * BTRFS_STRIPE_LEN
                  + d mod 2 ^ BTRFS_STRIPE_LEN_SHIFT)%u64
                 = map_start map + d).
    { rewrite Hlen. unfold add64, mul64.
      pose proof (Z.div_mod d (2 ^ BTRFS_STRIPE_LEN_SHIFT) ltac:(lia)) as Hdm.
      pose proof (Z.mod_pos_bound d (2 ^ BTRFS_STRIPE_LEN_SHIFT) Hpow) as Hm.
      assert (Hq : 0 <= d / 2 ^ BTRFS_STRIPE_LEN_SHIFT)
        by (apply Z.div_pos; unfold d; lia).
      assert (Hprod : d / 2 ^ BTRFS_STRIPE_LEN_SHIFT
                      * 2 ^ BTRFS_STRIPE_LEN_SHIFT
                      = d - d mod 2 ^ BTRFS_STRIPE_LEN_SHIFT) by lia.
      rewrite Hprod.
      rewrite (u64_small (d - d mod 2 ^ BTRFS_STRIPE_LEN_SHIFT))
        by (unfold is_u64, d in *; lia).
      rewrite (u64_small (map_start map + _))
        by (unfold is_u64, d in *; lia).
      rewrite u64_small by (unfold is_u64, d in *; lia). lia. }
    rewrite Hb.
    destruct (IH Hrest (i + 1)
                (if existsb (Z.eqb (map_start map + d)) buf then buf
                 else buf ++ [map_start map + d]))
      as (out & Hrun & Hout).
    exists out. split; [exact Hrun |]. intros a. rewrite Hout.
    assert (Hbuf : In a (if existsb (Z.eqb (map_start map + d)) buf then buf
                         else buf ++ [map_start map + d])
                   <-> In a buf \/ a = map_start map + d).
    { destruct (existsb _ buf) eqn:E.
      - apply existsb_eqb_in in E. split; [auto |].
        intros [H | ->]; assumption.
      - rewrite in_app_iff. simpl. split.
        + intros [H | [<- | []]]; auto.
        + intros [H | ->]; auto. }
    rewrite Hbuf. split.
    + intros [[H | ->] | (q & Hq & Hr & Ha)]; auto.
      * right. exists p. split; [left; reflexivity |]. split; [lia |].
        reflexivity.
      * right. exists q. split; [right; exact Hq | split; assumption].
    + intros [H | (q & [<- | Hq] & Hr & Ha)]; auto.
      right. exists q. split; [exact Hq | split; assumption].
Qed.

(** X16.  [btrfs_rmap_block] returns [-EIO] when the chunk has no map.
    Otherwise the addresses it returns are pairwise distinct and at most
    as many as the chunk has stripes, and the stripe length returned is
    the stripe length, or a full stripe for RAID5/6.  For a chunk whose
    stripes are plain copies (no RAID0, RAID10 or RAID5/6), with the
    stripe length a power of two, the addresses are exactly the start of
    the chunk plus the offset of [physical] into each stripe that holds
    it. *)
Theorem rmap_block_addresses chunk_start physical :
  (btrfs_get_chunk_map chunk_start = None ->
   rmap_block chunk_start physical = RMAP_EIO)
  /\ (forall logical stripe_len map,
        btrfs_get_chunk_map chunk_start = Some map ->
        rmap_block chunk_start physical = RMAP_OK logical stripe_len ->
        NoDup logical
        /\ (length logical <= length (map_stripes map))%nat
        /\ stripe_len
           = (if tst (map_type map) BTRFS_BLOCK_GROUP_RAID56_MASK
              then btrfs_stripe_nr_to_offset (nr_data_stripes map)
              else BTRFS_STRIPE_LEN))
  /\ (forall map,
        btrfs_get_chunk_map chunk_start = Some map ->
        map_unstriped BTRFS_BLOCK_GROUP_RAID56_MASK BTRFS_BLOCK_GROUP_RAID0
          BTRFS_BLOCK_GROUP_RAID10 map ->
        BTRFS_STRIPE_LEN = 2 ^ BTRFS_STRIPE_LEN_SHIFT ->
        BTRFS_STRIPE_LEN_MASK = BTRFS_STRIPE_LEN - 1 ->
        0 <= BTRFS_STRIPE_LEN_SHIFT <= 32 ->
        0 <= map_stripe_size map <= 2 ^ 32 * BTRFS_STRIPE_LEN ->
        0 <= map_start map -> map_start map + map_stripe_size map <= 2 ^ 64 ->
        0 <= physical < 2 ^ 64 ->
        (forall p, In p (map_stripes map) ->
           0 <= p /\ p + map_stripe_size map < 2 ^ 64) ->
        exists logical,
          rmap_block chunk_start physical = RMAP_OK logical BTRFS_STRIPE_LEN
          /\ forall a,
               In a logical
               <-> exists p,
                     In p (map_stripes map)
                     /\ p <= physical < p + map_stripe_size map
                     /\ a = map_start map + (physical - p)).
Proof.
  unfold btrfs_rmap_block. split; [| split].
  - intros H. rewrite H. reflexivity.
  - intros logical stripe_len map Hmap. rewrite Hmap. cbv zeta.
    destruct (stripes_loop _ _ _ _ _ _ _) as [buf |] eqn:E; [| discriminate].
    intros H. inversion H; subst. clear H.
    destruct (rmap_stripes_nodup _ _ _ _ _ _ _ _ (NoDup_nil Z) E) as [H1 H2].
    split; [exact H1 |]. split; [exact H2 | reflexivity].
  - intros map Hmap [H56 H010] Hlen Hmask Hshift Hsize Hstart Hend Hphys Hst.
    rewrite Hmap. cbv zeta.
    assert (Hio : tst (map_type map) BTRFS_BLOCK_GROUP_RAID56_MASK = false)
      by (unfold tst; rewrite H56; reflexivity).
    rewrite !Hio.
    destruct (rmap_stripes_unstriped map physical (map_stripes map)
                Hlen Hmask Hshift H010 Hsize Hstart Hend Hphys Hst 0 [])
      as (out & Hrun & Hout).
    rewrite Hrun. exists out. split; [reflexivity |].
    intros a. rewrite Hout. split.
    + intros [[] | H]. exact H.
    + intros H. right. exact H.
Qed.

End RmapFacts.

Lemma rmap_block_addresses_witness :
  sample_rmap_block 0 65536 = RMAP_EIO
  /\ exists logical,
       sample_rmap_block (1024 * MiB) (1024 * MiB + 65536)
       = RMAP_OK logical 65536
       /\ In (1024 * MiB + 65536) logical
       /\ ~ In (1024 * MiB) logical.
Proof.
  split.
  - apply (rmap_block_addresses 65536 16 65535 384 8 64 (fun _ => 1)
             (fun stripe_nr => Z.shiftl stripe_nr 16) sample_get_chunk_map
             0 65536).
    reflexivity.
  - destruct (rmap_block_addresses 65536 16 65535 384 8 64 (fun _ => 1)
                (fun stripe_nr => Z.shiftl stripe_nr 16) sample_get_chunk_map
                (1024 * MiB) (1024 * MiB + 65536)) as (_ & _ & H).
    destruct (H sample_dup_map) as (logical & Hrun & Hin).
    + reflexivity.
    + split; reflexivity.
    + reflexivity.
    + reflexivity.
    + lia.
    + unfold MiB. simpl. lia.
    + unfold MiB. simpl. lia.
    + unfold MiB. simpl. lia.
    + unfold MiB. lia.
    + unfold MiB. intros p [<- | [<- | []]]; simpl; lia.
    + exists logical. split; [exact Hrun |]. split.
      * apply Hin. exists (1024 * MiB). split; [right; left; reflexivity |].
        change (map_start sample_dup_map) with (1024 * MiB).
        change (map_stripe_size sample_dup_map) with (256 * MiB).
        unfold MiB. lia.
      * intros Hbad. apply Hin in Hbad. clear Hin Hrun H.
        destruct Hbad as (p & Hp & Hr & Ha).
        change (map_start sample_dup_map) with (1024 * MiB) in Ha.
        change (map_stripe_size sample_dup_map) with (256 * MiB) in Hr.
        destruct Hp as [<- | [<- | []]]; unfold MiB in *; lia.
Defined.

(** ** NOCOW writers *)

(** Taking and dropping a reference leaves the group as it was. *)
Lemma put_get_block_group g :
  btrfs_put_block_group (btrfs_get_block_group g) = g.
Proof.
  apply block_group_ext; try reflexivity.
  unfold btrfs_put_block_group, btrfs_get_block_group. simpl. lia.
Qed.

(** X17.  In a well-formed registry, [btrfs_inc_nocow_writers] admits a
    NOCOW write exactly when a registered group contains [bytenr] and is
    not read-only: it then returns that group with one more writer and
    one more reference, and [btrfs_dec_nocow_writers] on it puts every
    group and every counter back.  For a read-only group, or when no group
    contains [bytenr], it returns nothing and every group, reference
    counts included, and every counter is as before. *)
Theorem nocow_writers_gate info nocow_writers bytenr :
  registry_wf info ->
  (forall p,
     In p (rb_elements (fs_block_group_cache_tree info)) ->
     bg_contains (fs_bg info p) bytenr ->
     (bg_ro (fs_bg info p) = 0 ->
      btrfs_inc_nocow_writers info nocow_writers bytenr
      = (Some p,
         fs_store_bg info p (btrfs_get_block_group (fs_bg info p)),
         store_set nocow_writers p (nocow_writers p + 1))
      /\ (forall q,
            fs_bg (fst (btrfs_dec_nocow_writers
                          (fs_store_bg info p
                             (btrfs_get_block_group (fs_bg info p)))
                          (store_set nocow_writers p (nocow_writers p + 1))
                          p)) q
            = fs_bg info q)
      /\ (forall q,
            snd (btrfs_dec_nocow_writers
                   (fs_store_bg info p
                      (btrfs_get_block_group (fs_bg info p)))
                   (store_set nocow_writers p (nocow_writers p + 1)) p) q
            = nocow_writers q))
     /\ (bg_ro (fs_bg info p) <> 0 ->
         exists info',
           btrfs_inc_nocow_writers info nocow_writers bytenr
           = (None, info', nocow_writers)
           /\ forall q, fs_bg info' q = fs_bg info q))
  /\ ((forall p,
         In p (rb_elements (fs_block_group_cache_tree info)) ->
         ~ bg_contains (fs_bg info p) bytenr) ->
      btrfs_inc_nocow_writers info nocow_writers bytenr
      = (None, info, nocow_writers)).
Proof.
  intros (Hbst & Hok & Hdis).
  destruct (tree_search_walk_contains (fs_block_groups info)
              (fs_block_group_cache_tree info) bytenr None Hbst Hok Hdis)
    as [H1 H2].
  unfold btrfs_inc_nocow_writers, btrfs_lookup_block_group,
    block_group_cache_tree_search.
  split.
  - intros p Hp Hc. rewrite (H1 p Hp Hc). rewrite fs_store_bg_same.
    change (bg_ro (btrfs_get_block_group (fs_bg info p)))
      with (bg_ro (fs_bg info p)).
    split.
    + intros Hro. rewrite Hro. simpl negb. cbv iota.
      split; [reflexivity |]. unfold btrfs_dec_nocow_writers. cbn [fst snd].
      split.
      * intros q. destruct (Nat.eq_dec q p) as [-> | Hq].
        -- rewrite !fs_store_bg_same. apply put_get_block_group.
        -- rewrite !fs_store_bg_other by exact Hq. reflexivity.
      * intros q. unfold store_set. destruct (Nat.eqb q p) eqn:E.
        -- apply Nat.eqb_eq in E. subst q. rewrite Nat.eqb_refl. lia.
        -- reflexivity.
    + intros Hro. apply Z.eqb_neq in Hro. rewrite Hro. simpl negb. cbv iota.
      eexists. split; [reflexivity |].
      intros q. destruct (Nat.eq_dec q p) as [-> | Hq].
      * rewrite !fs_store_bg_same. apply put_get_block_group.
      * rewrite !fs_store_bg_other by exact Hq. reflexivity.
  - intros Hnone. rewrite (H2 Hnone). reflexivity.
Qed.

Lemma nocow_writers_gate_witness :
  btrfs_inc_nocow_writers adjacent_registry (fun _ => 0) 120
  = (Some 1%nat,
     fs_store_bg adjacent_registry 1%nat
       (btrfs_get_block_group (fs_bg adjacent_registry 1%nat)),
     store_set (fun _ => 0) 1%nat 1)
  /\ btrfs_inc_nocow_writers adjacent_registry (fun _ => 0) 200
     = (None, adjacent_registry, fun _ => 0).
Proof.
  assert (Hwf : registry_wf adjacent_registry).
  { split; [exact adjacent_registry_bst |]. split.
    - intros p [<- | [<- | []]]; unfold bg_range_ok; simpl; lia.
    - intros p q [<- | [<- | []]] [<- | [<- | []]] H;
        try (exfalso; apply H; reflexivity); unfold bg_disjoint; simpl; lia. }
  destruct (nocow_writers_gate adjacent_registry (fun _ => 0) 120 Hwf)
    as [H _].
  destruct (nocow_writers_gate adjacent_registry (fun _ => 0) 200 Hwf)
    as [_ H'].
  split.
  - apply (H 1%nat).
    + right. left. reflexivity.
    + unfold bg_contains. simpl. lia.
    + reflexivity.
  - apply H'. intros p [<- | [<- | []]]; unfold bg_contains; simpl; lia.
Defined.

(** ** Further samples *)

Lemma reclaim_check_in_pass_witness :
  should_reclaim_block_group sample_mult_perc (sample_reclaim_groups 0%nat)
    sample_reclaim_class (bg_length (sample_reclaim_groups 0%nat)) = true.
Proof.
  destruct (reclaim_check_in_pass sample_mult_perc (sample_reclaim_groups 0%nat)
              sample_reclaim_class) as (_ & _ & H).
  rewrite H.
  - reflexivity.
  - discriminate.
  - unfold MiB. simpl. lia.
  - unfold MiB. simpl. lia.
  - unfold MiB. simpl. lia.
  - vm_compute. discriminate.
Defined.

Lemma adjacent_registry_wf : registry_wf adjacent_registry.
Proof.
  split; [exact adjacent_registry_bst |]. split.
  - intros p [<- | [<- | []]]; unfold bg_range_ok; simpl; lia.
  - intros p q [<- | [<- | []]] [<- | [<- | []]] H;
      try (exfalso; apply H; reflexivity); unfold bg_disjoint; simpl; lia.
Defined.

Lemma update_block_group_missing_group_witness :
  btrfs_update_block_group sample_factor sample_mult_perc false
    SAMPLE_FLAG_NEW adjacent_registry 200 10 true
  = Some (ERR ENOENT, set_fs_super_bytes_used 10 adjacent_registry).
Proof.
  apply (update_block_group_missing_group sample_factor sample_mult_perc
           false SAMPLE_FLAG_NEW adjacent_registry 200 10 true
           adjacent_registry_wf).
  intros p [<- | [<- | []]]; unfold bg_contains; simpl; lia.
Defined.


(** ** The scan with excluded ranges *)

Lemma free_outside_empty excluded_extents start end_ :
  end_ <= start -> free_outside excluded_extents start end_ = [].
Proof.
  intros H. assert (E : (start <? end_) = false) by (apply Z.ltb_ge; lia).
  destruct excluded_extents as [| [s e] rest]; simpl; rewrite E; reflexivity.
Qed.

Lemma gaps_outside_app excluded_extents a b :
  gaps_outside excluded_extents (a ++ b)
  = gaps_outside excluded_extents a ++ gaps_outside excluded_extents b.
Proof. unfold gaps_outside. apply flat_map_app. Qed.

(** [btrfs_add_new_free_space] adds the parts of the range outside the
    excluded ranges. *)
Lemma add_new_free_space_outside excluded_extents ctl start end_ :
  excluded_sorted 0 excluded_extents ->
  0 <= start < 2 ^ 64 -> 0 <= end_ < 2 ^ 64 ->
  btrfs_add_new_free_space excluded_extents ctl start end_
  = Some (OK, ctl ++ free_outside excluded_extents start end_,
          free_space_total (free_outside excluded_extents start end_)).
Proof.
  intros Hs Hstart Hend.
  unfold btrfs_add_new_free_space.
  destruct (add_new_free_space_loop_outside end_ excluded_extents Hend 0 []
              (S (length excluded_extents)) ctl start 0 Hs)
    as (added & start' & Hrun & Hle & Hout).
  - intros range [].
  - lia.
  - exact Hstart.
  - lia.
  - lia.
  - simpl app in Hrun. rewrite Hrun. rewrite <- Hout.
    pose proof (free_outside_total excluded_extents 0 start end_ Hs) as Htot.
    rewrite <- Hout, free_space_total_app in Htot.
    destruct (start' <? end_) eqn:E.
    + apply Z.ltb_lt in E. unfold btrfs_add_free_space_async_trimmed.
      assert (Hsz : (end_ - start')%u64 = end_ - start')
        by (unfold sub64; apply u64_small; unfold is_u64; lia).
      rewrite Hsz. unfold free_space_total in Htot. simpl in Htot.
      fold (free_space_total added) in Htot.
      assert (Htl : add64 (0 + free_space_total added)%Z (end_ - start')%Z
                    = free_space_total added + (end_ - start'))
        by (unfold add64; rewrite u64_small; unfold is_u64; lia).
      rewrite Htl, free_space_total_app, <- app_assoc.
      do 2 f_equal. unfold free_space_total. simpl. lia.
    + rewrite app_nil_r. reflexivity.
Qed.

(** The bytes of the gaps: those from [last] to [end_] that no used extent
    holds. *)
Lemma free_gaps_covers used last end_ x :
  extents_chain last end_ used ->
  record_covers (free_gaps last end_ used) x
  <-> last <= x < end_ /\ ~ record_covers used x.
Proof.
  revert last. induction used as [| [start len] rest IH]; intros last; simpl.
  - intros _. unfold record_covers. destruct (last <? end_) eqn:E.
    + apply Z.ltb_lt in E. split.
      * intros (r & [<- | []] & Hx). simpl in Hx.
        split; [lia | intros (r' & [] & _)].
      * intros (Hx & _). exists (last, end_ - last).
        split; [left; reflexivity | simpl; lia].
    + apply Z.ltb_ge in E. split.
      * intros (r & [] & _).
      * intros (Hx & _). lia.
  - intros (H1 & H2 & H3 & H4). specialize (IH _ H4).
    assert (Hrest : forall r, In r rest -> start + len <= fst r
                                           /\ fst r + snd r <= end_
                                           /\ 0 <= snd r).
    { clear IH. revert H4. generalize (start + len) as lo.
      induction rest as [| [s l] rest IHr]; intros lo Hc r Hin;
        [destruct Hin |].
      destruct Hc as (Ha & Hb & Hc & Hd). destruct Hin as [<- | Hin].
      - simpl. lia.
      - destruct (IHr _ Hd r Hin) as (? & ? & ?). lia. }
    unfold record_covers in *. split.
    + intros (r & Hin & Hx). apply in_app_or in Hin.
      destruct Hin as [Hin | Hin].
      * destruct (last <? start) eqn:E; [| destruct Hin].
        apply Z.ltb_lt in E. destruct Hin as [<- | []]. simpl in Hx.
        split; [lia |].
        intros (r' & [<- | Hin'] & Hx'); simpl in Hx'; [lia |].
        destruct (Hrest r' Hin') as (? & ? & ?). lia.
      * destruct (proj1 IH (ex_intro _ r (conj Hin Hx))) as (Hb & Hn).
        split; [lia |].
        intros (r' & [<- | Hin'] & Hx'); simpl in Hx'; [lia |].
        apply Hn. exists r'. split; assumption.
    + intros (Hb & Hn).
      destruct (Z_lt_dec x start) as [Hlt | Hge].
      * exists (last, start - last). split; [| simpl; lia].
        apply in_or_app. left.
        assert (E : (last <? start) = true) by (apply Z.ltb_lt; lia).
        rewrite E. left. reflexivity.
      * assert (Hx : ~ start <= x < start + len).
        { intros Hx. apply Hn. exists (start, len).
          split; [left; reflexivity | simpl; exact Hx]. }
        destruct (proj2 IH) as (r & Hin & Hr).
        -- split; [lia |]. intros (r' & Hin' & Hx').
           apply Hn. exists r'. split; [right; exact Hin' | exact Hx'].
        -- exists r. split; [apply in_or_app; right; exact Hin | exact Hr].
Qed.

(** The bytes of the records of [gaps_outside]: those of the gaps that no
    excluded range holds. *)
Lemma gaps_outside_covers excluded_extents gaps x :
  excluded_sorted 0 excluded_extents ->
  record_covers (gaps_outside excluded_extents gaps) x
  <-> record_covers gaps x /\ ~ excluded_covers excluded_extents x.
Proof.
  intros Hs. unfold gaps_outside, record_covers at 1 2. split.
  - intros (r & Hin & Hx). apply in_flat_map in Hin.
    destruct Hin as (gap & Hgap & Hin).
    destruct (proj1 (free_outside_covers excluded_extents 0 (fst gap)
                       (fst gap + snd gap) x Hs)
                (ex_intro _ r (conj Hin Hx))) as (Hb & Hn).
    split; [exists gap; split; assumption | exact Hn].
  - intros ((gap & Hgap & Hb) & Hn).
    destruct (proj2 (free_outside_covers excluded_extents 0 (fst gap)
                       (fst gap + snd gap) x Hs) (conj Hb Hn))
      as (r & Hin & Hx).
    exists r. split; [| exact Hx].
    apply in_flat_map. exists gap. split; assumption.
Qed.

Section CachingGeneralFacts.

Variable BTRFS_SUPER_INFO_OFFSET : Z.
Variable BTRFS_EXTENT_ITEM_KEY : Z.
Variable BTRFS_METADATA_ITEM_KEY : Z.
Variable CACHING_CTL_WAKE_UP : Z.

Local Abbreviation scan_loop :=
  (load_extent_tree_free_loop BTRFS_EXTENT_ITEM_KEY BTRFS_METADATA_ITEM_KEY
     CACHING_CTL_WAKE_UP false).
Local Abbreviation scan :=
  (load_extent_tree_free BTRFS_SUPER_INFO_OFFSET BTRFS_EXTENT_ITEM_KEY
     BTRFS_METADATA_ITEM_KEY CACHING_CTL_WAKE_UP false).
Local Abbreviation in_group :=
  (item_in_group BTRFS_EXTENT_ITEM_KEY BTRFS_METADATA_ITEM_KEY).
Local Abbreviation used :=
  (used_extents BTRFS_EXTENT_ITEM_KEY BTRFS_METADATA_ITEM_KEY).
Local Abbreviation used_from :=
  (used_extents_from BTRFS_EXTENT_ITEM_KEY BTRFS_METADATA_ITEM_KEY).
Local Abbreviation used_extents_cons :=
  (used_extents_cons BTRFS_EXTENT_ITEM_KEY BTRFS_METADATA_ITEM_KEY).
Local Abbreviation used_extents_past_end :=
  (used_extents_past_end BTRFS_EXTENT_ITEM_KEY BTRFS_METADATA_ITEM_KEY).

(** The loop of the scan with any excluded ranges, on a sorted item list
    whose extents of the group follow one another from [last] on: it ends
    without error, and the records it added, with what is left of the
    range up to the end of the group, are the parts of the gaps outside
    the excluded ranges. *)
Lemma scan_loop_outside excluded_extents nodesize block_group items :
  BTRFS_EXTENT_ITEM_KEY < BTRFS_METADATA_ITEM_KEY ->
  0 <= bg_start block_group -> 0 <= bg_length block_group ->
  bg_start block_group + bg_length block_group < 2 ^ 64 ->
  excluded_sorted 0 excluded_extents ->
  items_sorted items ->
  forall search st,
    match search with
    | None => True
    | Some k =>
      objectid k <= cs_last st /\ type k = BTRFS_EXTENT_ITEM_KEY
      /\ offset k = 0
    end ->
    bg_start block_group <= cs_last st < 2 ^ 64 ->
    extents_chain (cs_last st)
      (bg_start block_group + bg_length block_group)
      (used nodesize block_group items) ->
    exists st',
      scan_loop excluded_extents nodesize block_group items search st
      = Some (OK, st')
      /\ bg_start block_group <= cs_last st' < 2 ^ 64
      /\ cs_ctl st'
         ++ free_outside excluded_extents (cs_last st')
              (bg_start block_group + bg_length block_group)
         = cs_ctl st
           ++ gaps_outside excluded_extents
                (free_gaps (cs_last st)
                   (bg_start block_group + bg_length block_group)
                   (used nodesize block_group items)).
Proof.
  intros Htypes Hs0 Hl0 Hend Hex Hsorted.
  set (end_ := bg_start block_group + bg_length block_group) in *.
  assert (Hend64 : (bg_start block_group + bg_length block_group)%u64 = end_).
  { unfold add64, u64, end_. Z.div_mod_to_equations. lia. }
  assert (Hfinal : forall last,
             gaps_outside excluded_extents (free_gaps last end_ [])
             = free_outside excluded_extents last end_).
  { intros last. unfold gaps_outside. simpl.
    destruct (last <? end_) eqn:E; simpl.
    - rewrite app_nil_r. f_equal. lia.
    - apply Z.ltb_ge in E. symmetry. apply free_outside_empty. exact E. }
  induction items as [| key rest IH]; intros search st Hsearch Hlast Hchain.
  - exists st. cbn [load_extent_tree_free_loop].
    split; [reflexivity |]. split; [exact Hlast |].
    unfold used_extents. cbn [filter map]. rewrite Hfinal. reflexivity.
  - inversion Hsorted as [| ? ? Hsorted' Hall]; subst.
    specialize (IH Hsorted').
    rewrite used_extents_cons in Hchain |- *.
    cbn [load_extent_tree_free_loop].
    (* an item that the chain excludes is no extent of the group *)
    assert (Hskip : objectid key < cs_last st
                    \/ (objectid key = cs_last st
                        /\ (type key < BTRFS_EXTENT_ITEM_KEY
                            \/ (type key = BTRFS_EXTENT_ITEM_KEY
                                /\ offset key < 0))) ->
                    in_group block_group key = false).
    { intros Hk. destruct (in_group block_group key) eqn:Hin; [| reflexivity].
      exfalso. unfold item_extent in Hchain.
      destruct Hchain as (H1 & H2 & _). simpl in H1.
      unfold item_in_group in Hin.
      apply andb_true_iff in Hin. destruct Hin as [_ Hty].
      destruct Hk as [Hk | (Hk & [Hk' | (Hk' & Hk'')])]; [lia | |].
      - apply orb_true_iff in Hty.
        destruct Hty as [Hty | Hty]; apply Z.eqb_eq in Hty; lia.
      - assert (E : (type key =? BTRFS_METADATA_ITEM_KEY) = false)
          by (apply Z.eqb_neq; lia).
        rewrite E in H2. lia. }
    destruct (match search with
              | Some k => key_ltb key k
              | None => false
              end) eqn:Hbelow.
    + (* the search under way passes the item *)
      destruct search as [k |]; [| discriminate].
      destruct Hsearch as (Hk1 & Hk2 & Hk3).
      assert (Hno : in_group block_group key = false).
      { apply Hskip.
        unfold key_ltb in Hbelow. rewrite Hk2, Hk3 in Hbelow.
        apply orb_true_iff in Hbelow. destruct Hbelow as [Hb | Hb].
        - apply Z.ltb_lt in Hb. left. lia.
        - apply andb_true_iff in Hb. destruct Hb as [Hb1 Hb2].
          apply Z.eqb_eq in Hb1. apply orb_true_iff in Hb2.
          destruct (Z.eq_dec (objectid k) (cs_last st)) as [E | E];
            [| left; lia].
          right. split; [lia |].
          destruct Hb2 as [Hb2 | Hb2].
          + apply Z.ltb_lt in Hb2. left. exact Hb2.
          + apply andb_true_iff in Hb2. destruct Hb2 as [Hb2 Hb3].
            apply Z.eqb_eq in Hb2. apply Z.ltb_lt in Hb3. right. lia. }
      rewrite Hno in Hchain |- *.
      apply IH; [repeat split; assumption | assumption | assumption].
    + destruct (objectid key <? cs_last st) eqn:Hlt.
      * (* the item lies below [last]: search again from [last] *)
        apply Z.ltb_lt in Hlt.
        assert (Hno : in_group block_group key = false)
          by (apply Hskip; left; exact Hlt).
        rewrite Hno in Hchain |- *.
        apply IH; [simpl; repeat split; lia | assumption | assumption].
      * apply Z.ltb_ge in Hlt.
        destruct (objectid key <? bg_start block_group) eqn:Hst;
          [apply Z.ltb_lt in Hst; lia |].
        apply Z.ltb_ge in Hst. rewrite Hend64.
        destruct (end_ <=? objectid key) eqn:Hpast.
        -- (* past the end of the group: the scan stops *)
           apply Z.leb_le in Hpast.
           assert (Hnil : used nodesize block_group (key :: rest) = []).
           { apply (used_extents_past_end nodesize block_group (key :: rest)
                      (objectid key)); [exact Hpast |].
             constructor; [lia |].
             rewrite Forall_forall in Hall |- *. intros k Hk.
             apply key_ltb_objectid. apply Hall. exact Hk. }
           rewrite used_extents_cons in Hnil. rewrite Hnil.
           exists st. split; [reflexivity |]. split; [exact Hlast |].
           rewrite Hfinal. reflexivity.
        -- apply Z.leb_gt in Hpast.
           destruct ((type key =? BTRFS_EXTENT_ITEM_KEY)
                     || (type key =? BTRFS_METADATA_ITEM_KEY)) eqn:Hty.
           ++ (* an extent of the group: the gap before it is added *)
              assert (Hin : in_group block_group key = true).
              { unfold item_in_group. rewrite Hty, andb_true_r.
                apply andb_true_iff. split;
                  [apply Z.leb_le; lia | apply Z.ltb_lt; fold end_; lia]. }
              rewrite Hin in Hchain |- *.
              unfold item_extent in Hchain |- *.
              destruct Hchain as (H1 & H2 & H3 & Hchain). simpl in H1, H3.
              rewrite (add_new_free_space_outside excluded_extents
                         (cs_ctl st) (cs_last st) (objectid key) Hex)
                by lia.
              set (len := if type key =? BTRFS_METADATA_ITEM_KEY
                          then nodesize else offset key) in *.
              assert (Hnext : (if type key =? BTRFS_METADATA_ITEM_KEY
                               then (objectid key + nodesize)%u64
                               else (objectid key + offset key)%u64)
                              = objectid key + len).
              { unfold len. destruct (type key =? BTRFS_METADATA_ITEM_KEY);
                  unfold add64, u64; Z.div_mod_to_equations; lia. }
              rewrite Hnext.
              assert (Hgap : gaps_outside excluded_extents
                               (if cs_last st <? objectid key
                                then [(cs_last st, objectid key - cs_last st)]
                                else [])
                             = free_outside excluded_extents (cs_last st)
                                 (objectid key)).
              { unfold gaps_outside.
                destruct (cs_last st <? objectid key) eqn:E; simpl.
                - rewrite app_nil_r. f_equal. lia.
                - apply Z.ltb_ge in E. symmetry. apply free_outside_empty.
                  exact E. }
              destruct (CACHING_CTL_WAKE_UP <? _) eqn:Hwake;
                match goal with
                | |- context [scan_loop _ _ _ rest None ?s] =>
                  destruct (IH None s I) as (st' & Hrun & Hl' & Hctl);
                    [simpl; lia | simpl; exact Hchain |];
                    exists st'; rewrite Hrun;
                    split; [reflexivity |]; split; [exact Hl' |];
                    rewrite Hctl; simpl cs_ctl; simpl cs_last;
                    cbn [free_gaps];
                    rewrite gaps_outside_app, Hgap, <- app_assoc; reflexivity
                end.
           ++ (* another item of the range: passed *)
              assert (Hin : in_group block_group key = false).
              { unfold item_in_group. rewrite Hty. apply andb_false_r. }
              rewrite Hin in Hchain |- *.
              apply IH; [exact I | assumption | assumption].
Qed.

(** The items below the key searched are passed by the search. *)
Lemma scan_loop_skip_below excluded_extents nodesize block_group below rest
  k st :
  Forall (fun key => objectid key < objectid k) below ->
  scan_loop excluded_extents nodesize block_group (below ++ rest) (Some k) st
  = scan_loop excluded_extents nodesize block_group rest (Some k) st.
Proof.
  induction 1 as [| key below Hk Hall IH]; [reflexivity |].
  cbn [app load_extent_tree_free_loop].
  assert (E : key_ltb key k = true).
  { unfold key_ltb. apply orb_true_iff. left. apply Z.ltb_lt. exact Hk. }
  rewrite E. exact IH.
Qed.

(** A sorted item list splits at an address. *)
Lemma items_sorted_split items last :
  items_sorted items ->
  exists below rest,
    items = below ++ rest
    /\ Forall (fun key => objectid key < last) below
    /\ Forall (fun key => last <= objectid key) rest
    /\ items_sorted rest.
Proof.
  induction items as [| key items IH]; intros Hs.
  - exists [], []. repeat split; constructor.
  - inversion Hs as [| ? ? Hs' Hall]; subst.
    destruct (Z_lt_dec (objectid key) last) as [Hlt | Hge].
    + destruct (IH Hs') as (below & rest & -> & Hb & Hr & Hsr).
      exists (key :: below), rest. repeat split; auto.
    + exists [], (key :: items). repeat split; auto.
      constructor; [lia |].
      rewrite Forall_forall in Hall |- *. intros k Hk.
      pose proof (key_ltb_objectid _ _ (Hall k Hk)). lia.
Qed.

Lemma used_extents_from_split last nodesize block_group below rest :
  Forall (fun key => objectid key < last) below ->
  Forall (fun key => last <= objectid key) rest ->
  used_from last nodesize block_group (below ++ rest)
  = used nodesize block_group rest.
Proof.
  intros Hb Hr. unfold used_extents_from. rewrite filter_app.
  assert (E1 : filter (fun key => last <=? objectid key) below = []).
  { induction Hb as [| key below Hk Hb IH]; [reflexivity |]. simpl.
    assert (E : (last <=? objectid key) = false) by (apply Z.leb_gt; lia).
    rewrite E. exact IH. }
  assert (E2 : filter (fun key => last <=? objectid key) rest = rest).
  { induction Hr as [| key rest Hk Hr IH]; [reflexivity |]. simpl.
    assert (E : (last <=? objectid key) = true) by (apply Z.leb_le; lia).
    rewrite E, IH. reflexivity. }
  rewrite E1, E2. reflexivity.
Qed.

(** C7, as amended.  On a filesystem that is not closing, the scan of a
    sorted extent tree starts at the larger of the start of the group and
    the superblock offset.  With excluded ranges in ascending order, and
    the extent records of the group from that address on following one
    another without overlap inside the group, it ends without error and
    inserts, of the gap before each used extent and of the gap after the
    last one up to the end of the group, exactly the parts outside the
    excluded ranges: the bytes of the inserted records are those from
    that address to the end of the group that lie in no used extent and in
    no excluded range.  For a group that starts at or above the superblock
    offset and that no excluded range reaches into, these are the gaps
    themselves.  So such a group without used extents gets one record that
    spans its range, one that an extent fills gets none, and used extents
    at offsets [0, 10) and [20, 30) of a group of 40 bytes leave the
    records at offsets [10, 20) and [30, 40), 20 bytes in all. *)
Theorem load_extent_tree_free_gaps excluded_extents nodesize extent_root
  block_group ctl progress :
  BTRFS_EXTENT_ITEM_KEY < BTRFS_METADATA_ITEM_KEY ->
  0 <= bg_start block_group -> 0 <= bg_length block_group ->
  bg_start block_group + bg_length block_group < 2 ^ 64 ->
  items_sorted extent_root ->
  let start := bg_start block_group in
  let length := bg_length block_group in
  let last := Z.max start BTRFS_SUPER_INFO_OFFSET in
  (BTRFS_SUPER_INFO_OFFSET < 2 ^ 64 ->
   excluded_sorted 0 excluded_extents ->
   extents_chain last (start + length)
     (used_from last nodesize block_group extent_root) ->
   let added :=
     gaps_outside excluded_extents
       (free_gaps last (start + length)
          (used_from last nodesize block_group extent_root)) in
   (exists progress',
      scan excluded_extents nodesize extent_root block_group ctl progress
      = Some (OK, ctl ++ added, progress'))
   /\ (forall x,
         record_covers added x
         <-> last <= x < start + length
             /\ ~ record_covers
                    (used_from last nodesize block_group extent_root) x
             /\ ~ excluded_covers excluded_extents x))
  /\ (BTRFS_SUPER_INFO_OFFSET <= start ->
      excluded_outside excluded_extents block_group ->
      extents_chain start (start + length)
        (used nodesize block_group extent_root) ->
      exists progress',
        scan excluded_extents nodesize extent_root block_group ctl progress
        = Some (OK,
                ctl ++ free_gaps start (start + length)
                         (used nodesize block_group extent_root),
                progress'))
  /\ (0 < length -> free_gaps start (start + length) [] = [(start, length)])
  /\ free_gaps start (start + length) [(start, length)] = []
  /\ (length = 40 ->
      free_gaps start (start + length) [(start, 10); (start + 20, 10)]
      = [(start + 10, 10); (start + 30, 10)]
      /\ free_space_total [(start + 10, 10); (start + 30, 10)] = 20).
Proof.
  intros Htypes Hs0 Hl0 Hend Hsorted start length last.
  subst start length. split; [| split; [| split; [| split]]].
  - intros Hoff Hex Hchain added. split.
    + destruct (items_sorted_split extent_root last Hsorted)
        as (below & rest & Hitems & Hb & Hr & Hsr).
      rewrite Hitems in Hchain. subst added. rewrite Hitems.
      rewrite (used_extents_from_split last nodesize block_group below rest
                 Hb Hr) in *.
      unfold load_extent_tree_free. fold last.
      rewrite (scan_loop_skip_below excluded_extents nodesize block_group
                 below rest (mk_key last BTRFS_EXTENT_ITEM_KEY 0)
                 (mk_caching_state last 0 progress ctl) Hb).
      destruct (scan_loop_outside excluded_extents nodesize block_group rest
                  Htypes Hs0 Hl0 Hend Hex Hsr
                  (Some (mk_key last BTRFS_EXTENT_ITEM_KEY 0))
                  (mk_caching_state last 0 progress ctl))
        as (st' & Hrun & Hlast & Hctl).
      * simpl. repeat split; lia.
      * simpl. unfold last. lia.
      * simpl. exact Hchain.
      * rewrite Hrun.
        assert (Hend64 : (bg_start block_group + bg_length block_group)%u64
                         = bg_start block_group + bg_length block_group)
          by (unfold add64, u64; Z.div_mod_to_equations; lia).
        rewrite Hend64.
        rewrite (add_new_free_space_outside excluded_extents (cs_ctl st')
                   (cs_last st')
                   (bg_start block_group + bg_length block_group) Hex)
          by lia.
        exists (cs_progress st'). simpl in Hctl. rewrite Hctl. reflexivity.
    + intros x. subst added.
      rewrite (gaps_outside_covers _ _ _ Hex).
      rewrite (free_gaps_covers _ _ _ _ Hchain). tauto.
  - intros Hsuper Hout Hchain.
    apply (scan_gaps BTRFS_SUPER_INFO_OFFSET BTRFS_EXTENT_ITEM_KEY
             BTRFS_METADATA_ITEM_KEY CACHING_CTL_WAKE_UP); assumption.
  - intros Hlen. simpl.
    assert (E : (bg_start block_group
                 <? bg_start block_group + bg_length block_group) = true)
      by (apply Z.ltb_lt; lia).
    rewrite E. apply f_equal2; [apply f_equal2; lia | reflexivity].
  - simpl. rewrite !Z.ltb_irrefl. reflexivity.
  - intros Hlen. rewrite Hlen. simpl. rewrite Z.ltb_irrefl.
    assert (E1 : (bg_start block_group + 10 <? bg_start block_group + 20)
                 = true) by (apply Z.ltb_lt; lia).
    assert (E2 : (bg_start block_group + 20 + 10 <? bg_start block_group + 40)
                 = true) by (apply Z.ltb_lt; lia).
    rewrite E1, E2. simpl. split; [| reflexivity].
    apply f_equal2;
      [apply f_equal2; lia
      | apply f_equal2; [apply f_equal2; lia | reflexivity]].
Qed.

End CachingGeneralFacts.

Lemma load_extent_tree_free_gaps_witness :
  sample_load_extent_tree_free low_excluded 16384 low_extent_root low_group
    [] 0
  = Some (OK, [(69632, 30368); (101000, 99000)], 0)
  /\ sample_load_extent_tree_free [] 16384
       [ mk_key 5 168 10; mk_key MiB 168 10; mk_key MiB 192 40;
         mk_key (MiB + 20) 168 10; mk_key (MiB + 400) 168 10 ]
       (empty_block_group MiB 40 SAMPLE_DATA) [] 0
     = Some (OK, [(MiB + 10, 10); (MiB + 30, 10)], 0).
Proof.
  split.
  - destruct (load_extent_tree_free_gaps SAMPLE_SUPER_INFO_OFFSET
                SAMPLE_EXTENT_ITEM_KEY SAMPLE_METADATA_ITEM_KEY SAMPLE_WAKE_UP
                low_excluded 16384 low_extent_root low_group [] 0)
      as (Hgen & _).
    + reflexivity.
    + vm_compute. discriminate.
    + vm_compute. discriminate.
    + reflexivity.
    + unfold items_sorted, low_extent_root.
      repeat (constructor; [| repeat (constructor; [reflexivity |]);
                              constructor]).
      constructor.
    + destruct Hgen as [(progress' & H) _].
      * reflexivity.
      * vm_compute. intuition discriminate.
      * vm_compute. intuition discriminate.
      * reflexivity.
  - destruct (load_extent_tree_free_gaps SAMPLE_SUPER_INFO_OFFSET
                SAMPLE_EXTENT_ITEM_KEY SAMPLE_METADATA_ITEM_KEY SAMPLE_WAKE_UP
                [] 16384
                [ mk_key 5 168 10; mk_key MiB 168 10; mk_key MiB 192 40;
                  mk_key (MiB + 20) 168 10; mk_key (MiB + 400) 168 10 ]
                (empty_block_group MiB 40 SAMPLE_DATA) [] 0)
      as (_ & Hspec & _).
    + reflexivity.
    + vm_compute. discriminate.
    + vm_compute. discriminate.
    + reflexivity.
    + unfold items_sorted.
      repeat (constructor; [| repeat (constructor; [reflexivity |]);
                              constructor]).
      constructor.
    + destruct Hspec as (progress' & H).
      * vm_compute. discriminate.
      * intros range [].
      * vm_compute. intuition discriminate.
      * reflexivity.
Defined.

(** ** The unused pass and the reclaim pass *)

Lemma keeps_lists_and_ro_turn bg unused reclaim ro info info' :
  keeps_lists_and_ro info info' ->
  bg_turn bg unused reclaim ro info -> bg_turn bg unused reclaim ro info'.
Proof.
  intros (Hr & Hu & Hg) (Tu & Tr & Tl & To).
  destruct (Hg bg) as (Hro & Hl).
  repeat split; congruence.
Qed.

Lemma bg_turn_store_bg bg unused reclaim ro info g :
  bg_turn bg unused reclaim ro info ->
  bg_bg_list g = false ->
  bg_turn bg unused reclaim (bg_ro g) (fs_store_bg info bg g).
Proof.
  intros (Tu & Tr & Tl & To) Hl. unfold bg_turn.
  rewrite fs_store_bg_same. repeat split; assumption.
Qed.

Lemma bg_turn_store bg unused reclaim ro info g s :
  bg_turn bg unused reclaim ro info ->
  bg_bg_list g = false ->
  bg_turn bg unused reclaim (bg_ro g) (fs_store info bg g s).
Proof.
  intros (Tu & Tr & Tl & To) Hl. unfold bg_turn, fs_store, fs_bg.
  cbn [fs_block_groups fs_unused_bgs fs_reclaim_bgs set_fs_space_infos
       set_fs_block_groups].
  rewrite store_set_same. repeat split; assumption.
Qed.

Section PassFacts.

Variable btrfs_is_zoned : bool.
Variable btrfs_space_info_used : btrfs_space_info -> bool -> Z.
Variable btrfs_can_overcommit : btrfs_space_info -> Z -> bool.
Variable BTRFS_BLOCK_GROUP_DATA : Z.
Variable mult_perc : Z -> Z -> Z.
Variable BLOCK_GROUP_FLAG_NEW : Z.
Variable discard_async : bool.
Variable discard_sync : bool.
Variable fs_open : btrfs_fs_info -> bool.
Variable btrfs_fs_closing : btrfs_fs_info -> bool.
Variable reclaim_bgs_trylock : btrfs_fs_info -> bool.
Variable btrfs_zoned_should_reclaim : btrfs_fs_info -> bool.
Variable btrfs_exclop_start : btrfs_fs_info -> bool.
Variable btrfs_need_cleaner_sleep : btrfs_fs_info -> bool.
Variable btrfs_mixed_space_info : btrfs_space_info -> bool.
Variable btrfs_is_free_space_trimmed : btrfs_fs_info -> bg_ptr -> bool.
Variable btrfs_is_block_group_used : btrfs_block_group -> bool.
Variable list_is_singular : btrfs_fs_info -> bg_ptr -> bool.
Variable discard_list_empty : btrfs_fs_info -> bg_ptr -> bool.
Variable prev_transaction : btrfs_fs_info -> bool.
Variable clear_extent_bits :
  btrfs_fs_info -> pinned_extents_tree -> Z -> Z -> retval.
Variable btrfs_find_chunk_map :
  btrfs_fs_info -> Z -> Z -> option btrfs_chunk_map.
Variable btrfs_zone_finish : btrfs_fs_info -> bg_ptr -> retval * btrfs_fs_info.
Variable btrfs_start_transaction_fallback_global_rsv :
  btrfs_fs_info -> Z -> retval * btrfs_fs_info.
Variable btrfs_end_transaction : btrfs_fs_info -> btrfs_fs_info.
Variable btrfs_remove_chunk : btrfs_fs_info -> Z -> retval * btrfs_fs_info.
Variable btrfs_discard_punt_unused_bgs_list : btrfs_fs_info -> btrfs_fs_info.
Variable btrfs_relocate_chunk : btrfs_fs_info -> Z -> retval * btrfs_fs_info.

Local Abbreviation inc_ro :=
  (inc_block_group_ro btrfs_is_zoned btrfs_space_info_used
     btrfs_can_overcommit BTRFS_BLOCK_GROUP_DATA).
Local Abbreviation dec_ro := (btrfs_dec_block_group_ro btrfs_is_zoned).
Local Abbreviation unused_loop :=
  (delete_unused_bgs_loop btrfs_is_zoned btrfs_space_info_used
     btrfs_can_overcommit BTRFS_BLOCK_GROUP_DATA discard_async discard_sync
     btrfs_mixed_space_info btrfs_is_free_space_trimmed
     btrfs_is_block_group_used list_is_singular discard_list_empty
     prev_transaction clear_extent_bits btrfs_find_chunk_map btrfs_zone_finish
     btrfs_start_transaction_fallback_global_rsv btrfs_end_transaction
     btrfs_remove_chunk btrfs_discard_punt_unused_bgs_list).
Local Abbreviation unused_pass :=
  (btrfs_delete_unused_bgs btrfs_is_zoned btrfs_space_info_used
     btrfs_can_overcommit BTRFS_BLOCK_GROUP_DATA discard_async discard_sync
     fs_open btrfs_fs_closing reclaim_bgs_trylock btrfs_mixed_space_info
     btrfs_is_free_space_trimmed btrfs_is_block_group_used list_is_singular
     discard_list_empty prev_transaction clear_extent_bits
     btrfs_find_chunk_map btrfs_zone_finish
     btrfs_start_transaction_fallback_global_rsv btrfs_end_transaction
     btrfs_remove_chunk btrfs_discard_punt_unused_bgs_list).
Local Abbreviation reclaim_one :=
  (reclaim_one_bg btrfs_is_zoned btrfs_space_info_used btrfs_can_overcommit
     BTRFS_BLOCK_GROUP_DATA mult_perc BLOCK_GROUP_FLAG_NEW discard_async
     btrfs_need_cleaner_sleep btrfs_relocate_chunk).
Local Abbreviation reclaim_loop :=
  (reclaim_bgs_loop btrfs_is_zoned btrfs_space_info_used btrfs_can_overcommit
     BTRFS_BLOCK_GROUP_DATA mult_perc BLOCK_GROUP_FLAG_NEW discard_async
     discard_sync fs_open btrfs_fs_closing reclaim_bgs_trylock
     btrfs_need_cleaner_sleep btrfs_mixed_space_info
     btrfs_is_free_space_trimmed btrfs_is_block_group_used list_is_singular
     discard_list_empty prev_transaction clear_extent_bits
     btrfs_find_chunk_map btrfs_zone_finish
     btrfs_start_transaction_fallback_global_rsv btrfs_end_transaction
     btrfs_remove_chunk btrfs_discard_punt_unused_bgs_list
     btrfs_relocate_chunk).
Local Abbreviation reclaim_work :=
  (btrfs_reclaim_bgs_work btrfs_is_zoned btrfs_space_info_used
     btrfs_can_overcommit BTRFS_BLOCK_GROUP_DATA mult_perc
     BLOCK_GROUP_FLAG_NEW discard_async discard_sync fs_open btrfs_fs_closing
     reclaim_bgs_trylock btrfs_zoned_should_reclaim btrfs_exclop_start
     btrfs_need_cleaner_sleep btrfs_mixed_space_info
     btrfs_is_free_space_trimmed btrfs_is_block_group_used list_is_singular
     discard_list_empty prev_transaction clear_extent_bits
     btrfs_find_chunk_map btrfs_zone_finish
     btrfs_start_transaction_fallback_global_rsv btrfs_end_transaction
     btrfs_remove_chunk btrfs_discard_punt_unused_bgs_list
     btrfs_relocate_chunk).
Local Abbreviation in_order :=
  (reclaim_in_order btrfs_is_zoned btrfs_space_info_used btrfs_can_overcommit
     BTRFS_BLOCK_GROUP_DATA mult_perc BLOCK_GROUP_FLAG_NEW discard_async
     discard_sync fs_open btrfs_fs_closing reclaim_bgs_trylock
     btrfs_need_cleaner_sleep btrfs_mixed_space_info
     btrfs_is_free_space_trimmed btrfs_is_block_group_used list_is_singular
     discard_list_empty prev_transaction clear_extent_bits
     btrfs_find_chunk_map btrfs_zone_finish
     btrfs_start_transaction_fallback_global_rsv btrfs_end_transaction
     btrfs_remove_chunk btrfs_discard_punt_unused_bgs_list
     btrfs_relocate_chunk).
Local Abbreviation hooks_keep :=
  (passes_keep_lists_and_ro btrfs_zone_finish
     btrfs_start_transaction_fallback_global_rsv btrfs_end_transaction
     btrfs_remove_chunk btrfs_relocate_chunk).

(** The elevation and the demotion leave the node [bg_list] alone. *)
Lemma inc_ro_bg_list g s force :
  bg_bg_list (snd (fst (inc_ro g s force))) = bg_bg_list g.
Proof.
  unfold inc_block_group_ro.
  destruct (negb (bg_swap_extents g =? 0)); [reflexivity |].
  destruct (negb (bg_ro g =? 0)); [reflexivity |].
  match goal with
  | |- context [match ?r with OK => _ | ERR _ => _ end] => destruct r
  end; [| reflexivity].
  case_bool btrfs_is_zoned; reflexivity.
Qed.

Lemma inc_ro_elevates g s force g' s' :
  bg_ro g = 0 -> inc_ro g s force = (OK, g', s') -> bg_ro g' = 1.
Proof.
  intros Hro H.
  apply (inc_ro_shape btrfs_is_zoned btrfs_space_info_used
           btrfs_can_overcommit BTRFS_BLOCK_GROUP_DATA) in H.
  destruct H as (_ & _ & _ & _ & _ & _ & _ & Hg & _).
  rewrite Hg, Hro. reflexivity.
Qed.

Lemma dec_ro_demotes g s :
  bg_ro g = 1 ->
  exists g' s',
    dec_ro g s = Some (g', s')
    /\ bg_ro g' = 0 /\ bg_bg_list g' = bg_bg_list g.
Proof.
  intros Hro. unfold btrfs_dec_block_group_ro. rewrite Hro. simpl.
  case_bool btrfs_is_zoned; eexists; eexists; repeat split.
Qed.

(** The unused pass returns, given fuel for the groups on the unused list,
    with the reclaim list as it found it and an unused list that has not
    grown. *)
Lemma delete_unused_bgs_loop_total :
  hooks_keep -> chunk_maps_found btrfs_find_chunk_map ->
  forall fuel info ret retry_list,
    (length (fs_unused_bgs info) < fuel)%nat ->
    exists info',
      unused_loop fuel discard_async info ret retry_list = Some info'
      /\ fs_reclaim_bgs info' = fs_reclaim_bgs info
      /\ (length (fs_unused_bgs info')
          <= length (fs_unused_bgs info) + length retry_list)%nat.
Proof.
  intros (Hzf & Hst & Het & Hrc & _) Hmap.
  induction fuel as [| fuel IH]; intros info ret retry_list Hfuel;
    [inversion Hfuel |].
  cbn [delete_unused_bgs_loop].
  destruct (fs_unused_bgs info) as [| bg rest] eqn:EU.
  - eexists. split; [reflexivity |]. heap. split; [reflexivity |].
    simpl. lia.
  - set (recl := fs_reclaim_bgs info).
    set (info0 := set_fs_unused_bgs rest
                    (fs_store_bg info bg
                       (set_bg_bg_list false (fs_bg info bg)))).
    assert (T0 : bg_turn bg rest recl (bg_ro (fs_bg info bg)) info0).
    { unfold bg_turn, info0. heap. repeat split. }
    assert (Hnext : forall X r l,
               fs_unused_bgs X = rest -> fs_reclaim_bgs X = recl ->
               (length l <= length retry_list + 1)%nat ->
               exists info',
                 unused_loop fuel discard_async
                   (fs_store_bg X bg (btrfs_put_block_group (fs_bg X bg))) r l
                 = Some info'
                 /\ fs_reclaim_bgs info' = recl
                 /\ (length (fs_unused_bgs info')
                     <= length (bg :: rest) + length retry_list)%nat).
    { intros X r l HU HR Hl.
      destruct (IH (fs_store_bg X bg (btrfs_put_block_group (fs_bg X bg)))
                  r l) as (info' & E & R & L).
      - cbn [fs_store_bg fs_unused_bgs set_fs_block_groups]. rewrite HU.
        simpl in Hfuel. lia.
      - exists info'. split; [exact E |]. split.
        + rewrite R. exact HR.
        + revert L. cbn [fs_store_bg fs_unused_bgs set_fs_block_groups].
          rewrite HU. simpl. lia. }
    clearbody info0 recl. clear IH.
    assert (Hretry : (length retry_list <= length retry_list + 1)%nat) by lia.
    assert (Hend : forall Y r,
               fs_unused_bgs Y = rest -> fs_reclaim_bgs Y = recl ->
               exists info',
                 unused_loop fuel discard_async
                   (fs_store_bg (btrfs_end_transaction Y) bg
                      (btrfs_put_block_group
                         (fs_bg (btrfs_end_transaction Y) bg))) r retry_list
                 = Some info'
                 /\ fs_reclaim_bgs info' = recl
                 /\ (length (fs_unused_bgs info')
                     <= length (bg :: rest) + length retry_list)%nat).
    { intros Y r HU HR. destruct (Het Y) as (Hr & Hu & _).
      apply Hnext; [congruence | congruence | exact Hretry]. }
    assert (Hdec : forall Y,
               bg_turn bg rest recl 1 Y ->
               exists g s,
                 dec_ro (fs_bg Y bg) (fs_si Y bg) = Some (g, s)
                 /\ bg_turn bg rest recl 0 (fs_store Y bg g s)).
    { intros Y TY. pose proof TY as (_ & _ & Tl & To).
      destruct (dec_ro_demotes (fs_bg Y bg) (fs_si Y bg) To)
        as (g & s & E & Hz & Hl).
      exists g, s. split; [exact E |]. rewrite <- Hz.
      apply (bg_turn_store _ _ _ _ _ _ _ TY). congruence. }
    pose proof T0 as (U0 & R0 & L0 & O0).
    destruct (negb (is_ok ret) || btrfs_mixed_space_info (fs_si info0 bg));
      [apply Hnext; assumption |].
    destruct (discard_async && negb (btrfs_is_free_space_trimmed info0 bg));
      [apply Hnext; assumption |].
    destruct (bg_ro (fs_bg info0 bg) =? 0) eqn:Ero;
      [| rewrite orb_true_r; apply Hnext; assumption].
    apply Z.eqb_eq in Ero.
    destruct (btrfs_is_block_group_used (fs_bg info0 bg) || negb true
              || list_is_singular info0 bg);
      [apply Hnext; assumption |].
    match goal with
    | |- context [if ?c then _ else _] => destruct c
    end.
    { apply Hnext; [heap; exact U0 | heap; exact R0 |].
      rewrite length_app. simpl. lia. }
    pose proof (inc_ro_bg_list (fs_bg info0 bg) (fs_si info0 bg) false) as Hl.
    destruct (inc_ro (fs_bg info0 bg) (fs_si info0 bg) false)
      as [[r g] s] eqn:Einc.
    cbn [fst snd] in Hl.
    assert (Ta : bg_turn bg rest recl (bg_ro g) (fs_store info0 bg g s))
      by (apply (bg_turn_store _ _ _ _ _ _ _ T0); congruence).
    destruct r as [| e0];
      [| destruct Ta as (Ua & Ra & _); apply Hnext; assumption].
    rewrite (inc_ro_elevates _ _ _ _ _ Ero Einc) in Ta.
    pose proof (Hzf (fs_store info0 bg g s) bg) as K1.
    destruct (btrfs_zone_finish (fs_store info0 bg g s) bg) as [r1 info1].
    cbn [snd] in K1.
    pose proof (keeps_lists_and_ro_turn _ _ _ _ _ _ K1 Ta) as T1.
    destruct r1 as [| e1].
    2:{ destruct (Hdec info1 T1) as (g1 & s1 & E1 & (Ud & Rd & _)).
        rewrite E1. apply Hnext; assumption. }
    unfold btrfs_start_trans_remove_block_group.
    destruct (Hmap info1 (bg_start (fs_bg info1 bg))) as (map & Em & Es).
    rewrite Em, Es, Z.eqb_refl. cbn [negb].
    match goal with
    | |- context [btrfs_start_transaction_fallback_global_rsv ?i ?n] =>
      pose proof (Hst i n) as K2;
      destruct (btrfs_start_transaction_fallback_global_rsv i n)
        as [r2 info2]
    end.
    cbn [snd] in K2.
    pose proof (keeps_lists_and_ro_turn _ _ _ _ _ _ K2 T1) as T2.
    destruct r2 as [| e2].
    2:{ destruct (Hdec info2 T2) as (g2 & s2 & E2 & (Ud & Rd & _)).
        rewrite E2. apply Hnext; assumption. }
    destruct (Hdec info2 T2) as (g2 & s2 & E2 & (Ud & Rd & _)).
    destruct (negb (clean_pinned_extents prev_transaction clear_extent_bits
                      info2 bg));
      [rewrite E2; apply Hend; assumption |].
    destruct (negb (discard_list_empty info2 bg));
      [rewrite E2; apply Hend; assumption |].
    replace (negb discard_async && discard_async) with false
      by (destruct discard_async; reflexivity).
    clear E2 Ud Rd g2 s2.
    pose proof T2 as (_ & _ & L2 & O2).
    match goal with
    | |- context [fs_store info2 bg ?g ?s] =>
      pose proof (bg_turn_store _ _ _ _ _ g s T2 L2) as T3;
      cbn [bg_ro set_bg_pinned] in T3; rewrite O2 in T3;
      set (info3 := fs_store info2 bg g s) in *
    end.
    clearbody info3.
    set (trimming := discard_sync || btrfs_is_zoned).
    match goal with
    | |- context [btrfs_remove_chunk ?i ?off] =>
      assert (T4 : bg_turn bg rest recl 1 i);
      [| pose proof (Hrc i off) as K5;
         destruct (btrfs_remove_chunk i off) as [r5 info5] ]
    end.
    { destruct trimming; [| exact T3].
      pose proof T3 as (_ & _ & L3 & O3). rewrite <- O3 at 1.
      apply (bg_turn_store_bg _ _ _ _ _
               (btrfs_freeze_block_group (fs_bg info3 bg)) T3).
      exact L3. }
    cbn [snd] in K5.
    pose proof (keeps_lists_and_ro_turn _ _ _ _ _ _ K5 T4) as T5.
    pose proof T5 as (U5 & R5 & L5 & O5).
    destruct r5 as [| e5].
    + destruct trimming; [| apply Hend; assumption].
      unfold list_del_bg_list. rewrite L5.
      apply Hend; heap; assumption.
    + destruct trimming; apply Hend; heap; assumption.
Qed.

Lemma delete_unused_bgs_total :
  hooks_keep -> chunk_maps_found btrfs_find_chunk_map ->
  forall fuel info,
    (length (fs_unused_bgs info) < fuel)%nat ->
    exists info',
      unused_pass fuel info = Some info'
      /\ fs_reclaim_bgs info' = fs_reclaim_bgs info
      /\ (length (fs_unused_bgs info') <= length (fs_unused_bgs info))%nat.
Proof.
  intros Hkeep Hmap fuel info Hfuel. unfold btrfs_delete_unused_bgs.
  destruct (negb (fs_open info)); [eauto |].
  destruct (btrfs_fs_closing info); [eauto |].
  destruct (negb (reclaim_bgs_trylock info)); [eauto |].
  destruct (delete_unused_bgs_loop_total Hkeep Hmap fuel info OK [] Hfuel)
    as (info' & E & R & L).
  exists info'. split; [exact E |]. split; [exact R |].
  simpl in L. lia.
Qed.

(** A candidate that passes the checks: what [reclaim_one_bg] does with
    it. *)
Lemma reclaim_one_accepted info bg :
  reclaim_accepts mult_perc (fs_bg info bg) (fs_si info bg) ->
  btrfs_need_cleaner_sleep info = false ->
  reclaim_one info bg
  = match inc_ro (fs_bg info bg) (fs_si info bg) false with
    | (ERR e, g, s) => Some (ERR e, fs_store info bg g s)
    | (OK, g, s) =>
      match btrfs_relocate_chunk (fs_store info bg g s)
              (bg_start (fs_bg (fs_store info bg g s) bg)) with
      | (OK, info2) => Some (OK, info2)
      | (ERR e, info2) =>
        match dec_ro (fs_bg info2 bg) (fs_si info2 bg) with
        | None => None
        | Some (g, s) => Some (ERR e, fs_store info2 bg g s)
        end
      end
    end.
Proof.
  intros (Hr & Hp & Hro & Hu & Hsr) Hcs. unfold reclaim_one_bg.
  rewrite Hr, Hp, Hro, Hsr, Hcs. simpl.
  apply Z.eqb_neq in Hu. rewrite Hu.
  destruct (inc_ro (fs_bg info bg) (fs_si info bg) false) as [[[| e] g] s];
    reflexivity.
Qed.

Lemma reclaim_one_skipped info bg :
  reclaim_skips mult_perc (fs_bg info bg) (fs_si info bg) ->
  reclaim_one info bg = Some (OK, info).
Proof.
  intros H. unfold reclaim_one_bg.
  destruct (bg_reserved (fs_bg info bg) =? 0) eqn:Er; [| reflexivity].
  destruct (bg_pinned (fs_bg info bg) =? 0) eqn:Ep; [| reflexivity].
  destruct (bg_ro (fs_bg info bg) =? 0) eqn:Eo; [| reflexivity].
  apply Z.eqb_eq in Er, Ep, Eo. simpl.
  destruct H as [H | [H | [H | [Hu Hs]]]]; try contradiction.
  apply Z.eqb_neq in Hu. rewrite Hu, Hs. reflexivity.
Qed.

(** An empty candidate is not relocated: it goes to the unused list
    instead, unless the mount option for asynchronous discard is set. *)
Lemma reclaim_one_empty info bg :
  bg_reserved (fs_bg info bg) = 0 -> bg_pinned (fs_bg info bg) = 0 ->
  bg_ro (fs_bg info bg) = 0 -> bg_used (fs_bg info bg) = 0 ->
  reclaim_one info bg
  = Some (OK,
          if negb discard_async then
            btrfs_mark_bg_unused BLOCK_GROUP_FLAG_NEW info bg
          else info).
Proof.
  intros Hr Hp Hro Hu. unfold reclaim_one_bg. rewrite Hr, Hp, Hro, Hu.
  reflexivity.
Qed.

(** Every candidate is either left alone or taken, or it is empty. *)
Lemma reclaim_skips_or_accepts g s :
  reclaim_skips mult_perc g s \/ reclaim_accepts mult_perc g s
  \/ (bg_reserved g = 0 /\ bg_pinned g = 0 /\ bg_ro g = 0 /\ bg_used g = 0).
Proof.
  unfold reclaim_skips, reclaim_accepts.
  destruct (Z.eq_dec (bg_reserved g) 0) as [Hr | Hr]; [| left; auto].
  destruct (Z.eq_dec (bg_pinned g) 0) as [Hp | Hp]; [| left; auto].
  destruct (Z.eq_dec (bg_ro g) 0) as [Hro | Hro]; [| left; auto].
  destruct (Z.eq_dec (bg_used g) 0) as [Hu | Hu];
    [right; right; repeat split; assumption |].
  destruct (should_reclaim_block_group mult_perc g s (bg_length g)).
  - right; left. repeat split; assumption.
  - left. right; right; right. split; [assumption | reflexivity].
Qed.

(** [reclaim_one_bg] returns on a candidate that has left the reclaim
    list, with the reclaim list as it was and at most that candidate more
    on the unused list. *)
Lemma reclaim_one_total info bg :
  hooks_keep ->
  bg_bg_list (fs_bg info bg) = false ->
  exists ret info',
    reclaim_one info bg = Some (ret, info')
    /\ fs_reclaim_bgs info' = fs_reclaim_bgs info
    /\ (length (fs_unused_bgs info') <= length (fs_unused_bgs info) + 1)%nat.
Proof.
  intros (_ & _ & _ & _ & Hrl) Hl.
  assert (Hsame : forall ret : retval,
             exists (ret' : retval) info',
               Some (ret, info) = Some (ret', info')
               /\ fs_reclaim_bgs info' = fs_reclaim_bgs info
               /\ (length (fs_unused_bgs info')
                   <= length (fs_unused_bgs info) + 1)%nat).
  { intros ret. exists ret, info. repeat split. lia. }
  destruct (reclaim_skips_or_accepts (fs_bg info bg) (fs_si info bg))
    as [Hs | [Ha | (Hr & Hp & Hro & Hu)]].
  - rewrite (reclaim_one_skipped _ _ Hs). apply Hsame.
  - destruct (btrfs_need_cleaner_sleep info) eqn:Hcs.
    + destruct Ha as (Hr & Hp & Hro & Hu & Hsr). unfold reclaim_one_bg.
      rewrite Hr, Hp, Hro, Hsr, Hcs. simpl.
      apply Z.eqb_neq in Hu. rewrite Hu. apply Hsame.
    + rewrite (reclaim_one_accepted _ _ Ha Hcs).
      destruct Ha as (_ & _ & Hro & _).
      destruct (inc_ro (fs_bg info bg) (fs_si info bg) false)
        as [[[| e] g] s] eqn:Hinc.
      2:{ eexists. eexists. split; [reflexivity |]. heap.
          split; [reflexivity | lia]. }
      pose proof (inc_ro_elevates _ _ _ _ _ Hro Hinc) as H1.
      pose proof (Hrl (fs_store info bg g s)
                    (bg_start (fs_bg (fs_store info bg g s) bg)))
        as (Kr & Ku & Kg).
      destruct (Kg bg) as (Ko & _).
      destruct (btrfs_relocate_chunk (fs_store info bg g s)
                  (bg_start (fs_bg (fs_store info bg g s) bg)))
        as [[| e] info2]; cbn [snd] in Kr, Ku, Ko.
      * eexists. eexists. split; [reflexivity |]. rewrite Kr, Ku. heap.
        split; [reflexivity | lia].
      * assert (H2 : bg_ro (fs_bg info2 bg) = 1).
        { rewrite Ko. unfold fs_bg, fs_store. heap. exact H1. }
        destruct (dec_ro_demotes (fs_bg info2 bg) (fs_si info2 bg) H2)
          as (g' & s' & Hdec & _).
        rewrite Hdec. eexists. eexists. split; [reflexivity |].
        heap. rewrite Kr, Ku. heap. split; [reflexivity | lia].
  - rewrite (reclaim_one_empty _ _ Hr Hp Hro Hu).
    destruct discard_async; cbn [negb]; [apply Hsame |].
    eexists. eexists. split; [reflexivity |].
    unfold btrfs_mark_bg_unused. rewrite Hl. cbn [negb].
    unfold list_add_tail_unused_bgs. heap. split; [reflexivity |].
    rewrite length_app. simpl. lia.
Qed.

(** The loop of the reclaim pass is the ordered iteration over the
    candidates on the reclaim list, and it returns. *)
Lemma reclaim_loop_in_order :
  hooks_keep -> chunk_maps_found btrfs_find_chunk_map ->
  forall unused_fuel candidates fuel info retry_list,
    fs_reclaim_bgs info = candidates ->
    (length candidates < fuel)%nat ->
    (length (fs_unused_bgs info) + length candidates < unused_fuel)%nat ->
    exists info' retry_list',
      reclaim_loop fuel unused_fuel info retry_list
      = Some (info', retry_list')
      /\ in_order unused_fuel candidates info retry_list
         = Some (set_fs_reclaim_bgs (fs_reclaim_bgs info' ++ retry_list')
                   info').
Proof.
  intros Hkeep Hmap unused_fuel.
  induction candidates as [| bg rest IH];
    intros fuel info retry_list Hc Hfuel Hunused;
    (destruct fuel as [| fuel]; [inversion Hfuel |]);
    cbn [reclaim_bgs_loop reclaim_in_order]; rewrite Hc.
  - exists info, retry_list. split; [reflexivity |]. rewrite Hc. reflexivity.
  - set (info0 := set_fs_reclaim_bgs rest
                    (fs_store_bg info bg
                       (set_bg_bg_list false (fs_bg info bg)))).
    assert (L0 : bg_bg_list (fs_bg info0 bg) = false)
      by (unfold info0; heap; reflexivity).
    destruct (reclaim_one_total info0 bg Hkeep L0)
      as (ret & info1 & E1 & R1 & U1).
    unfold reclaim_candidate. rewrite E1.
    unfold info0 in R1, U1.
    cbn [fs_reclaim_bgs fs_unused_bgs set_fs_reclaim_bgs fs_store_bg
         set_fs_block_groups] in R1, U1.
    clearbody info0.
    unfold btrfs_get_block_group, btrfs_put_block_group.
    set (step :=
           match ret with
           | OK => (info1, retry_list)
           | ERR _ =>
             (fs_store_bg
                (fs_store_bg info1 bg
                   (set_bg_refs (bg_refs (fs_bg info1 bg) + 1)
                      (fs_bg info1 bg)))
                bg
                (set_bg_bg_list true
                   (fs_bg
                      (fs_store_bg info1 bg
                         (set_bg_refs (bg_refs (fs_bg info1 bg) + 1)
                            (fs_bg info1 bg)))
                      bg)),
              retry_list ++ [bg])
           end).
    replace (if is_ok ret then (info1, retry_list)
             else
               (fs_store_bg
                  (fs_store_bg info1 bg
                     (set_bg_refs (bg_refs (fs_bg info1 bg) + 1)
                        (fs_bg info1 bg)))
                  bg
                  (set_bg_bg_list true
                     (fs_bg
                        (fs_store_bg info1 bg
                           (set_bg_refs (bg_refs (fs_bg info1 bg) + 1)
                              (fs_bg info1 bg)))
                        bg)),
                retry_list ++ [bg]))
      with step by (unfold step; destruct ret; reflexivity).
    assert (Hstep : fs_reclaim_bgs (fst step) = rest
                    /\ fs_unused_bgs (fst step) = fs_unused_bgs info1)
      by (unfold step; destruct ret; heap; split; auto).
    destruct step as [info2 retry2]. cbn [fst] in Hstep.
    destruct Hstep as (R2 & U2).
    match goal with
    | |- context [unused_pass unused_fuel ?X] =>
      destruct (delete_unused_bgs_total Hkeep Hmap unused_fuel X)
        as (info3 & E3 & R3 & U3);
      [| rewrite E3 ]
    end.
    { heap. rewrite U2. simpl in Hunused. lia. }
    revert R3 U3. heap. intros R3 U3. rewrite R2 in R3. rewrite U2 in U3.
    destruct (negb (reclaim_bgs_trylock info3)); [eauto |].
    apply IH.
    + exact R3.
    + simpl in Hfuel. lia.
    + simpl in Hunused. lia.
Qed.


End PassFacts.

(** The stand-ins of the samples are passes of the kind that the theorem
    on the reclaim pass is about. *)
Lemma sample_passes_keep_lists_and_ro :
  passes_keep_lists_and_ro sample_zone_finish sample_pass_ok
    sample_end_transaction sample_pass_ok sample_relocate_chunk.
Proof.
  assert (Hrefl : forall info, keeps_lists_and_ro info info)
    by (intros info; repeat split).
  repeat split; try apply Hrefl.
  - unfold sample_relocate_chunk. destruct (chunk_offset =? 0); reflexivity.
  - unfold sample_relocate_chunk. destruct (chunk_offset =? 0); reflexivity.
  - unfold sample_relocate_chunk.
    destruct (chunk_offset =? 0); [reflexivity |]. cbn [snd].
    unfold fs_bg, fs_store_bg. cbn [fs_block_groups set_fs_block_groups].
    unfold store_set. destruct (Nat.eqb bg _) eqn:E; [| reflexivity].
    apply Nat.eqb_eq in E. rewrite <- E. reflexivity.
  - unfold sample_relocate_chunk.
    destruct (chunk_offset =? 0); [reflexivity |]. cbn [snd].
    unfold fs_bg, fs_store_bg. cbn [fs_block_groups set_fs_block_groups].
    unfold store_set. destruct (Nat.eqb bg _) eqn:E; [| reflexivity].
    apply Nat.eqb_eq in E. rewrite <- E. reflexivity.
Defined.

Lemma sample_chunk_maps_found : chunk_maps_found sample_find_chunk_map.
Proof. intros info chunk_offset. eexists. split; reflexivity. Defined.

